(** * Activity collector: cache, fetch orchestrator and activity distributor

    A shallow embedding of the aggregation core of the activity collector
    (the TypeScript sources [utils/cache.ts], the server's fetch helpers and
    the [ActivityDistributor] class) together with the properties its
    specification states about it.

    Conventions of the embedding:
    - a JavaScript array that is mutated in place is a [list] threaded
      through the function; [activities[i].xs.push(..)] is an [alter] at
      index [i];
    - a JavaScript object used as a dictionary is a [gmap string _];
    - a [Date] is its time value, an integer number of milliseconds since
      the epoch;
    - array lengths and loop indices are [nat], timestamps are [Z];
    - the elements of an array of days are distinct objects, as the
      orchestrator builds them: an update of one day is not seen through
      another position of the array;
    - a string is the sequence of the bytes of its UTF-8 encoding; a
      UTF-16 unit that is half of no pair (which only cutting a string
      can produce) is written as the three bytes of its code point;
    - writing the cache file always succeeds, and the writes take effect
      in the order they are started. *)

From Stdlib Require Import ZArith String Ascii List Lia Sorted.
From stdpp Require Import base option list strings gmap fin_maps.

Open Scope string_scope.
Open Scope nat_scope.
Open Scope list_scope.

(** ** Data model *)

(** The payload shapes that [types/index.ts] declares. An element of
    [GitLabActivity.commits]. *)
Record Commit := mkCommit {
  message : string;
  project : string;
  branch : string }.

(** An element of [GitLabActivity.mergeRequests]: a merge request or a
    pull request. [id] is optional. *)
Record MergeRequest := mkMergeRequest {
  mr_action : string;
  mr_title : string;
  mr_project : string;
  mr_id : option Z }.

(** An element of [GitLabActivity.issues]. [id] and [details] are
    optional. *)
Record Issue := mkIssue {
  issue_action : string;
  issue_title : string;
  issue_project : string;
  issue_id : option Z;
  issue_details : option string }.

(** [CalendarEvent]; [start] and [end] are time values, [attendees] is
    optional. *)
Record CalendarEvent := mkCalendarEvent {
  ev_title : string;
  ev_start : Z;
  ev_end : Z;
  attendees : option nat }.

(** [GitLabActivity]: the payload of one code provider for one day. *)
Record GitLabActivity := mkGitLabActivity {
  ga_date : Z;
  commits : list Commit;
  mergeRequests : list MergeRequest;
  issues : list Issue }.

(** [DayActivity]: the record of one day. *)
Record DayActivity := mkDayActivity {
  date : Z;
  meetings : list CalendarEvent;
  gitlabActivity : GitLabActivity;
  description : string }.

(** In-place updates of the nested arrays of a day. *)
Definition with_commits (f : list Commit → list Commit) (day : DayActivity) : DayActivity :=
  let g := gitlabActivity day in
  mkDayActivity (date day) (meetings day)
    (mkGitLabActivity (ga_date g) (f (commits g)) (mergeRequests g) (issues g))
    (description day).

Definition with_mergeRequests (f : list MergeRequest → list MergeRequest)
    (day : DayActivity) : DayActivity :=
  let g := gitlabActivity day in
  mkDayActivity (date day) (meetings day)
    (mkGitLabActivity (ga_date g) (commits g) (f (mergeRequests g)) (issues g))
    (description day).

Definition with_issues (f : list Issue → list Issue) (day : DayActivity) : DayActivity :=
  let g := gitlabActivity day in
  mkDayActivity (date day) (meetings day)
    (mkGitLabActivity (ga_date g) (commits g) (mergeRequests g) (f (issues g)))
    (description day).

(** ** Decimal rendering of numbers in template strings *)

Definition digitChar (d : nat) : ascii := ascii_of_nat (48 + d).

Fixpoint natToString_go (fuel n : nat) (acc : string) : string :=
  match fuel with
  | O => acc
  | S fuel' =>
      let acc' := String (digitChar (n mod 10)) acc in
      if n / 10 =? 0 then acc' else natToString_go fuel' (n / 10) acc'
  end.

(** [`${n}`] for a non-negative integer [n]. *)
Definition natToString (n : nat) : string := natToString_go (S n) n "".

(** [xs.slice(from, to)] for [0 <= from <= to]. *)
Definition slice {A} (from to : nat) (xs : list A) : list A :=
  take (to - from) (drop from xs).

(** [parts.join(sep)]. *)
Fixpoint join (sep : string) (parts : list string) : string :=
  match parts with
  | [] => ""
  | [p] => p
  | p :: rest => p +:+ sep +:+ join sep rest
  end.

(** ** Dates and day keys

    The part of the JavaScript [Date] the sources use. A [Date] is its time
    value in milliseconds since the epoch (always a valid date here: the
    callers check the day format before they build one). The local time
    zone of the process is a fixed offset [tz], in minutes east of UTC. *)

Module DateModel.

Definition msPerDay : Z := 86400000.
Definition msPerMinute : Z := 60000.

(** Day number (days since the epoch) of a proleptic Gregorian date,
    [m] in 1..12. *)
Definition daysFromCivil (y m d : Z) : Z :=
  let y' := if (m <=? 2)%Z then (y - 1)%Z else y in
  let era := (y' / 400)%Z in
  let yoe := (y' - era * 400)%Z in
  let mp := if (m <=? 2)%Z then (m + 9)%Z else (m - 3)%Z in
  let doy := ((153 * mp + 2) / 5 + d - 1)%Z in
  let doe := (yoe * 365 + yoe / 4 - yoe / 100 + doy)%Z in
  (era * 146097 + doe - 719468)%Z.

(** Year, month (1..12) and day of the month of a day number. *)
Definition civilFromDays (z0 : Z) : Z * Z * Z :=
  let z := (z0 + 719468)%Z in
  let era := (z / 146097)%Z in
  let doe := (z - era * 146097)%Z in
  let yoe := ((doe - doe / 1460 + doe / 36524 - doe / 146096) / 365)%Z in
  let y := (yoe + era * 400)%Z in
  let doy := (doe - (365 * yoe + yoe / 4 - yoe / 100))%Z in
  let mp := ((5 * doy + 2) / 153)%Z in
  let d := (doy - (153 * mp + 2) / 5 + 1)%Z in
  let m := if (mp <? 10)%Z then (mp + 3)%Z else (mp - 9)%Z in
  (if (m <=? 2)%Z then (y + 1)%Z else y, m, d).

(** ECMAScript [MakeDay(year, month, date)]: [month] is 0-based and may
    lie outside 0..11, [date] may lie outside the month. *)
Definition MakeDay (year month dt : Z) : Z :=
  let ym := (year + month / 12)%Z in
  let mn := (month mod 12)%Z in
  (daysFromCivil ym (mn + 1) 1 + dt - 1)%Z.

(** [new Date(year, monthIndex, day)]: local midnight of that day; years
    0..99 stand for 1900..1999. *)
Definition newDate (tz : Z) (year monthIndex day : Z) : Z :=
  let yr := if ((0 <=? year) && (year <=? 99))%Z then (1900 + year)%Z else year in
  (MakeDay yr monthIndex day * msPerDay - tz * msPerMinute)%Z.

(** [String(n).padStart(width, '0')] for a non-negative integer. *)
Definition padStart (width : nat) (s : string) : string :=
  String.concat "" (replicate (width - String.length s) "0") +:+ s.

Definition pad2 (n : Z) : string := padStart 2 (natToString (Z.to_nat n)).

(** The year of an ISO 8601 timestamp: four digits, or a sign and six
    digits outside 0..9999. *)
Definition isoYear (y : Z) : string :=
  if ((0 <=? y) && (y <=? 9999))%Z then padStart 4 (natToString (Z.to_nat y))
  else (if (y <? 0)%Z then "-" else "+") +:+ padStart 6 (natToString (Z.abs_nat y)).

(** The ISO 8601 rendering of the day with day number [n]. *)
Definition isoDayOfNumber (n : Z) : string :=
  let '(y, m, d) := civilFromDays n in
  isoYear y +:+ "-" +:+ pad2 m +:+ "-" +:+ pad2 d.

(** [date.toISOString().split('T')[0]]: the UTC calendar day of the time
    value. *)
Definition isoDay (t : Z) : string := isoDayOfNumber (t / msPerDay).

(** [`${n}`] for an integer. *)
Definition intToString (n : Z) : string :=
  if (n <? 0)%Z then "-" +:+ natToString (Z.abs_nat n) else natToString (Z.to_nat n).

(** The day string [fetchMultipleDaysParallel] builds from the local
    getters: [`${getFullYear()}-${pad(getMonth() + 1)}-${pad(getDate())}`]. *)
Definition localDateStr (tz : Z) (t : Z) : string :=
  let '(y, m, d) := civilFromDays ((t + tz * msPerMinute) / msPerDay) in
  intToString y +:+ "-" +:+ pad2 m +:+ "-" +:+ pad2 d.

(** [s.split(sep)] for a one-character separator. *)
Fixpoint splitOn (sep : ascii) (s : string) : list string :=
  match s with
  | EmptyString => [""]
  | String c rest =>
      if Ascii.eqb c sep then "" :: splitOn sep rest
      else match splitOn sep rest with
           | [] => [String c ""]
           | p :: ps => String c p :: ps
           end
  end.

Definition digitValue (c : ascii) : option Z :=
  let n := nat_of_ascii c in
  if (48 <=? n) && (n <=? 57) then Some (Z.of_nat (n - 48)) else None.

Fixpoint Number_go (s : string) (acc : Z) : option Z :=
  match s with
  | EmptyString => Some acc
  | String c rest =>
      match digitValue c with
      | Some v => Number_go rest (acc * 10 + v)%Z
      | None => None
      end
  end.

(** [Number(s)] on a string of decimal digits (the empty string is 0).
    [None] stands for [NaN]; strings with other characters do not occur
    in day strings and are mapped to [None] as well, whatever number
    JavaScript reads them as. *)
Definition Number (s : string) : option Z := Number_go s 0.

(** [const [year, month, day] = dateStr.split('-').map(Number);
     const date = new Date(year, month - 1, day)].
    [None] is the Invalid Date, or a string outside the model. *)
Definition parseDay (tz : Z) (dateStr : string) : option Z :=
  match Number <$> splitOn "-" dateStr with
  | Some year :: Some month :: Some day :: _ => Some (newDate tz year (month - 1) day)
  | _ => None
  end.

Arguments parseDay : simpl never.
Arguments localDateStr : simpl never.

End DateModel.

(** ** The activity cache ([utils/cache.ts]) *)

Module Cache.

Import DateModel.

Definition DEFAULT_CACHE_TTL : Z := 3600000.

Record CacheEntry (T : Type) := mkEntry {
  data : T;
  timestamp : Z;
  source : string }.
Arguments mkEntry {T} _ _ _.
Arguments data {T} _.
Arguments timestamp {T} _.
Arguments source {T} _.

Record CacheData := mkCacheData {
  gitlab : gmap string (CacheEntry GitLabActivity);
  googleCalendar : gmap string (CacheEntry (list CalendarEvent));
  outlookCalendar : gmap string (CacheEntry (list CalendarEvent)) }.

Record CacheStats := mkStats {
  gitlabHits : nat;
  gitlabMisses : nat;
  googleHits : nat;
  googleMisses : nat;
  outlookHits : nat;
  outlookMisses : nat }.

(** The object state of [ActivityCache], together with the contents of
    the cache file as last written by [save] ([None]: no file yet). The
    JSON encoding of the file is not modelled: the file holds the
    [CacheData] that was saved. *)
Record ActivityCache := mkCache {
  cache : CacheData;
  cacheTTL : Z;
  cacheStats : CacheStats;
  cacheFile : option CacheData }.

Definition emptyData : CacheData := mkCacheData ∅ ∅ ∅.
Definition zeroStats : CacheStats := mkStats 0 0 0 0 0 0.

(** A freshly constructed [ActivityCache]. *)
Definition newCache : ActivityCache := mkCache emptyData DEFAULT_CACHE_TTL zeroStats None.

Definition with_cache (f : CacheData → CacheData) (c : ActivityCache) : ActivityCache :=
  mkCache (f (cache c)) (cacheTTL c) (cacheStats c) (cacheFile c).
Definition with_stats (f : CacheStats → CacheStats) (c : ActivityCache) : ActivityCache :=
  mkCache (cache c) (cacheTTL c) (f (cacheStats c)) (cacheFile c).

Definition with_gitlab
    (f : gmap string (CacheEntry GitLabActivity) → gmap string (CacheEntry GitLabActivity))
    (d : CacheData) : CacheData :=
  mkCacheData (f (gitlab d)) (googleCalendar d) (outlookCalendar d).
Definition with_google
    (f : gmap string (CacheEntry (list CalendarEvent))
         → gmap string (CacheEntry (list CalendarEvent)))
    (d : CacheData) : CacheData :=
  mkCacheData (gitlab d) (f (googleCalendar d)) (outlookCalendar d).
Definition with_outlook
    (f : gmap string (CacheEntry (list CalendarEvent))
         → gmap string (CacheEntry (list CalendarEvent)))
    (d : CacheData) : CacheData :=
  mkCacheData (gitlab d) (googleCalendar d) (f (outlookCalendar d)).

Definition load (c : ActivityCache) : ActivityCache :=
  match cacheFile c with
  | Some d => with_cache (λ _, d) c
  | None => with_cache (λ _, emptyData) c
  end.

Definition save (c : ActivityCache) : ActivityCache :=
  mkCache (cache c) (cacheTTL c) (cacheStats c) (Some (cache c)).

Definition getDateKey (date : Z) : string := isoDay date.
Arguments getDateKey : simpl never.

(** [isExpired(timestamp)], with [now] the value of [Date.now()]. *)
Definition isExpired (now : Z) (c : ActivityCache) (timestamp : Z) : bool :=
  (cacheTTL c <? now - timestamp)%Z.

Definition getGitLabActivity (now : Z) (date : Z) (c : ActivityCache)
    : option GitLabActivity * ActivityCache :=
  let key := getDateKey date in
  match gitlab (cache c) !! key with
  | None =>
      (None, with_stats (λ s, mkStats (gitlabHits s) (S (gitlabMisses s)) (googleHits s)
                                (googleMisses s) (outlookHits s) (outlookMisses s)) c)
  | Some entry =>
      if isExpired now c (timestamp entry) then
        (None,
         with_stats (λ s, mkStats (gitlabHits s) (S (gitlabMisses s)) (googleHits s)
                            (googleMisses s) (outlookHits s) (outlookMisses s))
           (with_cache (with_gitlab (delete key)) c))
      else
        (Some (data entry),
         with_stats (λ s, mkStats (S (gitlabHits s)) (gitlabMisses s) (googleHits s)
                            (googleMisses s) (outlookHits s) (outlookMisses s)) c)
  end.

Definition setGitLabActivity (now : Z) (date : Z) (activity : GitLabActivity)
    (c : ActivityCache) : ActivityCache :=
  let key := getDateKey date in
  save (with_cache (with_gitlab (insert key (mkEntry activity now "gitlab"))) c).

Definition getGoogleCalendarEvents (now : Z) (date : Z) (c : ActivityCache)
    : option (list CalendarEvent) * ActivityCache :=
  let key := getDateKey date in
  match googleCalendar (cache c) !! key with
  | None =>
      (None, with_stats (λ s, mkStats (gitlabHits s) (gitlabMisses s) (googleHits s)
                                (S (googleMisses s)) (outlookHits s) (outlookMisses s)) c)
  | Some entry =>
      if isExpired now c (timestamp entry) then
        (None,
         with_stats (λ s, mkStats (gitlabHits s) (gitlabMisses s) (googleHits s)
                            (S (googleMisses s)) (outlookHits s) (outlookMisses s))
           (with_cache (with_google (delete key)) c))
      else
        (Some (data entry),
         with_stats (λ s, mkStats (gitlabHits s) (gitlabMisses s) (S (googleHits s))
                            (googleMisses s) (outlookHits s) (outlookMisses s)) c)
  end.

Definition setGoogleCalendarEvents (now : Z) (date : Z) (events : list CalendarEvent)
    (c : ActivityCache) : ActivityCache :=
  let key := getDateKey date in
  save (with_cache (with_google (insert key (mkEntry events now "google_calendar"))) c).

Definition getOutlookCalendarEvents (now : Z) (date : Z) (c : ActivityCache)
    : option (list CalendarEvent) * ActivityCache :=
  let key := getDateKey date in
  match outlookCalendar (cache c) !! key with
  | None =>
      (None, with_stats (λ s, mkStats (gitlabHits s) (gitlabMisses s) (googleHits s)
                                (googleMisses s) (outlookHits s) (S (outlookMisses s))) c)
  | Some entry =>
      if isExpired now c (timestamp entry) then
        (None,
         with_stats (λ s, mkStats (gitlabHits s) (gitlabMisses s) (googleHits s)
                            (googleMisses s) (outlookHits s) (S (outlookMisses s)))
           (with_cache (with_outlook (delete key)) c))
      else
        (Some (data entry),
         with_stats (λ s, mkStats (gitlabHits s) (gitlabMisses s) (googleHits s)
                            (googleMisses s) (S (outlookHits s)) (outlookMisses s)) c)
  end.

Definition setOutlookCalendarEvents (now : Z) (date : Z) (events : list CalendarEvent)
    (c : ActivityCache) : ActivityCache :=
  let key := getDateKey date in
  save (with_cache (with_outlook (insert key (mkEntry events now "outlook_calendar"))) c).

Definition resetStats (c : ActivityCache) : ActivityCache :=
  with_stats (λ _, zeroStats) c.

Definition clearAll (c : ActivityCache) : ActivityCache :=
  resetStats (save (with_cache (λ _, emptyData) c)).

Definition clearGitLab (c : ActivityCache) : ActivityCache :=
  save (with_cache (with_gitlab (λ _, ∅)) c).

Definition clearCalendars (c : ActivityCache) : ActivityCache :=
  save (with_cache (with_outlook (λ _, ∅)) (with_cache (with_google (λ _, ∅)) c)).

(** [for (const [key, entry] of Object.entries(m)) if (now - entry.timestamp
    > ttl) delete m[key]]: the entries are listed once, then the expired
    ones are deleted one at a time. *)
Definition sweepStep {T} (now ttl : Z) (acc : gmap string (CacheEntry T))
    (kv : string * CacheEntry T) : gmap string (CacheEntry T) :=
  if (ttl <? now - timestamp kv.2)%Z then delete kv.1 acc else acc.

Definition sweep {T} (now ttl : Z) (m : gmap string (CacheEntry T))
    : gmap string (CacheEntry T) :=
  foldl (sweepStep now ttl) m (map_to_list m).

Definition clearExpired (now : Z) (c : ActivityCache) : ActivityCache :=
  let ttl := cacheTTL c in
  save (with_cache (with_outlook (sweep now ttl))
         (with_cache (with_google (sweep now ttl))
            (with_cache (with_gitlab (sweep now ttl)) c))).

(** The numeric part of [getCacheStats()]. The [hitRate] string is a
    rounded floating-point percentage and is left out. *)
Record StatsReport := mkReport {
  counters : CacheStats;
  totalHits : nat;
  totalRequests : nat }.

Definition getCacheStats (c : ActivityCache) : StatsReport :=
  let s := cacheStats c in
  let total := gitlabHits s + gitlabMisses s + googleHits s + googleMisses s
               + outlookHits s + outlookMisses s in
  let hits := gitlabHits s + googleHits s + outlookHits s in
  mkReport s hits total.

Definition setCacheTTL (ttl : Z) (c : ActivityCache) : ActivityCache :=
  mkCache (cache c) ttl (cacheStats c) (cacheFile c).

(** *** Sample values *)

Definition sampleDay : Z := newDate 0 2025 10 27.
Definition samplePayload : GitLabActivity :=
  mkGitLabActivity sampleDay [mkCommit "fix" "core" "main"] [] [].
Definition sampleCache : ActivityCache :=
  setGitLabActivity 1000 sampleDay samplePayload newCache.

End Cache.

(** ** The fetch orchestrator (the server's fetch helpers)

    An [async] function runs synchronously up to its first [await] when it
    is called, and the rest of its body runs later. A call is therefore a
    pair: the state change of the synchronous prefix, and a promise that
    is the rest of the body, a state transformer that yields the settled
    outcome. Every [await] of a helper that comes after the first one
    follows a provider call; the model runs the pending bodies to
    completion one after the other, in the order of the array passed to
    [Promise.allSettled] or [Promise.all] (the provider calls answer in
    call order). The records a run returns do not depend on that order
    when the days have distinct cache keys: a pending body only reads the
    cache under its own day's key. [sendProgress] only logs and never
    throws; it is left out. [Date.now()] is [now] throughout a run. *)

Module Orchestrator.

Import DateModel Cache.

Inductive Kind := GitLabKind | GoogleKind | OutlookKind.
Inductive Source := GitLab | GitHub | GoogleCalendar | OutlookCalendar.

(** The observable operations of a run, in the order they happen: the
    lookups and stores of the cache, the calls of an adapter for a day
    and, in the tool handlers, the [initialize] of an adapter, which asks
    the provider for the current user. *)
Inductive Op :=
| CacheGet (kind : Kind) (key : string)
| CacheSet (kind : Kind) (key : string)
| Fetch (src : Source) (dateStr : string)
| Initialize (src : Source).

Record World := mkWorld {
  activityCache : ActivityCache;
  trace : list Op }.

Inductive Error := ProviderError | InvalidDate | TypeError.

Inductive Settled (A : Type) :=
| Fulfilled (value : A)
| RejectedWith (reason : Error).
Arguments Fulfilled {A} _.
Arguments RejectedWith {A} _.

Definition Promise (A : Type) : Type := World → World * Settled A.
Definition Async (A : Type) : Type := World → World * Promise A.

Definition resolved {A} (a : A) : Promise A := λ w, (w, Fulfilled a).
Definition rejected {A} (e : Error) : Promise A := λ w, (w, RejectedWith e).

(** [await f(..)] in the middle of a pending body. *)
Definition awaitCall {A} (a : Async A) : Promise A :=
  λ w, let '(w1, p) := a w in p w1.

(** The provider adapters: the answer of each for a day string, [None]
    when the call rejects. *)
Record Providers := mkProviders {
  gitlab_getActivityForDate : string → option GitLabActivity;
  github_getActivityForDate : string → option GitLabActivity;
  googleCalendar_getEventsForDate : string → option (list CalendarEvent);
  outlookCalendar_getEventsForDate : string → option (list CalendarEvent) }.

Record GitFetch := mkGitFetch {
  gf_activity : GitLabActivity;
  gf_fromCache : bool }.

Record CalFetch := mkCalFetch {
  cf_meetings : list CalendarEvent;
  cf_fromCache : bool }.

Record CacheInfo := mkCacheInfo {
  ci_gitlab : bool;
  ci_github : bool;
  ci_calendar : bool }.

Record DayResult := mkDayResult {
  activity : DayActivity;
  cacheInfo : CacheInfo }.

Definition logOp (op : Op) (w : World) : World :=
  mkWorld (activityCache w) (trace w ++ [op]).

Section Run.

Variable tz : Z.
Variable now : Z.
Variable P : Providers.

Definition cacheGetGitLab (date : Z) (w : World) : option GitLabActivity * World :=
  let '(r, c) := getGitLabActivity now date (activityCache w) in
  (r, mkWorld c (trace w ++ [CacheGet GitLabKind (getDateKey date)])).

Definition cacheSetGitLab (date : Z) (a : GitLabActivity) (w : World) : World :=
  mkWorld (setGitLabActivity now date a (activityCache w))
          (trace w ++ [CacheSet GitLabKind (getDateKey date)]).

Definition cacheGetGoogle (date : Z) (w : World) : option (list CalendarEvent) * World :=
  let '(r, c) := getGoogleCalendarEvents now date (activityCache w) in
  (r, mkWorld c (trace w ++ [CacheGet GoogleKind (getDateKey date)])).

Definition cacheSetGoogle (date : Z) (evs : list CalendarEvent) (w : World) : World :=
  mkWorld (setGoogleCalendarEvents now date evs (activityCache w))
          (trace w ++ [CacheSet GoogleKind (getDateKey date)]).

Definition cacheGetOutlook (date : Z) (w : World) : option (list CalendarEvent) * World :=
  let '(r, c) := getOutlookCalendarEvents now date (activityCache w) in
  (r, mkWorld c (trace w ++ [CacheGet OutlookKind (getDateKey date)])).

Definition cacheSetOutlook (date : Z) (evs : list CalendarEvent) (w : World) : World :=
  mkWorld (setOutlookCalendarEvents now date evs (activityCache w))
          (trace w ++ [CacheSet OutlookKind (getDateKey date)]).

Definition mergeGitActivities (gitlabActivity githubActivity : GitLabActivity)
    : GitLabActivity :=
  mkGitLabActivity (ga_date gitlabActivity)
    (commits gitlabActivity ++ commits githubActivity)
    (mergeRequests gitlabActivity ++ mergeRequests githubActivity)
    (issues gitlabActivity ++ issues githubActivity).

(** The rest of [fetchGitLabActivityWithCache] after a cache miss: the
    adapter is called, its answer is cached and returned; a rejection of
    the adapter rejects the call. *)
Definition fetchGitLabFresh (date : Z) (dateStr : string) : Promise GitFetch := λ v,
  let v1 := logOp (Fetch GitLab dateStr) v in
  match gitlab_getActivityForDate P dateStr with
  | None => (v1, RejectedWith ProviderError)
  | Some a => (cacheSetGitLab date a v1, Fulfilled (mkGitFetch a false))
  end.

(** [fetchGitLabActivityWithCache], for the day strings that [parseDay]
    reads, which are those its callers pass. For any other string the
    code goes on with an Invalid Date, on which [getDateKey] throws: at
    the lookup, or, when a refresh is forced, only after the adapter has
    been called. The model has no such date, and its call rejects at
    once: [InvalidDate] marks a call outside the model, and no property
    below is about one. *)
Definition fetchGitLabActivityWithCache (dateStr : string) (forceRefresh : bool)
    : Async GitFetch := λ w,
  match parseDay tz dateStr with
  | None => (w, rejected InvalidDate)
  | Some date =>
      let '(cached, w1) :=
        if forceRefresh then (None, w) else cacheGetGitLab date w in
      match cached with
      | Some a => (w1, resolved (mkGitFetch a true))
      | None => (w1, fetchGitLabFresh date dateStr)
      end
  end.

Definition fetchGitHubFresh (date : Z) (dateStr : string) : Promise GitFetch := λ v,
  let v1 := logOp (Fetch GitHub dateStr) v in
  match github_getActivityForDate P dateStr with
  | None => (v1, RejectedWith ProviderError)
  | Some a => (cacheSetGitLab date a v1, Fulfilled (mkGitFetch a false))
  end.

(** [fetchGitHubActivityWithCache]: the same, on the GitHub adapter; it
    reads and writes the GitLab namespace of the cache. A day string that
    [parseDay] does not read is outside the model, as above. *)
Definition fetchGitHubActivityWithCache (dateStr : string) (forceRefresh : bool)
    : Async GitFetch := λ w,
  match parseDay tz dateStr with
  | None => (w, rejected InvalidDate)
  | Some date =>
      let '(cached, w1) :=
        if forceRefresh then (None, w) else cacheGetGitLab date w in
      match cached with
      | Some a => (w1, resolved (mkGitFetch a true))
      | None => (w1, fetchGitHubFresh date dateStr)
      end
  end.

(** The [try { .. } catch { .. }] of the second block: a rejection of
    the adapter is caught and leaves [meetings] as it was. *)
Definition fetchOutlookFresh (date : Z) (dateStr : string)
    (meetings : list CalendarEvent) : Promise CalFetch := λ v,
  let v1 := logOp (Fetch OutlookCalendar dateStr) v in
  match outlookCalendar_getEventsForDate P dateStr with
  | None => (v1, Fulfilled (mkCalFetch meetings false))
  | Some evs => (cacheSetOutlook date evs v1, Fulfilled (mkCalFetch evs false))
  end.

(** The second block of [fetchCalendarEventsWithCache],
    [if (meetings.length === 0 && outlookAuthenticated) { .. }] and the
    final [return { meetings, fromCache }], entered with the [meetings] of
    the first block. *)
Definition outlookBlock (date : Z) (dateStr : string)
    (outlookAuthenticated forceRefresh : bool) (meetings : list CalendarEvent)
    : Async CalFetch := λ w,
  if (length meetings =? 0) && outlookAuthenticated then
    let '(cached, w1) :=
      if forceRefresh then (None, w) else cacheGetOutlook date w in
    match cached with
    | Some evs => (w1, resolved (mkCalFetch evs true))
    | None => (w1, fetchOutlookFresh date dateStr meetings)
    end
  else (w, resolved (mkCalFetch meetings false)).

(** The [try { .. } catch { .. }] of the first block, followed by the
    second block: a rejection of the adapter is caught and leaves
    [meetings] empty. *)
Definition fetchGoogleFresh (date : Z) (dateStr : string)
    (outlookAuthenticated forceRefresh : bool) : Promise CalFetch := λ v,
  let v1 := logOp (Fetch GoogleCalendar dateStr) v in
  let '(meetings, v2) :=
    match googleCalendar_getEventsForDate P dateStr with
    | None => ([], v1)
    | Some evs => (evs, cacheSetGoogle date evs v1)
    end in
  awaitCall (outlookBlock date dateStr outlookAuthenticated forceRefresh meetings) v2.

(** [fetchCalendarEventsWithCache]: the primary calendar first, from the
    cache or from its adapter, then the second block. A day string that
    [parseDay] does not read is outside the model, as above (there the
    code, when a refresh is forced, calls the adapters and fulfils, the
    failures of [getDateKey] being caught). *)
Definition fetchCalendarEventsWithCache (dateStr : string)
    (googleAuthenticated outlookAuthenticated forceRefresh : bool)
    : Async CalFetch := λ w,
  match parseDay tz dateStr with
  | None => (w, rejected InvalidDate)
  | Some date =>
      if googleAuthenticated then
        let '(cached, w1) :=
          if forceRefresh then (None, w) else cacheGetGoogle date w in
        match cached with
        | Some evs => (w1, resolved (mkCalFetch evs true))
        | None => (w1, fetchGoogleFresh date dateStr outlookAuthenticated forceRefresh)
        end
      else outlookBlock date dateStr outlookAuthenticated forceRefresh [] w
  end.

Definition emptyPayload (date : Z) : GitLabActivity := mkGitLabActivity date [] [] [].

(** The part of [fetchDayActivityParallel] after
    [await Promise.allSettled([..])]. *)
Definition assembleDay (date : Z)
    (gitlabResult githubResult : Settled (option GitFetch))
    (calendarResult : Settled CalFetch) : DayResult :=
  let '(gitlabActivity, gitlabCached) :=
    match gitlabResult with
    | Fulfilled (Some v) => (gf_activity v, gf_fromCache v)
    | _ => (emptyPayload date, false)
    end in
  let '(githubActivity, githubCached) :=
    match githubResult with
    | Fulfilled (Some v) => (gf_activity v, gf_fromCache v)
    | _ => (emptyPayload date, false)
    end in
  let '(meetings, calendarCached) :=
    match calendarResult with
    | Fulfilled v => (cf_meetings v, cf_fromCache v)
    | RejectedWith _ => ([], false)
    end in
  mkDayResult
    (mkDayActivity date meetings (mergeGitActivities gitlabActivity githubActivity) "")
    (mkCacheInfo gitlabCached githubCached calendarCached).

(** The outcome of a code provider's call as an element of the array
    given to [Promise.allSettled], whose other form is [null]. *)
Definition optionOutcome (r : Settled GitFetch) : Settled (option GitFetch) :=
  match r with
  | Fulfilled x => Fulfilled (Some x)
  | RejectedWith e => RejectedWith e
  end.

Definition liftOption (p : Promise GitFetch) : Promise (option GitFetch) :=
  λ v, let '(v1, r) := p v in (v1, optionOutcome r).

(** [cond ? f(..) : Promise.resolve(null)]. *)
Definition optionalFetch (enabled : bool) (a : Async GitFetch) : Async (option GitFetch) :=
  λ w,
  if enabled then let '(w1, p) := a w in (w1, liftOption p)
  else (w, resolved None).

(** [fetchDayActivityParallel]: the three calls are made in array order,
    then the body waits for all of them to settle and assembles the day.
    Its one caller passes [toLocalDateString] of a date, which [parseDay]
    reads. For a string that it does not read the code fulfils with a
    record whose [date] is an Invalid Date; a date of the model is a
    number, so that call is outside the model, where it rejects. The
    cache writes of the tasks of one run take effect one after the other,
    in the order of the model's pending bodies. *)
Definition fetchDayActivityParallel (dateStr : string)
    (gitlabAuthenticated githubAuthenticated googleAuthenticated
       outlookAuthenticated forceRefresh : bool) : Async DayResult := λ w,
  match parseDay tz dateStr with
  | None => (w, rejected InvalidDate)
  | Some date =>
      let '(w1, gitlabPromise) :=
        optionalFetch gitlabAuthenticated
          (fetchGitLabActivityWithCache dateStr forceRefresh) w in
      let '(w2, githubPromise) :=
        optionalFetch githubAuthenticated
          (fetchGitHubActivityWithCache dateStr forceRefresh) w1 in
      let '(w3, calendarPromise) :=
        fetchCalendarEventsWithCache dateStr googleAuthenticated outlookAuthenticated
          forceRefresh w2 in
      (w3, λ v,
         let '(v1, gitlabResult) := gitlabPromise v in
         let '(v2, githubResult) := githubPromise v1 in
         let '(v3, calendarResult) := calendarPromise v2 in
         (v3, Fulfilled (assembleDay date gitlabResult githubResult calendarResult)))
  end.

(** [xs.map(x => f(x))] over calls of an async function: the synchronous
    prefixes run in array order. *)
Fixpoint startAll {A} (calls : list (Async A)) (w : World) : World * list (Promise A) :=
  match calls with
  | [] => (w, [])
  | a :: rest =>
      let '(w1, p) := a w in
      let '(w2, ps) := startAll rest w1 in
      (w2, p :: ps)
  end.

Fixpoint settleAll {A} (ps : list (Promise A)) (w : World) : World * list (Settled A) :=
  match ps with
  | [] => (w, [])
  | p :: rest =>
      let '(w1, r) := p w in
      let '(w2, rs) := settleAll rest w1 in
      (w2, r :: rs)
  end.

(** The outcome of [Promise.all]: all the values, or a rejection. *)
Fixpoint allFulfilled {A} (rs : list (Settled A)) : Settled (list A) :=
  match rs with
  | [] => Fulfilled []
  | RejectedWith e :: _ => RejectedWith e
  | Fulfilled a :: rest =>
      match allFulfilled rest with
      | Fulfilled xs => Fulfilled (a :: xs)
      | RejectedWith e => RejectedWith e
      end
  end.

Definition Promise_all {A} (ps : list (Promise A)) : Promise (list A) :=
  λ w, let '(w1, rs) := settleAll ps w in (w1, allFulfilled rs).

(** [fetchMultipleDaysParallel]. With no day at all, [dates[0]] is
    [undefined] and building the progress message throws. *)
Definition fetchMultipleDaysParallel (dates : list Z)
    (gitlabAuthenticated githubAuthenticated googleAuthenticated
       outlookAuthenticated forceRefresh : bool) : Async (list DayResult) := λ w,
  match dates with
  | [] => (w, rejected TypeError)
  | _ :: _ =>
      (w, λ v,
         let '(v1, promises) :=
           startAll
             ((λ date,
                 fetchDayActivityParallel (localDateStr tz date)
                   gitlabAuthenticated githubAuthenticated googleAuthenticated
                   outlookAuthenticated forceRefresh) <$> dates) v in
         Promise_all promises v1)
  end.

End Run.

(** The caller's [await f(..)] from an idle state. *)
Definition run {A} (a : Async A) (w : World) : World * Settled A := awaitCall a w.

Definition newWorld : World := mkWorld newCache [].

End Orchestrator.

(** ** Vocabulary of the orchestrator's properties *)

Module OrchestratorSpec.

Import DateModel Cache Orchestrator.

(** The cache key a day string is looked up and stored under. *)
Definition dayKey (tz : Z) (dateStr : string) : option string :=
  getDateKey <$> parseDay tz dateStr.

(** The providers [P], except that the call of [src] for the day [d]
    rejects. *)
Definition failAt (src : Source) (d : string) (P : Providers) : Providers :=
  match src with
  | GitLab =>
      mkProviders (λ s, if decide (s = d) then None else gitlab_getActivityForDate P s)
        (github_getActivityForDate P) (googleCalendar_getEventsForDate P)
        (outlookCalendar_getEventsForDate P)
  | GitHub =>
      mkProviders (gitlab_getActivityForDate P)
        (λ s, if decide (s = d) then None else github_getActivityForDate P s)
        (googleCalendar_getEventsForDate P) (outlookCalendar_getEventsForDate P)
  | GoogleCalendar =>
      mkProviders (gitlab_getActivityForDate P) (github_getActivityForDate P)
        (λ s, if decide (s = d) then None else googleCalendar_getEventsForDate P s)
        (outlookCalendar_getEventsForDate P)
  | OutlookCalendar =>
      mkProviders (gitlab_getActivityForDate P) (github_getActivityForDate P)
        (googleCalendar_getEventsForDate P)
        (λ s, if decide (s = d) then None else outlookCalendar_getEventsForDate P s)
  end.

(** The empty payload a code provider would answer for a day string. *)
Definition emptyAnswer (tz : Z) (s : string) : GitLabActivity :=
  emptyPayload (default 0%Z (parseDay tz s)).

(** The providers [P], except that [src] answers the day [d] with an
    empty payload. *)
Definition emptyAt (tz : Z) (src : Source) (d : string) (P : Providers) : Providers :=
  match src with
  | GitLab =>
      mkProviders
        (λ s, if decide (s = d) then Some (emptyAnswer tz s)
              else gitlab_getActivityForDate P s)
        (github_getActivityForDate P) (googleCalendar_getEventsForDate P)
        (outlookCalendar_getEventsForDate P)
  | GitHub =>
      mkProviders (gitlab_getActivityForDate P)
        (λ s, if decide (s = d) then Some (emptyAnswer tz s)
              else github_getActivityForDate P s)
        (googleCalendar_getEventsForDate P) (outlookCalendar_getEventsForDate P)
  | GoogleCalendar =>
      mkProviders (gitlab_getActivityForDate P) (github_getActivityForDate P)
        (λ s, if decide (s = d) then Some [] else googleCalendar_getEventsForDate P s)
        (outlookCalendar_getEventsForDate P)
  | OutlookCalendar =>
      mkProviders (gitlab_getActivityForDate P) (github_getActivityForDate P)
        (googleCalendar_getEventsForDate P)
        (λ s, if decide (s = d) then Some [] else outlookCalendar_getEventsForDate P s)
  end.

(** Two answers of an adapter for the same day: the same answer, or a
    rejection against the empty answer. *)
Definition sameOrEmpty {A} (empty : A) (a a' : option A) : Prop :=
  a = a' ∨ (a = None ∧ a' = Some empty).

Definition answersRelated (tz : Z) (s : string) (Q Q' : Providers) : Prop :=
  sameOrEmpty (emptyAnswer tz s)
    (gitlab_getActivityForDate Q s) (gitlab_getActivityForDate Q' s)
  ∧ sameOrEmpty (emptyAnswer tz s)
      (github_getActivityForDate Q s) (github_getActivityForDate Q' s)
  ∧ sameOrEmpty []
      (googleCalendar_getEventsForDate Q s) (googleCalendar_getEventsForDate Q' s)
  ∧ sameOrEmpty []
      (outlookCalendar_getEventsForDate Q s) (outlookCalendar_getEventsForDate Q' s).

(** What [assembleDay] takes from the settled outcome of a code
    provider. *)
Definition gitPart (date : Z) (r : Settled (option GitFetch)) : GitLabActivity * bool :=
  match r with
  | Fulfilled (Some v) => (gf_activity v, gf_fromCache v)
  | _ => (emptyPayload date, false)
  end.

(** The settled outcome of a code provider's task when the adapter is
    called and gives the answer [ans]. *)
Definition gitOutcome (ans : option GitLabActivity) : Settled (option GitFetch) :=
  optionOutcome
    (match ans with
     | Some a => Fulfilled (mkGitFetch a false)
     | None => RejectedWith ProviderError
     end).

(** Two outcomes of a code provider's task give the same part of the
    day's record. *)
Definition gitSame (date : Z) (r r' : Settled (option GitFetch)) : Prop :=
  gitPart date r = gitPart date r'.

(** The part that [r'] gives is the part that [r] gives, or it is the
    empty payload. *)
Definition gitSameOrEmpty (date : Z) (r r' : Settled (option GitFetch)) : Prop :=
  gitPart date r' = gitPart date r ∨ gitPart date r' = (emptyPayload date, false).

(** Two settled records of a day are assembled from task outcomes that
    are related by [E1] (GitLab), [E2] (GitHub) and [E3] (calendar). *)
Definition dayParts (date : Z)
    (E1 E2 : Settled (option GitFetch) → Settled (option GitFetch) → Prop)
    (E3 : Settled CalFetch → Settled CalFetch → Prop)
    (r r' : Settled DayResult) : Prop :=
  ∃ r1 r1' r2 r2' r3 r3',
    E1 r1 r1' ∧ E2 r2 r2' ∧ E3 r3 r3'
    ∧ r = Fulfilled (assembleDay date r1 r2 r3)
    ∧ r' = Fulfilled (assembleDay date r1' r2' r3').

(** The calendar outcome with the rejection ([r']) against the one
    without ([r]), when the secondary calendar rejects: the same (its
    adapter was not called), or no event. *)
Definition calSameOrEmpty (r r' : Settled CalFetch) : Prop :=
  r' = r ∨ r' = Fulfilled (mkCalFetch [] false).

(** The same when the primary calendar rejects: the same (its adapter was
    not called), or what the secondary calendar contributes. *)
Definition calSameOrSecondary (secondary : CalFetch) (r r' : Settled CalFetch) : Prop :=
  r' = r ∨ r' = Fulfilled secondary.

(** How the record of the day [d] may differ between the run without
    the rejection ([r]) and the run with it ([r']). The parts of the
    code providers that do not reject are the same. The part of a code
    provider that rejects is the same (it was not called) or empty, and
    the calendar part is then the same. When the secondary calendar
    rejects the calendar part is the same or empty; when the primary
    calendar rejects it is the same or [secondary], the part of the
    secondary calendar. *)
Definition onlyPartOf (src : Source) (secondary : CalFetch) (date : Z)
    (r r' : Settled DayResult) : Prop :=
  match src with
  | GitLab => dayParts date (gitSameOrEmpty date) (gitSame date) eq r r'
  | GitHub => dayParts date (gitSame date) (gitSameOrEmpty date) eq r r'
  | GoogleCalendar =>
      dayParts date (gitSame date) (gitSame date) (calSameOrSecondary secondary) r r'
  | OutlookCalendar => dayParts date (gitSame date) (gitSame date) calSameOrEmpty r r'
  end.

(** Two worlds hold the same TTL and the same entries under the key [k]. *)
Definition agreeS (k : string) (w w' : World) : Prop :=
  cacheTTL (activityCache w) = cacheTTL (activityCache w')
  ∧ gitlab (cache (activityCache w)) !! k = gitlab (cache (activityCache w')) !! k
  ∧ googleCalendar (cache (activityCache w)) !! k
    = googleCalendar (cache (activityCache w')) !! k
  ∧ outlookCalendar (cache (activityCache w)) !! k
    = outlookCalendar (cache (activityCache w')) !! k.

(** Two worlds hold the same TTL and the same Outlook entry under [k]:
    all that a pending body still reads. *)
Definition agreeW (k : string) (w w' : World) : Prop :=
  cacheTTL (activityCache w) = cacheTTL (activityCache w')
  ∧ outlookCalendar (cache (activityCache w)) !! k
    = outlookCalendar (cache (activityCache w')) !! k.

Definition PromiseSim {A} (k : string) (E : Settled A → Settled A → Prop)
    (p p' : Promise A) : Prop :=
  ∀ v v', agreeW k v v' → agreeW k (p v).1 (p' v').1 ∧ E (p v).2 (p' v').2.

Definition AsyncSim {A} (k : string) (E : Settled A → Settled A → Prop)
    (a a' : Async A) : Prop :=
  ∀ w w', agreeS k w w' →
    agreeS k (a w).1 (a' w').1 ∧ PromiseSim k E (a w).2 (a' w').2.

(** The same, when only the outcomes matter. *)
Definition PromiseSimR {A} (k : string) (E : Settled A → Settled A → Prop)
    (p p' : Promise A) : Prop :=
  ∀ v v', agreeW k v v' → E (p v).2 (p' v').2.

Definition AsyncSimR {A} (k : string) (E : Settled A → Settled A → Prop)
    (a a' : Async A) : Prop :=
  ∀ w w', agreeS k w w' →
    agreeS k (a w).1 (a' w').1 ∧ PromiseSimR k E (a w).2 (a' w').2.

Definition PromiseFrame {A} (k : string) (p : Promise A) : Prop :=
  ∀ v, agreeW k v (p v).1.

Definition AsyncFrame {A} (k : string) (a : Async A) : Prop :=
  ∀ w, agreeS k w (a w).1 ∧ PromiseFrame k (a w).2.

Definition isDigit (c : ascii) : bool :=
  match digitValue c with Some _ => true | None => false end.

Fixpoint allDigits (s : string) : bool :=
  match s with
  | EmptyString => true
  | String c rest => isDigit c && allDigits rest
  end.

(** Every settled outcome of the list is a value. *)
Definition allValues {A} (rs : list (Settled A)) : Prop :=
  Forall (λ r, ∃ x, r = Fulfilled x) rs.

(** A call that cannot reject, whenever it is started and resumed. *)
Definition alwaysFulfils {A} (a : Async A) : Prop :=
  ∀ w v, ∃ x, ((a w).2 v).2 = Fulfilled x.

(** The settled outcome of [await fetchMultipleDaysParallel(..)]. *)
Definition records (tz now : Z) (Q : Providers) (dates : list Z)
    (gl gh go ol forceRefresh : bool) (w : World) : Settled (list DayResult) :=
  (run (fetchMultipleDaysParallel tz now Q dates gl gh go ol forceRefresh) w).2.

(** The settled outcome of one day fetched on its own. *)
Definition recordAlone (tz now : Z) (Q : Providers) (s : string)
    (gl gh go ol forceRefresh : bool) (w : World) : Settled DayResult :=
  (run (fetchDayActivityParallel tz now Q s gl gh go ol forceRefresh) w).2.

(** The payload a lookup finds: that of an entry that is there and has
    not expired. *)
Definition unexpired {T} (now ttl : Z) (e : option (CacheEntry T)) : option T :=
  match e with
  | Some entry => if (ttl <? now - timestamp entry)%Z then None else Some (data entry)
  | None => None
  end.

(** What the lookup of a day finds in each namespace of the cache [c]. *)
Definition gitlabFound (now : Z) (c : ActivityCache) (date : Z) : option GitLabActivity :=
  unexpired now (cacheTTL c) (gitlab (cache c) !! getDateKey date).

Definition googleFound (now : Z) (c : ActivityCache) (date : Z)
    : option (list CalendarEvent) :=
  unexpired now (cacheTTL c) (googleCalendar (cache c) !! getDateKey date).

Definition outlookFound (now : Z) (c : ActivityCache) (date : Z)
    : option (list CalendarEvent) :=
  unexpired now (cacheTTL c) (outlookCalendar (cache c) !! getDateKey date).

(** What a code provider contributes to the record of a day, and whether
    it comes from the cache, when the cache is [c] at the start of the run
    and the adapter's answer for the day is [answer]: nothing when the
    provider is not enabled; the payload of the unexpired entry of the
    day, unless a refresh is forced; otherwise the answer of the adapter,
    and the empty payload when the adapter rejects. Both code providers
    read the GitLab namespace of the cache. *)
Definition codePart (now : Z) (c : ActivityCache) (forceRefresh enabled : bool)
    (date : Z) (answer : option GitLabActivity) : GitLabActivity * bool :=
  if enabled then
    match (if forceRefresh then None else gitlabFound now c date) with
    | Some a => (a, true)
    | None => (default (emptyPayload date) answer, false)
    end
  else (emptyPayload date, false).

(** What the secondary calendar contributes when it is turned to: the
    events of its unexpired entry, unless a refresh is forced; otherwise
    the answer of its adapter, and no event when the adapter rejects. *)
Definition secondaryPart (now : Z) (c : ActivityCache)
    (forceRefresh outlookAuthenticated : bool) (date : Z)
    (answer : option (list CalendarEvent)) : CalFetch :=
  if outlookAuthenticated then
    match (if forceRefresh then None else outlookFound now c date) with
    | Some evs => mkCalFetch evs true
    | None => mkCalFetch (default [] answer) false
    end
  else mkCalFetch [] false.

(** The calendar part of the record of a day. The primary calendar, when
    enabled, gives the events of its unexpired entry, whatever their
    number, or else the answer of its adapter when that holds an event;
    the secondary calendar is turned to when the primary is not enabled,
    and when the adapter of the primary was called and rejected or
    answered with no event. *)
Definition calendarPart (now : Z) (c : ActivityCache)
    (forceRefresh googleAuthenticated outlookAuthenticated : bool) (date : Z)
    (google outlook : option (list CalendarEvent)) : CalFetch :=
  if googleAuthenticated then
    match (if forceRefresh then None else googleFound now c date) with
    | Some evs => mkCalFetch evs true
    | None =>
        match default [] google with
        | [] => secondaryPart now c forceRefresh outlookAuthenticated date outlook
        | evs => mkCalFetch evs false
        end
    end
  else secondaryPart now c forceRefresh outlookAuthenticated date outlook.

(** The record of the day [s], which parses to [date], put together from
    the three parts. *)
Definition expectedRecord (tz now : Z) (Q : Providers)
    (gl gh go ol forceRefresh : bool) (c : ActivityCache) (s : string) (date : Z)
    : DayResult :=
  let gitlabPart := codePart now c forceRefresh gl date (gitlab_getActivityForDate Q s) in
  let githubPart := codePart now c forceRefresh gh date (github_getActivityForDate Q s) in
  let calendar :=
    calendarPart now c forceRefresh go ol date (googleCalendar_getEventsForDate Q s)
      (outlookCalendar_getEventsForDate Q s) in
  mkDayResult
    (mkDayActivity date (cf_meetings calendar)
       (mergeGitActivities gitlabPart.1 githubPart.1) "")
    (mkCacheInfo gitlabPart.2 githubPart.2 (cf_fromCache calendar)).

(** Two worlds in which the lookups of a day find the same. *)
Definition sameLookups (now date : Z) (w w' : World) : Prop :=
  cacheTTL (activityCache w') = cacheTTL (activityCache w)
  ∧ gitlabFound now (activityCache w') date = gitlabFound now (activityCache w) date
  ∧ googleFound now (activityCache w') date = googleFound now (activityCache w) date
  ∧ outlookFound now (activityCache w') date = outlookFound now (activityCache w) date.

(** Two worlds in which the lookups of a day in the namespace of the
    secondary calendar find the same. *)
Definition sameOutlookLookup (now date : Z) (w w' : World) : Prop :=
  cacheTTL (activityCache w') = cacheTTL (activityCache w)
  ∧ outlookFound now (activityCache w') date = outlookFound now (activityCache w) date.

(** An operation on the secondary calendar provider: a lookup in its
    cache namespace or a call of its adapter. *)
Definition isOutlookAttempt (op : Op) : bool :=
  match op with
  | CacheGet OutlookKind _ => true
  | Fetch OutlookCalendar _ => true
  | _ => false
  end.

(** The operations a call added to the trace. *)
Definition newOps (before after : World) : list Op :=
  drop (length (trace before)) (trace after).

(** *** Sample values *)

Definition standup : CalendarEvent := mkCalendarEvent "standup" 0 900000 (Some 3).

(** The primary calendar has no event, the secondary has one. *)
Definition quietPrimary : Providers :=
  mkProviders (λ s, Some (emptyPayload 0)) (λ s, Some (emptyPayload 0))
    (λ _, Some []) (λ _, Some [standup]).

Definition oneCommit (s : string) : GitLabActivity :=
  mkGitLabActivity 0 [mkCommit "fix" "core" s] [] [].

Definition busyProviders : Providers :=
  mkProviders (λ s, Some (oneCommit s)) (λ s, Some (oneCommit s))
    (λ _, Some [standup]) (λ _, Some []).

Definition twoDays : list Z := [newDate 0 2025 10 26; newDate 0 2025 10 27].

(** A second event, and providers whose two calendars each hold one. *)
Definition retro : CalendarEvent := mkCalendarEvent "retro" 3600000 1800000 None.

Definition twoCalendars : Providers :=
  mkProviders (λ _, Some (emptyPayload 0)) (λ _, Some (emptyPayload 0))
    (λ _, Some [standup]) (λ _, Some [retro]).

(** The meetings of each record of a run over [dates] from a fresh state
    with every provider enabled, and the operations of the run on the
    secondary calendar. *)
Definition meetingsOfRun (Q : Providers) (dates : list Z)
    : option (list (list CalendarEvent)) :=
  match records 0 1000 Q dates true true true true false newWorld with
  | Fulfilled rs => Some ((λ r, meetings (activity r)) <$> rs)
  | RejectedWith _ => None
  end.

Definition outlookAttemptsOfRun (Q : Providers) (dates : list Z) : list Op :=
  filter (λ op, isOutlookAttempt op = true)
    (trace (run (fetchMultipleDaysParallel 0 1000 Q dates true true true true false)
              newWorld).1).

End OrchestratorSpec.

(** ** The activity distributor *)

Module Distributor.

Record DistributionInfo := mkInfo {
  daysWithGaps : nat;
  daysDistributed : nat;
  info_message : string }.

Record DistributionResult := mkResult {
  activities : list DayActivity;
  distributionInfo : DistributionInfo }.

(** [distributed.sort((a, b) => a.date.getTime() - b.date.getTime())].
    [Array.prototype.sort] is stable, and the stable ordering of a list by
    a key is unique, so the sort is given by stable insertion. *)
Fixpoint insertByDate (d : DayActivity) (l : list DayActivity) : list DayActivity :=
  match l with
  | [] => [d]
  | x :: rest =>
      if (date d <=? date x)%Z then d :: x :: rest
      else x :: insertByDate d rest
  end.

Fixpoint sortByDate (l : list DayActivity) : list DayActivity :=
  match l with
  | [] => []
  | d :: rest => insertByDate d (sortByDate rest)
  end.

Definition hasAnyActivity (day : DayActivity) : bool :=
  (0 <? length (meetings day)) ||
  (0 <? length (commits (gitlabActivity day))) ||
  (0 <? length (mergeRequests (gitlabActivity day))) ||
  (0 <? length (issues (gitlabActivity day))).

(** The loop of [findNextActivityDay], from index [i] over the remaining
    [xs]; [None] is the source's [-1]. *)
Fixpoint findFrom (xs : list DayActivity) (i : nat) : option nat :=
  match xs with
  | [] => None
  | d :: rest => if hasAnyActivity d then Some i else findFrom rest (S i)
  end.

Definition findNextActivityDay (activities : list DayActivity) (startIndex : nat)
    : option nat :=
  findFrom (drop (S startIndex) activities) (S startIndex).

Definition tagCommit (c : Commit) : Commit :=
  mkCommit ("[Distributed] " +:+ message c) (project c) (branch c).

Definition tagMR (mr : MergeRequest) : MergeRequest :=
  mkMergeRequest (mr_action mr) ("[Distributed] " +:+ mr_title mr) (mr_project mr) (mr_id mr).

Definition tagIssue (i : Issue) : Issue :=
  mkIssue (issue_action i) ("[Distributed] " +:+ issue_title i) (issue_project i)
    (issue_id i) (issue_details i).

(** One iteration of the three distribution loops of
    [distributeWorkAcrossGap]: the state is the array and the running
    index into the source sequence. *)
Definition distributeStep {A} (src : list A) (perDay : nat) (tag : A → A)
    (push : list A → DayActivity → DayActivity)
    (st : list DayActivity * nat) (i : nat) : list DayActivity * nat :=
  let '(acts, index) := st in
  let toAdd := Nat.min perDay (length src - index) in
  if 0 <? toAdd then
    (alter (push (tag <$> slice index (index + toAdd) src)) i acts, index + toAdd)
  else (acts, index).

Definition pushCommits (cs : list Commit) : DayActivity → DayActivity :=
  with_commits (λ old, old ++ cs).
Definition pushMRs (ms : list MergeRequest) : DayActivity → DayActivity :=
  with_mergeRequests (λ old, old ++ ms).
Definition pushIssues (ms : list Issue) : DayActivity → DayActivity :=
  with_issues (λ old, old ++ ms).

Definition noteCommit (gapSize : nat) : Commit :=
  mkCommit
    ("[Note: Some activities from this day were distributed to previous "
       +:+ natToString gapSize +:+ " day(s) without recorded work]")
    "System" "distribution".

(** [distributeWorkAcrossGap]. The source day is [activities[activityIndex]];
    the caller passes an index returned by [findNextActivityDay], so it
    is always in range (the out-of-range branch leaves the array as it is). *)
Definition distributeWorkAcrossGap (activities : list DayActivity)
    (gapStart activityIndex gapSize : nat) : list DayActivity :=
  match activities !! activityIndex with
  | None => activities
  | Some sourceActivity =>
      let src := gitlabActivity sourceActivity in
      let commitsPerDay := length (commits src) / (gapSize + 1) in
      let mrsPerDay := length (mergeRequests src) / (gapSize + 1) in
      let issuesPerDay := length (issues src) / (gapSize + 1) in
      let gap := seq gapStart (activityIndex - gapStart) in
      let '(acts1, commitIndex) :=
        foldl (distributeStep (commits src) commitsPerDay tagCommit pushCommits)
          (activities, 0) gap in
      let '(acts2, mrIndex) :=
        foldl (distributeStep (mergeRequests src) mrsPerDay tagMR pushMRs)
          (acts1, 0) gap in
      let '(acts3, issueIndex) :=
        foldl (distributeStep (issues src) issuesPerDay tagIssue pushIssues)
          (acts2, 0) gap in
      if (0 <? commitIndex) || (0 <? mrIndex) || (0 <? issueIndex) then
        alter (with_commits (λ old, noteCommit gapSize :: old)) activityIndex acts3
      else acts3
  end.

(** The state of the scanning loop of [distributeActivities]. *)
Record ScanState := mkScan {
  distributed : list DayActivity;
  gapDays : nat;
  distributedDays : nat }.

(** The body of the [for] loop, at index [i]; [process] is the gap
    handler of the mode (it receives the array, [i], the index of the next
    day with activity and the gap size). *)
Definition scanStep
    (process : list DayActivity → nat → nat → nat → list DayActivity)
    (st : ScanState) (i : nat) : ScanState :=
  match distributed st !! i with
  | None => st
  | Some current =>
      if hasAnyActivity current then st
      else
        match findNextActivityDay (distributed st) i with
        | None => st
        | Some nextActivityIndex =>
            let gapSize := nextActivityIndex - i in
            mkScan (process (distributed st) i nextActivityIndex gapSize)
                   (gapDays st + gapSize) (S (distributedDays st))
        end
  end.

(** [for (let i = 0; i < distributed.length; i++) { ... }]: the array
    length never changes, so the indices are fixed when the loop starts. *)
Definition scan
    (process : list DayActivity → nat → nat → nat → list DayActivity)
    (sorted : list DayActivity) : ScanState :=
  foldl (scanStep process) (mkScan sorted 0 0) (seq 0 (length sorted)).

Definition proportionalMessage (gapDays : nat) : string :=
  "Note: " +:+ natToString gapDays
    +:+ " day(s) had no recorded activity. Work from subsequent days was "
    +:+ "distributed proportionally. Distributed entries are marked with "
    +:+ "[Distributed].".

Definition distributeActivities (activities : list DayActivity) : DistributionResult :=
  let st := scan distributeWorkAcrossGap (sortByDate activities) in
  let message :=
    if 0 <? distributedDays st then proportionalMessage (gapDays st) else "" in
  mkResult (distributed st) (mkInfo (gapDays st) (distributedDays st) message).

(** A byte that continues a character: [10xxxxxx]. *)
Definition isContinuation (b : ascii) : bool :=
  let n := nat_of_ascii b in (128 <=? n) && (n <? 192).

(** The number of UTF-16 units of the character whose first byte is [b]:
    two for a character of four bytes, one otherwise. *)
Definition unitsOf (b : ascii) : nat := if 240 <=? nat_of_ascii b then 2 else 1.

(** The first unit of the pair of a character of four bytes, whose first
    three bytes are [b0], [b1] and [b2], as the three bytes of its code
    point. *)
Definition leadSurrogate (b0 b1 b2 : ascii) : string :=
  let cp := (N_of_ascii b0 mod 8 * 4096 + N_of_ascii b1 mod 64 * 64
             + N_of_ascii b2 mod 64)%N in
  let hi := (55296 + (cp - 1024) / 16)%N in
  String (ascii_of_N 237)
    (String (ascii_of_N (128 + hi / 64 mod 64))
       (String (ascii_of_N (128 + hi mod 64)) "")).

(** [s.substring(0, units)]: the first [units] UTF-16 units of [s]. A
    continuation byte belongs to the character that was taken last; a
    character of two units of which only one is left to take is cut in
    the middle. *)
Fixpoint substringTo (units : nat) (s : string) : string :=
  match s with
  | EmptyString => ""
  | String b rest =>
      if isContinuation b then String b (substringTo units rest)
      else if unitsOf b <=? units then String b (substringTo (units - unitsOf b) rest)
      else if units =? 1 then
        match rest with
        | String b1 (String b2 _) => leadSurrogate b b1 b2
        | _ => ""
        end
      else ""
  end.

(** [s.substring(0, 50)]. *)
Definition substring50 (s : string) : string := substringTo 50 s.

Definition summarizeWork (activity : DayActivity) : string :=
  let g := gitlabActivity activity in
  let parts :=
    match commits g with firstCommit :: _ => [substring50 (message firstCommit)] | [] => [] end
    ++ match mergeRequests g with firstMR :: _ => [substring50 (mr_title firstMR)] | [] => [] end
    ++ match issues g with
       | firstIssue :: _ => [substring50 (issue_title firstIssue)]
       | [] => []
       end in
  let joined := join ", " parts in
  if decide (joined = "") then "project work" else joined.

Definition phaseNames : list string :=
  ["Planning"; "Research"; "Design"; "Implementation"; "Testing"; "Refinement";
   "Documentation"].

Definition generateWorkPhases (gapSize : nat) (sourceActivity : DayActivity)
    : list string :=
  let workSummary := summarizeWork sourceActivity in
  match gapSize with
  | 1 => ["[Phase: Research & Planning] Preparation for: " +:+ workSummary]
  | 2 => ["[Phase: Analysis] Initial work on: " +:+ workSummary;
          "[Phase: Development] Continued work on: " +:+ workSummary]
  | 3 => ["[Phase: Planning] Planned work for: " +:+ workSummary;
          "[Phase: Implementation] Developed features for: " +:+ workSummary;
          "[Phase: Testing] Testing and refinement for: " +:+ workSummary]
  | _ =>
      (λ i, "[Phase: " +:+ default "" (phaseNames !! (i mod length phaseNames))
              +:+ "] Work on: " +:+ workSummary) <$> seq 0 gapSize
  end.

Definition phaseCommit (phase : string) : Commit :=
  mkCommit phase "Distributed Work" "phase-distribution".

(** The loop of [distributeWorkPhases] from phase number [i]:
    [for (...; i < phases.length && gapStart + i < activityIndex; i++)]. *)
Fixpoint pushPhases (phases : list string) (i gapStart activityIndex : nat)
    (activities : list DayActivity) : list DayActivity :=
  match phases with
  | [] => activities
  | phase :: rest =>
      if gapStart + i <? activityIndex then
        pushPhases rest (S i) gapStart activityIndex
          (alter (pushCommits [phaseCommit phase]) (gapStart + i) activities)
      else activities
  end.

Definition distributeWorkPhases (activities : list DayActivity)
    (gapStart activityIndex gapSize : nat) (sourceActivity : DayActivity)
    : list DayActivity :=
  pushPhases (generateWorkPhases gapSize sourceActivity) 0 gapStart activityIndex
    activities.

(** The gap handler of the phased mode: the caller reads
    [nextActivity = distributed[nextActivityIndex]] and passes it on. *)
Definition processPhases (activities : list DayActivity)
    (gapStart activityIndex gapSize : nat) : list DayActivity :=
  match activities !! activityIndex with
  | None => activities
  | Some nextActivity =>
      distributeWorkPhases activities gapStart activityIndex gapSize nextActivity
  end.

Definition phasedMessage (gapDays : nat) : string :=
  "Note: " +:+ natToString gapDays
    +:+ " day(s) had no recorded activity. Work phases were inferred and "
    +:+ "distributed. Entries are marked with [Phase: X].".

Definition distributeActivitiesIntelligent (activities : list DayActivity)
    : DistributionResult :=
  let st := scan processPhases (sortByDate activities) in
  let message :=
    if 0 <? distributedDays st then phasedMessage (gapDays st) else "" in
  mkResult (distributed st) (mkInfo (gapDays st) (distributedDays st) message).

(** *** Sample days *)

Definition emptyDay (t : Z) : DayActivity :=
  mkDayActivity t [] (mkGitLabActivity t [] [] []) "".

Definition commitsDay (t : Z) (msgs : list string) : DayActivity :=
  mkDayActivity t []
    (mkGitLabActivity t ((λ m, mkCommit m "core" "main") <$> msgs) [] []) "".

Definition meetingDay (t : Z) : DayActivity :=
  mkDayActivity t [mkCalendarEvent "standup" t (t + 900000) (Some 3)]
    (mkGitLabActivity t [] [] []) "".

End Distributor.

(** ** Vocabulary of the distributor's properties *)

Module DistributorSpec.

Import Distributor.

(** An empty day that has a later day with activity. *)
Definition hasGap (l : list DayActivity) : Prop :=
  ∃ i j d1 d2, i < j ∧ l !! i = Some d1 ∧ hasAnyActivity d1 = false
               ∧ l !! j = Some d2 ∧ hasAnyActivity d2 = true.

(** What an in-place update of a day may do: it keeps the date and never
    makes a day with activity empty. *)
Definition grows (d d' : DayActivity) : Prop :=
  date d' = date d ∧ (hasAnyActivity d = true → hasAnyActivity d' = true).

(** What the scan relies on in a gap handler called for the gap that
    starts at [i] and ends at the day [j]: days only grow, and the days
    outside [i..j] are left alone. *)
Definition GapHandler
    (process : list DayActivity → nat → nat → nat → list DayActivity) : Prop :=
  ∀ l i j g,
    Forall2 grows l (process l i j g)
    ∧ (i < j → ∀ k, k < i ∨ j < k → process l i j g !! k = l !! k).

Definition commitCount (d : DayActivity) : nat := length (commits (gitlabActivity d)).
Definition mrCount (d : DayActivity) : nat := length (mergeRequests (gitlabActivity d)).
Definition issueCount (d : DayActivity) : nat := length (issues (gitlabActivity d)).

(** The days at positions [i..j-1]. *)
Definition gapDaysOf (l : list DayActivity) (i j : nat) : list DayActivity :=
  slice i j l.

Definition total (f : DayActivity → nat) (l : list DayActivity) : nat :=
  sum_list (f <$> l).

Definition sortedByDate (l : list DayActivity) : Prop :=
  Sorted Z.le (date <$> l).

Definition newline : ascii := ascii_of_nat 10.

Fixpoint hasNewline (s : string) : bool :=
  match s with
  | EmptyString => false
  | String c rest => Ascii.eqb c newline || hasNewline rest
  end.

(** [sub] occurs in [s]. *)
Definition occursIn (sub s : string) : Prop :=
  ∃ pre post, s = pre +:+ sub +:+ post.

Definition messageOf (r : DistributionResult) : string :=
  info_message (distributionInfo r).

(** The index [i] starts a gap of [l]: an empty day with a later day that
    has activity. *)
Definition gapStartAt (l : list DayActivity) (i : nat) : Prop :=
  ∃ d, l !! i = Some d ∧ hasAnyActivity d = false
       ∧ is_Some (findNextActivityDay l i).

(** The invariant of the scan over [sorted]: days only grow, every day
    with activity in the current array has a day with activity at or after
    it in the sorted input, and a counted gap is a gap of the sorted
    input. *)
Definition scanInv (sorted : list DayActivity) (st : ScanState) : Prop :=
  Forall2 grows sorted (distributed st)
  ∧ (∀ k d, distributed st !! k = Some d → hasAnyActivity d = true →
       ∃ k' d', k ≤ k' ∧ sorted !! k' = Some d' ∧ hasAnyActivity d' = true)
  ∧ (0 < distributedDays st → hasGap sorted).

End DistributorSpec.

(** ** Local calendar days *)

Module DateSpec.
Import DateModel.

(** The number of the local calendar day an instant falls on. *)
Definition localDay (tz t : Z) : Z := ((t + tz * msPerMinute) / msPerDay)%Z.

(** [date.getFullYear()]. *)
Definition getFullYear (tz t : Z) : Z := (civilFromDays (localDay tz t)).1.1.

(** Local midnight at the start of the day an instant falls on. *)
Definition startOfLocalDay (tz t : Z) : Z :=
  (localDay tz t * msPerDay - tz * msPerMinute)%Z.

End DateSpec.

(** ** Vocabulary for the cache *)

Module CacheSpec.

(** What a lookup adds to the hit counter. *)
Definition asHit {A} (r : option A) : nat :=
  match r with Some _ => 1 | None => 0 end.

End CacheSpec.

(** ** Vocabulary for the distributor: runs of empty days *)

Module DistributionSpec.
Import Distributor DistributorSpec.

(** What the distributor does to a day at most: the date, the meetings and
    the description stay, and the day's commits, review items and issues
    are all still there, in their order, among those of the result. *)
Definition keeps (d d' : DayActivity) : Prop :=
  date d' = date d ∧ meetings d' = meetings d ∧ description d' = description d
  ∧ ga_date (gitlabActivity d') = ga_date (gitlabActivity d)
  ∧ commits (gitlabActivity d) `sublist_of` commits (gitlabActivity d')
  ∧ mergeRequests (gitlabActivity d) `prefix_of` mergeRequests (gitlabActivity d')
  ∧ issues (gitlabActivity d) `prefix_of` issues (gitlabActivity d').

(** The days [s .. j-1] of [l] are a maximal run of empty days, and the
    day [j] that follows them has activity. *)
Definition gapRun (l : list DayActivity) (s j : nat) : Prop :=
  s < j
  ∧ (∀ k d, s ≤ k < j → l !! k = Some d → hasAnyActivity d = false)
  ∧ (∃ src, l !! j = Some src ∧ hasAnyActivity src = true)
  ∧ (s = 0 ∨ ∃ d, l !! (s - 1) = Some d ∧ hasAnyActivity d = true).

(** Day [k] is empty and a later day has activity. *)
Definition isGapStart (l : list DayActivity) (k : nat) : bool :=
  match l !! k with
  | Some d => negb (hasAnyActivity d) && bool_decide (is_Some (findNextActivityDay l k))
  | None => false
  end.

(** Day [k] is the first day of a maximal run of such days. *)
Definition isRunStart (l : list DayActivity) (k : nat) : bool :=
  isGapStart l k &&
  match k with
  | 0 => true
  | S k' => match l !! k' with Some d => hasAnyActivity d | None => false end
  end.

(** The number of indices below [n] that satisfy [p]. *)
Definition countBelow (p : nat → bool) (n : nat) : nat :=
  sum_list_with (λ k, if p k then 1 else 0) (seq 0 n).

(** The state of the phased scan before index [i]: everything below the
    frontier [m] is final, everything from [m] on is as in the input. *)
Definition phasedInv (sorted : list DayActivity) (i : nat) (st : ScanState) : Prop :=
  ∃ m, i ≤ m ≤ length sorted
    ∧ length (distributed st) = length sorted
    ∧ (∀ k, m ≤ k → distributed st !! k = sorted !! k)
    ∧ (∀ k, k < m → isGapStart sorted k = false → distributed st !! k = sorted !! k)
    ∧ (∀ s j src, gapRun sorted s j → j ≤ m → sorted !! j = Some src →
         ∀ k, s ≤ k < j →
           ∃ p, generateWorkPhases (j - s) src !! (k - s) = Some p
                ∧ distributed st !! k = pushCommits [phaseCommit p] <$> sorted !! k)
    ∧ (∀ k d, i ≤ k < m → distributed st !! k = Some d → hasAnyActivity d = true)
    ∧ (isGapStart sorted m = true → isRunStart sorted m = true)
    ∧ gapDays st = countBelow (isGapStart sorted) m
    ∧ distributedDays st = countBelow (isRunStart sorted) m.

End DistributionSpec.

Module ProportionalSpec.
Import Distributor DistributorSpec DistributionSpec.

(** The largest of the three item counts of a day. *)
Definition mostItems (src : DayActivity) : nat :=
  commitCount src `max` (mrCount src `max` issueCount src).

(** Whether a gap of [G] days before [src] gives any kind of item a
    quota of at least one. *)
Definition hasQuota (src : DayActivity) (G : nat) : bool :=
  (0 <? commitCount src / (G + 1)) || (0 <? mrCount src / (G + 1))
  || (0 <? issueCount src / (G + 1)).

(** The first day of the run [s .. j-1] that receives copies of the items
    of the source day [src]: the first day whose distance to the source
    day is less than [mostItems src]; [j] or more when there is none. *)
Definition firstFilled (s j : nat) (src : DayActivity) : nat :=
  s `max` (j + 1 - mostItems src).

(** Day number [t] of a gap of [G] days, filled from [src]. *)
Definition fillDay (src : DayActivity) (G t : nat) (d : DayActivity) : DayActivity :=
  let g := gitlabActivity src in
  let qc := length (commits g) / (G + 1) in
  let qm := length (mergeRequests g) / (G + 1) in
  let qi := length (issues g) / (G + 1) in
  pushIssues (tagIssue <$> slice (t * qi) (t * qi + qi) (issues g))
    (pushMRs (tagMR <$> slice (t * qm) (t * qm + qm) (mergeRequests g))
       (pushCommits (tagCommit <$> slice (t * qc) (t * qc + qc) (commits g)) d)).

(** The source day with the marker commit in front. *)
Definition markSource (G : nat) (src : DayActivity) : DayActivity :=
  with_commits (λ old, noteCommit G :: old) src.

(** Day [k] has activity and the day before it is empty. *)
Definition isRunEnd (l : list DayActivity) (k : nat) : bool :=
  match k with
  | 0 => false
  | S k' =>
      match l !! k, l !! k' with
      | Some d, Some p => hasAnyActivity d && negb (hasAnyActivity p)
      | _, _ => false
      end
  end.

(** What the proportional scan leaves of the run [s .. j-1] and of its
    source day [j]. *)
Definition runFilled (sorted out : list DayActivity) (s j : nat) (src : DayActivity)
    : Prop :=
  let i0 := firstFilled s j src in
  (∀ k d, s ≤ k < j → sorted !! k = Some d →
     out !! k = Some (if k <? i0 then d else fillDay src (j - i0) (k - i0) d))
  ∧ out !! j = Some (if i0 <? j then markSource (j - i0) src else src).

(** The state of the proportional scan before index [i], with the
    frontier [m]. *)
Definition propInv (sorted : list DayActivity) (i : nat) (st : ScanState) : Prop :=
  ∃ m, i ≤ m ≤ length sorted
    ∧ length (distributed st) = length sorted
    ∧ (∀ k, m ≤ k → distributed st !! k = sorted !! k)
    ∧ (∀ k, k < m → isGapStart sorted k = false → isRunEnd sorted k = false →
         distributed st !! k = sorted !! k)
    ∧ (∀ s j src, gapRun sorted s j → j < m → sorted !! j = Some src →
         runFilled sorted (distributed st) s j src)
    ∧ (∀ s j src, gapRun sorted s j → s ≤ m ≤ j → sorted !! j = Some src →
         ∀ k, s ≤ k < m →
           mostItems src < j - k + 1 ∧ distributed st !! k = sorted !! k)
    ∧ (∀ k d, i ≤ k < m → distributed st !! k = Some d → hasAnyActivity d = true).

End ProportionalSpec.

(** ** Vocabulary for the fetch helpers *)

Module FetchSpec.
Import DateModel Cache Orchestrator OrchestratorSpec.

(** A call of a provider adapter. *)
Definition isFetch (op : Op) : bool :=
  match op with
  | Fetch _ _ => true
  | _ => false
  end.

(** Every adapter rejects every call. *)
Definition allDown : Providers :=
  mkProviders (λ _, None) (λ _, None) (λ _, None) (λ _, None).

(** The record of a day for which nothing was obtained. *)
Definition emptyRecord (date : Z) : DayResult :=
  mkDayResult (mkDayActivity date [] (emptyPayload date) "")
    (mkCacheInfo false false false).

(** The world after the lookup a fetch helper of kind [kind] starts with,
    which it skips when a refresh is forced. *)
Definition afterLookup (now date : Z) (forceRefresh : bool) (kind : Kind) (w : World)
    : World :=
  if forceRefresh then w
  else match kind with
       | GitLabKind => (cacheGetGitLab now date w).2
       | GoogleKind => (cacheGetGoogle now date w).2
       | OutlookKind => (cacheGetOutlook now date w).2
       end.

(** A world whose cache holds [samplePayload] for [sampleDay], stored at
    time 1000. *)
Definition warmWorld : World := mkWorld sampleCache [].

End FetchSpec.

(** ** Day strings and dates in the adapters and handlers *)

Module DayFormat.
Import DateModel OrchestratorSpec.

(** [/^\d{4}-\d{2}-\d{2}$/.test(s)]. *)
Definition isDayFormat (s : string) : bool :=
  match list_ascii_of_string s with
  | [y1; y2; y3; y4; h1; m1; m2; h2; d1; d2] =>
      isDigit y1 && isDigit y2 && isDigit y3 && isDigit y4 && Ascii.eqb h1 "-"
      && isDigit m1 && isDigit m2 && Ascii.eqb h2 "-" && isDigit d1 && isDigit d2
  | _ => false
  end.

(** The local calendar fields of a [Date]: [getFullYear()],
    [getMonth()] (0-based) and [getDate()]. *)
Definition localFields (tz t : Z) : Z * Z * Z :=
  let '(y, m, d) := civilFromDays ((t + tz * msPerMinute) / msPerDay) in (y, (m - 1)%Z, d).

Definition getDate (tz t : Z) : Z := (localFields tz t).2.

(** [date.setDate(d)]: the same local year, month and time of day, on day
    [d] of the month ([d] may lie outside the month). *)
Definition setDate (tz t d : Z) : Z :=
  let '(y, m, _) := localFields tz t in
  let timeInDay := ((t + tz * msPerMinute) mod msPerDay)%Z in
  (MakeDay y m d * msPerDay + timeInDay - tz * msPerMinute)%Z.

End DayFormat.

(** ** The GitLab adapter ([integrations/gitlab.ts])

    The client library is a record of answers, one for each request the
    adapter makes; the adapter's state carries the list of the requests
    made, which the code does not keep, to state how often it asks. *)

Module GitLabAdapter.
Import DateModel DayFormat.

(** The fields of an event of the GitLab events API that the adapter
    reads. An absent field and [null] are [None]. *)
Record PushData := mkPushData {
  commit_title : option string;
  ref : option string }.

Record Note := mkNote {
  noteable_type : option string;
  noteable_iid : option Z }.

Record Event := mkEvent {
  author_id : Z;
  created_at : string;
  project_id : option Z;
  action_name : string;
  push_data : option PushData;
  target_type : option string;
  target_title : option string;
  target_iid : option Z;
  note : option Note }.

(** The GitLab client: the answer of each request, [None] when the
    request throws. *)
Record GitLabApi := mkApi {
  Users_showCurrentUser : option Z;
  Events_all : string → nat → option (list Event);
  Projects_show : Z → option string }.

Inductive Request :=
| ListEvents (after : string) (page : nat)
| ShowProject (projectId : Z).

Global Instance Request_eq_dec : EqDecision Request.
Proof. solve_decision. Defined.

Record DebugInfo := mkDebugInfo {
  dateRange_after : string;
  targetDay : string;
  eventsReturned : nat;
  rawApiResponse : list Event }.

(** The object state of [GitLabIntegration], and the requests made so
    far. *)
Record GitLabIntegration := mkGitLab {
  client : option GitLabApi;
  userId : option Z;
  debugInfo : option DebugInfo;
  projectNameCache : gmap Z string;
  requests : list Request }.

Definition newGitLab : GitLabIntegration := mkGitLab None None None ∅ [].

(** The errors the adapter throws: ['GitLab client not initialized'],
    ['Date must be in YYYY-MM-DD format ...'], and the error of a failed
    request. *)
Inductive AdapterError := NotInitialized | BadDayFormat | RequestFailed.

Inductive Outcome (A : Type) :=
| Returned (value : A)
| Threw (error : AdapterError).
Arguments Returned {A} _.
Arguments Threw {A} _.

(** [initialize(token, gitlabUrl)]: [api] is the client built for the
    token and host. *)
Definition initialize (api : GitLabApi) (g : GitLabIntegration)
    : Outcome unit * GitLabIntegration :=
  let g1 := mkGitLab (Some api) (userId g) (debugInfo g) (projectNameCache g) (requests g) in
  match Users_showCurrentUser api with
  | None => (Threw RequestFailed, g1)
  | Some id =>
      (Returned (), mkGitLab (Some api) (Some id) (debugInfo g) (projectNameCache g)
                      (requests g))
  end.

(** [String(x || dflt)] for a string [x] that may be absent. *)
Definition orElse (x : option string) (dflt : string) : string :=
  match x with
  | Some s => if decide (s = "") then dflt else s
  | None => dflt
  end.

(** [a || b] for numbers that may be absent. *)
Definition orElseId (a b : option Z) : option Z :=
  match a with
  | Some n => if decide (n = 0%Z) then b else Some n
  | None => b
  end.

Definition pushMergeRequest (mr : MergeRequest) (activity : GitLabActivity)
    : GitLabActivity :=
  mkGitLabActivity (ga_date activity) (commits activity)
    (mergeRequests activity ++ [mr]) (issues activity).

Definition pushIssue (i : Issue) (activity : GitLabActivity) : GitLabActivity :=
  mkGitLabActivity (ga_date activity) (commits activity) (mergeRequests activity)
    (issues activity ++ [i]).

Definition pushCommit (c : Commit) (activity : GitLabActivity) : GitLabActivity :=
  mkGitLabActivity (ga_date activity) (commits activity ++ [c]) (mergeRequests activity)
    (issues activity).

(** [if (type === 'MergeRequest') push an MR item; else if (type === 'Issue')
    push an issue item], the pattern of most cases of [processEvent]. *)
Definition pushByType (type : option string) (mrAction issueAction : string)
    (title : option string) (projectName : string) (id : option Z)
    (activity : GitLabActivity) : GitLabActivity :=
  if decide (type = Some "MergeRequest") then
    pushMergeRequest (mkMergeRequest mrAction (orElse title "MR") projectName id) activity
  else if decide (type = Some "Issue") then
    pushIssue (mkIssue issueAction (orElse title "Issue") projectName id None) activity
  else activity.

Definition pushIfMergeRequest (type : option string) (mrAction : string)
    (title : option string) (projectName : string) (id : option Z)
    (activity : GitLabActivity) : GitLabActivity :=
  if decide (type = Some "MergeRequest") then
    pushMergeRequest (mkMergeRequest mrAction (orElse title "MR") projectName id) activity
  else activity.

Definition processEvent (event : Event) (projectName : string)
    (activity : GitLabActivity) : GitLabActivity :=
  let name := action_name event in
  if decide (name = "pushed to" ∨ name = "pushed new") then
    match push_data event with
    | Some pushData =>
        pushCommit (mkCommit (orElse (commit_title pushData) "Commit") projectName
                      (orElse (ref pushData) "unknown")) activity
    | None => activity
    end
  else if decide (name = "opened") then
    pushByType (target_type event) "created" "opened" (target_title event) projectName
      (target_iid event) activity
  else if decide (name = "commented on") then
    match note event with
    | Some n =>
        pushByType (noteable_type n) "commented" "commented" (target_title event)
          projectName (orElseId (noteable_iid n) (target_iid event)) activity
    | None =>
        pushByType (target_type event) "commented" "commented" (target_title event)
          projectName (target_iid event) activity
    end
  else if decide (name = "accepted" ∨ name = "approved") then
    pushIfMergeRequest (target_type event) "approved" (target_title event) projectName
      (target_iid event) activity
  else if decide (name = "closed") then
    pushByType (target_type event) "closed" "closed" (target_title event) projectName
      (target_iid event) activity
  else if decide (name = "merged") then
    pushIfMergeRequest (target_type event) "merged" (target_title event) projectName
      (target_iid event) activity
  else activity.

Definition logRequest (r : Request) (g : GitLabIntegration) : GitLabIntegration :=
  mkGitLab (client g) (userId g) (debugInfo g) (projectNameCache g) (requests g ++ [r]).

(** [getProjectName(projectId)], called with a client [api]. *)
Definition getProjectName (api : GitLabApi) (projectId : Z) (g : GitLabIntegration)
    : string * GitLabIntegration :=
  match projectNameCache g !! projectId with
  | Some name => (name, g)
  | None =>
      let g1 := logRequest (ShowProject projectId) g in
      match Projects_show api projectId with
      | Some name =>
          (name, mkGitLab (client g1) (userId g1) (debugInfo g1)
                   (<[projectId := name]> (projectNameCache g1)) (requests g1))
      | None => ("Project " +:+ intToString projectId, g1)
      end
  end.

(** [event.created_at.split('T')[0]]. *)
Definition eventDay (event : Event) : string :=
  default "" (head (splitOn "T" (created_at event))).

(** One iteration of [for (const event of events)]. *)
Definition handleEvent (api : GitLabApi) (user : Z) (dateStr : string)
    (st : GitLabIntegration * GitLabActivity) (event : Event)
    : GitLabIntegration * GitLabActivity :=
  let '(g, activity) := st in
  if decide (author_id event ≠ user) then st
  else if decide (eventDay event ≠ dateStr) then st
  else
    let '(projectName, g1) :=
      match project_id event with
      | Some id => if decide (id = 0%Z) then ("Unknown", g) else getProjectName api id g
      | None => ("Unknown", g)
      end in
    (g1, processEvent event projectName activity).

Definition perPage : nat := 100.

(** The [while (hasMorePages)] loop from page [page] on. [None]: the
    loop is still running when the fuel is used up. A request that throws
    ends the loop through the [catch] around it. *)
Fixpoint fetchPages (fuel : nat) (api : GitLabApi) (user : Z) (afterDate dateStr : string)
    (page : nat) (g : GitLabIntegration) (activity : GitLabActivity)
    : option (GitLabIntegration * GitLabActivity) :=
  match fuel with
  | O => None
  | S fuel' =>
      let g1 := logRequest (ListEvents afterDate page) g in
      match Events_all api afterDate page with
      | None => Some (g1, activity)
      | Some events =>
          let g2 :=
            if page =? 1 then
              mkGitLab (client g1) (userId g1)
                (Some (mkDebugInfo afterDate dateStr (length events) events))
                (projectNameCache g1) (requests g1)
            else g1 in
          let '(g3, activity') := foldl (handleEvent api user dateStr) (g2, activity) events in
          if length events <? perPage then Some (g3, activity')
          else fetchPages fuel' api user afterDate dateStr (S page) g3 activity'
      end
  end.

(** The [after] parameter: the local day seven days before [date]. *)
Definition afterDateOf (tz date : Z) : string :=
  localDateStr tz (setDate tz date (getDate tz date - 7)).

(** [getActivityForDate(dateStr)]. [None]: the page loop is still running
    when the fuel is used up. A day string that passes the format check
    always parses, so the second [BadDayFormat] branch is never taken. *)
Definition getActivityForDate (tz : Z) (fuel : nat) (dateStr : string)
    (g : GitLabIntegration) : option (Outcome GitLabActivity * GitLabIntegration) :=
  match client g, userId g with
  | Some api, Some user =>
      if decide (user = 0%Z) then Some (Threw NotInitialized, g)
      else if negb (isDayFormat dateStr) then Some (Threw BadDayFormat, g)
      else
        match parseDay tz dateStr with
        | None => Some (Threw BadDayFormat, g)
        | Some date =>
            match fetchPages fuel api user (afterDateOf tz date) dateStr 1 g
                    (mkGitLabActivity date [] [] []) with
            | Some (g', activity) => Some (Returned activity, g')
            | None => None
            end
        end
  | _, _ => Some (Threw NotInitialized, g)
  end.

End GitLabAdapter.

Module GitLabAdapterSpec.
Import DateModel DayFormat GitLabAdapter.

(** An event of the user [user] on the day [dateStr]. *)
Definition relevant (user : Z) (dateStr : string) (event : Event) : bool :=
  bool_decide (author_id event = user) && bool_decide (eventDay event = dateStr).

(** The project name an event is filed under, given the name cache the
    call started with. *)
Definition nameFor (api : GitLabApi) (cache0 : gmap Z string) (event : Event) : string :=
  match project_id event with
  | Some id =>
      if decide (id = 0%Z) then "Unknown"
      else match cache0 !! id with
           | Some name => name
           | None =>
               match Projects_show api id with
               | Some name => name
               | None => "Project " +:+ intToString id
               end
           end
  | None => "Unknown"
  end.

(** The payload [a] with the events of the user on the day filed in, in
    their order. *)
Definition fileEvents (api : GitLabApi) (cache0 : gmap Z string) (user : Z)
    (dateStr : string) (a : GitLabActivity) (events : list Event) : GitLabActivity :=
  foldl (λ a event, processEvent event (nameFor api cache0 event) a) a
    (List.filter (relevant user dateStr) events).

(** Page [k] is where the page loop stops: the pages before it are full,
    and page [k] is short or its request throws. *)
Definition lastPage (api : GitLabApi) (afterDate : string) (k : nat) : Prop :=
  1 ≤ k
  ∧ (∀ p, 1 ≤ p < k →
       ∃ events, Events_all api afterDate p = Some events ∧ perPage ≤ length events)
  ∧ match Events_all api afterDate k with
    | Some events => length events < perPage
    | None => True
    end.

(** The events of the pages [1 .. k] that were delivered. *)
Definition delivered (api : GitLabApi) (afterDate : string) (k : nat) : list Event :=
  mjoin (omap (Events_all api afterDate) (seq 1 k)).

(** The number of items of a payload. *)
Definition itemCount (a : GitLabActivity) : nat :=
  length (commits a) + length (mergeRequests a) + length (issues a).

(** The requests made after the first [n]. *)
Definition requestsSince (n : nat) (g : GitLabIntegration) : list Request :=
  drop n (requests g).

(** A sample client: one page of two events of user 7, one of them on
    another day; project 3 is known. *)
Definition samplePush (day : string) : Event :=
  mkEvent 7 (day +:+ "T10:00:00Z") (Some 3%Z) "pushed to"
    (Some (mkPushData (Some "fix") (Some "main"))) None None None None.

Definition sampleApi : GitLabApi :=
  mkApi (Some 7%Z)
    (λ _ page, if page =? 1 then Some [samplePush "2025-11-27"; samplePush "2025-11-26"]
               else None)
    (λ id, if (id =? 3)%Z then Some "core" else None).

Definition sampleGitLab : GitLabIntegration :=
  mkGitLab (Some sampleApi) (Some 7%Z) None ∅ [].

(** The state during a call: the client and the user stay, and the name
    cache holds what it held at the start and besides that only names the
    client delivered. *)
Definition cacheInv (api : GitLabApi) (g0 g : GitLabIntegration) : Prop :=
  client g = client g0 ∧ userId g = userId g0
  ∧ (∀ id name, projectNameCache g0 !! id = Some name →
       projectNameCache g !! id = Some name)
  ∧ (∀ id name, projectNameCache g !! id = Some name →
       projectNameCache g0 !! id = Some name
       ∨ (projectNameCache g0 !! id = None ∧ Projects_show api id = Some name)).

(** The requests of a call so far: a project that was cached at the start
    is never requested, and a project the client knows is requested at
    most once, after which it is cached. *)
Definition logInv (api : GitLabApi) (g0 g : GitLabIntegration) : Prop :=
  ∃ new, requests g = requests g0 ++ new
    ∧ (∀ id, is_Some (projectNameCache g0 !! id) → ShowProject id ∉ new)
    ∧ (∀ id, is_Some (Projects_show api id) →
         count_occ Request_eq_dec new (ShowProject id) ≤ 1
         ∧ (ShowProject id ∈ new → is_Some (projectNameCache g !! id))).

End GitLabAdapterSpec.

(** ** The GitHub adapter: commits read from the repositories
    ([integrations/github.ts])

    [fetchCommitsForDate], which [getActivityForDate] calls with a day
    string that has passed its format check and with the payload built
    from the events. The instants [since] and [until] of a request stand
    for their ISO renderings. *)

Module GitHubAdapter.
Import DateModel DayFormat GitLabAdapter.

(** The fields of a commit of the commits API that the adapter reads:
    [commit.commit.message] and [commit.commit.author?.date]. *)
Record RepoCommit := mkRepoCommit {
  rc_message : string;
  rc_author_date : option string }.

Record Repo := mkRepo {
  owner_login : string;
  repo_name : string;
  full_name : string;
  default_branch : option string }.

(** The GitHub client: the answer of each request, [None] when the
    request throws. [repos_listCommits owner repo author since until]. *)
Record GitHubApi := mkGitHubApi {
  repos_listForAuthenticatedUser : option (list Repo);
  repos_listCommits : string → string → string → Z → Z → option (list RepoCommit) }.

Record GitHubIntegration := mkGitHub {
  gh_client : option GitHubApi;
  username : option string }.

(** The commit has an author date and it is on another day than
    [dateStr]. *)
Definition onOtherDay (dateStr : string) (commit : RepoCommit) : bool :=
  match rc_author_date commit with
  | Some d =>
      if decide (d = "") then false
      else negb (bool_decide (default "" (head (splitOn "T" d)) = dateStr))
  | None => false
  end.

(** [activity.commits.some(c => c.message === message)]. *)
Definition hasMessage (msg : string) (activity : GitLabActivity) : bool :=
  existsb (λ c, bool_decide (message c = msg)) (commits activity).

(** One iteration of [for (const commit of commits)]. *)
Definition addCommit (dateStr : string) (repo : Repo) (activity : GitLabActivity)
    (commit : RepoCommit) : GitLabActivity :=
  if onOtherDay dateStr commit then activity
  else if hasMessage (rc_message commit) activity then activity
  else if decide (rc_message commit = "") then activity
  else
    pushCommit (mkCommit (rc_message commit) (full_name repo)
                  (orElse (default_branch repo) "main")) activity.

(** One iteration of [for (const repo of repos)]: a repository whose
    request throws is skipped. *)
Definition addRepo (api : GitHubApi) (user dateStr : string) (dayStart dayEnd : Z)
    (activity : GitLabActivity) (repo : Repo) : GitLabActivity :=
  match repos_listCommits api (owner_login repo) (repo_name repo) user dayStart dayEnd with
  | Some commits => foldl (addCommit dateStr repo) activity commits
  | None => activity
  end.

(** The last second of the local day that starts at [dayStart]:
    [new Date(year, month - 1, day, 23, 59, 59)]. *)
Definition endOfDay (dayStart : Z) : Z := (dayStart + 86399000)%Z.

(** [fetchCommitsForDate(dateStr, activity)]: the payload afterwards. *)
Definition fetchCommitsForDate (tz : Z) (dateStr : string) (g : GitHubIntegration)
    (activity : GitLabActivity) : GitLabActivity :=
  match gh_client g, username g with
  | Some api, Some user =>
      if decide (user = "") then activity
      else
        match parseDay tz dateStr with
        | Some dayStart =>
            match repos_listForAuthenticatedUser api with
            | Some repos =>
                foldl (addRepo api user dateStr dayStart (endOfDay dayStart)) activity repos
            | None => activity
            end
        | None => activity
        end
  | _, _ => activity
  end.

End GitHubAdapter.

Module GitHubAdapterSpec.
Import DateModel DayFormat GitLabAdapter GitHubAdapter.

(** The messages of the commits of a payload. *)
Definition messages (activity : GitLabActivity) : list string :=
  message <$> commits activity.

(** The payload [a'] is [a] with commits added at the end: the added
    commits have messages that are not empty, not among those of [a], and
    pairwise different. *)
Definition addsFresh (a a' : GitLabActivity) : Prop :=
  ∃ added, commits a' = commits a ++ added
    ∧ mergeRequests a' = mergeRequests a ∧ issues a' = issues a
    ∧ ga_date a' = ga_date a
    ∧ NoDup (message <$> added)
    ∧ (∀ c, c ∈ added → message c ≠ "" ∧ message c ∉ messages a).

(** A sample client: two repositories hold a commit with the same
    message. *)
Definition sampleRepo (name : string) : Repo := mkRepo "me" name ("me/" +:+ name) None.

Definition sampleGitHubApi : GitHubApi :=
  mkGitHubApi (Some [sampleRepo "a"; sampleRepo "b"])
    (λ _ _ _ _ _, Some [mkRepoCommit "merge main" None]).

Definition sampleGitHub : GitHubIntegration := mkGitHub (Some sampleGitHubApi) (Some "me").

End GitHubAdapterSpec.

(** ** The Google calendar adapter ([integrations/googleCalendar.ts])

    [getEventsForDate] and [refreshAccessToken]. The adapter talks to the
    calendar API and to the OAuth2 client of the library; both are given
    by their answers, the [n]-th list request and the [n]-th refresh
    having an answer of their own. Whether the credentials the library
    holds are expired when an attempt starts is an answer of the
    environment too. A date-time string of an event is given by the
    instant it denotes. *)

Module GoogleCalendarAdapter.
Import DateModel DayFormat GitLabAdapter.

(** The fields of an event that the adapter reads: [summary],
    [start?.dateTime], [end?.dateTime] and [attendees?.length]. An absent
    field is [None], and so is an empty date-time string. *)
Record ApiEvent := mkApiEvent {
  summary : option string;
  start_dateTime : option Z;
  end_dateTime : option Z;
  attendees_length : option nat }.

(** The tokens of a refresh as the library returns them; a field may be
    missing. *)
Record Credentials := mkCredentials {
  access_token : option string;
  refresh_token : option string;
  expiry_date : option Z }.

(** What the adapter throws: its own errors, and an error of the API, of
    the library or of the callback with its [code]. *)
Inductive CalendarError :=
| NotInitialized
| ClientNotInitialized
| BadDayFormat
| FailedToRefresh
| Thrown (code : option Z).

(** [error.code]. *)
Definition codeOf (e : CalendarError) : option Z :=
  match e with
  | Thrown code => code
  | _ => None
  end.

Record Environment := mkEnvironment {
  (** the credentials have an expiry date and it is before [Date.now()],
      after the given numbers of list requests and refreshes *)
  expired : nat → nat → bool;
  (** [calendar.events.list] with [timeMin] and [timeMax]:
      [response.data.items] or the error *)
  events_list : nat → Z → Z → CalendarError + option (list ApiEvent);
  (** [oauth2Client.refreshAccessToken()] *)
  library_refresh : nat → CalendarError + Credentials;
  (** [onTokenRefresh], when one was given to [initialize] *)
  onTokenRefresh : option (nat → option CalendarError) }.

(** The state of a call: whether [initialize] has run, and the numbers of
    list requests and of refreshes made so far. *)
Record Adapter := mkAdapter {
  initialized : bool;
  lists : nat;
  refreshes : nat }.

Inductive Outcome (A : Type) :=
| Returned (value : A)
| Threw (error : CalendarError).
Arguments Returned {A} _.
Arguments Threw {A} _.

(** [s] is a string that counts as given. *)
Definition present (s : option string) : bool :=
  match s with
  | Some s => negb (bool_decide (s = ""))
  | None => false
  end.

(** [refreshAccessToken()]: the error it throws, if any. *)
Definition refreshAccessToken (env : Environment) (g : Adapter)
    : option CalendarError * Adapter :=
  if negb (initialized g) then (Some ClientNotInitialized, g)
  else
    let g1 := mkAdapter (initialized g) (lists g) (S (refreshes g)) in
    match library_refresh env (refreshes g) with
    | inl e => (Some e, g1)
    | inr credentials =>
        if negb (present (access_token credentials))
           || negb (present (refresh_token credentials))
           || negb (bool_decide (is_Some (expiry_date credentials)
                                 ∧ expiry_date credentials ≠ Some 0%Z))
        then (Some FailedToRefresh, g1)
        else
          match onTokenRefresh env with
          | Some callback => (callback (refreshes g), g1)
          | None => (None, g1)
          end
    end.

(** The events that have a start and an end time, as calendar events. *)
Definition toCalendarEvents (items : list ApiEvent) : list CalendarEvent :=
  omap (λ event,
          match start_dateTime event, end_dateTime event with
          | Some s, Some e =>
              Some (mkCalendarEvent (orElse (summary event) "Untitled Event") s e
                      (Some (default 0 (attendees_length event))))
          | _, _ => None
          end) items.

(** The body of the [try] block: the error it throws or what it
    returns. *)
Definition attempt (env : Environment) (dayStart dayEnd : Z) (g : Adapter)
    : Outcome (list CalendarEvent) * Adapter :=
  let '(failed, g1) :=
    if expired env (lists g) (refreshes g) then refreshAccessToken env g else (None, g) in
  match failed with
  | Some e => (Threw e, g1)
  | None =>
      let g2 := mkAdapter (initialized g1) (S (lists g1)) (refreshes g1) in
      match events_list env (lists g1) dayStart dayEnd with
      | inl e => (Threw e, g2)
      | inr items => (Returned (toCalendarEvents (default [] items)), g2)
      end
  end.

(** [getEventsForDate(dateStr)]. [None]: the call is still retrying when
    the fuel is used up. A day string that passes the format check always
    parses, so the second [BadDayFormat] branch is never taken. *)
Fixpoint getEventsForDate (fuel : nat) (tz : Z) (env : Environment) (dateStr : string)
    (g : Adapter) : option (Outcome (list CalendarEvent) * Adapter) :=
  match fuel with
  | O => None
  | S fuel' =>
      if negb (initialized g) then Some (Threw NotInitialized, g)
      else if negb (isDayFormat dateStr) then Some (Threw BadDayFormat, g)
      else
        match parseDay tz dateStr with
        | None => Some (Threw BadDayFormat, g)
        | Some dayStart =>
            match attempt env dayStart (dayStart + 86399000)%Z g with
            | (Returned events, g1) => Some (Returned events, g1)
            | (Threw e, g1) =>
                if decide (codeOf e = Some 401%Z) then
                  match refreshAccessToken env g1 with
                  | (Some e', g2) => Some (Threw e', g2)
                  | (None, g2) => getEventsForDate fuel' tz env dateStr g2
                  end
                else Some (Threw e, g1)
            end
        end
  end.

End GoogleCalendarAdapter.

Module GoogleCalendarAdapterSpec.
Import DateModel DayFormat GoogleCalendarAdapter.

(** The last second of the local day that starts at [dayStart]. *)
Definition dayEndOf (dayStart : Z) : Z := (dayStart + 86399000)%Z.

(** The list request number [n] for the day is answered with an error of
    code 401. *)
Definition unauthorized (env : Environment) (dayStart : Z) (n : nat) : Prop :=
  ∃ e, events_list env n dayStart (dayEndOf dayStart) = inl e ∧ codeOf e = Some 401%Z.

(** Every refresh succeeds: the library returns complete tokens and the
    callback, if there is one, does not throw. *)
Definition refreshWorks (env : Environment) : Prop :=
  ∀ l r, (refreshAccessToken env (mkAdapter true l r)).1 = None.

(** Sample environments: the credentials never expire and every refresh
    succeeds; the API rejects every request with code 401, or answers the
    second request with a meeting and an all-day event. *)
Definition sampleCredentials : Credentials :=
  mkCredentials (Some "access") (Some "refresh") (Some 1764300000000%Z).

Definition alwaysUnauthorized : Environment :=
  mkEnvironment (λ _ _, false) (λ _ _ _, inl (Thrown (Some 401%Z)))
    (λ _, inr sampleCredentials) None.

Definition secondTimeLucky : Environment :=
  mkEnvironment (λ _ _, false)
    (λ n _ _, if n =? 0 then inl (Thrown (Some 401%Z))
              else inr (Some [mkApiEvent (Some "standup") (Some 10%Z) (Some 20%Z) (Some 3);
                              mkApiEvent (Some "holiday") None None None]))
    (λ _, inr sampleCredentials) None.

End GoogleCalendarAdapterSpec.

(** ** Token storage ([utils/tokenStorage.ts])

    The token file holds a [TokenStore] or is missing; a file that cannot
    be parsed is read like a missing one. *)

Module TokenStorage.

(** What is stored for GitLab: a personal access token, or the tokens of
    the OAuth flow. *)
Inductive GitLabCredential :=
| PersonalToken (token : string)
| OAuthTokens (access_token refresh_token : string) (created_at : Z)
    (expires_in : option Z).

Record CalendarTokens := mkCalendarTokens {
  ct_access_token : string;
  ct_refresh_token : string;
  ct_expiry_date : Z }.

Record TokenStore := mkTokenStore {
  ts_gitlab : option GitLabCredential;
  ts_github : option string;
  ts_google : option CalendarTokens;
  ts_outlook : option CalendarTokens }.

(** The object state of [TokenStorage] and the contents of the token
    file ([None]: no file yet). *)
Record TokenStorage := mkTokenStorage {
  tokens : TokenStore;
  tokenFile : option TokenStore }.

Definition emptyStore : TokenStore := mkTokenStore None None None None.

Definition load (t : TokenStorage) : TokenStorage :=
  mkTokenStorage (default emptyStore (tokenFile t)) (tokenFile t).

Definition save (t : TokenStorage) : TokenStorage :=
  mkTokenStorage (tokens t) (Some (tokens t)).

Definition getGitLabToken (t : TokenStorage) : option string :=
  match ts_gitlab (tokens t) with
  | Some (PersonalToken token) => Some token
  | Some (OAuthTokens access_token _ _ _) => Some access_token
  | None => None
  end.

Definition setGitLabToken (token : string) (t : TokenStorage) : TokenStorage :=
  let s := tokens t in
  save (mkTokenStorage
          (mkTokenStore (Some (PersonalToken token)) (ts_github s) (ts_google s)
             (ts_outlook s))
          (tokenFile t)).

Definition setGitLabOAuthTokens (c : GitLabCredential) (t : TokenStorage) : TokenStorage :=
  let s := tokens t in
  save (mkTokenStorage (mkTokenStore (Some c) (ts_github s) (ts_google s) (ts_outlook s))
          (tokenFile t)).

Definition getGitHubToken (t : TokenStorage) : option string := ts_github (tokens t).

Definition setGitHubToken (token : string) (t : TokenStorage) : TokenStorage :=
  let s := tokens t in
  save (mkTokenStorage (mkTokenStore (ts_gitlab s) (Some token) (ts_google s) (ts_outlook s))
          (tokenFile t)).

Definition getGoogleTokens (t : TokenStorage) : option CalendarTokens :=
  ts_google (tokens t).

Definition setGoogleTokens (c : option CalendarTokens) (t : TokenStorage) : TokenStorage :=
  let s := tokens t in
  save (mkTokenStorage (mkTokenStore (ts_gitlab s) (ts_github s) c (ts_outlook s))
          (tokenFile t)).

Definition getOutlookTokens (t : TokenStorage) : option CalendarTokens :=
  ts_outlook (tokens t).

Definition setOutlookTokens (c : option CalendarTokens) (t : TokenStorage) : TokenStorage :=
  let s := tokens t in
  save (mkTokenStorage (mkTokenStore (ts_gitlab s) (ts_github s) (ts_google s) c)
          (tokenFile t)).

Definition clearAll (t : TokenStorage) : TokenStorage :=
  save (mkTokenStorage emptyStore (tokenFile t)).

(** [!!s] for a string that may be absent. *)
Definition truthy (s : option string) : bool :=
  match s with
  | Some s => negb (bool_decide (s = ""))
  | None => false
  end.

Definition hasGitLabToken (t : TokenStorage) : bool :=
  match ts_gitlab (tokens t) with
  | Some (PersonalToken token) => truthy (Some token)
  | Some (OAuthTokens _ _ _ _) => true
  | None => false
  end.

Definition hasGitHubToken (t : TokenStorage) : bool := truthy (ts_github (tokens t)).

Definition hasGoogleTokens (t : TokenStorage) : bool :=
  truthy (ct_access_token <$> ts_google (tokens t)).

Definition hasOutlookTokens (t : TokenStorage) : bool :=
  truthy (ct_access_token <$> ts_outlook (tokens t)).

End TokenStorage.

Module TokenStorageSpec.
Import TokenStorage.

(** A new [TokenStorage] object of a process that finds the token file
    [file]: nothing is read yet. *)
Definition fresh (file : option TokenStore) : TokenStorage :=
  mkTokenStorage emptyStore file.

Definition sampleTokens : TokenStore :=
  mkTokenStore (Some (PersonalToken "glpat")) (Some "ghp") None None.

End TokenStorageSpec.

(** ** The tool handlers of the server

    [handleClearCache] and [handleFetchGitLabActivity] with its two
    branches. A handler returns what its answer is rendered from (the
    payloads, the totals, the flags) and not the text itself; a thrown
    error is its constructor of [HandlerError]. The clock does not move
    during a call, and the configuration file only supplies the host the
    client is built for, so it is part of [initializes]. *)

Module Handlers.
Import DateModel DateSpec DayFormat Cache Orchestrator.

(** The arguments of a tool call; a missing property is [None]. *)
Record ToolArgs := mkToolArgs {
  arg_date : option string;
  arg_start_date : option string;
  arg_end_date : option string;
  arg_force_refresh : option bool;
  arg_scope : option string }.

(** The message of the error a handler throws:
    ['GitLab not configured. ...'],
    ['Either date OR start_date+end_date must be provided'],
    ['Invalid date format. ...'],
    ['start_date must be before or equal to end_date'], the error of
    [initialize], or the reason a fetch helper rejected with. *)
Inductive HandlerError :=
| NotConfigured
| NoDateGiven
| InvalidDateFormat
| StartAfterEnd
| InitializeFailed
| FetchFailed (reason : Error).

Inductive Result (A : Type) :=
| Ok (value : A)
| Failed (error : HandlerError).
Arguments Ok {A} _.
Arguments Failed {A} _.

(** The state of the server that the handlers touch. *)
Record Server := mkServer {
  tokenStorage : TokenStorage.TokenStorage;
  world : World }.

(** An entry of [allActivities]. *)
Record RangeEntry := mkRangeEntry {
  entry_activity : GitLabActivity;
  isFuture : bool }.

(** The local variables of the range loop. [allActivities] is an object
    keyed by day strings; such keys are listed in the order they were
    first set. *)
Record RangeState := mkRange {
  allActivities : list (string * RangeEntry);
  totalCommits : nat;
  totalMRs : nat;
  totalIssues : nat;
  cacheHits : nat;
  freshFetches : nat }.

(** What the text of an answer is rendered from. *)
Inductive Report :=
| FutureDate (dateStr : string)
| OneDay (dateStr : string) (activity : GitLabActivity) (fromCache : bool)
| DayRange (startDateStr endDateStr : string) (summary : RangeState).

(** [obj[key] = value] on an object whose keys are not array indices. *)
Fixpoint objSet {V} (key : string) (value : V) (obj : list (string * V))
    : list (string * V) :=
  match obj with
  | [] => [(key, value)]
  | (k, v) :: rest =>
      if decide (k = key) then (k, value) :: rest else (k, v) :: objSet key value rest
  end.

(** [today = new Date(); today.setHours(0, 0, 0, 0)]. *)
Definition todayOf (tz now : Z) : Z := startOfLocalDay tz now.

Section Tools.

Variable tz : Z.
Variable now : Z.
Variable P : Providers.
(** Whether the request of [gitlab.initialize(token, url)] for the
    current user succeeds. *)
Variable initializes : string → bool.

(** [await this.gitlab.initialize(gitlabToken, url)]: the adapter builds
    its client and asks the provider for the current user; the call
    rejects when that request does. *)
Definition initializeGitLab (gitlabToken : string) (w : World) : World * bool :=
  (logOp (Initialize GitLab) w, initializes gitlabToken).

(** The body of [while (currentDate <= endDate)], from the current value
    of [currentDate]. [None]: the loop is still running when the fuel is
    used up. *)
Fixpoint rangeLoop (fuel : nat) (currentDate endDate : Z) (forceRefresh : bool)
    (st : RangeState) (w : World) : option (World * Result RangeState) :=
  match fuel with
  | O => None
  | S fuel' =>
      if (currentDate <=? endDate)%Z then
        let dateStr := localDateStr tz currentDate in
        let next := setDate tz currentDate (getDate tz currentDate + 1) in
        if (todayOf tz now <? currentDate)%Z then
          rangeLoop fuel' next endDate forceRefresh
            (mkRange
               (objSet dateStr (mkRangeEntry (mkGitLabActivity currentDate [] [] []) true)
                  (allActivities st))
               (totalCommits st) (totalMRs st) (totalIssues st) (cacheHits st)
               (freshFetches st))
            w
        else
          let '(w1, r) := run (fetchGitLabActivityWithCache tz now P dateStr forceRefresh) w in
          match r with
          | RejectedWith e => Some (w1, Failed (FetchFailed e))
          | Fulfilled f =>
              let activity := gf_activity f in
              rangeLoop fuel' next endDate forceRefresh
                (mkRange
                   (objSet dateStr (mkRangeEntry activity false) (allActivities st))
                   (totalCommits st + length (commits activity))
                   (totalMRs st + length (mergeRequests activity))
                   (totalIssues st + length (issues activity))
                   (if gf_fromCache f then S (cacheHits st) else cacheHits st)
                   (if gf_fromCache f then freshFetches st else S (freshFetches st)))
                w1
          end
      else Some (w, Ok st)
  end.

Definition emptyRange : RangeState := mkRange [] 0 0 0 0 0.

(** [args?.force_refresh ?? false]. *)
Definition forceRefreshOf (args : ToolArgs) : bool := default false (arg_force_refresh args).

Definition handleFetchGitLabActivityRange (fuel : nat) (startDateStr endDateStr : string)
    (args : ToolArgs) (gitlabToken : string) (w : World) : option (World * Result Report) :=
  if negb (isDayFormat startDateStr) || negb (isDayFormat endDateStr) then
    Some (w, Failed InvalidDateFormat)
  else
    match parseDay tz startDateStr, parseDay tz endDateStr with
    | Some startDate, Some endDate =>
        if (endDate <? startDate)%Z then Some (w, Failed StartAfterEnd)
        else
          let '(w0, initialized) := initializeGitLab gitlabToken w in
          if negb initialized then Some (w0, Failed InitializeFailed)
          else
            match rangeLoop fuel startDate endDate (forceRefreshOf args) emptyRange w0 with
            | Some (w', Ok st) => Some (w', Ok (DayRange startDateStr endDateStr st))
            | Some (w', Failed e) => Some (w', Failed e)
            | None => None
            end
    | _, _ => Some (w, Failed InvalidDateFormat)
    end.

Definition handleFetchGitLabActivitySingle (dateStr : string) (args : ToolArgs)
    (gitlabToken : string) (w : World) : World * Result Report :=
  if negb (isDayFormat dateStr) then (w, Failed InvalidDateFormat)
  else
    match parseDay tz dateStr with
    | None => (w, Failed InvalidDateFormat)
    | Some date =>
        if (todayOf tz now <? date)%Z then (w, Ok (FutureDate dateStr))
        else
          let '(w0, initialized) := initializeGitLab gitlabToken w in
          if negb initialized then (w0, Failed InitializeFailed)
          else
            let '(w1, r) :=
              run (fetchGitLabActivityWithCache tz now P dateStr (forceRefreshOf args)) w0 in
            match r with
            | RejectedWith e => (w1, Failed (FetchFailed e))
            | Fulfilled f => (w1, Ok (OneDay dateStr (gf_activity f) (gf_fromCache f)))
            end
    end.

(** [s] is a property value that counts as given: a non-empty string. *)
Definition given (s : option string) : option string :=
  match s with
  | Some s => if decide (s = "") then None else Some s
  | None => None
  end.

(** [handleFetchGitLabActivity(args)]. Both stores are read from their
    files first. *)
Definition handleFetchGitLabActivity (fuel : nat) (args : ToolArgs) (srv : Server)
    : option (Server * Result Report) :=
  let ts := TokenStorage.load (tokenStorage srv) in
  let w := mkWorld (Cache.load (activityCache (world srv))) (trace (world srv)) in
  match given (TokenStorage.getGitLabToken ts) with
  | None => Some (mkServer ts w, Failed NotConfigured)
  | Some gitlabToken =>
      match given (arg_start_date args), given (arg_end_date args) with
      | Some startDateStr, Some endDateStr =>
          match handleFetchGitLabActivityRange fuel startDateStr endDateStr args
                  gitlabToken w with
          | Some (w', r) => Some (mkServer ts w', r)
          | None => None
          end
      | _, _ =>
          match given (arg_date args) with
          | Some dateStr =>
              let '(w', r) := handleFetchGitLabActivitySingle dateStr args gitlabToken w in
              Some (mkServer ts w', r)
          | None => Some (mkServer ts w, Failed NoDateGiven)
          end
      end
  end.

(** [getCacheInfo()], its three counts. *)
Definition getCacheInfo (c : ActivityCache) : nat * nat * nat :=
  (size (gitlab (cache c)), size (googleCalendar (cache c)),
   size (outlookCalendar (cache c))).

(** [c.toLowerCase()] on a character of the Basic Latin block. *)
Definition lowerChar (c : ascii) : ascii :=
  let n := nat_of_ascii c in
  if (65 <=? n) && (n <=? 90) then ascii_of_nat (n + 32) else c.

(** [scope.toLowerCase()]. The letters of the Basic Latin block are
    lowered and every other byte is kept: no character outside the block
    is lowered to a letter of the four scope names, so a comparison with
    one of them comes out as in the code. *)
Fixpoint toLowerCase (s : string) : string :=
  match s with
  | EmptyString => EmptyString
  | String c rest => String (lowerChar c) (toLowerCase rest)
  end.

Inductive Cleared := ClearedGitLab | ClearedCalendars | ClearedExpired | ClearedAll.

(** [handleClearCache(args)]: which clearing ran (the first line of the
    message) and the three counts reported after it. *)
Definition handleClearCache (args : ToolArgs) (c : ActivityCache)
    : Cleared * (nat * nat * nat) * ActivityCache :=
  let c0 := Cache.load c in
  let scope := default "all" (given (arg_scope args)) in
  let lower := toLowerCase scope in
  let '(what, c1) :=
    if decide (lower = "gitlab") then (ClearedGitLab, clearGitLab c0)
    else if decide (lower = "calendars") then (ClearedCalendars, clearCalendars c0)
    else if decide (lower = "expired") then (ClearedExpired, clearExpired now c0)
    else (ClearedAll, clearAll c0) in
  (what, getCacheInfo c1, c1).

End Tools.

End Handlers.

Module HandlerSpec.
Import DateModel DateSpec DayFormat Cache Orchestrator OrchestratorSpec Handlers.

(** The [i]-th day from [start]. *)
Definition dayAt (start : Z) (i : nat) : Z := (start + Z.of_nat i * msPerDay)%Z.

(** The day strings of [n] days from [start]. *)
Definition dayStrings (tz start : Z) (n : nat) : list string :=
  (λ i, localDateStr tz (dayAt start i)) <$> seq 0 n.

(** The number of days from [start] to [finish], both included. *)
Definition daysInRange (start finish : Z) : nat :=
  Z.to_nat ((finish - start) / msPerDay + 1).

Definition commitsOf (kv : string * RangeEntry) : nat :=
  length (commits (entry_activity kv.2)).
Definition mergeRequestsOf (kv : string * RangeEntry) : nat :=
  length (mergeRequests (entry_activity kv.2)).
Definition issuesOf (kv : string * RangeEntry) : nat :=
  length (issues (entry_activity kv.2)).

(** The number of entries that were fetched or read from the cache. *)
Definition obtained (entries : list (string * RangeEntry)) : nat :=
  sum_list_with (λ kv, if isFuture kv.2 then 0 else 1) entries.

(** The day strings the provider was asked for, in order. *)
Definition askedFor (ops : list Op) : list string :=
  omap (λ op, match op with Fetch GitLab s => Some s | _ => None end) ops.

Definition noArgs : ToolArgs := mkToolArgs None None None None None.

(** The server after both stores were read from their files. *)
Definition loaded (srv : Server) : Server :=
  mkServer (TokenStorage.load (tokenStorage srv))
    (mkWorld (Cache.load (activityCache (world srv))) (trace (world srv))).

(** The server after both stores were read and [initialize] asked the
    provider for the current user. *)
Definition initializeTried (srv : Server) : Server :=
  mkServer (tokenStorage (loaded srv)) (logOp (Initialize GitLab) (world (loaded srv))).

(** Sample values: an instant on 2025-11-28, a client that always
    initializes, and the arguments that force a refresh. *)
Definition sampleNow : Z := 1764300000000.
Definition alwaysInitializes (token : string) : bool := true.
Definition refreshArgs : ToolArgs := mkToolArgs None None None (Some true) None.

(** Providers whose GitLab adapter, as [getActivityForDate] of
    [integrations/gitlab.ts] does, rejects a string that is not in day
    format. *)
Definition strictProviders : Providers :=
  mkProviders (λ s, if isDayFormat s then Some (oneCommit s) else None)
    (λ s, Some (oneCommit s)) (λ _, Some [standup]) (λ _, Some []).

(** What the loop keeps true of its local variables. *)
Definition rangeInv (st : RangeState) : Prop :=
  totalCommits st = sum_list_with commitsOf (allActivities st)
  ∧ totalMRs st = sum_list_with mergeRequestsOf (allActivities st)
  ∧ totalIssues st = sum_list_with issuesOf (allActivities st)
  ∧ cacheHits st + freshFetches st = obtained (allActivities st).

End HandlerSpec.

(** ** The OAuth callback server

    The port scan of [start] and the escaping of the text put into the
    answer page. A string is its sequence of bytes in UTF-8: the five
    characters that are escaped are single bytes there and occur in no
    other character. *)

Module OAuthServer.

Definition quoteChar : ascii := ascii_of_nat 34.

(** [map[m]] for a character [m] that the pattern of [escapeHtml] matches
    (ampersand, angle brackets, double and single quote), and the character
    itself otherwise. *)
Definition escapeChar (c : ascii) : string :=
  if Ascii.eqb c "&" then "&amp;"
  else if Ascii.eqb c "<" then "&lt;"
  else if Ascii.eqb c ">" then "&gt;"
  else if Ascii.eqb c quoteChar then "&quot;"
  else if Ascii.eqb c "'" then "&#039;"
  else String c "".

(** [escapeHtml(text)]: every match of the pattern is replaced by its
    entry of [map], the other characters are kept. *)
Fixpoint escapeHtml (text : string) : string :=
  match text with
  | EmptyString => ""
  | String c rest => escapeChar c +:+ escapeHtml rest
  end.

Inductive StartError := NoAvailablePorts (startPort endPort : nat) | FailedToStart.

(** The range of ports that is scanned when the options give none. *)
#[warnings="-abstract-large-number"] Definition defaultStartPort : nat := 8080.
#[warnings="-abstract-large-number"] Definition defaultEndPort : nat := 8090.

(** [n || dflt] for a number that may be absent. *)
Definition orDefault (n : option nat) (dflt : nat) : nat :=
  match n with
  | Some 0 => dflt
  | Some n => n
  | None => dflt
  end.

(** The loop [for (let port = ...; port <= endPort; port++)] of [start],
    with [remaining] ports left to try from [port] on; [canListen] tells
    whether [tryStartServer(port)] succeeds. *)
Fixpoint tryPorts (canListen : nat → bool) (startPort endPort : nat)
    (remaining port : nat) : StartError + nat :=
  match remaining with
  | O => inl FailedToStart
  | S remaining' =>
      if canListen port then inr port
      else if port =? endPort then inl (NoAvailablePorts startPort endPort)
      else tryPorts canListen startPort endPort remaining' (S port)
  end.

(** [start(options)]: the port the server listens on, or the error. *)
Definition start (canListen : nat → bool) (optStartPort optEndPort : option nat)
    : StartError + nat :=
  let startPort := orDefault optStartPort defaultStartPort in
  let endPort := orDefault optEndPort defaultEndPort in
  tryPorts canListen startPort endPort (S endPort - startPort) startPort.

End OAuthServer.

Module OAuthServerSpec.
Import OAuthServer.

(** A character that opens or closes markup or an attribute value. *)
Definition isMarkup (c : ascii) : bool :=
  Ascii.eqb c "<" || Ascii.eqb c ">" || Ascii.eqb c quoteChar || Ascii.eqb c "'".

Fixpoint hasMarkup (s : string) : bool :=
  match s with
  | EmptyString => false
  | String c rest => isMarkup c || hasMarkup rest
  end.

(** [pre] is a prefix of [s]. *)
Fixpoint startsWith (pre s : string) : bool :=
  match pre, s with
  | EmptyString, _ => true
  | String a pre', String b s' => Ascii.eqb a b && startsWith pre' s'
  | String _ _, EmptyString => false
  end.

(** Every ampersand of [s] starts one of the five character references
    [escapeHtml] writes. *)
Fixpoint ampersandsEscaped (s : string) : bool :=
  match s with
  | EmptyString => true
  | String c rest =>
      (negb (Ascii.eqb c "&")
       || startsWith "amp;" rest || startsWith "lt;" rest || startsWith "gt;" rest
       || startsWith "quot;" rest || startsWith "#039;" rest)
      && ampersandsEscaped rest
  end.

End OAuthServerSpec.

(** ** The progress tracker ([ProgressTracker])

    [Date.now()] is read from a clock: the state counts the readings
    made, and reading number [n] gives [clock n]. *)

Module ProgressTracker.

Record ProgressStep := mkStep {
  step : string;
  startTime : Z;
  endTime : option Z;
  duration : option Z }.

Record Tracker := mkTracker {
  steps : list ProgressStep;
  currentStep : option string;
  trackerStart : Z;
  readings : nat }.

(** A line of the report: the step, [step.duration || 0], and whether it
    gets the icon of a slow step. *)
Record ReportLine := mkLine {
  line_step : string;
  line_duration : Z;
  line_slow : bool }.

(** A call of one of the three methods that change the steps. *)
Inductive Call :=
| Start (name : string)
| Update (name : string)
| Complete.

Section Clock.

Variable clock : nat → Z.

(** [Date.now()]. *)
Definition now (t : Tracker) : Z * Tracker :=
  (clock (readings t),
   mkTracker (steps t) (currentStep t) (trackerStart t) (S (readings t))).

(** [new ProgressTracker()], when [n] readings of the clock were made
    before. *)
Definition create (n : nat) : Tracker := mkTracker [] None (clock n) (S n).

(** [this.currentStep && this.steps.length > 0]. *)
Definition inProgress (t : Tracker) : bool :=
  match currentStep t with
  | Some name => negb (bool_decide (name = "")) && (0 <? length (steps t))
  | None => false
  end.

(** [this.steps[this.steps.length - 1]] replaced by [f] of it. *)
Definition alterLast (f : ProgressStep → ProgressStep) (l : list ProgressStep)
    : list ProgressStep :=
  alter f (length l - 1) l.

Definition complete (t : Tracker) : Tracker :=
  if inProgress t then
    let '(n, t1) := now t in
    mkTracker
      (alterLast (λ s, mkStep (step s) (startTime s) (Some n) (Some (n - startTime s)%Z))
         (steps t1))
      None (trackerStart t1) (readings t1)
  else t.

(** [this.currentStep] is set: it is a non-empty string. *)
Definition hasCurrent (t : Tracker) : bool :=
  match currentStep t with
  | Some name => negb (bool_decide (name = ""))
  | None => false
  end.

Definition start (name : string) (t : Tracker) : Tracker :=
  let t1 := if hasCurrent t then complete t else t in
  let '(n, t2) := now t1 in
  mkTracker (steps t2 ++ [mkStep name n None None]) (Some name) (trackerStart t2)
    (readings t2).

Definition update (name : string) (t : Tracker) : Tracker :=
  if inProgress t then
    mkTracker
      (alterLast (λ s, mkStep name (startTime s) (endTime s) (duration s)) (steps t))
      (Some name) (trackerStart t) (readings t)
  else start name t.

(** The line of a step in the report. *)
Definition lineOf (s : ProgressStep) : ReportLine :=
  let d := default 0%Z (duration s) in
  mkLine (step s) d (2000 <? d)%Z.

(** [getReport()]: its lines and the total duration, and the tracker
    afterwards. *)
Definition getReport (t : Tracker) : list ReportLine * Z * Tracker :=
  let t1 := complete t in
  let '(n, t2) := now t1 in
  (lineOf <$> steps t2, (n - trackerStart t2)%Z, t2).

Definition call (t : Tracker) (c : Call) : Tracker :=
  match c with
  | Start name => start name t
  | Update name => update name t
  | Complete => complete t
  end.

End Clock.

End ProgressTracker.

Module ProgressTrackerSpec.
Import ProgressTracker.

(** The time the completed steps took. *)
Definition timeSpent (l : list ProgressStep) : Z :=
  foldr (λ s acc, (default 0 (duration s) + acc)%Z) 0%Z l.

(** The sum of the durations of the lines of a report. *)
Definition reported (lines : list ReportLine) : Z :=
  foldr (λ l acc, (line_duration l + acc)%Z) 0%Z lines.

(** The names given by a list of calls. *)
Definition nameOf (c : Call) : option string :=
  match c with
  | Start name => Some name
  | Update name => Some name
  | Complete => None
  end.

(** A step that has a name is completed. *)
Definition namedIsDone (s : ProgressStep) : Prop := step s ≠ "" → is_Some (duration s).

(** What holds of a tracker between calls, when [last] is the latest
    reading of the clock. The completed steps lie one after the other
    between the creation and the start of the step in progress, which
    started before [last]; when no step is in progress they lie between
    the creation and [last]. A step that is not completed has an empty
    name, unless it is the one in progress. *)
Definition trackerInv (clock : nat → Z) (t : Tracker) : Prop :=
  let last := clock (readings t - 1) in
  0 < readings t
  ∧ Forall (λ s, (0 ≤ default 0 (duration s))%Z) (steps t)
  ∧ if hasCurrent t then
      ∃ front s, steps t = front ++ [s] ∧ duration s = None
        ∧ currentStep t = Some (step s)
        ∧ (trackerStart t + timeSpent front ≤ startTime s)%Z
        ∧ (startTime s ≤ last)%Z
        ∧ Forall namedIsDone front
    else
      (trackerStart t + timeSpent (steps t) ≤ last)%Z
      ∧ Forall namedIsDone (steps t).

End ProgressTrackerSpec.

(** * Properties *)

(** ** Generic facts *)

Lemma foldl_seq_invariant {S} (Q : nat → S → Prop) (f : S → nat → S) (s0 : S) (a n : nat) :
  Q a s0 →
  (∀ i s, a ≤ i < a + n → Q i s → Q (Datatypes.S i) (f s i)) →
  Q (a + n) (foldl f s0 (seq a n)).
Proof.
  revert a s0. induction n as [|n IH]; intros a s0 H0 Hstep; simpl.
  - by rewrite Nat.add_0_r.
  - rewrite <- Nat.add_succ_comm. apply IH.
    + apply Hstep; [lia | done].
    + intros i s Hi. apply Hstep. lia.
Qed.

Lemma append_cons c (a b : string) : String c a +:+ b = String c (a +:+ b).
Proof. reflexivity. Qed.

Lemma append_assoc (a b c : string) : (a +:+ b) +:+ c = a +:+ (b +:+ c).
Proof. induction a as [|x a IH]; [done|]. by rewrite !append_cons, IH. Qed.

(** ** The model at sample inputs *)

Example natToString_samples :
  natToString 0 = "0" ∧ natToString 7 = "7" ∧ natToString 2025 = "2025".
Proof. by vm_compute. Qed.

Example day_arithmetic_samples :
  DateModel.daysFromCivil 1970 1 1 = 0%Z
  ∧ DateModel.civilFromDays 0 = (1970, 1, 1)%Z
  ∧ DateModel.civilFromDays (DateModel.daysFromCivil 2024 2 29) = (2024, 2, 29)%Z
  ∧ DateModel.civilFromDays (DateModel.daysFromCivil 2024 2 29 + 1) = (2024, 3, 1)%Z
  ∧ DateModel.civilFromDays (DateModel.daysFromCivil 1900 2 28 + 1) = (1900, 3, 1)%Z
  ∧ DateModel.civilFromDays (-1) = (1969, 12, 31)%Z.
Proof. by vm_compute. Qed.

(** Day numbers and calendar dates agree in both directions on every day
    of the years 2024 to 2027. *)
Example day_arithmetic_round_trip :
  forallb
    (λ n, let '(y, m, d) := DateModel.civilFromDays n in
          (DateModel.daysFromCivil y m d =? n)%Z)
    (seqZ 19723 1461) = true.
Proof. by vm_compute. Qed.

Example date_samples :
  DateModel.newDate 0 2025 10 27 = 1764201600000%Z
  ∧ DateModel.isoDay 1764201600000 = "2025-11-27"
  ∧ DateModel.isoDay (DateModel.newDate 0 2025 1 31) = "2025-03-03"
  ∧ DateModel.isoDay (DateModel.newDate 0 5 0 1) = "1905-01-01"
  ∧ DateModel.localDateStr 60 (DateModel.newDate 60 2025 10 27) = "2025-11-27"
  ∧ DateModel.parseDay 0 "2025-11-27" = Some 1764201600000%Z
  ∧ DateModel.parseDay 0 "2025-11" = None
  ∧ DateModel.parseDay 0 "2025-1a-27" = None.
Proof. by vm_compute. Qed.

Example summarizeWork_samples :
  Distributor.summarizeWork (Distributor.commitsDay 3 ["add parser"; "fix"]) = "add parser"
  ∧ Distributor.summarizeWork (Distributor.meetingDay 3) = "project work"
  ∧ Distributor.generateWorkPhases 2 (Distributor.commitsDay 3 ["add parser"])
    = ["[Phase: Analysis] Initial work on: add parser";
       "[Phase: Development] Continued work on: add parser"].
Proof. by vm_compute. Qed.

(** [substring(0, 50)] counts UTF-16 units: fifty characters of two bytes
    are kept whole, and of twenty-six characters of four bytes the last
    is cut to the first unit of its pair. *)
Example substring50_samples :
  Distributor.substring50 (String.concat "" (replicate 60 "é"))
  = String.concat "" (replicate 50 "é")
  ∧ Distributor.substring50 (String.concat "" ("a" :: replicate 26 "😀"))
    = String.concat "" ("a" :: replicate 24 "😀")
      +:+ String (ascii_of_N 237) (String (ascii_of_N 160) (String (ascii_of_N 189) ""))
  ∧ Distributor.substring50 "add parser" = "add parser".
Proof. by vm_compute. Qed.

(** ** The distributor *)

Module DistributorFacts.

Import Distributor DistributorSpec.

Lemma hasAnyActivity_false d :
  hasAnyActivity d = false ↔
  meetings d = [] ∧ commits (gitlabActivity d) = []
  ∧ mergeRequests (gitlabActivity d) = [] ∧ issues (gitlabActivity d) = [].
Proof.
  unfold hasAnyActivity.
  destruct (meetings d), (commits (gitlabActivity d)),
    (mergeRequests (gitlabActivity d)), (issues (gitlabActivity d));
    simpl; split; intros H; try done; try (by destruct H as (? & ? & ? & ?)).
Qed.

Lemma findFrom_Some xs a j :
  findFrom xs a = Some j →
  a ≤ j ∧ (∃ d, xs !! (j - a) = Some d ∧ hasAnyActivity d = true)
  ∧ ∀ k d, k < j - a → xs !! k = Some d → hasAnyActivity d = false.
Proof.
  revert a. induction xs as [|x xs IH]; intros a; simpl; [done|].
  destruct (hasAnyActivity x) eqn:Hx.
  - intros [= <-]. rewrite Nat.sub_diag. split; [lia|]. split; [by exists x|].
    intros k d Hk. lia.
  - intros H. apply IH in H as (Hle & (d & Hd & Hact) & Hbefore).
    split; [lia|]. split.
    + exists d. replace (j - a) with (S (j - S a)) by lia. done.
    + intros k d' Hk. destruct k as [|k]; simpl.
      * by intros [= <-].
      * apply Hbefore. lia.
Qed.

Lemma findFrom_None xs a :
  findFrom xs a = None → ∀ k d, xs !! k = Some d → hasAnyActivity d = false.
Proof.
  revert a. induction xs as [|x xs IH]; intros a; simpl; [done|].
  destruct (hasAnyActivity x) eqn:Hx; [done|].
  intros H [|k] d; simpl; [by intros [= <-]|]. by eapply IH.
Qed.

Lemma findNextActivityDay_Some l i j :
  findNextActivityDay l i = Some j →
  i < j ∧ (∃ d, l !! j = Some d ∧ hasAnyActivity d = true)
  ∧ ∀ k d, i < k < j → l !! k = Some d → hasAnyActivity d = false.
Proof.
  unfold findNextActivityDay. intros H.
  apply findFrom_Some in H as (Hle & (d & Hd & Hact) & Hbefore).
  rewrite lookup_drop in Hd. replace (S i + (j - S i)) with j in Hd by lia.
  split; [lia|]. split; [by exists d|].
  intros k d' Hk Hd'. apply (Hbefore (k - S i)); [lia|].
  rewrite lookup_drop. by replace (S i + (k - S i)) with k by lia.
Qed.

Lemma findNextActivityDay_None l i :
  findNextActivityDay l i = None →
  ∀ k d, i < k → l !! k = Some d → hasAnyActivity d = false.
Proof.
  unfold findNextActivityDay. intros H k d Hk Hd.
  apply (findFrom_None _ _ H (k - S i)).
  rewrite lookup_drop. by replace (S i + (k - S i)) with k by lia.
Qed.

Lemma findNextActivityDay_later l i j d :
  i < j → l !! j = Some d → hasAnyActivity d = true →
  is_Some (findNextActivityDay l i).
Proof.
  intros Hij Hd Hact. destruct (findNextActivityDay l i) eqn:E; [by eexists|].
  rewrite (findNextActivityDay_None _ _ E j d Hij Hd) in Hact. done.
Qed.

(** *** Days only grow *)

Global Instance grows_preorder : PreOrder grows.
Proof.
  split.
  - by intros d.
  - intros a b c [H1 H2] [H3 H4]. split; [congruence | auto].
Qed.

Lemma Forall2_grows_refl l : Forall2 grows l l.
Proof. induction l; constructor; [reflexivity | done]. Qed.

Lemma Forall2_grows_trans l1 l2 l3 :
  Forall2 grows l1 l2 → Forall2 grows l2 l3 → Forall2 grows l1 l3.
Proof. apply Forall2_trans. intros a b c. apply (transitivity (R := grows)). Qed.

Lemma Forall2_grows_alter f i l :
  (∀ d, grows d (f d)) → Forall2 grows l (alter f i l).
Proof.
  intros Hf. apply Forall2_alter_r; [apply Forall2_grows_refl|].
  intros d d' Hd Hd' _. rewrite Hd in Hd'. injection Hd' as <-. apply Hf.
Qed.

Lemma grows_with_commits f d :
  (∀ old, length old ≤ length (f old)) → grows d (with_commits f d).
Proof.
  intros Hf. split; [done|]. unfold hasAnyActivity; simpl.
  specialize (Hf (commits (gitlabActivity d))).
  rewrite !orb_true_iff, !Nat.ltb_lt. lia.
Qed.

Lemma grows_with_mergeRequests f d :
  (∀ old, length old ≤ length (f old)) → grows d (with_mergeRequests f d).
Proof.
  intros Hf. split; [done|]. unfold hasAnyActivity; simpl.
  specialize (Hf (mergeRequests (gitlabActivity d))).
  rewrite !orb_true_iff, !Nat.ltb_lt. lia.
Qed.

Lemma grows_with_issues f d :
  (∀ old, length old ≤ length (f old)) → grows d (with_issues f d).
Proof.
  intros Hf. split; [done|]. unfold hasAnyActivity; simpl.
  specialize (Hf (issues (gitlabActivity d))).
  rewrite !orb_true_iff, !Nat.ltb_lt. lia.
Qed.

Lemma grows_pushCommits cs d : grows d (pushCommits cs d).
Proof. apply grows_with_commits. intros old. rewrite length_app. lia. Qed.
Lemma grows_pushMRs cs d : grows d (pushMRs cs d).
Proof. apply grows_with_mergeRequests. intros old. rewrite length_app. lia. Qed.
Lemma grows_pushIssues cs d : grows d (pushIssues cs d).
Proof. apply grows_with_issues. intros old. rewrite length_app. lia. Qed.

Section DistributeStep.
Context {A : Type} (src : list A) (perDay : nat) (tag : A → A)
        (push : list A → DayActivity → DayActivity).
Hypothesis push_grows : ∀ xs d, grows d (push xs d).

Lemma distributeStep_fold_grows idxs st :
  Forall2 grows st.1 (foldl (distributeStep src perDay tag push) st idxs).1.
Proof.
  revert st. induction idxs as [|i idxs IH]; intros [acts index]; simpl.
  - apply Forall2_grows_refl.
  - eapply Forall2_grows_trans; [|apply IH].
    unfold distributeStep. case_match; simpl.
    + apply Forall2_grows_alter. intros d. apply push_grows.
    + apply Forall2_grows_refl.
Qed.

Lemma distributeStep_fold_frame idxs st k :
  k ∉ idxs →
  (foldl (distributeStep src perDay tag push) st idxs).1 !! k = st.1 !! k.
Proof.
  revert st. induction idxs as [|i idxs IH]; intros [acts index] Hk; simpl; [done|].
  apply not_elem_of_cons in Hk as [Hki Hk].
  rewrite IH by done. unfold distributeStep. case_match; simpl; [|done].
  by rewrite list_lookup_alter_ne.
Qed.
End DistributeStep.

Lemma distributeWorkAcrossGap_handler : GapHandler distributeWorkAcrossGap.
Proof.
  intros l i j g. unfold distributeWorkAcrossGap.
  destruct (l !! j) as [src|] eqn:Hsrc; [|split; [apply Forall2_grows_refl | done]].
  set (gap := seq i (j - i)).
  pose proof (distributeStep_fold_grows (commits (gitlabActivity src))
    (length (commits (gitlabActivity src)) / (g + 1)) tagCommit pushCommits
    grows_pushCommits gap (l, 0)) as G1.
  pose proof (λ k, distributeStep_fold_frame (commits (gitlabActivity src))
    (length (commits (gitlabActivity src)) / (g + 1)) tagCommit pushCommits
    gap (l, 0) k) as F1.
  destruct (foldl _ (l, 0) gap) as [acts1 commitIndex]; simpl in *.
  pose proof (distributeStep_fold_grows (mergeRequests (gitlabActivity src))
    (length (mergeRequests (gitlabActivity src)) / (g + 1)) tagMR pushMRs
    grows_pushMRs gap (acts1, 0)) as G2.
  pose proof (λ k, distributeStep_fold_frame (mergeRequests (gitlabActivity src))
    (length (mergeRequests (gitlabActivity src)) / (g + 1)) tagMR pushMRs
    gap (acts1, 0) k) as F2.
  destruct (foldl _ (acts1, 0) gap) as [acts2 mrIndex]; simpl in *.
  pose proof (distributeStep_fold_grows (issues (gitlabActivity src))
    (length (issues (gitlabActivity src)) / (g + 1)) tagIssue pushIssues
    grows_pushIssues gap (acts2, 0)) as G3.
  pose proof (λ k, distributeStep_fold_frame (issues (gitlabActivity src))
    (length (issues (gitlabActivity src)) / (g + 1)) tagIssue pushIssues
    gap (acts2, 0) k) as F3.
  destruct (foldl _ (acts2, 0) gap) as [acts3 issueIndex]; simpl in *.
  assert (Forall2 grows l acts3) as G
    by (eapply Forall2_grows_trans; [eapply Forall2_grows_trans|]; eassumption).
  assert (∀ k, k < i ∨ j < k → acts3 !! k = l !! k) as F.
  { intros k Hk. rewrite F3, F2, F1; [done|..];
      unfold gap; rewrite elem_of_seq; lia. }
  case_match.
  - split.
    + eapply Forall2_grows_trans; [exact G|]. apply Forall2_grows_alter.
      intros d. apply grows_with_commits. intros old.
      change (length old ≤ S (length old)). lia.
    + intros Hij k Hk. rewrite list_lookup_alter_ne by lia. by apply F.
  - by split.
Qed.

Lemma pushPhases_grows phases n i j l :
  Forall2 grows l (pushPhases phases n i j l).
Proof.
  revert n l. induction phases as [|ph phases IH]; intros n l; simpl.
  - apply Forall2_grows_refl.
  - case_match; [|apply Forall2_grows_refl].
    eapply Forall2_grows_trans; [|apply IH].
    apply Forall2_grows_alter. intros d. apply grows_pushCommits.
Qed.

Lemma pushPhases_frame phases n i j l k :
  k < i + n ∨ j ≤ k → pushPhases phases n i j l !! k = l !! k.
Proof.
  revert n l. induction phases as [|ph phases IH]; intros n l Hk; simpl; [done|].
  case_match eqn:E; [|done]. apply Nat.ltb_lt in E.
  rewrite IH by lia. rewrite list_lookup_alter_ne by lia. done.
Qed.

Lemma processPhases_handler : GapHandler processPhases.
Proof.
  intros l i j g. unfold processPhases, distributeWorkPhases.
  destruct (l !! j) as [src|]; [|split; [apply Forall2_grows_refl | done]].
  split; [apply pushPhases_grows|].
  intros Hij k Hk. apply pushPhases_frame. lia.
Qed.

(** *** Sorting by date *)

Lemma length_insertByDate d l : length (insertByDate d l) = S (length l).
Proof. induction l as [|x l IH]; simpl; [done|]. case_match; simpl; lia. Qed.

Lemma length_sortByDate l : length (sortByDate l) = length l.
Proof. induction l as [|x l IH]; simpl; [done|]. rewrite length_insertByDate. lia. Qed.

Lemma insertByDate_sorted d l :
  sortedByDate l → sortedByDate (insertByDate d l).
Proof.
  unfold sortedByDate. induction l as [|x l IH]; simpl; intros Hs.
  - repeat constructor.
  - destruct (Z.leb_spec (date d) (date x)) as [Hle|Hgt].
    + simpl. constructor; [done|]. by constructor.
    + inversion Hs as [|? ? Hl Hhd]; subst. simpl. constructor; [by apply IH|].
      destruct l as [|y l]; simpl.
      * constructor. lia.
      * destruct (Z.leb_spec (date d) (date y)); simpl; constructor; [lia|].
        by inversion Hhd.
Qed.

Lemma sortByDate_sorted l : sortedByDate (sortByDate l).
Proof.
  induction l as [|x l IH]; simpl; [constructor|]. by apply insertByDate_sorted.
Qed.

Lemma sortByDate_id l : sortedByDate l → sortByDate l = l.
Proof.
  unfold sortedByDate. induction l as [|x l IH]; simpl; intros Hs; [done|].
  inversion Hs as [|? ? Hl Hhd]; subst. rewrite IH by done.
  destruct l as [|y l]; simpl; [done|].
  inversion Hhd; subst. by destruct (Z.leb_spec (date x) (date y)); [|lia].
Qed.

Lemma Forall2_grows_dates l l' : Forall2 grows l l' → date <$> l' = date <$> l.
Proof.
  induction 1 as [|d d' l l' [Hd _] _ IH]; [done|].
  rewrite !fmap_cons. by rewrite Hd, IH.
Qed.

(** *** The scanning loop, for any gap handler *)

Section Scan.
Variable process : list DayActivity → nat → nat → nat → list DayActivity.
Hypothesis process_ok : GapHandler process.
Variable sorted : list DayActivity.

(** The two outcomes of one iteration. *)
Lemma scanStep_cases st i :
  scanStep process st i = st
  ∨ ∃ cur j, distributed st !! i = Some cur ∧ hasAnyActivity cur = false
      ∧ findNextActivityDay (distributed st) i = Some j
      ∧ scanStep process st i =
          mkScan (process (distributed st) i j (j - i))
                 (gapDays st + (j - i)) (S (distributedDays st)).
Proof.
  unfold scanStep.
  destruct (distributed st !! i) as [cur|] eqn:Hcur; [|by left].
  destruct (hasAnyActivity cur) eqn:Hact; [by left|].
  destruct (findNextActivityDay (distributed st) i) as [j|] eqn:Hj; [|by left].
  right. by exists cur, j.
Qed.

Lemma hasGap_gapStartAt l : hasGap l → ∃ i, i < length l ∧ gapStartAt l i.
Proof.
  intros (i & j & d1 & d2 & Hij & H1 & Hin & H2 & Hact).
  exists i. split; [by eapply lookup_lt_Some|].
  exists d1. repeat split; [done..|]. by eapply findNextActivityDay_later.
Qed.

(** As long as no gap has been counted, nothing has changed and no
    scanned index starts a gap. *)
Lemma scan_prefix_zero n :
  let st := foldl (scanStep process) (mkScan sorted 0 0) (seq 0 n) in
  distributedDays st = 0 →
  st = mkScan sorted 0 0 ∧ ∀ i, i < n → ¬ gapStartAt sorted i.
Proof.
  apply (foldl_seq_invariant
    (λ n st, distributedDays st = 0 →
             st = mkScan sorted 0 0 ∧ ∀ i, i < n → ¬ gapStartAt sorted i)
    (scanStep process) (mkScan sorted 0 0) 0 n).
  - intros _. split; [done|]. intros i Hi. lia.
  - intros i st _ IH Hzero.
    destruct (scanStep_cases st i) as [Hsame|(cur & j & Hcur & Hin & Hj & Hstep)].
    + rewrite Hsame in *. destruct (IH Hzero) as [-> Hnone]. split; [done|].
      intros i' Hi' (d & Hd & Hdin & Hnext).
      destruct (decide (i' = i)) as [->|]; [|apply (Hnone i'); [lia|by exists d]].
      unfold scanStep in Hsame. simpl in Hsame. rewrite Hd, Hdin in Hsame.
      destruct Hnext as [j Hj]. rewrite Hj in Hsame. by inversion Hsame.
    + rewrite Hstep in Hzero. done.
Qed.

Lemma scan_zero_unchanged :
  distributedDays (scan process sorted) = 0 → scan process sorted = mkScan sorted 0 0.
Proof. intros H. by apply scan_prefix_zero in H as [? _]. Qed.

Lemma scan_zero_no_gap :
  distributedDays (scan process sorted) = 0 → ¬ hasGap sorted.
Proof.
  intros H Hgap. apply scan_prefix_zero in H as [_ Hnone].
  apply hasGap_gapStartAt in Hgap as (i & Hi & Hstart). by apply (Hnone i).
Qed.

Lemma scanInv_init : scanInv sorted (mkScan sorted 0 0).
Proof.
  split; [apply Forall2_grows_refl|]. split; [|simpl; lia].
  intros k d Hd Hact. by exists k, d.
Qed.

Lemma scanInv_step st i : scanInv sorted st → scanInv sorted (scanStep process st i).
Proof.
  intros (Hgrow & Hlater & Hgap).
  destruct (scanStep_cases st i) as [->|(cur & j & Hcur & Hin & Hj & ->)]; [done|].
  apply findNextActivityDay_Some in Hj as (Hij & (dj & Hdj & Hactj) & _).
  destruct (process_ok (distributed st) i j (j - i)) as [Hg Hframe].
  specialize (Hframe Hij).
  destruct (Hlater j dj Hdj Hactj) as (k' & d' & Hk' & Hd' & Hact').
  split; [by eapply Forall2_grows_trans|]. split; simpl.
  - intros k d Hd Hact.
    destruct (decide (k < i ∨ j < k)) as [Hout|Hin'].
    + rewrite Hframe in Hd by done. by eapply Hlater.
    + exists k', d'. split; [lia|done].
  - intros _. destruct (Forall2_lookup_r _ _ _ _ _ Hgrow Hcur) as (s0 & Hs0 & [_ Hs0act]).
    exists i, k', s0, d'. repeat split; [lia|done| |done..].
    destruct (hasAnyActivity s0); [|done]. rewrite Hs0act in Hin; done.
Qed.

Lemma scanInv_scan : scanInv sorted (scan process sorted).
Proof.
  unfold scan.
  apply (foldl_seq_invariant (λ _ st, scanInv sorted st) (scanStep process) (mkScan sorted 0 0) 0
           (length sorted)).
  - apply scanInv_init.
  - intros i st _. apply scanInv_step.
Qed.

Lemma scan_counts_iff_gap :
  0 < distributedDays (scan process sorted) ↔ hasGap sorted.
Proof.
  split.
  - apply scanInv_scan.
  - intros Hgap. destruct (distributedDays (scan process sorted)) eqn:E; [|lia].
    by apply scan_zero_no_gap in E.
Qed.

Lemma scan_dates : date <$> distributed (scan process sorted) = date <$> sorted.
Proof. apply Forall2_grows_dates, scanInv_scan. Qed.

Lemma scan_length : length (distributed (scan process sorted)) = length sorted.
Proof. symmetry. eapply Forall2_length, scanInv_scan. Qed.

(** A trailing run of empty days is never touched. *)
Lemma scan_trailing pre tl :
  sorted = pre ++ tl → Forall (λ d, hasAnyActivity d = false) tl →
  drop (length pre) (distributed (scan process sorted)) = tl.
Proof.
  intros Hsplit Htl. unfold scan.
  apply (foldl_seq_invariant
    (λ _ st, drop (length pre) (distributed st) = tl)
    (scanStep process) (mkScan sorted 0 0) 0 (length sorted)).
  - simpl. rewrite Hsplit. by rewrite drop_app_length.
  - intros i st _ IH.
    destruct (scanStep_cases st i) as [->|(cur & j & Hcur & Hin & Hj & ->)]; [done|].
    apply findNextActivityDay_Some in Hj as (Hij & (dj & Hdj & Hactj) & _).
    destruct (process_ok (distributed st) i j (j - i)) as [Hg Hframe].
    specialize (Hframe Hij). simpl.
    assert (j < length pre) as Hjpre.
    { destruct (decide (j < length pre)) as [|Hge]; [done|].
      assert (tl !! (j - length pre) = Some dj) as Hjt.
      { rewrite <- IH, lookup_drop.
        by replace (length pre + (j - length pre)) with j by lia. }
      rewrite Forall_lookup in Htl. rewrite (Htl _ _ Hjt) in Hactj. done. }
    rewrite <- IH. apply list_eq. intros k. rewrite !lookup_drop.
    apply Hframe. lia.
Qed.
End Scan.

Lemma no_empty_day_no_gap l :
  Forall (λ d, hasAnyActivity d = true) l → ¬ hasGap l.
Proof.
  intros Hall (i & j & d1 & d2 & _ & H1 & Hin & _).
  rewrite Forall_lookup in Hall. rewrite (Hall _ _ H1) in Hin. done.
Qed.

Lemma scan_no_gap process sorted :
  GapHandler process → ¬ hasGap sorted → scan process sorted = mkScan sorted 0 0.
Proof.
  intros Hp Hgap. apply scan_zero_unchanged.
  destruct (distributedDays (scan process sorted)) eqn:E; [done|].
  exfalso. apply Hgap. apply (scan_counts_iff_gap process Hp). lia.
Qed.

Lemma distributeActivities_sorted acts :
  sortedByDate (activities (distributeActivities acts)).
Proof.
  unfold sortedByDate, distributeActivities. simpl.
  rewrite (scan_dates _ distributeWorkAcrossGap_handler). apply sortByDate_sorted.
Qed.

Lemma distributeActivities_fixed acts :
  sortedByDate acts → Forall (λ d, hasAnyActivity d = true) acts →
  distributeActivities acts = mkResult acts (mkInfo 0 0 "").
Proof.
  intros Hs Hall. unfold distributeActivities.
  rewrite (sortByDate_id _ Hs).
  rewrite (scan_no_gap _ _ distributeWorkAcrossGap_handler (no_empty_day_no_gap _ Hall)).
  done.
Qed.

(** C8. On an ascending-sorted sequence in which every day has activity,
    [distributeActivities] returns the sequence unchanged, with zero
    counts and an empty message; and whenever the result of a run has no
    empty day left, running the distributor again on that result changes
    nothing. *)
Theorem C8_distributor_identity_on_full_days :
  (∀ acts, sortedByDate acts → Forall (λ d, hasAnyActivity d = true) acts →
     distributeActivities acts = mkResult acts (mkInfo 0 0 ""))
  ∧ (∀ acts,
       Forall (λ d, hasAnyActivity d = true) (activities (distributeActivities acts)) →
       distributeActivities (activities (distributeActivities acts))
       = mkResult (activities (distributeActivities acts)) (mkInfo 0 0 "")).
Proof.
  split.
  - apply distributeActivities_fixed.
  - intros acts Hall. apply distributeActivities_fixed; [|done].
    apply distributeActivities_sorted.
Qed.

Lemma C8_distributor_identity_witness :
  distributeActivities [commitsDay 1 ["a"]; meetingDay 2]
    = mkResult [commitsDay 1 ["a"]; meetingDay 2] (mkInfo 0 0 "")
  ∧ distributeActivities
      (activities (distributeActivities [emptyDay 1; commitsDay 2 ["a"; "b"]]))
    = mkResult (activities (distributeActivities [emptyDay 1; commitsDay 2 ["a"; "b"]]))
        (mkInfo 0 0 "").
Proof.
  destruct C8_distributor_identity_on_full_days as [H1 H2]. split.
  - apply H1.
    + unfold sortedByDate. simpl. repeat constructor. lia.
    + repeat constructor.
  - apply H2. vm_compute. repeat constructor.
Defined.

(** C9. In the date-sorted order of the input, a trailing run of empty
    days (no later day has activity) is returned as it was, at the same
    positions, by both the proportional and the phased distributor. *)
Theorem C9_trailing_gap_untouched (acts pre tl : list DayActivity) :
  sortByDate acts = pre ++ tl →
  Forall (λ d, hasAnyActivity d = false) tl →
  drop (length pre) (activities (distributeActivities acts)) = tl
  ∧ length (activities (distributeActivities acts)) = length acts
  ∧ drop (length pre) (activities (distributeActivitiesIntelligent acts)) = tl
  ∧ length (activities (distributeActivitiesIntelligent acts)) = length acts.
Proof.
  intros Hsplit Htl. unfold distributeActivities, distributeActivitiesIntelligent. simpl.
  rewrite !scan_length by
    (apply distributeWorkAcrossGap_handler || apply processPhases_handler).
  rewrite length_sortByDate.
  repeat split.
  - by apply (scan_trailing _ distributeWorkAcrossGap_handler).
  - by apply (scan_trailing _ processPhases_handler).
Qed.

Lemma C9_trailing_gap_witness :
  drop 2 (activities (distributeActivities
            [emptyDay 1; commitsDay 2 ["a"; "b"]; emptyDay 3; emptyDay 4]))
    = [emptyDay 3; emptyDay 4]
  ∧ length (activities (distributeActivities
            [emptyDay 1; commitsDay 2 ["a"; "b"]; emptyDay 3; emptyDay 4])) = 4
  ∧ drop 2 (activities (distributeActivitiesIntelligent
            [emptyDay 1; commitsDay 2 ["a"; "b"]; emptyDay 3; emptyDay 4]))
    = [emptyDay 3; emptyDay 4]
  ∧ length (activities (distributeActivitiesIntelligent
            [emptyDay 1; commitsDay 2 ["a"; "b"]; emptyDay 3; emptyDay 4])) = 4.
Proof.
  apply (C9_trailing_gap_untouched
           [emptyDay 1; commitsDay 2 ["a"; "b"]; emptyDay 3; emptyDay 4]
           [emptyDay 1; commitsDay 2 ["a"; "b"]] [emptyDay 3; emptyDay 4]).
  - reflexivity.
  - repeat constructor.
Defined.

(** *** The summary message *)

Lemma hasNewline_app a b : hasNewline (a +:+ b) = hasNewline a || hasNewline b.
Proof.
  induction a as [|c a IH]; [done|].
  rewrite append_cons. simpl. by rewrite IH, orb_assoc.
Qed.

Lemma digitChar_not_newline d : d < 10 → Ascii.eqb (digitChar d) newline = false.
Proof.
  intros Hd. do 10 (destruct d as [|d]; [reflexivity|]). lia.
Qed.

Lemma natToString_go_one_line fuel n acc :
  hasNewline acc = false → hasNewline (natToString_go fuel n acc) = false.
Proof.
  revert n acc. induction fuel as [|fuel IH]; intros n acc Hacc; [done|].
  assert (hasNewline (String (digitChar (n mod 10)) acc) = false) as Hstep.
  { change (Ascii.eqb (digitChar (n mod 10)) newline || hasNewline acc = false).
    rewrite digitChar_not_newline, Hacc; [done|].
    apply Nat.mod_upper_bound. lia. }
  cbn [natToString_go]. case_match; [done|]. by apply IH.
Qed.

Lemma natToString_one_line n : hasNewline (natToString n) = false.
Proof. by apply natToString_go_one_line. Qed.

Lemma proportionalMessage_shape n :
  proportionalMessage n ≠ ""
  ∧ hasNewline (proportionalMessage n) = false
  ∧ occursIn "[Distributed]" (proportionalMessage n).
Proof.
  unfold proportionalMessage. split; [done|]. split.
  - rewrite !hasNewline_app, natToString_one_line. reflexivity.
  - exists ("Note: " +:+ natToString n
              +:+ " day(s) had no recorded activity. Work from subsequent days was "
              +:+ "distributed proportionally. Distributed entries are marked with "),
           ".".
    rewrite !append_assoc. reflexivity.
Qed.

Lemma phasedMessage_shape n :
  phasedMessage n ≠ ""
  ∧ hasNewline (phasedMessage n) = false
  ∧ occursIn "[Phase: X]" (phasedMessage n).
Proof.
  unfold phasedMessage. split; [done|]. split.
  - rewrite !hasNewline_app, natToString_one_line. reflexivity.
  - exists ("Note: " +:+ natToString n
              +:+ " day(s) had no recorded activity. Work phases were inferred and "
              +:+ "distributed. Entries are marked with "),
           ".".
    rewrite !append_assoc. reflexivity.
Qed.

(** *** The phased mode adds an entry for every gap it counts *)

Lemma commitCount_pushCommits cs d :
  commitCount (pushCommits cs d) = commitCount d + length cs.
Proof. unfold commitCount. simpl. apply length_app. Qed.

Lemma total_alter_pushCommits_le cs k l :
  total commitCount l ≤ total commitCount (alter (pushCommits cs) k l).
Proof.
  unfold total. revert k. induction l as [|d l IH]; intros [|k]; csimpl; try lia.
  - rewrite commitCount_pushCommits. lia.
  - specialize (IH k). lia.
Qed.

Lemma total_alter_pushCommits_lt c k l :
  k < length l →
  total commitCount l < total commitCount (alter (pushCommits [c]) k l).
Proof.
  unfold total. revert k. induction l as [|d l IH]; intros [|k]; csimpl; try lia.
  - rewrite commitCount_pushCommits. simpl. lia.
  - intros Hk. specialize (IH k). lia.
Qed.

Lemma total_pushPhases_le phases n i j l :
  total commitCount l ≤ total commitCount (pushPhases phases n i j l).
Proof.
  revert n l. induction phases as [|ph phases IH]; intros n l; simpl; [done|].
  case_match; [|done]. etrans; [|apply IH]. apply total_alter_pushCommits_le.
Qed.

Lemma generateWorkPhases_nonempty g src : 0 < g → generateWorkPhases g src ≠ [].
Proof.
  intros Hg. unfold generateWorkPhases.
  destruct g as [|[|[|[|g]]]]; try done; lia.
Qed.

Lemma processPhases_adds l i j src :
  i < j → l !! j = Some src →
  total commitCount l < total commitCount (processPhases l i j (j - i)).
Proof.
  intros Hij Hsrc. unfold processPhases, distributeWorkPhases. rewrite Hsrc.
  pose proof (generateWorkPhases_nonempty (j - i) src ltac:(lia)) as Hne.
  destruct (generateWorkPhases (j - i) src) as [|ph phases]; [done|]. simpl.
  rewrite Nat.add_0_r. destruct (Nat.ltb_spec i j); [|lia].
  eapply Nat.lt_le_trans; [|apply total_pushPhases_le].
  apply total_alter_pushCommits_lt. apply lookup_lt_Some in Hsrc. lia.
Qed.

Lemma scan_phases_adds sorted :
  let st := scan processPhases sorted in
  total commitCount sorted + distributedDays st ≤ total commitCount (distributed st).
Proof.
  unfold scan.
  apply (foldl_seq_invariant
    (λ _ st, total commitCount sorted + distributedDays st
             ≤ total commitCount (distributed st))
    (scanStep processPhases) (mkScan sorted 0 0) 0 (length sorted)).
  - simpl. lia.
  - intros i st _ IH.
    destruct (scanStep_cases processPhases st i)
      as [->|(cur & j & Hcur & Hin & Hj & ->)]; [done|].
    apply findNextActivityDay_Some in Hj as (Hij & (dj & Hdj & _) & _). simpl.
    pose proof (processPhases_adds _ _ _ _ Hij Hdj). lia.
Qed.

(** C6 (as amended). In both modes the summary message is non-empty
    exactly when the scan found a gap, that is, when the date-sorted input
    has an empty day with a later day that has activity; an empty message
    means that the result is the sorted input, nothing added. In the
    phased mode a non-empty message means that an entry was added. A
    non-empty message is a single line that names the convention,
    [[Distributed]] or [[Phase: X]]. *)
Theorem C6_message_iff_gap_found (acts : list DayActivity) :
  let r := distributeActivities acts in
  let ri := distributeActivitiesIntelligent acts in
  (messageOf r ≠ "" ↔ hasGap (sortByDate acts))
  ∧ (messageOf ri ≠ "" ↔ hasGap (sortByDate acts))
  ∧ (messageOf r = "" → activities r = sortByDate acts)
  ∧ (messageOf ri = "" ↔ activities ri = sortByDate acts)
  ∧ (messageOf r ≠ "" →
       hasNewline (messageOf r) = false ∧ occursIn "[Distributed]" (messageOf r))
  ∧ (messageOf ri ≠ "" →
       hasNewline (messageOf ri) = false ∧ occursIn "[Phase: X]" (messageOf ri)).
Proof.
  unfold messageOf, distributeActivities, distributeActivitiesIntelligent. simpl.
  pose proof (scan_counts_iff_gap _ distributeWorkAcrossGap_handler (sortByDate acts)) as Hp.
  pose proof (scan_counts_iff_gap _ processPhases_handler (sortByDate acts)) as Hi.
  pose proof (scan_zero_unchanged distributeWorkAcrossGap (sortByDate acts)) as Hp0.
  pose proof (scan_zero_unchanged processPhases (sortByDate acts)) as Hi0.
  pose proof (scan_phases_adds (sortByDate acts)) as Hadd. simpl in Hadd.
  destruct (scan distributeWorkAcrossGap (sortByDate acts)) as [lp gp np].
  destruct (scan processPhases (sortByDate acts)) as [li gi ni].
  simpl in *.
  destruct (proportionalMessage_shape gp) as (Hp1 & Hp2 & Hp3).
  destruct (phasedMessage_shape gi) as (Hi1 & Hi2 & Hi3).
  repeat split.
  - destruct np; simpl; [done|]. intros _. apply Hp. lia.
  - intros Hgap. apply Hp in Hgap. destruct np; [lia|done].
  - destruct ni; simpl; [done|]. intros _. apply Hi. lia.
  - intros Hgap. apply Hi in Hgap. destruct ni; [lia|done].
  - destruct np; simpl; [|done]. intros _. by injection (Hp0 eq_refl).
  - destruct ni; simpl; [|done]. intros _. by injection (Hi0 eq_refl).
  - intros ->. destruct ni; [done|]. lia.
  - destruct np; simpl; done.
  - destruct np; simpl; done.
  - destruct ni; simpl; done.
  - destruct ni; simpl; done.
Qed.

(** C6 at a concrete input: a gap before a day with two commits. *)
Lemma C6_message_iff_gap_found_witness :
  hasNewline (messageOf (distributeActivities [emptyDay 1; commitsDay 2 ["a"; "b"]])) = false
  ∧ occursIn "[Distributed]"
      (messageOf (distributeActivities [emptyDay 1; commitsDay 2 ["a"; "b"]])).
Proof.
  apply (C6_message_iff_gap_found [emptyDay 1; commitsDay 2 ["a"; "b"]]).
  by vm_compute.
Defined.

(** C6 fails as stated: in the proportional mode a gap before a day with
    a single commit is counted and reported although nothing can be
    relocated. *)
Lemma C6_message_without_distribution :
  messageOf (distributeActivities [emptyDay 1; commitsDay 2 ["a"]]) ≠ ""
  ∧ activities (distributeActivities [emptyDay 1; commitsDay 2 ["a"]])
    = [emptyDay 1; commitsDay 2 ["a"]].
Proof. split; [by vm_compute | reflexivity]. Qed.

(** *** What one gap-processing step does, exactly *)

Lemma pushCommits_nil d : pushCommits [] d = d.
Proof.
  destruct d as [t ms [gt cs mrs iss] desc]. unfold pushCommits, with_commits. simpl.
  by rewrite app_nil_r.
Qed.
Lemma pushMRs_nil d : pushMRs [] d = d.
Proof.
  destruct d as [t ms [gt cs mrs iss] desc]. unfold pushMRs, with_mergeRequests. simpl.
  by rewrite app_nil_r.
Qed.
Lemma pushIssues_nil d : pushIssues [] d = d.
Proof.
  destruct d as [t ms [gt cs mrs iss] desc]. unfold pushIssues, with_issues. simpl.
  by rewrite app_nil_r.
Qed.

Lemma length_slice_full {A} (xs : list A) (a p : nat) :
  a + p ≤ length xs → length (slice a (a + p) xs) = p.
Proof.
  intros H. unfold slice. rewrite length_take, length_drop. lia.
Qed.

Section DistributeExact.
Context {A : Type} (src : list A) (perDay : nat) (tag : A → A)
        (push : list A → DayActivity → DayActivity).
Hypothesis push_nil : ∀ d, push [] d = d.

(** While the source has [perDay] more items for every day of the gap,
    day number [t] of the gap receives the items
    [t * perDay .. (t + 1) * perDay - 1]. *)
Lemma distributeStep_fold_exact l a n :
  n * perDay ≤ length src →
  ∃ l',
    foldl (distributeStep src perDay tag push) (l, 0) (seq a n) = (l', n * perDay)
    ∧ ∀ k, l' !! k =
        if decide (a ≤ k < a + n) then
          push (tag <$> slice ((k - a) * perDay) ((k - a) * perDay + perDay) src)
            <$> l !! k
        else l !! k.
Proof.
  induction n as [|n IH]; intros Hlen.
  - exists l. split; [done|]. intros k. case_decide; [lia|done].
  - destruct IH as (l' & Hfold & Hlook); [lia|].
    rewrite seq_S, foldl_app, Hfold. simpl.
    replace (Nat.min perDay (length src - n * perDay)) with perDay by lia.
    destruct (Nat.ltb_spec 0 perDay) as [Hpos|Hzero].
    + eexists. split; [f_equal; lia|].
      intros k. rewrite list_lookup_alter.
      destruct (decide (a + n = k)) as [<-|Hne].
      * rewrite Hlook. rewrite decide_False by lia. rewrite decide_True by lia.
        by replace (a + n - a) with n by lia.
      * rewrite Hlook. repeat case_decide; try lia; done.
    + assert (perDay = 0) as -> by lia.
      exists l'. split; [f_equal; lia|].
      intros k. rewrite Hlook.
      repeat case_decide; try lia; try done.
      unfold slice. rewrite Nat.add_0_r, Nat.sub_diag. simpl.
      destruct (l !! k); simpl; [|done]. by rewrite push_nil.
Qed.
End DistributeExact.

Lemma total_gap_same (f : DayActivity → nat) (l : list DayActivity) (i j n : nat) :
  j ≤ length l →
  (∀ k d, i ≤ k < j → l !! k = Some d → f d = n) →
  total f (gapDaysOf l i j) = (j - i) * n.
Proof.
  intros Hj Hall. unfold total, gapDaysOf, slice.
  rewrite (sum_list_fmap_same n).
  - rewrite length_take, length_drop. f_equal. lia.
  - apply Forall_lookup. intros t d Ht.
    apply lookup_take_Some in Ht as [Ht Hlt]. rewrite lookup_drop in Ht.
    apply (Hall (i + t)); [lia|done].
Qed.

(** C1 (as amended). [distributeWorkAcrossGap], called as the scan calls
    it for a gap of [G = j - i] empty days before the source day [j],
    copies: with [C] commits on the source day, day number [t] of the gap
    receives tagged copies of the commits [t * q .. (t + 1) * q - 1] for
    [q = C / (G + 1)], and the source day keeps all its [C] commits, with
    the marker commit in front of them when anything was copied. So the
    commits on the gap days and on the source day, the marker aside, add up
    to [C + G * q]. Merge requests and issues likewise. *)
Theorem C1_distribution_copies (l : list DayActivity) (i j : nat) (src : DayActivity) :
  i < j →
  l !! j = Some src →
  (∀ k d, i ≤ k < j → l !! k = Some d → hasAnyActivity d = false) →
  let G := j - i in
  let l' := distributeWorkAcrossGap l i j G in
  let qc := commitCount src / (G + 1) in
  let qm := mrCount src / (G + 1) in
  let qi := issueCount src / (G + 1) in
  let marker := if (0 <? qc) || (0 <? qm) || (0 <? qi) then [noteCommit G] else [] in
  (∃ src', l' !! j = Some src'
     ∧ commits (gitlabActivity src') = marker ++ commits (gitlabActivity src)
     ∧ mergeRequests (gitlabActivity src') = mergeRequests (gitlabActivity src)
     ∧ issues (gitlabActivity src') = issues (gitlabActivity src))
  ∧ (∀ k, i ≤ k < j →
       ∃ d', l' !! k = Some d'
         ∧ commits (gitlabActivity d')
           = tagCommit <$> slice ((k - i) * qc) ((k - i) * qc + qc)
                             (commits (gitlabActivity src))
         ∧ mergeRequests (gitlabActivity d')
           = tagMR <$> slice ((k - i) * qm) ((k - i) * qm + qm)
                         (mergeRequests (gitlabActivity src))
         ∧ issues (gitlabActivity d')
           = tagIssue <$> slice ((k - i) * qi) ((k - i) * qi + qi)
                            (issues (gitlabActivity src)))
  ∧ total commitCount (gapDaysOf l' i j) + commitCount src = commitCount src + G * qc
  ∧ total mrCount (gapDaysOf l' i j) + mrCount src = mrCount src + G * qm
  ∧ total issueCount (gapDaysOf l' i j) + issueCount src = issueCount src + G * qi.
Proof.
  intros Hij Hsrc Hempty G l' qc qm qi marker.
  assert (∀ n, G * (n / (G + 1)) ≤ n) as Hfit.
  { intros n. pose proof (Nat.div_mod n (G + 1) ltac:(lia)). nia. }
  destruct (distributeStep_fold_exact (commits (gitlabActivity src)) qc tagCommit
              pushCommits pushCommits_nil l i G (Hfit _)) as (l1 & Hf1 & Hl1).
  destruct (distributeStep_fold_exact (mergeRequests (gitlabActivity src)) qm tagMR
              pushMRs pushMRs_nil l1 i G (Hfit _)) as (l2 & Hf2 & Hl2).
  destruct (distributeStep_fold_exact (issues (gitlabActivity src)) qi tagIssue
              pushIssues pushIssues_nil l2 i G (Hfit _)) as (l3 & Hf3 & Hl3).
  assert (l' = if (0 <? qc) || (0 <? qm) || (0 <? qi)
               then alter (with_commits (λ old, noteCommit G :: old)) j l3 else l3) as Hl'.
  { unfold l', distributeWorkAcrossGap. rewrite Hsrc.
    fold G. fold (commitCount src) (mrCount src) (issueCount src). fold qc qm qi.
    rewrite Hf1, Hf2, Hf3.
    replace (0 <? G * qc) with (0 <? qc)
      by (destruct (Nat.ltb_spec 0 qc), (Nat.ltb_spec 0 (G * qc)); nia).
    replace (0 <? G * qm) with (0 <? qm)
      by (destruct (Nat.ltb_spec 0 qm), (Nat.ltb_spec 0 (G * qm)); nia).
    replace (0 <? G * qi) with (0 <? qi)
      by (destruct (Nat.ltb_spec 0 qi), (Nat.ltb_spec 0 (G * qi)); nia).
    done. }
  assert (l3 !! j = Some src) as Hj3.
  { rewrite Hl3, Hl2, Hl1. by rewrite !decide_False by lia. }
  assert (∀ k, i ≤ k < j →
    ∃ d', l' !! k = Some d'
      ∧ commits (gitlabActivity d')
        = tagCommit <$> slice ((k - i) * qc) ((k - i) * qc + qc)
                          (commits (gitlabActivity src))
      ∧ mergeRequests (gitlabActivity d')
        = tagMR <$> slice ((k - i) * qm) ((k - i) * qm + qm)
                      (mergeRequests (gitlabActivity src))
      ∧ issues (gitlabActivity d')
        = tagIssue <$> slice ((k - i) * qi) ((k - i) * qi + qi)
                         (issues (gitlabActivity src))) as Hgap.
  { intros k Hk.
    destruct (lookup_lt_is_Some_2 l k) as [d Hd]; [apply lookup_lt_Some in Hsrc; lia|].
    pose proof (Hempty k d Hk Hd) as Hin.
    apply hasAnyActivity_false in Hin as (_ & Hc & Hm & Hi).
    exists (pushIssues
              (tagIssue <$> slice ((k - i) * qi) ((k - i) * qi + qi)
                              (issues (gitlabActivity src)))
              (pushMRs
                 (tagMR <$> slice ((k - i) * qm) ((k - i) * qm + qm)
                              (mergeRequests (gitlabActivity src)))
                 (pushCommits
                    (tagCommit <$> slice ((k - i) * qc) ((k - i) * qc + qc)
                                     (commits (gitlabActivity src))) d))).
    split.
    - rewrite Hl'.
      assert (∀ f, (if (0 <? qc) || (0 <? qm) || (0 <? qi) then alter f j l3 else l3) !! k
                   = l3 !! k) as ->.
      { intros f. case_match; [by rewrite list_lookup_alter_ne by lia|done]. }
      rewrite Hl3, Hl2, Hl1, Hd. by rewrite !decide_True by (unfold G; lia).
    - simpl. by rewrite Hc, Hm, Hi. }
  split; [|split; [exact Hgap|]].
  - rewrite Hl'. unfold marker. case_match.
    + rewrite list_lookup_alter_eq, Hj3. simpl. eexists. split; [done|]. done.
    + exists src. by rewrite Hj3.
  - assert (length l' = length l) as Hlen.
    { symmetry. eapply Forall2_length.
      apply (distributeWorkAcrossGap_handler l i j G). }
    assert (j ≤ length l') by (apply lookup_lt_Some in Hsrc; lia).
    assert (∀ n, (j - i) * n + n ≤ (G + 1) * n) as Hmul by (intros n; unfold G; nia).
    assert (∀ n k, i ≤ k < j → (k - i) * (n / (G + 1)) + n / (G + 1) ≤ n) as Hin.
    { intros n k Hk. pose proof (Nat.div_mod n (G + 1) ltac:(lia)).
      unfold G in *. nia. }
    repeat split.
    + rewrite (total_gap_same commitCount l' i j qc); [fold G; lia|done|].
      intros k d Hk Hd. destruct (Hgap k Hk) as (d' & Hd' & Hc & _).
      rewrite Hd in Hd'. injection Hd' as <-. unfold commitCount. rewrite Hc.
      rewrite length_fmap. apply length_slice_full. apply Hin. done.
    + rewrite (total_gap_same mrCount l' i j qm); [fold G; lia|done|].
      intros k d Hk Hd. destruct (Hgap k Hk) as (d' & Hd' & _ & Hm & _).
      rewrite Hd in Hd'. injection Hd' as <-. unfold mrCount. rewrite Hm.
      rewrite length_fmap. apply length_slice_full. apply Hin. done.
    + rewrite (total_gap_same issueCount l' i j qi); [fold G; lia|done|].
      intros k d Hk Hd. destruct (Hgap k Hk) as (d' & Hd' & _ & _ & Hi).
      rewrite Hd in Hd'. injection Hd' as <-. unfold issueCount. rewrite Hi.
      rewrite length_fmap. apply length_slice_full. apply Hin. done.
Qed.

Lemma C1_distribution_copies_witness :
  total commitCount
    (gapDaysOf
       (distributeWorkAcrossGap [emptyDay 1; emptyDay 2; commitsDay 3 ["a"; "b"; "c"]] 0 2 2)
       0 2)
  + 3 = 3 + 2 * 1.
Proof.
  pose proof (C1_distribution_copies
                [emptyDay 1; emptyDay 2; commitsDay 3 ["a"; "b"; "c"]] 0 2
                (commitsDay 3 ["a"; "b"; "c"])) as H.
  simpl in H. apply H.
  - lia.
  - reflexivity.
  - intros k d Hk Hd. destruct k as [|[|k]]; [| |lia]; by injection Hd as <-.
Defined.

(** C1 fails as stated, on the specification's own example: two empty
    days before a day with three commits. Each empty day receives one
    tagged copy, and the source day still holds its three commits behind
    the marker, so the commits add up to five, not three. *)
Lemma C1_copies_exceed_source_count :
  let r := activities
             (distributeActivities [emptyDay 1; emptyDay 2; commitsDay 3 ["a"; "b"; "c"]]) in
  total commitCount (gapDaysOf r 0 2) = 2
  ∧ (commits ∘ gitlabActivity) <$> r !! 2
    = Some (noteCommit 2 :: commits (gitlabActivity (commitsDay 3 ["a"; "b"; "c"])))
  ∧ total commitCount (gapDaysOf r 0 2)
    + length (commits (gitlabActivity (commitsDay 3 ["a"; "b"; "c"]))) ≠ 3.
Proof. by vm_compute. Qed.

(** C5, evaluated on two empty days before a day with one commit. The
    step at index 0 counts the gap of two days and can relocate nothing;
    the scan then goes on to index 1, finds it still empty and counts a
    second gap, of one day, against the same source day. The summary
    reports three gap days for two empty days, in two distributions. *)
Theorem C5_gap_days_scanned_again :
  let l := [emptyDay 1; emptyDay 2; commitsDay 3 ["a"]] in
  let st1 := scanStep distributeWorkAcrossGap (mkScan l 0 0) 0 in
  st1 = mkScan l 2 1
  ∧ scanStep distributeWorkAcrossGap st1 1 = mkScan l 3 2
  ∧ distributionInfo (distributeActivities l)
    = mkInfo 3 2 (proportionalMessage 3).
Proof. by vm_compute. Qed.

End DistributorFacts.

(** ** The activity cache *)

Module CacheFacts.

Import DateModel Cache.

Lemma isExpired_false now c ts : isExpired now c ts = false ↔ (now - ts ≤ cacheTTL c)%Z.
Proof. unfold isExpired. rewrite Z.ltb_ge. done. Qed.

Lemma isExpired_true now c ts : isExpired now c ts = true ↔ (cacheTTL c < now - ts)%Z.
Proof. unfold isExpired. by rewrite Z.ltb_lt. Qed.

(** A lookup, in each of the three namespaces. *)
Lemma getGitLabActivity_hit now date c p :
  (getGitLabActivity now date c).1 = Some p ↔
  ∃ e, gitlab (cache c) !! getDateKey date = Some e
       ∧ (now - timestamp e ≤ cacheTTL c)%Z ∧ data e = p.
Proof.
  unfold getGitLabActivity.
  destruct (gitlab (cache c) !! getDateKey date) as [e|]; simpl.
  - destruct (isExpired now c (timestamp e)) eqn:E; simpl.
    + apply isExpired_true in E. split; [done|]. intros (e' & [= <-] & Hle & _). lia.
    + apply isExpired_false in E. split.
      * intros [= <-]. by exists e.
      * by intros (e' & [= <-] & _ & <-).
  - split; [done|]. by intros (e & ? & _).
Qed.

Lemma getGoogleCalendarEvents_hit now date c p :
  (getGoogleCalendarEvents now date c).1 = Some p ↔
  ∃ e, googleCalendar (cache c) !! getDateKey date = Some e
       ∧ (now - timestamp e ≤ cacheTTL c)%Z ∧ data e = p.
Proof.
  unfold getGoogleCalendarEvents.
  destruct (googleCalendar (cache c) !! getDateKey date) as [e|]; simpl.
  - destruct (isExpired now c (timestamp e)) eqn:E; simpl.
    + apply isExpired_true in E. split; [done|]. intros (e' & [= <-] & Hle & _). lia.
    + apply isExpired_false in E. split.
      * intros [= <-]. by exists e.
      * by intros (e' & [= <-] & _ & <-).
  - split; [done|]. by intros (e & ? & _).
Qed.

Lemma getOutlookCalendarEvents_hit now date c p :
  (getOutlookCalendarEvents now date c).1 = Some p ↔
  ∃ e, outlookCalendar (cache c) !! getDateKey date = Some e
       ∧ (now - timestamp e ≤ cacheTTL c)%Z ∧ data e = p.
Proof.
  unfold getOutlookCalendarEvents.
  destruct (outlookCalendar (cache c) !! getDateKey date) as [e|]; simpl.
  - destruct (isExpired now c (timestamp e)) eqn:E; simpl.
    + apply isExpired_true in E. split; [done|]. intros (e' & [= <-] & Hle & _). lia.
    + apply isExpired_false in E. split.
      * intros [= <-]. by exists e.
      * by intros (e' & [= <-] & _ & <-).
  - split; [done|]. by intros (e & ? & _).
Qed.

Lemma getGitLabActivity_stale now date c e :
  gitlab (cache c) !! getDateKey date = Some e →
  (cacheTTL c < now - timestamp e)%Z →
  (getGitLabActivity now date c).1 = None
  ∧ gitlab (cache (getGitLabActivity now date c).2) !! getDateKey date = None.
Proof.
  intros He Hold. unfold getGitLabActivity. rewrite He.
  apply isExpired_true in Hold. rewrite Hold. simpl. split; [done|].
  apply lookup_delete_eq.
Qed.

Lemma getGoogleCalendarEvents_stale now date c e :
  googleCalendar (cache c) !! getDateKey date = Some e →
  (cacheTTL c < now - timestamp e)%Z →
  (getGoogleCalendarEvents now date c).1 = None
  ∧ googleCalendar (cache (getGoogleCalendarEvents now date c).2) !! getDateKey date = None.
Proof.
  intros He Hold. unfold getGoogleCalendarEvents. rewrite He.
  apply isExpired_true in Hold. rewrite Hold. simpl. split; [done|].
  apply lookup_delete_eq.
Qed.

Lemma getOutlookCalendarEvents_stale now date c e :
  outlookCalendar (cache c) !! getDateKey date = Some e →
  (cacheTTL c < now - timestamp e)%Z →
  (getOutlookCalendarEvents now date c).1 = None
  ∧ outlookCalendar (cache (getOutlookCalendarEvents now date c).2) !! getDateKey date = None.
Proof.
  intros He Hold. unfold getOutlookCalendarEvents. rewrite He.
  apply isExpired_true in Hold. rewrite Hold. simpl. split; [done|].
  apply lookup_delete_eq.
Qed.

(** C3. In each namespace a lookup for a day is a hit exactly when the
    store holds an entry under the day's key whose age [now - timestamp]
    is at most the TTL, and the hit returns that entry's payload; a lookup
    made one tick after the TTL has run out is a miss and removes the
    entry from the store. *)
Theorem C3_hit_iff_within_ttl (now date : Z) (c : ActivityCache) :
  let key := getDateKey date in
  (∀ p, (getGitLabActivity now date c).1 = Some p ↔
        ∃ e, gitlab (cache c) !! key = Some e
             ∧ (now - timestamp e ≤ cacheTTL c)%Z ∧ data e = p)
  ∧ (∀ p, (getGoogleCalendarEvents now date c).1 = Some p ↔
          ∃ e, googleCalendar (cache c) !! key = Some e
               ∧ (now - timestamp e ≤ cacheTTL c)%Z ∧ data e = p)
  ∧ (∀ p, (getOutlookCalendarEvents now date c).1 = Some p ↔
          ∃ e, outlookCalendar (cache c) !! key = Some e
               ∧ (now - timestamp e ≤ cacheTTL c)%Z ∧ data e = p)
  ∧ (∀ e, gitlab (cache c) !! key = Some e →
          now = (timestamp e + cacheTTL c + 1)%Z →
          (getGitLabActivity now date c).1 = None
          ∧ gitlab (cache (getGitLabActivity now date c).2) !! key = None)
  ∧ (∀ e, googleCalendar (cache c) !! key = Some e →
          now = (timestamp e + cacheTTL c + 1)%Z →
          (getGoogleCalendarEvents now date c).1 = None
          ∧ googleCalendar (cache (getGoogleCalendarEvents now date c).2) !! key = None)
  ∧ (∀ e, outlookCalendar (cache c) !! key = Some e →
          now = (timestamp e + cacheTTL c + 1)%Z →
          (getOutlookCalendarEvents now date c).1 = None
          ∧ outlookCalendar (cache (getOutlookCalendarEvents now date c).2) !! key = None).
Proof.
  repeat split.
  - apply getGitLabActivity_hit.
  - apply getGitLabActivity_hit.
  - apply getGoogleCalendarEvents_hit.
  - apply getGoogleCalendarEvents_hit.
  - apply getOutlookCalendarEvents_hit.
  - apply getOutlookCalendarEvents_hit.
  - eapply getGitLabActivity_stale; [done|lia].
  - eapply getGitLabActivity_stale; [done|lia].
  - eapply getGoogleCalendarEvents_stale; [done|lia].
  - eapply getGoogleCalendarEvents_stale; [done|lia].
  - eapply getOutlookCalendarEvents_stale; [done|lia].
  - eapply getOutlookCalendarEvents_stale; [done|lia].
Qed.

Lemma C3_hit_iff_within_ttl_witness :
  (getGitLabActivity 3601000 sampleDay sampleCache).1 = Some samplePayload
  ∧ (getGitLabActivity 3601001 sampleDay sampleCache).1 = None
  ∧ gitlab (cache (getGitLabActivity 3601001 sampleDay sampleCache).2)
      !! getDateKey sampleDay = None.
Proof.
  split.
  - apply (C3_hit_iff_within_ttl 3601000 sampleDay sampleCache).
    exists (mkEntry samplePayload 1000 "gitlab"). split; [reflexivity|].
    split; [by vm_compute | reflexivity].
  - apply (C3_hit_iff_within_ttl 3601001 sampleDay sampleCache)
      with (e := mkEntry samplePayload 1000 "gitlab"); reflexivity.
Defined.

(** *** Clearing *)

Section Sweep.
Context {T : Type}.
Variables now ttl : Z.

Lemma sweep_fold_gone kvs (acc : gmap string (CacheEntry T)) k :
  acc !! k = None → foldl (sweepStep now ttl) acc kvs !! k = None.
Proof.
  revert acc. induction kvs as [|[k' e'] kvs IH]; intros acc Hk; simpl; [done|].
  apply IH. unfold sweepStep. simpl. case_match; [|done].
  rewrite lookup_delete. by case_decide.
Qed.

Lemma sweep_fold_expired kvs (acc : gmap string (CacheEntry T)) k e :
  (k, e) ∈ kvs → (ttl < now - timestamp e)%Z → foldl (sweepStep now ttl) acc kvs !! k = None.
Proof.
  revert acc. induction kvs as [|[k' e'] kvs IH]; intros acc Hin Hold; simpl.
  - by apply not_elem_of_nil in Hin.
  - apply elem_of_cons in Hin as [[= <- <-]|Hin]; [|by apply IH].
    apply sweep_fold_gone. unfold sweepStep. simpl.
    destruct (Z.ltb_spec ttl (now - timestamp e)); [|lia]. apply lookup_delete_eq.
Qed.

Lemma sweep_fold_fresh kvs (acc : gmap string (CacheEntry T)) k :
  (∀ e, (k, e) ∈ kvs → (now - timestamp e ≤ ttl)%Z) →
  foldl (sweepStep now ttl) acc kvs !! k = acc !! k.
Proof.
  revert acc. induction kvs as [|[k' e'] kvs IH]; intros acc Hall; simpl; [done|].
  rewrite IH by (intros e He; apply Hall; by right).
  unfold sweepStep. simpl. destruct (Z.ltb_spec ttl (now - timestamp e')); [|done].
  rewrite lookup_delete_ne; [done|]. intros <-.
  specialize (Hall e' ltac:(by left)). lia.
Qed.

(** The sweep keeps exactly the entries that pass the TTL test. *)
Lemma lookup_sweep (m : gmap string (CacheEntry T)) k :
  sweep now ttl m !! k =
  match m !! k with
  | Some e => if (ttl <? now - timestamp e)%Z then None else Some e
  | None => None
  end.
Proof.
  unfold sweep.
  destruct (m !! k) as [e|] eqn:Hk.
  - destruct (Z.ltb_spec ttl (now - timestamp e)).
    + eapply sweep_fold_expired; [|done]. by apply elem_of_map_to_list.
    + rewrite sweep_fold_fresh; [done|].
      intros e' He'. apply elem_of_map_to_list in He'.
      rewrite Hk in He'. by injection He' as <-.
  - rewrite sweep_fold_fresh; [done|].
    intros e' He'. apply elem_of_map_to_list in He'. congruence.
Qed.
End Sweep.

(** C10. [clearAll] empties the three namespaces, writes the empty store
    to the file and zeroes the six counters. [clearGitLab],
    [clearCalendars] and [clearExpired] remove their own entries only (the
    GitLab namespace; the two calendar namespaces; in every namespace the
    entries older than the TTL), write the store to the file, and leave
    the six counters, hence the statistics report, as they were. *)
Theorem C10_clear_scopes_and_counters (now : Z) (c : ActivityCache) :
  (cache (clearAll c) = emptyData
   ∧ cacheStats (clearAll c) = zeroStats
   ∧ cacheFile (clearAll c) = Some emptyData)
  ∧ (gitlab (cache (clearGitLab c)) = ∅
     ∧ googleCalendar (cache (clearGitLab c)) = googleCalendar (cache c)
     ∧ outlookCalendar (cache (clearGitLab c)) = outlookCalendar (cache c)
     ∧ cacheFile (clearGitLab c) = Some (cache (clearGitLab c))
     ∧ cacheStats (clearGitLab c) = cacheStats c
     ∧ getCacheStats (clearGitLab c) = getCacheStats c)
  ∧ (gitlab (cache (clearCalendars c)) = gitlab (cache c)
     ∧ googleCalendar (cache (clearCalendars c)) = ∅
     ∧ outlookCalendar (cache (clearCalendars c)) = ∅
     ∧ cacheFile (clearCalendars c) = Some (cache (clearCalendars c))
     ∧ cacheStats (clearCalendars c) = cacheStats c
     ∧ getCacheStats (clearCalendars c) = getCacheStats c)
  ∧ ((∀ k, gitlab (cache (clearExpired now c)) !! k =
           match gitlab (cache c) !! k with
           | Some e => if (cacheTTL c <? now - timestamp e)%Z then None else Some e
           | None => None
           end)
     ∧ (∀ k, googleCalendar (cache (clearExpired now c)) !! k =
             match googleCalendar (cache c) !! k with
             | Some e => if (cacheTTL c <? now - timestamp e)%Z then None else Some e
             | None => None
             end)
     ∧ (∀ k, outlookCalendar (cache (clearExpired now c)) !! k =
             match outlookCalendar (cache c) !! k with
             | Some e => if (cacheTTL c <? now - timestamp e)%Z then None else Some e
             | None => None
             end)
     ∧ cacheFile (clearExpired now c) = Some (cache (clearExpired now c))
     ∧ cacheStats (clearExpired now c) = cacheStats c
     ∧ getCacheStats (clearExpired now c) = getCacheStats c).
Proof.
  repeat split; try reflexivity; intros k; simpl; apply lookup_sweep.
Qed.

End CacheFacts.

(** ** The fetch orchestrator *)

Module OrchestratorFacts.

Import DateModel Cache Orchestrator OrchestratorSpec.

(** A fresh entry of the primary calendar is returned at once, whatever it
    holds: the secondary calendar is neither looked up nor called. *)
Lemma cached_primary_returns_at_once tz now P s date evs outlookAuthenticated w :
  parseDay tz s = Some date →
  (cacheGetGoogle now date w).1 = Some evs →
  run (fetchCalendarEventsWithCache tz now P s true outlookAuthenticated false) w
  = ((cacheGetGoogle now date w).2, Fulfilled (mkCalFetch evs true))
  ∧ existsb isOutlookAttempt
      (newOps w (run (fetchCalendarEventsWithCache tz now P s true outlookAuthenticated
                        false) w).1) = false.
Proof.
  intros Hparse Hhit.
  assert (run (fetchCalendarEventsWithCache tz now P s true outlookAuthenticated false) w
          = ((cacheGetGoogle now date w).2, Fulfilled (mkCalFetch evs true))) as Hrun.
  { unfold run, awaitCall, fetchCalendarEventsWithCache. rewrite Hparse.
    destruct (cacheGetGoogle now date w) as [c w1]. simpl in Hhit. by subst c. }
  split; [done|]. rewrite Hrun. unfold newOps, cacheGetGoogle.
  destruct (getGoogleCalendarEvents now date (activityCache w)). simpl.
  by rewrite drop_app_length.
Qed.

(** When the primary calendar is fetched and yields no event, or rejects,
    the secondary calendar is tried, if it is enabled. *)
Lemma fetched_empty_primary_tries_secondary tz now P s date w :
  parseDay tz s = Some date →
  googleCalendar_getEventsForDate P s = Some []
  ∨ googleCalendar_getEventsForDate P s = None →
  existsb isOutlookAttempt
    (newOps w (run (fetchCalendarEventsWithCache tz now P s true true true) w).1) = true.
Proof.
  intros Hparse Hgo.
  unfold run, awaitCall, fetchCalendarEventsWithCache, fetchGoogleFresh, outlookBlock,
    fetchOutlookFresh, awaitCall.
  rewrite Hparse. unfold newOps. simpl.
  destruct Hgo as [-> | ->]; simpl;
    destruct (outlookCalendar_getEventsForDate P s); simpl;
    rewrite <- ?app_assoc, drop_app_length; simpl;
    rewrite ?orb_true_r; done.
Qed.

(** C2, evaluated. The primary calendar has no event for the day and the
    secondary has one. The first call finds no cache entry, fetches the
    primary, gets zero events and goes on to the secondary, whose event it
    returns. The second call, a moment later, finds the primary's (empty)
    answer in the cache and returns it at once: zero events from the
    primary, and the secondary is neither looked up nor called. *)
Theorem C2_cached_empty_primary_skips_secondary :
  let call := fetchCalendarEventsWithCache 0 1000 quietPrimary "2025-11-27" true true false in
  let first := run call newWorld in
  let second := run call first.1 in
  first.2 = Fulfilled (mkCalFetch [standup] false)
  ∧ newOps newWorld first.1
    = [CacheGet GoogleKind "2025-11-27"; Fetch GoogleCalendar "2025-11-27";
       CacheSet GoogleKind "2025-11-27"; CacheGet OutlookKind "2025-11-27";
       Fetch OutlookCalendar "2025-11-27"; CacheSet OutlookKind "2025-11-27"]
  ∧ second.2 = Fulfilled (mkCalFetch [] true)
  ∧ newOps first.1 second.1 = [CacheGet GoogleKind "2025-11-27"]
  ∧ existsb isOutlookAttempt (newOps first.1 second.1) = false.
Proof. by vm_compute. Qed.

(** The UTC day of local midnight: the day itself at or west of UTC, the
    day before it anywhere east of UTC. *)
Lemma utc_day_of_local_midnight tz year monthIndex day :
  (-1440 < tz ≤ 1440)%Z →
  let yr := if ((0 <=? year) && (year <=? 99))%Z then (1900 + year)%Z else year in
  getDateKey (newDate tz year monthIndex day)
  = isoDayOfNumber (MakeDay yr monthIndex day - (if (0 <? tz)%Z then 1 else 0)).
Proof.
  intros Htz yr. unfold getDateKey, isoDay, newDate. fold yr. f_equal.
  unfold msPerDay, msPerMinute.
  destruct (Z.ltb_spec 0 tz).
  - symmetry. apply (Z.div_unique_pos _ _ _ (86400000 - tz * 60000)%Z); lia.
  - symmetry. apply (Z.div_unique_pos _ _ _ (- tz * 60000)%Z); lia.
Qed.

(** Whatever the key is, the lookup and the store of a day use the same
    one: a payload that was fetched and stored is returned as a hit by the
    next call for the same day string. *)
Lemma stored_day_is_hit_again tz now P s date a w :
  parseDay tz s = Some date →
  gitlab_getActivityForDate P s = Some a →
  (0 ≤ cacheTTL (activityCache w))%Z →
  (cacheGetGitLab now date w).1 = None →
  (run (fetchGitLabActivityWithCache tz now P s false)
     (run (fetchGitLabActivityWithCache tz now P s false) w).1).2
  = Fulfilled (mkGitFetch a true).
Proof.
  intros Hparse Ha Httl Hmiss.
  assert (cacheTTL (activityCache (cacheGetGitLab now date w).2)
          = cacheTTL (activityCache w)) as Hkeep.
  { unfold cacheGetGitLab, getGitLabActivity.
    destruct (gitlab (cache (activityCache w)) !! getDateKey date) as [e|]; [|done].
    by destruct (isExpired now (activityCache w) (timestamp e)). }
  unfold run, awaitCall, fetchGitLabActivityWithCache. rewrite Hparse.
  destruct (cacheGetGitLab now date w) as [c w1]. simpl in Hmiss, Hkeep. subst c.
  unfold fetchGitLabFresh. rewrite Ha.
  unfold cacheGetGitLab at 1, getGitLabActivity. simpl.
  rewrite lookup_insert_eq. unfold isExpired. simpl. rewrite Hkeep.
  by destruct (Z.ltb_spec (cacheTTL (activityCache w)) (now - now)); [lia|].
Qed.

(** C7, evaluated in a process one hour east of UTC. The day
    [2025-11-27] is looked up and stored under the key [2025-11-26]: local
    midnight of the 27th is 23:00 UTC on the 26th, and the key is the UTC
    day. *)
Theorem C7_key_is_utc_day_of_local_midnight :
  let call := fetchGitLabActivityWithCache 60 1000 busyProviders "2025-11-27" false in
  let after := run call newWorld in
  newOps newWorld after.1
    = [CacheGet GitLabKind "2025-11-26"; Fetch GitLab "2025-11-27";
       CacheSet GitLabKind "2025-11-26"]
  ∧ gitlab (cache (activityCache after.1)) !! "2025-11-27" = None
  ∧ data <$> gitlab (cache (activityCache after.1)) !! "2025-11-26"
    = Some (oneCommit "2025-11-27")
  ∧ dayKey 60 "2025-11-27" = Some "2025-11-26"
  ∧ dayKey 0 "2025-11-27" = Some "2025-11-27"
  ∧ dayKey (-300) "2025-11-27" = Some "2025-11-27".
Proof. by vm_compute. Qed.

(** *** Agreement of worlds under a key *)

Global Instance agreeS_equiv k : Equivalence (agreeS k).
Proof.
  split.
  - by intros w.
  - intros w w' (? & ? & ? & ?). by repeat split.
  - intros w1 w2 w3 (? & ? & ? & ?) (? & ? & ? & ?). repeat split; congruence.
Qed.

Global Instance agreeW_equiv k : Equivalence (agreeW k).
Proof.
  split.
  - by intros w.
  - intros w w' (? & ?). by split.
  - intros w1 w2 w3 (? & ?) (? & ?). split; congruence.
Qed.

Lemma agreeS_agreeW k w w' : agreeS k w w' → agreeW k w w'.
Proof. by intros (? & _ & _ & ?). Qed.

Section CacheOps.
Variable now : Z.

Lemma cacheGetGitLab_sim date w w' :
  agreeS (getDateKey date) w w' →
  (cacheGetGitLab now date w).1 = (cacheGetGitLab now date w').1
  ∧ agreeS (getDateKey date) (cacheGetGitLab now date w).2 (cacheGetGitLab now date w').2.
Proof.
  intros (Httl & Hgl & Hgo & Hol).
  unfold cacheGetGitLab, getGitLabActivity, isExpired. rewrite <- Hgl, <- Httl.
  destruct (gitlab (cache (activityCache w)) !! getDateKey date) as [e|] eqn:E; simpl;
    [destruct (cacheTTL (activityCache w) <? now - timestamp e)%Z; simpl|];
    repeat split; simpl; rewrite ?lookup_delete_eq; congruence.
Qed.

Lemma cacheGetGitLab_frame date w k :
  getDateKey date ≠ k → agreeS k w (cacheGetGitLab now date w).2.
Proof.
  intros Hk. unfold cacheGetGitLab, getGitLabActivity.
  destruct (gitlab (cache (activityCache w)) !! getDateKey date) as [e|]; simpl;
    [destruct (isExpired now (activityCache w) (timestamp e)); simpl|];
    repeat split; simpl; rewrite ?lookup_delete_ne by done; done.
Qed.

Lemma cacheGetGoogle_sim date w w' :
  agreeS (getDateKey date) w w' →
  (cacheGetGoogle now date w).1 = (cacheGetGoogle now date w').1
  ∧ agreeS (getDateKey date) (cacheGetGoogle now date w).2 (cacheGetGoogle now date w').2.
Proof.
  intros (Httl & Hgl & Hgo & Hol).
  unfold cacheGetGoogle, getGoogleCalendarEvents, isExpired. rewrite <- Hgo, <- Httl.
  destruct (googleCalendar (cache (activityCache w)) !! getDateKey date) as [e|] eqn:E; simpl;
    [destruct (cacheTTL (activityCache w) <? now - timestamp e)%Z; simpl|];
    repeat split; simpl; rewrite ?lookup_delete_eq; congruence.
Qed.

Lemma cacheGetGoogle_frame date w k :
  getDateKey date ≠ k → agreeS k w (cacheGetGoogle now date w).2.
Proof.
  intros Hk. unfold cacheGetGoogle, getGoogleCalendarEvents.
  destruct (googleCalendar (cache (activityCache w)) !! getDateKey date) as [e|]; simpl;
    [destruct (isExpired now (activityCache w) (timestamp e)); simpl|];
    repeat split; simpl; rewrite ?lookup_delete_ne by done; done.
Qed.

Lemma cacheGetOutlook_simW date w w' :
  agreeW (getDateKey date) w w' →
  (cacheGetOutlook now date w).1 = (cacheGetOutlook now date w').1
  ∧ agreeW (getDateKey date) (cacheGetOutlook now date w).2 (cacheGetOutlook now date w').2.
Proof.
  intros (Httl & Hol).
  unfold cacheGetOutlook, getOutlookCalendarEvents, isExpired. rewrite <- Hol, <- Httl.
  destruct (outlookCalendar (cache (activityCache w)) !! getDateKey date) as [e|] eqn:E; simpl;
    [destruct (cacheTTL (activityCache w) <? now - timestamp e)%Z; simpl|];
    repeat split; simpl; rewrite ?lookup_delete_eq; congruence.
Qed.

Lemma cacheGetOutlook_sim date w w' :
  agreeS (getDateKey date) w w' →
  (cacheGetOutlook now date w).1 = (cacheGetOutlook now date w').1
  ∧ agreeS (getDateKey date) (cacheGetOutlook now date w).2 (cacheGetOutlook now date w').2.
Proof.
  intros (Httl & Hgl & Hgo & Hol).
  unfold cacheGetOutlook, getOutlookCalendarEvents, isExpired. rewrite <- Hol, <- Httl.
  destruct (outlookCalendar (cache (activityCache w)) !! getDateKey date) as [e|] eqn:E; simpl;
    [destruct (cacheTTL (activityCache w) <? now - timestamp e)%Z; simpl|];
    repeat split; simpl; rewrite ?lookup_delete_eq; congruence.
Qed.

Lemma cacheGetOutlook_frame date w k :
  getDateKey date ≠ k → agreeS k w (cacheGetOutlook now date w).2.
Proof.
  intros Hk. unfold cacheGetOutlook, getOutlookCalendarEvents.
  destruct (outlookCalendar (cache (activityCache w)) !! getDateKey date) as [e|]; simpl;
    [destruct (isExpired now (activityCache w) (timestamp e)); simpl|];
    repeat split; simpl; rewrite ?lookup_delete_ne by done; done.
Qed.

Lemma logOp_frameW op v k : agreeW k v (logOp op v).
Proof. done. Qed.

Lemma cacheSetGitLab_frameW date a v k : agreeW k v (cacheSetGitLab now date a v).
Proof. done. Qed.

Lemma cacheSetGoogle_frameW date evs v k : agreeW k v (cacheSetGoogle now date evs v).
Proof. done. Qed.

Lemma cacheSetOutlook_simW date evs v v' k :
  agreeW k v v' →
  agreeW k (cacheSetOutlook now date evs v) (cacheSetOutlook now date evs v').
Proof.
  intros (Httl & Hol). split; [done|]. simpl.
  rewrite !lookup_insert. by case_decide.
Qed.

Lemma cacheSetOutlook_frameW date evs v k :
  getDateKey date ≠ k → agreeW k v (cacheSetOutlook now date evs v).
Proof. intros Hk. split; [done|]. simpl. by rewrite lookup_insert_ne. Qed.

End CacheOps.

(** *** One day's tasks under related answers *)

Section TaskSim.
Variables tz now : Z.
Variables Q Q' : Providers.
Variable s : string.
Variable date : Z.
Hypothesis Hparse : parseDay tz s = Some date.

Lemma emptyAnswer_parsed : emptyAnswer tz s = emptyPayload date.
Proof. unfold emptyAnswer. by rewrite Hparse. Qed.

Lemma gitOutcome_sameOrEmpty a a' :
  sameOrEmpty (emptyAnswer tz s) a a' → gitSame date (gitOutcome a) (gitOutcome a').
Proof.
  rewrite emptyAnswer_parsed. intros [<-|[-> ->]]; [|done]. by destruct a.
Qed.

Lemma fetchGitLab_sim_gen
    (E : Settled (option GitFetch) → Settled (option GitFetch) → Prop)
    enabled forceRefresh :
  E (Fulfilled None) (Fulfilled None) →
  (∀ a, E (Fulfilled (Some (mkGitFetch a true))) (Fulfilled (Some (mkGitFetch a true)))) →
  E (gitOutcome (gitlab_getActivityForDate Q s))
    (gitOutcome (gitlab_getActivityForDate Q' s)) →
  AsyncSim (getDateKey date) E
    (optionalFetch enabled (fetchGitLabActivityWithCache tz now Q s forceRefresh))
    (optionalFetch enabled (fetchGitLabActivityWithCache tz now Q' s forceRefresh)).
Proof.
  intros Hnone Hhit Hfresh w w' HS.
  unfold optionalFetch, fetchGitLabActivityWithCache. rewrite Hparse.
  destruct enabled; [|split; [done|]; intros v v' HW; by split].
  assert (PromiseSim (getDateKey date) E
            (liftOption (fetchGitLabFresh now Q date s))
            (liftOption (fetchGitLabFresh now Q' date s))) as Hfetch.
  { intros v v' HW. unfold liftOption, fetchGitLabFresh, gitOutcome in *.
    destruct (gitlab_getActivityForDate Q s), (gitlab_getActivityForDate Q' s);
      by split. }
  destruct forceRefresh; simpl.
  - split; [done|]. exact Hfetch.
  - destruct (cacheGetGitLab_sim now date w w' HS) as [Hr HS'].
    destruct (cacheGetGitLab now date w) as [c w1].
    destruct (cacheGetGitLab now date w') as [c' w1']. simpl in Hr, HS'. subst c'.
    destruct c; simpl; (split; [done|]); [|exact Hfetch].
    intros v v' HW. split; [done|]. apply Hhit.
Qed.

Lemma fetchGitHub_sim_gen
    (E : Settled (option GitFetch) → Settled (option GitFetch) → Prop)
    enabled forceRefresh :
  E (Fulfilled None) (Fulfilled None) →
  (∀ a, E (Fulfilled (Some (mkGitFetch a true))) (Fulfilled (Some (mkGitFetch a true)))) →
  E (gitOutcome (github_getActivityForDate Q s))
    (gitOutcome (github_getActivityForDate Q' s)) →
  AsyncSim (getDateKey date) E
    (optionalFetch enabled (fetchGitHubActivityWithCache tz now Q s forceRefresh))
    (optionalFetch enabled (fetchGitHubActivityWithCache tz now Q' s forceRefresh)).
Proof.
  intros Hnone Hhit Hfresh w w' HS.
  unfold optionalFetch, fetchGitHubActivityWithCache. rewrite Hparse.
  destruct enabled; [|split; [done|]; intros v v' HW; by split].
  assert (PromiseSim (getDateKey date) E
            (liftOption (fetchGitHubFresh now Q date s))
            (liftOption (fetchGitHubFresh now Q' date s))) as Hfetch.
  { intros v v' HW. unfold liftOption, fetchGitHubFresh, gitOutcome in *.
    destruct (github_getActivityForDate Q s), (github_getActivityForDate Q' s);
      by split. }
  destruct forceRefresh; simpl.
  - split; [done|]. exact Hfetch.
  - destruct (cacheGetGitLab_sim now date w w' HS) as [Hr HS'].
    destruct (cacheGetGitLab now date w) as [c w1].
    destruct (cacheGetGitLab now date w') as [c' w1']. simpl in Hr, HS'. subst c'.
    destruct c; simpl; (split; [done|]); [|exact Hfetch].
    intros v v' HW. split; [done|]. apply Hhit.
Qed.

Lemma outlookBlock_resultW outlookAuthenticated forceRefresh meetings v v' :
  sameOrEmpty []
    (outlookCalendar_getEventsForDate Q s) (outlookCalendar_getEventsForDate Q' s) →
  agreeW (getDateKey date) v v' →
  (awaitCall (outlookBlock now Q date s outlookAuthenticated forceRefresh meetings) v).2
  = (awaitCall (outlookBlock now Q' date s outlookAuthenticated forceRefresh meetings) v').2.
Proof.
  intros Hrel HW. unfold awaitCall, outlookBlock.
  destruct (length meetings =? 0) eqn:Hlen; simpl; [|done].
  apply Nat.eqb_eq, nil_length_inv in Hlen as ->.
  destruct outlookAuthenticated; simpl; [|done].
  assert (∀ u u', (fetchOutlookFresh now Q date s [] u).2
                  = (fetchOutlookFresh now Q' date s [] u').2) as Hfetch.
  { intros u u'. unfold fetchOutlookFresh. destruct Hrel as [<-|[-> ->]]; [|done].
    by destruct (outlookCalendar_getEventsForDate Q s). }
  destruct forceRefresh; simpl; [apply Hfetch|].
  destruct (cacheGetOutlook_simW now date v v' HW) as [Hr _].
  destruct (cacheGetOutlook now date v) as [c v1].
  destruct (cacheGetOutlook now date v') as [c' v1']. simpl in Hr. subst c'.
  destruct c; simpl; [done|apply Hfetch].
Qed.

(** The synchronous prefix of the second block does not look at the
    adapters. *)
Lemma outlookBlock_prefix outlookAuthenticated forceRefresh meetings w w' :
  agreeS (getDateKey date) w w' →
  agreeS (getDateKey date)
    (outlookBlock now Q date s outlookAuthenticated forceRefresh meetings w).1
    (outlookBlock now Q' date s outlookAuthenticated forceRefresh meetings w').1.
Proof.
  intros HS. unfold outlookBlock.
  destruct ((length meetings =? 0) && outlookAuthenticated); [|done].
  destruct forceRefresh; simpl; [done|].
  destruct (cacheGetOutlook_sim now date w w' HS) as [Hr HS'].
  destruct (cacheGetOutlook now date w) as [c w1].
  destruct (cacheGetOutlook now date w') as [c' w1']. simpl in Hr, HS'. subst c'.
  by destruct c.
Qed.

Lemma outlookBlock_sim outlookAuthenticated forceRefresh meetings :
  sameOrEmpty []
    (outlookCalendar_getEventsForDate Q s) (outlookCalendar_getEventsForDate Q' s) →
  AsyncSimR (getDateKey date) eq
    (outlookBlock now Q date s outlookAuthenticated forceRefresh meetings)
    (outlookBlock now Q' date s outlookAuthenticated forceRefresh meetings).
Proof.
  intros Hrel w w' HS. split; [by apply outlookBlock_prefix|].
  unfold outlookBlock.
  destruct (length meetings =? 0) eqn:Hlen; simpl; [|done].
  apply Nat.eqb_eq, nil_length_inv in Hlen as ->.
  destruct outlookAuthenticated; simpl; [|done].
  assert (PromiseSimR (getDateKey date) eq
            (fetchOutlookFresh now Q date s []) (fetchOutlookFresh now Q' date s []))
    as Hfetch.
  { intros v v' _. unfold fetchOutlookFresh. destruct Hrel as [<-|[-> ->]]; [|done].
    by destruct (outlookCalendar_getEventsForDate Q s). }
  destruct forceRefresh; simpl; [done|].
  destruct (cacheGetOutlook_sim now date w w' HS) as [Hr HS'].
  destruct (cacheGetOutlook now date w) as [c w1].
  destruct (cacheGetOutlook now date w') as [c' w1']. simpl in Hr, HS'. subst c'.
  destruct c; simpl; [|exact Hfetch]. by intros v v' _.
Qed.

(** The synchronous prefix of the calendar task does not look at the
    adapters. *)
Lemma fetchCalendar_prefix googleAuthenticated outlookAuthenticated forceRefresh w w' :
  agreeS (getDateKey date) w w' →
  agreeS (getDateKey date)
    (fetchCalendarEventsWithCache tz now Q s googleAuthenticated outlookAuthenticated
       forceRefresh w).1
    (fetchCalendarEventsWithCache tz now Q' s googleAuthenticated outlookAuthenticated
       forceRefresh w').1.
Proof.
  intros HS. unfold fetchCalendarEventsWithCache. rewrite Hparse.
  destruct googleAuthenticated; [|by apply outlookBlock_prefix].
  destruct forceRefresh; simpl; [done|].
  destruct (cacheGetGoogle_sim now date w w' HS) as [Hr HS'].
  destruct (cacheGetGoogle now date w) as [c w1].
  destruct (cacheGetGoogle now date w') as [c' w1']. simpl in Hr, HS'. subst c'.
  by destruct c.
Qed.

Lemma fetchCalendar_sim googleAuthenticated outlookAuthenticated forceRefresh :
  sameOrEmpty []
    (googleCalendar_getEventsForDate Q s) (googleCalendar_getEventsForDate Q' s) →
  sameOrEmpty []
    (outlookCalendar_getEventsForDate Q s) (outlookCalendar_getEventsForDate Q' s) →
  AsyncSimR (getDateKey date) eq
    (fetchCalendarEventsWithCache tz now Q s googleAuthenticated outlookAuthenticated
       forceRefresh)
    (fetchCalendarEventsWithCache tz now Q' s googleAuthenticated outlookAuthenticated
       forceRefresh).
Proof.
  intros Hgo Hol w w' HS. split; [by apply fetchCalendar_prefix|].
  unfold fetchCalendarEventsWithCache. rewrite Hparse.
  destruct googleAuthenticated; [|by apply outlookBlock_sim].
  assert (PromiseSimR (getDateKey date) eq
            (fetchGoogleFresh now Q date s outlookAuthenticated forceRefresh)
            (fetchGoogleFresh now Q' date s outlookAuthenticated forceRefresh))
    as Hfetch.
  { intros v v' HW. unfold fetchGoogleFresh. destruct Hgo as [<-|[-> ->]].
    - destruct (googleCalendar_getEventsForDate Q s);
        by apply outlookBlock_resultW.
    - by apply outlookBlock_resultW. }
  destruct forceRefresh; simpl; [done|].
  destruct (cacheGetGoogle_sim now date w w' HS) as [Hr HS'].
  destruct (cacheGetGoogle now date w) as [c w1].
  destruct (cacheGetGoogle now date w') as [c' w1']. simpl in Hr, HS'. subst c'.
  destruct c; simpl; [|exact Hfetch]. by intros v v' _.
Qed.

Lemma assembleDay_gitPart gitlabResult githubResult calendarResult :
  assembleDay date gitlabResult githubResult calendarResult =
  mkDayResult
    (mkDayActivity date
       (match calendarResult with Fulfilled v => cf_meetings v | RejectedWith _ => [] end)
       (mergeGitActivities (gitPart date gitlabResult).1 (gitPart date githubResult).1) "")
    (mkCacheInfo (gitPart date gitlabResult).2 (gitPart date githubResult).2
       (match calendarResult with Fulfilled v => cf_fromCache v | RejectedWith _ => false end)).
Proof.
  unfold assembleDay, gitPart.
  destruct gitlabResult as [[?|]|], githubResult as [[?|]|], calendarResult; done.
Qed.

(** The day's record is assembled from the outcomes of its three tasks,
    which are related as the tasks are. *)
Lemma fetchDay_sim_parts
    (E1 E2 : Settled (option GitFetch) → Settled (option GitFetch) → Prop)
    (E3 : Settled CalFetch → Settled CalFetch → Prop)
    gl gh go ol forceRefresh :
  AsyncSim (getDateKey date) E1
    (optionalFetch gl (fetchGitLabActivityWithCache tz now Q s forceRefresh))
    (optionalFetch gl (fetchGitLabActivityWithCache tz now Q' s forceRefresh)) →
  AsyncSim (getDateKey date) E2
    (optionalFetch gh (fetchGitHubActivityWithCache tz now Q s forceRefresh))
    (optionalFetch gh (fetchGitHubActivityWithCache tz now Q' s forceRefresh)) →
  AsyncSimR (getDateKey date) E3
    (fetchCalendarEventsWithCache tz now Q s go ol forceRefresh)
    (fetchCalendarEventsWithCache tz now Q' s go ol forceRefresh) →
  AsyncSimR (getDateKey date) (dayParts date E1 E2 E3)
    (fetchDayActivityParallel tz now Q s gl gh go ol forceRefresh)
    (fetchDayActivityParallel tz now Q' s gl gh go ol forceRefresh).
Proof.
  intros H1 H2 H3 w w' HS.
  unfold fetchDayActivityParallel. rewrite Hparse.
  destruct (H1 w w' HS) as [HS1 HP1].
  destruct (optionalFetch gl (fetchGitLabActivityWithCache tz now Q s forceRefresh) w)
    as [w1 p1].
  destruct (optionalFetch gl (fetchGitLabActivityWithCache tz now Q' s forceRefresh) w')
    as [w1' p1'].
  simpl in HS1, HP1.
  destruct (H2 w1 w1' HS1) as [HS2 HP2].
  destruct (optionalFetch gh (fetchGitHubActivityWithCache tz now Q s forceRefresh) w1)
    as [w2 p2].
  destruct (optionalFetch gh (fetchGitHubActivityWithCache tz now Q' s forceRefresh) w1')
    as [w2' p2'].
  simpl in HS2, HP2.
  destruct (H3 w2 w2' HS2) as [HS3 HP3].
  destruct (fetchCalendarEventsWithCache tz now Q s go ol forceRefresh w2) as [w3 p3].
  destruct (fetchCalendarEventsWithCache tz now Q' s go ol forceRefresh w2') as [w3' p3'].
  simpl in HS3, HP3. simpl. split; [done|].
  intros v v' HW. simpl.
  destruct (HP1 v v' HW) as [HW1 E1'].
  destruct (p1 v) as [v1 r1], (p1' v') as [v1' r1']. simpl in HW1, E1'.
  destruct (HP2 v1 v1' HW1) as [HW2 E2'].
  destruct (p2 v1) as [v2 r2], (p2' v1') as [v2' r2']. simpl in HW2, E2'.
  pose proof (HP3 v2 v2' HW2) as E3'.
  destruct (p3 v2) as [v3 r3], (p3' v2') as [v3' r3']. simpl in E3'.
  simpl. by exists r1, r1', r2, r2', r3, r3'.
Qed.

Lemma dayParts_same r r' :
  dayParts date (gitSame date) (gitSame date) eq r r' → r = r'.
Proof.
  intros (r1 & r1' & r2 & r2' & r3 & r3' & H1 & H2 & <- & -> & ->).
  unfold gitSame in *. f_equal. rewrite !assembleDay_gitPart. by rewrite H1, H2.
Qed.

Lemma fetchDay_sim gl gh go ol forceRefresh :
  answersRelated tz s Q Q' →
  AsyncSimR (getDateKey date) eq
    (fetchDayActivityParallel tz now Q s gl gh go ol forceRefresh)
    (fetchDayActivityParallel tz now Q' s gl gh go ol forceRefresh).
Proof.
  intros (Hgl & Hgh & Hgo & Hol) w w' HS.
  destruct (fetchDay_sim_parts (gitSame date) (gitSame date) eq gl gh go ol forceRefresh)
    with (w := w) (w' := w') as [HS' HP]; try done.
  - apply fetchGitLab_sim_gen; [done..|]. by apply gitOutcome_sameOrEmpty.
  - apply fetchGitHub_sim_gen; [done..|]. by apply gitOutcome_sameOrEmpty.
  - by apply fetchCalendar_sim.
  - split; [done|]. intros v v' HW. apply dayParts_same. by apply HP.
Qed.

(** A day whose string parses always yields a record. *)
Lemma fetchDay_fulfils gl gh go ol forceRefresh w v :
  ∃ r, ((fetchDayActivityParallel tz now Q s gl gh go ol forceRefresh w).2 v).2
       = Fulfilled r.
Proof.
  unfold fetchDayActivityParallel. rewrite Hparse.
  destruct (optionalFetch gl _ w) as [w1 p1].
  destruct (optionalFetch gh _ w1) as [w2 p2].
  destruct (fetchCalendarEventsWithCache tz now Q s go ol forceRefresh w2) as [w3 p3].
  simpl. destruct (p1 v) as [v1 r1], (p2 v1) as [v2 r2], (p3 v2) as [v3 r3].
  by eexists.
Qed.

End TaskSim.

(** *** The tasks of a day leave the entries of other keys alone *)

Section TaskFrame.
Variables tz now : Z.
Variable Q : Providers.
Variable s : string.
Variable k : string.

Lemma fetchGitLab_frame enabled forceRefresh :
  (∀ date, parseDay tz s = Some date → getDateKey date ≠ k) →
  AsyncFrame k (optionalFetch enabled (fetchGitLabActivityWithCache tz now Q s forceRefresh)).
Proof.
  intros Hkey w. unfold optionalFetch, fetchGitLabActivityWithCache.
  destruct enabled; [|by split].
  destruct (parseDay tz s) as [date|] eqn:Hparse; [|by split].
  pose proof (Hkey date eq_refl) as Hk.
  assert (PromiseFrame k (liftOption (fetchGitLabFresh now Q date s))) as Hfetch.
  { intros v. unfold liftOption, fetchGitLabFresh.
    by destruct (gitlab_getActivityForDate Q s). }
  destruct forceRefresh; simpl; [by split|].
  pose proof (cacheGetGitLab_frame now date w k Hk) as HS.
  destruct (cacheGetGitLab now date w) as [c w1]. simpl in HS.
  destruct c; simpl; (split; [done|]); [by intros v|done].
Qed.

Lemma fetchGitHub_frame enabled forceRefresh :
  (∀ date, parseDay tz s = Some date → getDateKey date ≠ k) →
  AsyncFrame k (optionalFetch enabled (fetchGitHubActivityWithCache tz now Q s forceRefresh)).
Proof.
  intros Hkey w. unfold optionalFetch, fetchGitHubActivityWithCache.
  destruct enabled; [|by split].
  destruct (parseDay tz s) as [date|] eqn:Hparse; [|by split].
  pose proof (Hkey date eq_refl) as Hk.
  assert (PromiseFrame k (liftOption (fetchGitHubFresh now Q date s))) as Hfetch.
  { intros v. unfold liftOption, fetchGitHubFresh.
    by destruct (github_getActivityForDate Q s). }
  destruct forceRefresh; simpl; [by split|].
  pose proof (cacheGetGitLab_frame now date w k Hk) as HS.
  destruct (cacheGetGitLab now date w) as [c w1]. simpl in HS.
  destruct c; simpl; (split; [done|]); [by intros v|done].
Qed.

Lemma outlookBlock_frame date outlookAuthenticated forceRefresh meetings :
  getDateKey date ≠ k →
  AsyncFrame k (outlookBlock now Q date s outlookAuthenticated forceRefresh meetings).
Proof.
  intros Hk w. unfold outlookBlock.
  destruct ((length meetings =? 0) && outlookAuthenticated); [|by split].
  assert (PromiseFrame k (fetchOutlookFresh now Q date s meetings)) as Hfetch.
  { intros v. unfold fetchOutlookFresh.
    destruct (outlookCalendar_getEventsForDate Q s); simpl; [|done].
    etrans; [apply (logOp_frameW (Fetch OutlookCalendar s))|].
    by apply cacheSetOutlook_frameW. }
  destruct forceRefresh; simpl; [by split|].
  pose proof (cacheGetOutlook_frame now date w k Hk) as HS.
  destruct (cacheGetOutlook now date w) as [c w1]. simpl in HS.
  destruct c; simpl; (split; [done|]); [by intros v|done].
Qed.

Lemma fetchCalendar_frame googleAuthenticated outlookAuthenticated forceRefresh :
  (∀ date, parseDay tz s = Some date → getDateKey date ≠ k) →
  AsyncFrame k
    (fetchCalendarEventsWithCache tz now Q s googleAuthenticated outlookAuthenticated
       forceRefresh).
Proof.
  intros Hkey w. unfold fetchCalendarEventsWithCache.
  destruct (parseDay tz s) as [date|] eqn:Hparse; [|by split].
  pose proof (Hkey date eq_refl) as Hk.
  destruct googleAuthenticated; [|by apply outlookBlock_frame].
  assert (PromiseFrame k (fetchGoogleFresh now Q date s outlookAuthenticated forceRefresh))
    as Hfetch.
  { intros v. unfold fetchGoogleFresh.
    assert (∀ meetings u, agreeW k v u →
      agreeW k v
        (awaitCall (outlookBlock now Q date s outlookAuthenticated forceRefresh meetings)
           u).1) as Hawait.
    { intros meetings u Hu. unfold awaitCall.
      destruct (outlookBlock_frame date outlookAuthenticated forceRefresh meetings Hk u)
        as [HS HP].
      destruct (outlookBlock now Q date s outlookAuthenticated forceRefresh meetings u)
        as [u1 p]. simpl in HS, HP.
      etrans; [exact Hu|]. etrans; [by apply agreeS_agreeW|]. apply HP. }
    destruct (googleCalendar_getEventsForDate Q s); by apply Hawait. }
  destruct forceRefresh; simpl; [by split|].
  pose proof (cacheGetGoogle_frame now date w k Hk) as HS.
  destruct (cacheGetGoogle now date w) as [c w1]. simpl in HS.
  destruct c; simpl; (split; [done|]); [by intros v|done].
Qed.

Lemma fetchDay_frame gl gh go ol forceRefresh :
  (∀ date, parseDay tz s = Some date → getDateKey date ≠ k) →
  AsyncFrame k (fetchDayActivityParallel tz now Q s gl gh go ol forceRefresh).
Proof.
  intros Hkey w. unfold fetchDayActivityParallel.
  pose proof (fetchGitLab_frame gl forceRefresh Hkey) as F1.
  pose proof (fetchGitHub_frame gh forceRefresh Hkey) as F2.
  pose proof (fetchCalendar_frame go ol forceRefresh Hkey) as F3.
  destruct (parseDay tz s) as [date|]; [|by split].
  destruct (F1 w) as [HS1 HP1].
  destruct (optionalFetch gl (fetchGitLabActivityWithCache tz now Q s forceRefresh) w)
    as [w1 p1]. simpl in HS1, HP1.
  destruct (F2 w1) as [HS2 HP2].
  destruct (optionalFetch gh (fetchGitHubActivityWithCache tz now Q s forceRefresh) w1)
    as [w2 p2]. simpl in HS2, HP2.
  destruct (F3 w2) as [HS3 HP3].
  destruct (fetchCalendarEventsWithCache tz now Q s go ol forceRefresh w2) as [w3 p3].
  simpl in HS3, HP3. simpl. split.
  - etrans; [exact HS1|]. etrans; [exact HS2|]. exact HS3.
  - intros v. simpl.
    pose proof (HP1 v) as H1. destruct (p1 v) as [v1 r1]. simpl in H1.
    pose proof (HP2 v1) as H2. destruct (p2 v1) as [v2 r2]. simpl in H2.
    pose proof (HP3 v2) as H3. destruct (p3 v2) as [v3 r3]. simpl in H3.
    simpl. etrans; [exact H1|]. etrans; [exact H2|]. exact H3.
Qed.

End TaskFrame.

(** *** Day strings built from dates always parse *)

Lemma digit_not_dash c : isDigit c = true → Ascii.eqb c "-" = false.
Proof.
  destruct c as [[] [] [] [] [] [] [] []]; vm_compute; congruence.
Qed.

Lemma digitChar_digit d : d < 10 → isDigit (digitChar d) = true.
Proof. intros Hd. do 10 (destruct d as [|d]; [reflexivity|]). lia. Qed.

Lemma allDigits_app a b : allDigits (a +:+ b) = allDigits a && allDigits b.
Proof.
  induction a as [|c a IH]; [done|].
  rewrite append_cons. simpl. by rewrite IH, andb_assoc.
Qed.

Lemma natToString_go_digits fuel n acc :
  allDigits acc = true → allDigits (natToString_go fuel n acc) = true.
Proof.
  revert n acc. induction fuel as [|fuel IH]; intros n acc Hacc; [done|].
  assert (allDigits (String (digitChar (n mod 10)) acc) = true) as Hstep.
  { change (isDigit (digitChar (n mod 10)) && allDigits acc = true).
    rewrite digitChar_digit, Hacc; [done|]. apply Nat.mod_upper_bound. lia. }
  cbn [natToString_go]. case_match; [done|]. by apply IH.
Qed.

Lemma natToString_digits n : allDigits (natToString n) = true.
Proof. by apply natToString_go_digits. Qed.

Lemma padStart_digits width str : allDigits str = true → allDigits (padStart width str) = true.
Proof.
  intros Hs. unfold padStart. rewrite allDigits_app, Hs, andb_true_r.
  induction (width - String.length str) as [|n IH]; [done|].
  simpl. destruct (replicate n "0") eqn:E; simpl in *; [done|].
  rewrite allDigits_app. simpl. exact IH.
Qed.

Lemma Number_go_digits str acc : allDigits str = true → is_Some (Number_go str acc).
Proof.
  revert acc. induction str as [|c str IH]; intros acc Hs; simpl in *; [by eexists|].
  apply andb_true_iff in Hs as [Hc Hs]. unfold isDigit in Hc.
  destruct (digitValue c); [|done]. by apply IH.
Qed.

Lemma splitOn_digits str : allDigits str = true → splitOn "-" str = [str].
Proof.
  induction str as [|c str IH]; intros Hs; simpl in *; [done|].
  apply andb_true_iff in Hs as [Hc Hs].
  rewrite (digit_not_dash c Hc), (IH Hs). done.
Qed.

Lemma splitOn_digits_dash a b :
  allDigits a = true → splitOn "-" (a +:+ String "-" b) = a :: splitOn "-" b.
Proof.
  induction a as [|c a IH]; intros Ha.
  - done.
  - simpl in Ha. apply andb_true_iff in Ha as [Hc Ha].
    rewrite append_cons. cbn [splitOn]. rewrite (digit_not_dash c Hc), (IH Ha). done.
Qed.

Lemma parseDay_localDateStr tz t : is_Some (parseDay tz (localDateStr tz t)).
Proof.
  unfold localDateStr, parseDay.
  destruct (civilFromDays ((t + tz * msPerMinute) / msPerDay)) as [[y m] d].
  assert (∀ n, allDigits (pad2 n) = true) as Hpad
    by (intros n; apply padStart_digits, natToString_digits).
  assert (∀ n, splitOn "-" (natToString n +:+ "-" +:+ pad2 m +:+ "-" +:+ pad2 d)
               = [natToString n; pad2 m; pad2 d]) as Hsplit.
  { intros n.
    change (natToString n +:+ "-" +:+ pad2 m +:+ "-" +:+ pad2 d)
      with (natToString n +:+ String "-" (pad2 m +:+ String "-" (pad2 d))).
    rewrite splitOn_digits_dash by apply natToString_digits.
    rewrite splitOn_digits_dash by apply Hpad.
    by rewrite splitOn_digits by apply Hpad. }
  assert (∀ str, allDigits str = true → ∃ n, Number str = Some n) as Hnum
    by (intros str Hs; by apply Number_go_digits).
  destruct (Hnum (pad2 m) (Hpad m)) as [nm Hnm].
  destruct (Hnum (pad2 d) (Hpad d)) as [nd Hnd].
  unfold intToString. destruct (y <? 0)%Z.
  - rewrite append_assoc.
    change ("-" +:+ natToString (Z.abs_nat y) +:+ "-" +:+ pad2 m +:+ "-" +:+ pad2 d)
      with (String "-" (natToString (Z.abs_nat y) +:+ "-" +:+ pad2 m +:+ "-" +:+ pad2 d)).
    cbn [splitOn]. rewrite Hsplit. simpl.
    destruct (Hnum _ (natToString_digits (Z.abs_nat y))) as [ny Hny].
    rewrite Hny, Hnm. by eexists.
  - rewrite Hsplit. simpl.
    destruct (Hnum _ (natToString_digits (Z.to_nat y))) as [ny Hny].
    rewrite Hny, Hnm, Hnd. by eexists.
Qed.

(** *** Several days *)

Lemma startAll_app {A} (xs ys : list (Async A)) w :
  startAll (xs ++ ys) w =
  ((startAll ys (startAll xs w).1).1, (startAll xs w).2 ++ (startAll ys (startAll xs w).1).2).
Proof.
  revert w. induction xs as [|a xs IH]; intros w; simpl.
  - by destruct (startAll ys w).
  - destruct (a w) as [w1 p]. rewrite IH.
    destruct (startAll xs w1) as [w2 ps]. simpl.
    by destruct (startAll ys w2).
Qed.

Lemma settleAll_app {A} (ps qs : list (Promise A)) v :
  settleAll (ps ++ qs) v =
  ((settleAll qs (settleAll ps v).1).1, (settleAll ps v).2 ++ (settleAll qs (settleAll ps v).1).2).
Proof.
  revert v. induction ps as [|p ps IH]; intros v; simpl.
  - by destruct (settleAll qs v).
  - destruct (p v) as [v1 r]. rewrite IH.
    destruct (settleAll ps v1) as [v2 rs]. simpl.
    by destruct (settleAll qs v2).
Qed.

Lemma length_startAll {A} (xs : list (Async A)) w : length (startAll xs w).2 = length xs.
Proof.
  revert w. induction xs as [|a xs IH]; intros w; simpl; [done|].
  destruct (a w) as [w1 p]. specialize (IH w1).
  destruct (startAll xs w1). simpl in *. lia.
Qed.

Lemma length_settleAll {A} (ps : list (Promise A)) v : length (settleAll ps v).2 = length ps.
Proof.
  revert v. induction ps as [|p ps IH]; intros v; simpl; [done|].
  destruct (p v) as [v1 r]. specialize (IH v1).
  destruct (settleAll ps v1). simpl in *. lia.
Qed.

Lemma startAll_frame {A} k (xs : list (Async A)) w :
  Forall (AsyncFrame k) xs →
  agreeS k w (startAll xs w).1 ∧ Forall (PromiseFrame k) (startAll xs w).2.
Proof.
  intros Hxs. revert w. induction Hxs as [|a xs Ha _ IH]; intros w; simpl; [done|].
  destruct (Ha w) as [HS HP]. destruct (a w) as [w1 p]. simpl in HS, HP.
  destruct (IH w1) as [HS' HP']. destruct (startAll xs w1) as [w2 ps]. simpl in *.
  split; [by etrans | by constructor].
Qed.

Lemma settleAll_frame {A} k (ps : list (Promise A)) v :
  Forall (PromiseFrame k) ps → agreeW k v (settleAll ps v).1.
Proof.
  intros Hps. revert v. induction Hps as [|p ps Hp _ IH]; intros v; simpl; [done|].
  pose proof (Hp v) as HW. destruct (p v) as [v1 r]. simpl in HW.
  specialize (IH v1). destruct (settleAll ps v1) as [v2 rs]. simpl in *.
  by etrans.
Qed.

Lemma startAll_settleAll_values {A} (xs : list (Async A)) w v :
  Forall alwaysFulfils xs → allValues (settleAll (startAll xs w).2 v).2.
Proof.
  intros Hxs. revert w v. induction Hxs as [|a xs Ha _ IH]; intros w v; simpl.
  - constructor.
  - destruct (Ha w v) as [x Hx]. destruct (a w) as [w1 p]. simpl in Hx.
    specialize (IH w1). destruct (startAll xs w1) as [w2 ps]. simpl in *.
    destruct (p v) as [v1 r]. simpl in Hx. subst r.
    specialize (IH v1). destruct (settleAll ps v1) as [v2 rs]. simpl in *.
    constructor; [by eexists|done].
Qed.

Lemma settleAll_values_prefix {A} (ps qs : list (Promise A)) v :
  allValues (settleAll (ps ++ qs) v).2 → allValues (settleAll ps v).2.
Proof.
  rewrite settleAll_app. simpl. unfold allValues. rewrite Forall_app. by intros [? _].
Qed.

Lemma allFulfilled_values {A} (rs : list (Settled A)) :
  allValues rs → ∃ xs, allFulfilled rs = Fulfilled xs ∧ rs = Fulfilled <$> xs.
Proof.
  induction 1 as [|r rs [x ->] _ (xs & Hxs & ->)]; simpl.
  - by exists [].
  - rewrite Hxs. by exists (x :: xs).
Qed.

Lemma answersRelated_refl tz s Q : answersRelated tz s Q Q.
Proof. repeat split; by left. Qed.

Lemma answersRelated_failAt tz src d P s :
  s ≠ d → answersRelated tz s (failAt src d P) P.
Proof.
  intros Hs. destruct src; repeat split; simpl; rewrite ?decide_False by done; by left.
Qed.

Lemma answersRelated_failAt_emptyAt tz src d P s :
  answersRelated tz s (failAt src d P) (emptyAt tz src d P).
Proof.
  destruct src; repeat split; simpl; try (by left);
    (case_decide; [by right | by left]).
Qed.

Section ManyDays.
Variables tz now : Z.
Variables gl gh go ol forceRefresh : bool.

(** Among days with distinct cache keys, the record of a day is the one
    the day would get if it were fetched on its own from the same
    initial state. *)
Lemma day_isolated Q (pre post : list string) s date w :
  parseDay tz s = Some date →
  (∀ s', s' ∈ pre ++ post → dayKey tz s' ≠ Some (getDateKey date)) →
  let calls :=
    (λ s', fetchDayActivityParallel tz now Q s' gl gh go ol forceRefresh)
      <$> (pre ++ s :: post) in
  (settleAll (startAll calls w).2 (startAll calls w).1).2 !! length pre
  = Some (recordAlone tz now Q s gl gh go ol forceRefresh w).
Proof.
  intros Hparse Hkeys calls. unfold calls.
  set (day := λ s', fetchDayActivityParallel tz now Q s' gl gh go ol forceRefresh).
  assert (∀ l, l ⊆ pre ++ post → Forall (AsyncFrame (getDateKey date)) (day <$> l))
    as Hframes.
  { intros l Hl. apply Forall_fmap, Forall_forall. intros s' Hs'.
    apply fetchDay_frame. intros date' Hd' Heq.
    apply (Hkeys s' (Hl _ Hs')). unfold dayKey. by rewrite Hd', <- Heq. }
  destruct (startAll_frame _ (day <$> pre) w (Hframes pre ltac:(set_solver)))
    as [HSpre HPpre].
  rewrite fmap_app, fmap_cons, startAll_app.
  destruct (startAll (day <$> pre) w) as [wA psA] eqn:EA. simpl in HSpre, HPpre.
  cbn [fst snd startAll].
  destruct (fetchDay_sim tz now Q Q s date Hparse gl gh go ol forceRefresh
              (answersRelated_refl tz s Q) w wA HSpre) as [HSa HPa].
  fold (day s) in HSa, HPa.
  unfold recordAlone, run, awaitCall. fold (day s).
  destruct (day s w) as [w' p'], (day s wA) as [wa pa]. simpl in HSa, HPa.
  destruct (startAll_frame _ (day <$> post) wa (Hframes post ltac:(set_solver)))
    as [HSpost _].
  destruct (startAll (day <$> post) wa) as [wB psB]. simpl in HSpost. cbn [fst snd].
  rewrite settleAll_app. cbn [fst snd].
  pose proof (settleAll_frame _ psA wB HPpre) as HWA.
  pose proof (length_settleAll psA wB) as Hlen.
  pose proof (length_startAll (day <$> pre) w) as Hlen'.
  rewrite EA in Hlen'. simpl in Hlen'. rewrite length_fmap in Hlen'.
  destruct (settleAll psA wB) as [vA rsA]. simpl in HWA, Hlen. cbn [fst snd].
  rewrite lookup_app_r by lia. replace (length pre - length rsA) with 0 by lia.
  simpl. specialize (HPa w' vA).
  destruct (pa vA) as [va ra]. destruct (settleAll psB va). simpl.
  f_equal. symmetry. apply HPa.
  etrans; [apply agreeS_agreeW; exact HSa|].
  etrans; [apply agreeS_agreeW; exact HSpost|]. exact HWA.
Qed.

Lemma records_alone Q (dates : list Z) w :
  dates ≠ [] →
  NoDup (dayKey tz <$> (localDateStr tz <$> dates)) →
  ∃ rs,
    records tz now Q dates gl gh go ol forceRefresh w = Fulfilled rs
    ∧ length rs = length dates
    ∧ ∀ i s, (localDateStr tz <$> dates) !! i = Some s →
        Fulfilled <$> rs !! i = Some (recordAlone tz now Q s gl gh go ol forceRefresh w).
Proof.
  intros Hne Hnodup.
  set (days := localDateStr tz <$> dates) in *.
  set (day := λ s', fetchDayActivityParallel tz now Q s' gl gh go ol forceRefresh).
  assert (records tz now Q dates gl gh go ol forceRefresh w
          = allFulfilled (settleAll (startAll (day <$> days) w).2
                                    (startAll (day <$> days) w).1).2) as Hrec.
  { unfold records, run, awaitCall, fetchMultipleDaysParallel, Promise_all.
    destruct dates as [|t dates]; [done|]. cbn [fst snd].
    unfold days. rewrite <- list_fmap_compose.
    change ((λ date, fetchDayActivityParallel tz now Q (localDateStr tz date) gl gh go ol
                       forceRefresh) <$> t :: dates)
      with ((day ∘ localDateStr tz) <$> t :: dates).
    destruct (startAll ((day ∘ localDateStr tz) <$> t :: dates) w) as [v1 ps].
    cbn [fst snd]. by destruct (settleAll ps v1). }
  assert (Forall alwaysFulfils (day <$> days)) as Hful.
  { apply Forall_fmap, Forall_fmap, Forall_forall. intros t _ w0 v.
    destruct (parseDay_localDateStr tz t) as [date Hd].
    apply (fetchDay_fulfils tz now Q _ date Hd). }
  pose proof (startAll_settleAll_values (day <$> days) w (startAll (day <$> days) w).1 Hful)
    as Hvals.
  destruct (allFulfilled_values _ Hvals) as (rs & Hall & Hrs).
  exists rs. split; [by rewrite Hrec|]. split.
  { apply (f_equal length) in Hrs.
    rewrite length_settleAll, length_startAll, !length_fmap in Hrs.
    unfold days in Hrs. rewrite length_fmap in Hrs. lia. }
  intros i s Hi. rewrite <- list_lookup_fmap, <- Hrs.
  assert (∃ date, parseDay tz s = Some date) as [date Hd].
  { apply list_lookup_fmap_Some in Hi as (t & -> & _). apply parseDay_localDateStr. }
  pose proof (take_drop_middle days i s Hi) as Hsplit.
  assert (length (take i days) = i) as Hlen
    by (apply length_take_le; apply lookup_lt_Some in Hi; lia).
  pose proof (day_isolated Q (take i days) (drop (S i) days) s date w Hd) as Hiso.
  cbv zeta in Hiso. rewrite Hlen, Hsplit in Hiso. apply Hiso.
  intros s' Hs' Hkey.
  rewrite <- Hsplit, fmap_app, fmap_cons in Hnodup.
  apply NoDup_app in Hnodup as (_ & Hdisj & Hpost).
  apply NoDup_cons in Hpost as [Hnotin _].
  assert (dayKey tz s = Some (getDateKey date)) as Hks
    by (unfold dayKey; by rewrite Hd).
  apply elem_of_app in Hs' as [Hin|Hin].
  - apply (Hdisj (dayKey tz s')); [by apply list_elem_of_fmap_2|].
    rewrite Hkey, <- Hks. by left.
  - apply Hnotin. rewrite Hks, <- Hkey. by apply list_elem_of_fmap_2.
Qed.

Lemma recordAlone_related Q Q' s w :
  is_Some (parseDay tz s) →
  answersRelated tz s Q Q' →
  recordAlone tz now Q s gl gh go ol forceRefresh w
  = recordAlone tz now Q' s gl gh go ol forceRefresh w.
Proof.
  intros [date Hd] Hrel. unfold recordAlone, run, awaitCall.
  destruct (fetchDay_sim tz now Q Q' s date Hd gl gh go ol forceRefresh Hrel w w
              ltac:(reflexivity)) as [HS HP].
  destruct (fetchDayActivityParallel tz now Q s gl gh go ol forceRefresh w) as [w1 p].
  destruct (fetchDayActivityParallel tz now Q' s gl gh go ol forceRefresh w) as [w1' p'].
  simpl in HS, HP. apply HP. by apply agreeS_agreeW.
Qed.

End ManyDays.

(** A lookup finds the payload of the unexpired entry, and leaves what
    the lookups of every namespace find under the same key. *)
Lemma getGitLabActivity_found now date c :
  let c' := (getGitLabActivity now date c).2 in
  (getGitLabActivity now date c).1 = gitlabFound now c date
  ∧ cacheTTL c' = cacheTTL c
  ∧ gitlabFound now c' date = gitlabFound now c date
  ∧ googleFound now c' date = googleFound now c date
  ∧ outlookFound now c' date = outlookFound now c date.
Proof.
  unfold gitlabFound, googleFound, outlookFound, getGitLabActivity, isExpired, unexpired.
  destruct (gitlab (cache c) !! getDateKey date) as [e|] eqn:E; simpl;
    [destruct (cacheTTL c <? now - timestamp e)%Z eqn:Ex; simpl|];
    rewrite ?lookup_delete_eq, ?E, ?Ex; done.
Qed.

Lemma getGoogleCalendarEvents_found now date c :
  let c' := (getGoogleCalendarEvents now date c).2 in
  (getGoogleCalendarEvents now date c).1 = googleFound now c date
  ∧ cacheTTL c' = cacheTTL c
  ∧ gitlabFound now c' date = gitlabFound now c date
  ∧ googleFound now c' date = googleFound now c date
  ∧ outlookFound now c' date = outlookFound now c date.
Proof.
  unfold gitlabFound, googleFound, outlookFound, getGoogleCalendarEvents, isExpired,
    unexpired.
  destruct (googleCalendar (cache c) !! getDateKey date) as [e|] eqn:E; simpl;
    [destruct (cacheTTL c <? now - timestamp e)%Z eqn:Ex; simpl|];
    rewrite ?lookup_delete_eq, ?E, ?Ex; done.
Qed.

Lemma getOutlookCalendarEvents_found now date c :
  let c' := (getOutlookCalendarEvents now date c).2 in
  (getOutlookCalendarEvents now date c).1 = outlookFound now c date
  ∧ cacheTTL c' = cacheTTL c
  ∧ gitlabFound now c' date = gitlabFound now c date
  ∧ googleFound now c' date = googleFound now c date
  ∧ outlookFound now c' date = outlookFound now c date.
Proof.
  unfold gitlabFound, googleFound, outlookFound, getOutlookCalendarEvents, isExpired,
    unexpired.
  destruct (outlookCalendar (cache c) !! getDateKey date) as [e|] eqn:E; simpl;
    [destruct (cacheTTL c <? now - timestamp e)%Z eqn:Ex; simpl|];
    rewrite ?lookup_delete_eq, ?E, ?Ex; done.
Qed.

Section OneDay.
Variables now date : Z.
Variable w0 : World.

Lemma sameLookups_refl : sameLookups now date w0 w0.
Proof. by repeat split. Qed.

Lemma sameLookups_outlook w : sameLookups now date w0 w → sameOutlookLookup now date w0 w.
Proof. intros (? & _ & _ & ?). by split. Qed.

Lemma cacheGetGitLab_lookup w :
  sameLookups now date w0 w →
  (cacheGetGitLab now date w).1 = gitlabFound now (activityCache w0) date
  ∧ sameLookups now date w0 (cacheGetGitLab now date w).2.
Proof.
  intros (Httl & Hgl & Hgo & Hol). unfold cacheGetGitLab, sameLookups.
  pose proof (getGitLabActivity_found now date (activityCache w)) as H.
  destruct (getGitLabActivity now date (activityCache w)) as [r c'].
  simpl in *. destruct H as (-> & Ht & Hg & Hg' & Ho).
  by rewrite Ht, Hg, Hg', Ho.
Qed.

Lemma cacheGetGoogle_lookup w :
  sameLookups now date w0 w →
  (cacheGetGoogle now date w).1 = googleFound now (activityCache w0) date
  ∧ sameLookups now date w0 (cacheGetGoogle now date w).2.
Proof.
  intros (Httl & Hgl & Hgo & Hol). unfold cacheGetGoogle, sameLookups.
  pose proof (getGoogleCalendarEvents_found now date (activityCache w)) as H.
  destruct (getGoogleCalendarEvents now date (activityCache w)) as [r c'].
  simpl in *. destruct H as (-> & Ht & Hg & Hg' & Ho).
  by rewrite Ht, Hg, Hg', Ho.
Qed.

Lemma cacheGetOutlook_lookup w :
  sameOutlookLookup now date w0 w →
  (cacheGetOutlook now date w).1 = outlookFound now (activityCache w0) date.
Proof.
  intros (Httl & Hol). unfold cacheGetOutlook.
  pose proof (getOutlookCalendarEvents_found now date (activityCache w)) as H.
  destruct (getOutlookCalendarEvents now date (activityCache w)) as [r c'].
  simpl in *. by destruct H as (-> & _).
Qed.

Lemma cacheGetOutlook_lookups w :
  sameLookups now date w0 w → sameLookups now date w0 (cacheGetOutlook now date w).2.
Proof.
  intros (Httl & Hgl & Hgo & Hol). unfold cacheGetOutlook, sameLookups.
  pose proof (getOutlookCalendarEvents_found now date (activityCache w)) as H.
  destruct (getOutlookCalendarEvents now date (activityCache w)) as [r c'].
  simpl in *. destruct H as (_ & Ht & Hg & Hg' & Ho).
  by rewrite Ht, Hg, Hg', Ho.
Qed.

End OneDay.

Section DayRecord.
Variables tz now : Z.
Variable Q : Providers.
Variable s : string.
Variable date : Z.
Hypothesis Hparse : parseDay tz s = Some date.
Variable w0 : World.


(** The task of a code provider: its part of the record is [codePart] of
    the initial cache. *)
Lemma gitlabTask_part enabled forceRefresh w :
  sameLookups now date w0 w →
  let a := optionalFetch enabled (fetchGitLabActivityWithCache tz now Q s forceRefresh) w in
  sameLookups now date w0 a.1
  ∧ ∀ v, sameOutlookLookup now date w0 v →
      sameOutlookLookup now date w0 (a.2 v).1
      ∧ gitPart date (a.2 v).2
        = codePart now (activityCache w0) forceRefresh enabled date (gitlab_getActivityForDate Q s).
Proof.
  intros Hw. unfold optionalFetch, fetchGitLabActivityWithCache, codePart.
  rewrite Hparse. destruct enabled; [|done].
  destruct forceRefresh.
  - simpl. split; [done|]. intros v Hv. unfold liftOption, fetchGitLabFresh.
    destruct (gitlab_getActivityForDate Q s); simpl; done.
  - destruct (cacheGetGitLab_lookup now date w0 w Hw) as [Hr Hw1].
    destruct (cacheGetGitLab now date w) as [r w1]. simpl in Hr, Hw1. subst r.
    destruct (gitlabFound now (activityCache w0) date); simpl.
    + done.
    + split; [done|]. intros v Hv. unfold liftOption, fetchGitLabFresh.
      destruct (gitlab_getActivityForDate Q s); simpl; done.
Qed.

Lemma githubTask_part enabled forceRefresh w :
  sameLookups now date w0 w →
  let a := optionalFetch enabled (fetchGitHubActivityWithCache tz now Q s forceRefresh) w in
  sameLookups now date w0 a.1
  ∧ ∀ v, sameOutlookLookup now date w0 v →
      sameOutlookLookup now date w0 (a.2 v).1
      ∧ gitPart date (a.2 v).2
        = codePart now (activityCache w0) forceRefresh enabled date (github_getActivityForDate Q s).
Proof.
  intros Hw. unfold optionalFetch, fetchGitHubActivityWithCache, codePart.
  rewrite Hparse. destruct enabled; [|done].
  destruct forceRefresh.
  - simpl. split; [done|]. intros v Hv. unfold liftOption, fetchGitHubFresh.
    destruct (github_getActivityForDate Q s); simpl; done.
  - destruct (cacheGetGitLab_lookup now date w0 w Hw) as [Hr Hw1].
    destruct (cacheGetGitLab now date w) as [r w1]. simpl in Hr, Hw1. subst r.
    destruct (gitlabFound now (activityCache w0) date); simpl.
    + done.
    + split; [done|]. intros v Hv. unfold liftOption, fetchGitHubFresh.
      destruct (github_getActivityForDate Q s); simpl; done.
Qed.

(** The second block, entered with no event: whenever its lookup happens,
    the outcome is [secondaryPart] of the initial cache. *)
Lemma outlookBlock_part outlookAuthenticated forceRefresh w v :
  sameOutlookLookup now date w0 w →
  let a := outlookBlock now Q date s outlookAuthenticated forceRefresh [] w in
  (a.2 v).2
  = Fulfilled (secondaryPart now (activityCache w0) forceRefresh outlookAuthenticated date
                 (outlookCalendar_getEventsForDate Q s)).
Proof.
  intros Hw. unfold outlookBlock, secondaryPart. simpl.
  destruct outlookAuthenticated; [|done]. destruct forceRefresh.
  - simpl. unfold fetchOutlookFresh.
    destruct (outlookCalendar_getEventsForDate Q s); done.
  - pose proof (cacheGetOutlook_lookup now date w0 w Hw) as Hr.
    destruct (cacheGetOutlook now date w) as [r w1]. simpl in Hr. subst r.
    destruct (outlookFound now (activityCache w0) date); simpl;
      [done|].
    unfold fetchOutlookFresh. destruct (outlookCalendar_getEventsForDate Q s); done.
Qed.

Lemma calendarTask_part googleAuthenticated outlookAuthenticated forceRefresh w v :
  sameLookups now date w0 w →
  sameOutlookLookup now date w0 v →
  let a := fetchCalendarEventsWithCache tz now Q s googleAuthenticated
             outlookAuthenticated forceRefresh w in
  (a.2 v).2
  = Fulfilled (calendarPart now (activityCache w0) forceRefresh googleAuthenticated
                 outlookAuthenticated date (googleCalendar_getEventsForDate Q s)
                 (outlookCalendar_getEventsForDate Q s)).
Proof.
  intros Hw Hv. unfold fetchCalendarEventsWithCache, calendarPart. rewrite Hparse.
  assert (∀ v',
    sameOutlookLookup now date w0 v' →
    (fetchGoogleFresh now Q date s outlookAuthenticated forceRefresh v').2
    = Fulfilled
        match default [] (googleCalendar_getEventsForDate Q s) with
        | [] => secondaryPart now (activityCache w0) forceRefresh outlookAuthenticated date
                  (outlookCalendar_getEventsForDate Q s)
        | ev :: evs => mkCalFetch (ev :: evs) false
        end) as Hfresh.
  { intros v' Hv'. unfold fetchGoogleFresh.
    destruct (googleCalendar_getEventsForDate Q s) as [[|ev evs]|]; simpl.
    - unfold awaitCall.
      pose proof (outlookBlock_part outlookAuthenticated forceRefresh
                    (cacheSetGoogle now date [] (logOp (Fetch GoogleCalendar s) v'))) as H.
      simpl in H.
      destruct (outlookBlock now Q date s outlookAuthenticated forceRefresh []
                  (cacheSetGoogle now date [] (logOp (Fetch GoogleCalendar s) v')))
        as [w1 p]. simpl in H. by apply H.
    - done.
    - unfold awaitCall.
      pose proof (outlookBlock_part outlookAuthenticated forceRefresh
                    (logOp (Fetch GoogleCalendar s) v')) as H.
      simpl in H.
      destruct (outlookBlock now Q date s outlookAuthenticated forceRefresh []
                  (logOp (Fetch GoogleCalendar s) v')) as [w1 p]. simpl in H. by apply H. }
  destruct googleAuthenticated.
  - destruct forceRefresh.
    + simpl. by apply Hfresh.
    + destruct (cacheGetGoogle_lookup now date w0 w Hw) as [Hr Hw1].
      destruct (cacheGetGoogle now date w) as [r w1]. simpl in Hr, Hw1. subst r.
      destruct (googleFound now (activityCache w0) date); simpl;
        [done|]. by apply Hfresh.
  - apply outlookBlock_part. by apply sameLookups_outlook.
Qed.

Lemma calendarTask_prefix googleAuthenticated outlookAuthenticated forceRefresh w :
  sameLookups now date w0 w →
  sameLookups now date w0
    (fetchCalendarEventsWithCache tz now Q s googleAuthenticated outlookAuthenticated
       forceRefresh w).1.
Proof.
  intros Hw. unfold fetchCalendarEventsWithCache, outlookBlock. rewrite Hparse.
  destruct googleAuthenticated, outlookAuthenticated, forceRefresh; simpl; try done.
  - destruct (cacheGetGoogle_lookup now date w0 w Hw) as [_ Hw1].
    by destruct (cacheGetGoogle now date w) as [[?|] ?].
  - destruct (cacheGetGoogle_lookup now date w0 w Hw) as [_ Hw1].
    by destruct (cacheGetGoogle now date w) as [[?|] ?].
  - pose proof (cacheGetOutlook_lookups now date w0 w Hw) as Hw1.
    by destruct (cacheGetOutlook now date w) as [[?|] ?].
Qed.

(** The record of a day fetched on its own is [expectedRecord] of the
    cache the run starts from. *)
Lemma recordAlone_expected gl gh go ol forceRefresh :
  recordAlone tz now Q s gl gh go ol forceRefresh w0
  = Fulfilled (expectedRecord tz now Q gl gh go ol forceRefresh (activityCache w0) s date).
Proof.
  unfold recordAlone, run, awaitCall, fetchDayActivityParallel. rewrite Hparse.
  destruct (gitlabTask_part gl forceRefresh w0 (sameLookups_refl now date w0))
    as [Hw1 Hp1].
  destruct (optionalFetch gl (fetchGitLabActivityWithCache tz now Q s forceRefresh) w0)
    as [w1 p1]. simpl in Hw1, Hp1.
  destruct (githubTask_part gh forceRefresh w1 Hw1) as [Hw2 Hp2].
  destruct (optionalFetch gh (fetchGitHubActivityWithCache tz now Q s forceRefresh) w1)
    as [w2 p2]. simpl in Hw2, Hp2.
  pose proof (calendarTask_part go ol forceRefresh w2) as Hp3.
  pose proof (calendarTask_prefix go ol forceRefresh w2 Hw2) as Hw3.
  simpl in Hp3. specialize (λ v, Hp3 v Hw2).
  destruct (fetchCalendarEventsWithCache tz now Q s go ol forceRefresh w2) as [w3 p3].
  simpl in Hp3, Hw3.
  destruct (Hp1 w3 (sameLookups_outlook now date w0 w3 Hw3)) as [Hv1 Hr1].
  destruct (p1 w3) as [v1 r1]. simpl in Hv1, Hr1.
  destruct (Hp2 v1 Hv1) as [Hv2 Hr2].
  destruct (p2 v1) as [v2 r2]. simpl in Hv2, Hr2.
  specialize (Hp3 v2 Hv2).
  destruct (p3 v2) as [v3 r3]. simpl in Hp3. subst r3. simpl.
  rewrite (assembleDay_gitPart date), Hr1, Hr2. done.
Qed.

End DayRecord.


Section Parts.
Variables (now : Z) (c : ActivityCache) (forceRefresh : bool) (date : Z).

Lemma codePart_rejected enabled answer :
  codePart now c forceRefresh enabled date None
  = codePart now c forceRefresh enabled date answer
  ∨ codePart now c forceRefresh enabled date None = (emptyPayload date, false).
Proof.
  unfold codePart. destruct enabled; [|by left].
  destruct (if forceRefresh then None else _); [by left|by right].
Qed.

Lemma secondaryPart_rejected ol answer :
  secondaryPart now c forceRefresh ol date None
  = secondaryPart now c forceRefresh ol date answer
  ∨ secondaryPart now c forceRefresh ol date None = mkCalFetch [] false.
Proof.
  unfold secondaryPart. destruct ol; [|by left].
  destruct (if forceRefresh then None else _); [by left|by right].
Qed.

Lemma calendarPart_primary_rejected go ol google outlook :
  calendarPart now c forceRefresh go ol date None outlook
  = calendarPart now c forceRefresh go ol date google outlook
  ∨ calendarPart now c forceRefresh go ol date None outlook
    = secondaryPart now c forceRefresh ol date outlook.
Proof.
  unfold calendarPart. destruct go; [|by left].
  destruct (if forceRefresh then None else _); [by left|by right].
Qed.

Lemma calendarPart_secondary_rejected go ol google outlook :
  calendarPart now c forceRefresh go ol date google None
  = calendarPart now c forceRefresh go ol date google outlook
  ∨ calendarPart now c forceRefresh go ol date google None = mkCalFetch [] false.
Proof.
  unfold calendarPart.
  pose proof (secondaryPart_rejected ol outlook) as Hs.
  destruct go; [|done].
  destruct (if forceRefresh then None else _); [by left|].
  destruct (default [] google); [done|by left].
Qed.

End Parts.

Lemma expectedRecord_assembled tz now Q gl gh go ol forceRefresh c s date :
  expectedRecord tz now Q gl gh go ol forceRefresh c s date
  = assembleDay date
      (Fulfilled (Some (uncurry mkGitFetch
         (codePart now c forceRefresh gl date (gitlab_getActivityForDate Q s)))))
      (Fulfilled (Some (uncurry mkGitFetch
         (codePart now c forceRefresh gh date (github_getActivityForDate Q s)))))
      (Fulfilled (calendarPart now c forceRefresh go ol date
                    (googleCalendar_getEventsForDate Q s)
                    (outlookCalendar_getEventsForDate Q s))).
Proof.
  unfold expectedRecord, assembleDay.
  by destruct (codePart now c forceRefresh gl date _), (codePart now c forceRefresh gh date _).
Qed.

Lemma gitPart_uncurry date x :
  gitPart date (Fulfilled (Some (uncurry mkGitFetch x))) = x.
Proof. by destruct x. Qed.

(** The record of the day of the rejection against the record without
    it. *)
Lemma expectedRecord_only_part tz now P src d date gl gh go ol forceRefresh c :
  onlyPartOf src
    (secondaryPart now c forceRefresh ol date (outlookCalendar_getEventsForDate P d)) date
    (Fulfilled (expectedRecord tz now P gl gh go ol forceRefresh c d date))
    (Fulfilled (expectedRecord tz now (failAt src d P) gl gh go ol forceRefresh c d date)).
Proof.
  rewrite !expectedRecord_assembled.
  destruct src; unfold onlyPartOf, dayParts; simpl; rewrite decide_True by done;
    do 6 eexists; (split_and!; [| | |reflexivity|reflexivity]);
    unfold gitSame, gitSameOrEmpty, calSameOrEmpty, calSameOrSecondary;
    rewrite ?gitPart_uncurry; try done.
  - apply codePart_rejected.
  - apply codePart_rejected.
  - destruct (calendarPart_primary_rejected now c forceRefresh date go ol
                (googleCalendar_getEventsForDate P d)
                (outlookCalendar_getEventsForDate P d)) as [->| ->]; [by left|by right].
  - destruct (calendarPart_secondary_rejected now c forceRefresh date go ol
                (googleCalendar_getEventsForDate P d)
                (outlookCalendar_getEventsForDate P d)) as [->| ->]; [by left|by right].
Qed.

(** C4. Let the requested days be at least one and have pairwise distinct
    cache keys, and let the call of one provider [src] reject for the day
    [d]. Then [fetchMultipleDaysParallel] still fulfils, with one record
    per requested day, and each record is [expectedRecord] of the cache
    the run starts from and of the answers of the adapters for its day: a
    code provider that rejects contributes the empty payload. The record
    of every day other than [d] is the record of the run in which that
    call does not reject. The record of [d] differs from that run's as
    follows: for a code provider, its part is the empty payload (or
    unchanged, when the cache answered and the adapter was not called),
    while the other code provider's part and the calendar part are the
    same; for a calendar provider, both code parts are the same, and the
    calendar part is unchanged (the adapter was not called), or it is
    empty when the secondary calendar rejects, or it is the part of the
    secondary calendar when the primary calendar rejects. And the whole
    result is the result of the run in which [src] answers [d] with an
    empty payload. *)
Theorem C4_one_rejection_changes_one_part_of_one_day
    (tz now : Z) (P : Providers) (src : Source) (d : string) (dates : list Z)
    (gl gh go ol forceRefresh : bool) (w : World) :
  dates ≠ [] →
  NoDup (dayKey tz <$> (localDateStr tz <$> dates)) →
  ∃ rs rs0,
    records tz now (failAt src d P) dates gl gh go ol forceRefresh w = Fulfilled rs
    ∧ records tz now P dates gl gh go ol forceRefresh w = Fulfilled rs0
    ∧ length rs = length dates
    ∧ length rs0 = length dates
    ∧ (∀ i s, (localDateStr tz <$> dates) !! i = Some s →
         ∃ date,
           parseDay tz s = Some date
           ∧ rs !! i = Some (expectedRecord tz now (failAt src d P) gl gh go ol
                               forceRefresh (activityCache w) s date)
           ∧ rs0 !! i = Some (expectedRecord tz now P gl gh go ol forceRefresh
                                (activityCache w) s date))
    ∧ (∀ i s, (localDateStr tz <$> dates) !! i = Some s → s ≠ d → rs !! i = rs0 !! i)
    ∧ (∀ i, (localDateStr tz <$> dates) !! i = Some d →
         ∃ date r r0,
           parseDay tz d = Some date ∧ rs !! i = Some r ∧ rs0 !! i = Some r0
           ∧ onlyPartOf src
               (secondaryPart now (activityCache w) forceRefresh ol date
                  (outlookCalendar_getEventsForDate P d))
               date (Fulfilled r0) (Fulfilled r))
    ∧ records tz now (emptyAt tz src d P) dates gl gh go ol forceRefresh w = Fulfilled rs.
Proof.
  intros Hne Hnodup.
  destruct (records_alone tz now gl gh go ol forceRefresh (failAt src d P) dates w
              Hne Hnodup) as (rs & Hrs & Hlen & Hat).
  destruct (records_alone tz now gl gh go ol forceRefresh P dates w Hne Hnodup)
    as (rs0 & Hrs0 & Hlen0 & Hat0).
  destruct (records_alone tz now gl gh go ol forceRefresh (emptyAt tz src d P) dates w
              Hne Hnodup) as (rs2 & Hrs2 & Hlen2 & Hat2).
  assert (∀ i s, (localDateStr tz <$> dates) !! i = Some s → is_Some (parseDay tz s))
    as Hparse.
  { intros i s Hi. apply list_lookup_fmap_Some in Hi as (t & -> & _).
    apply parseDay_localDateStr. }
  assert (∀ (a b : option DayResult), Fulfilled <$> a = Fulfilled <$> b → a = b) as Hinj.
  { intros [a|] [b|] Hab; simpl in Hab; congruence. }
  assert (∀ i s, (localDateStr tz <$> dates) !! i = Some s →
            ∃ date,
              parseDay tz s = Some date
              ∧ rs !! i = Some (expectedRecord tz now (failAt src d P) gl gh go ol
                                  forceRefresh (activityCache w) s date)
              ∧ rs0 !! i = Some (expectedRecord tz now P gl gh go ol forceRefresh
                                   (activityCache w) s date)) as Hexp.
  { intros i s Hi. destruct (Hparse i s Hi) as [date Hd]. exists date.
    split; [done|]. split; apply Hinj.
    - rewrite (Hat i s Hi). simpl. f_equal. by apply recordAlone_expected.
    - rewrite (Hat0 i s Hi). simpl. f_equal. by apply recordAlone_expected. }
  exists rs, rs0. split_and!; [exact Hrs|exact Hrs0|exact Hlen|exact Hlen0|exact Hexp| | |].
  - intros i s Hi Hs. apply Hinj. rewrite (Hat i s Hi), (Hat0 i s Hi). f_equal.
    apply recordAlone_related; [by eapply Hparse|]. by apply answersRelated_failAt.
  - intros i Hi. destruct (Hexp i d Hi) as (date & Hd & Hr & Hr0).
    exists date. do 2 eexists. split_and!; [done|exact Hr|exact Hr0|].
    apply expectedRecord_only_part.
  - rewrite Hrs2. f_equal. apply list_eq. intros i.
    destruct ((localDateStr tz <$> dates) !! i) as [s|] eqn:Hi.
    + apply Hinj. rewrite (Hat i s Hi), (Hat2 i s Hi). f_equal. symmetry.
      apply recordAlone_related; [by eapply Hparse|].
      apply answersRelated_failAt_emptyAt.
    + apply lookup_ge_None in Hi. rewrite length_fmap in Hi.
      rewrite !(proj2 (lookup_ge_None _ _)) by lia. done.
Qed.

Lemma C4_one_rejection_witness :
  ∃ rs rs0,
    records 0 1000 (failAt GoogleCalendar "2025-11-27" twoCalendars) twoDays
      true true true true false newWorld = Fulfilled rs
    ∧ records 0 1000 twoCalendars twoDays true true true true false newWorld
      = Fulfilled rs0
    ∧ length rs = length twoDays
    ∧ length rs0 = length twoDays
    ∧ (∀ i s, (localDateStr 0 <$> twoDays) !! i = Some s →
         ∃ date,
           parseDay 0 s = Some date
           ∧ rs !! i = Some (expectedRecord 0 1000
                               (failAt GoogleCalendar "2025-11-27" twoCalendars)
                               true true true true false (activityCache newWorld) s date)
           ∧ rs0 !! i = Some (expectedRecord 0 1000 twoCalendars true true true true
                                false (activityCache newWorld) s date))
    ∧ (∀ i s, (localDateStr 0 <$> twoDays) !! i = Some s → s ≠ "2025-11-27" →
         rs !! i = rs0 !! i)
    ∧ (∀ i, (localDateStr 0 <$> twoDays) !! i = Some "2025-11-27" →
         ∃ date r r0,
           parseDay 0 "2025-11-27" = Some date ∧ rs !! i = Some r ∧ rs0 !! i = Some r0
           ∧ onlyPartOf GoogleCalendar
               (secondaryPart 1000 (activityCache newWorld) false true date
                  (outlookCalendar_getEventsForDate twoCalendars "2025-11-27"))
               date (Fulfilled r0) (Fulfilled r))
    ∧ records 0 1000 (emptyAt 0 GoogleCalendar "2025-11-27" twoCalendars) twoDays
        true true true true false newWorld = Fulfilled rs.
Proof.
  apply (C4_one_rejection_changes_one_part_of_one_day 0 1000 twoCalendars GoogleCalendar
           "2025-11-27" twoDays true true true true false newWorld).
  - discriminate.
  - vm_compute. apply NoDup_cons. split; [|apply NoDup_singleton].
    intros Hin. apply list_elem_of_singleton in Hin. discriminate.
Defined.

(** C4. The contribution of another provider does change on the day of
    the rejection when it is the primary calendar that rejects: the
    secondary calendar is then turned to. With one event in each
    calendar, the day's meetings are the primary's event and the secondary
    calendar is neither looked up nor called; when the primary rejects for
    the day, the meetings are the secondary's event, after a lookup and a
    call of the secondary. *)
Theorem C4_failed_primary_calendar_brings_in_secondary :
  meetingsOfRun twoCalendars [newDate 0 2025 10 27] = Some [[standup]]
  ∧ outlookAttemptsOfRun twoCalendars [newDate 0 2025 10 27] = []
  ∧ meetingsOfRun (failAt GoogleCalendar "2025-11-27" twoCalendars)
      [newDate 0 2025 10 27] = Some [[retro]]
  ∧ outlookAttemptsOfRun (failAt GoogleCalendar "2025-11-27" twoCalendars)
      [newDate 0 2025 10 27]
    = [CacheGet OutlookKind "2025-11-27"; Fetch OutlookCalendar "2025-11-27"].
Proof. by vm_compute. Qed.

(** The specification's scenario: on the same day GitLab rejects and
    GitHub answers with two commits; the call fulfils and the merged
    payload of the day holds exactly those two commits. *)
Example one_provider_down_scenario :
  let commit2 := mkGitLabActivity 0 [mkCommit "a" "core" "main"; mkCommit "b" "core" "main"]
                   [] [] in
  let P := mkProviders (λ _, None) (λ _, Some commit2) (λ _, Some []) (λ _, Some []) in
  match records 0 1000 P [newDate 0 2025 10 27] true true true true false newWorld with
  | Fulfilled rs => Some ((λ r, commits (gitlabActivity (activity r))) <$> rs)
  | RejectedWith _ => None
  end
  = Some [[mkCommit "a" "core" "main"; mkCommit "b" "core" "main"]].
Proof. by vm_compute. Qed.

End OrchestratorFacts.

(** * Further properties of the code

    Properties read off the code, beyond those its specification states:
    of the parts above, and of the adapters, the token storage, the tool
    handlers, the callback server and the progress tracker. *)

(** ** The cache *)

Module CacheLaws.

Import DateModel Cache CacheSpec.

Ltac unfold_cache :=
  unfold getGitLabActivity, getGoogleCalendarEvents, getOutlookCalendarEvents,
    setGitLabActivity, setGoogleCalendarEvents, setOutlookCalendarEvents,
    clearExpired, load, save, with_stats, with_cache, with_gitlab, with_google,
    with_outlook, isExpired.

(** X1. What is stored for a day is what a lookup of that day returns as
    long as no more than the TTL has passed since it was stored, and a
    lookup later than that returns nothing. This holds for each of the three
    kinds of entry. *)
Theorem store_then_lookup (now now' date : Z) (c : ActivityCache)
    (a : GitLabActivity) (evs : list CalendarEvent) :
  (getGitLabActivity now' date (setGitLabActivity now date a c)).1
  = (if (now' - now <=? cacheTTL c)%Z then Some a else None)
  ∧ (getGoogleCalendarEvents now' date (setGoogleCalendarEvents now date evs c)).1
    = (if (now' - now <=? cacheTTL c)%Z then Some evs else None)
  ∧ (getOutlookCalendarEvents now' date (setOutlookCalendarEvents now date evs c)).1
    = (if (now' - now <=? cacheTTL c)%Z then Some evs else None).
Proof.
  unfold_cache. simpl. rewrite !lookup_insert_eq. simpl.
  destruct (Z.leb_spec (now' - now) (cacheTTL c)), (Z.ltb_spec (cacheTTL c) (now' - now));
    done || lia.
Qed.

(** X2. Storing an entry of one kind changes the result of no lookup of the
    two other kinds, and of no lookup of the same kind under another day
    key. *)
Theorem store_leaves_other_slots (now now' date date' : Z) (c : ActivityCache)
    (a : GitLabActivity) (evs : list CalendarEvent) :
  let c1 := setGitLabActivity now date a c in
  let c2 := setGoogleCalendarEvents now date evs c in
  let c3 := setOutlookCalendarEvents now date evs c in
  ((getGoogleCalendarEvents now' date' c1).1 = (getGoogleCalendarEvents now' date' c).1
   ∧ (getOutlookCalendarEvents now' date' c1).1 = (getOutlookCalendarEvents now' date' c).1
   ∧ (getGitLabActivity now' date' c2).1 = (getGitLabActivity now' date' c).1
   ∧ (getOutlookCalendarEvents now' date' c2).1 = (getOutlookCalendarEvents now' date' c).1
   ∧ (getGitLabActivity now' date' c3).1 = (getGitLabActivity now' date' c).1
   ∧ (getGoogleCalendarEvents now' date' c3).1 = (getGoogleCalendarEvents now' date' c).1)
  ∧ (getDateKey date' ≠ getDateKey date →
     (getGitLabActivity now' date' c1).1 = (getGitLabActivity now' date' c).1
     ∧ (getGoogleCalendarEvents now' date' c2).1 = (getGoogleCalendarEvents now' date' c).1
     ∧ (getOutlookCalendarEvents now' date' c3).1
       = (getOutlookCalendarEvents now' date' c).1).
Proof.
  cbv zeta. split.
  - unfold_cache. simpl. repeat split; repeat case_match; done.
  - intros Hk. unfold_cache. simpl. rewrite !lookup_insert_ne by done.
    repeat split; repeat case_match; done.
Qed.

(** X3. Every lookup adds one to the number of requests that [getCacheStats]
    reports, and one to the number of hits exactly when it returns an entry. *)
Theorem lookup_is_counted_once (now date : Z) (c : ActivityCache) :
  let r1 := getGitLabActivity now date c in
  let r2 := getGoogleCalendarEvents now date c in
  let r3 := getOutlookCalendarEvents now date c in
  (totalRequests (getCacheStats r1.2) = S (totalRequests (getCacheStats c))
   ∧ totalHits (getCacheStats r1.2) = totalHits (getCacheStats c) + asHit r1.1)
  ∧ (totalRequests (getCacheStats r2.2) = S (totalRequests (getCacheStats c))
     ∧ totalHits (getCacheStats r2.2) = totalHits (getCacheStats c) + asHit r2.1)
  ∧ (totalRequests (getCacheStats r3.2) = S (totalRequests (getCacheStats c))
     ∧ totalHits (getCacheStats r3.2) = totalHits (getCacheStats c) + asHit r3.1).
Proof.
  cbv zeta. unfold getCacheStats, asHit. split; [|split].
  - unfold getGitLabActivity, isExpired.
    destruct (gitlab (cache c) !! getDateKey date) as [e|];
      [destruct (cacheTTL c <? now - timestamp e)%Z|]; simpl; lia.
  - unfold getGoogleCalendarEvents, isExpired.
    destruct (googleCalendar (cache c) !! getDateKey date) as [e|];
      [destruct (cacheTTL c <? now - timestamp e)%Z|]; simpl; lia.
  - unfold getOutlookCalendarEvents, isExpired.
    destruct (outlookCalendar (cache c) !! getDateKey date) as [e|];
      [destruct (cacheTTL c <? now - timestamp e)%Z|]; simpl; lia.
Qed.

(** X4. Sweeping the expired entries at some time changes the result of no
    lookup made at that time or later. *)
Theorem clearExpired_unseen_by_lookups (now now' date : Z) (c : ActivityCache) :
  (now ≤ now')%Z →
  (getGitLabActivity now' date (clearExpired now c)).1 = (getGitLabActivity now' date c).1
  ∧ (getGoogleCalendarEvents now' date (clearExpired now c)).1
    = (getGoogleCalendarEvents now' date c).1
  ∧ (getOutlookCalendarEvents now' date (clearExpired now c)).1
    = (getOutlookCalendarEvents now' date c).1.
Proof.
  intros Hle. unfold_cache. simpl. rewrite !CacheFacts.lookup_sweep.
  repeat split.
  - destruct (gitlab (cache c) !! getDateKey date) as [e|]; [|done].
    destruct (Z.ltb_spec (cacheTTL c) (now - timestamp e)),
      (Z.ltb_spec (cacheTTL c) (now' - timestamp e)); done || lia.
  - destruct (googleCalendar (cache c) !! getDateKey date) as [e|]; [|done].
    destruct (Z.ltb_spec (cacheTTL c) (now - timestamp e)),
      (Z.ltb_spec (cacheTTL c) (now' - timestamp e)); done || lia.
  - destruct (outlookCalendar (cache c) !! getDateKey date) as [e|]; [|done].
    destruct (Z.ltb_spec (cacheTTL c) (now - timestamp e)),
      (Z.ltb_spec (cacheTTL c) (now' - timestamp e)); done || lia.
Qed.

Lemma clearExpired_unseen_by_lookups_witness :
  (getGitLabActivity 3601001 sampleDay (clearExpired 3601000 sampleCache)).1
  = (getGitLabActivity 3601001 sampleDay sampleCache).1.
Proof.
  apply (clearExpired_unseen_by_lookups 3601000 3601001 sampleDay sampleCache). lia.
Defined.

(** X5. A lookup never writes the cache file, although it deletes an expired
    entry from memory: when memory and file agree before the lookup, loading
    the file after it brings back exactly the data held before. *)
Theorem lookups_never_write_the_file (now date : Z) (c : ActivityCache) :
  (cacheFile (getGitLabActivity now date c).2 = cacheFile c
   ∧ cacheFile (getGoogleCalendarEvents now date c).2 = cacheFile c
   ∧ cacheFile (getOutlookCalendarEvents now date c).2 = cacheFile c)
  ∧ (cacheFile c = Some (cache c) →
     cache (load (getGitLabActivity now date c).2) = cache c
     ∧ cache (load (getGoogleCalendarEvents now date c).2) = cache c
     ∧ cache (load (getOutlookCalendarEvents now date c).2) = cache c).
Proof.
  split.
  - unfold_cache. repeat split; repeat case_match; done.
  - intros Hsync. unfold_cache.
    repeat split; repeat case_match; simpl in *; congruence.
Qed.

End CacheLaws.

(** ** Day strings *)

Module DateLaws.
Import DateModel DateSpec Cache OrchestratorSpec OrchestratorFacts.

Lemma civilFromDays_range n y m d :
  civilFromDays n = (y, m, d) → (1 ≤ m ≤ 12 ∧ 1 ≤ d ≤ 31)%Z.
Proof.
  unfold civilFromDays. cbv zeta. intros H.
  repeat case_match; simplify_eq; Z.div_mod_to_equations; lia.
Qed.

Lemma daysFromCivil_civilFromDays n y m d :
  civilFromDays n = (y, m, d) → daysFromCivil y m d = n.
Proof.
  unfold civilFromDays, daysFromCivil. cbv zeta. intros H.
  repeat case_match; simplify_eq; Z.div_mod_to_equations; lia.
Qed.

Lemma MakeDay_civilFromDays n y m d :
  civilFromDays n = (y, m, d) → MakeDay y (m - 1) d = n.
Proof.
  intros H. pose proof (civilFromDays_range _ _ _ _ H) as [Hm _].
  rewrite <- (daysFromCivil_civilFromDays _ _ _ _ H).
  unfold MakeDay. cbv zeta.
  replace ((m - 1) / 12)%Z with 0%Z by (Z.div_mod_to_equations; lia).
  replace ((m - 1) mod 12 + 1)%Z with m by (Z.div_mod_to_equations; lia).
  rewrite Z.add_0_r. unfold daysFromCivil. cbv zeta. lia.
Qed.

Lemma digitValue_digitChar d : d < 10 → digitValue (digitChar d) = Some (Z.of_nat d).
Proof. intros Hd. do 10 (destruct d as [|d]; [reflexivity|]). lia. Qed.

Lemma Number_go_natToString_go fuel n acc a :
  n < fuel →
  ∃ k : nat, Number_go (natToString_go fuel n acc) a
             = Number_go acc (a * 10 ^ Z.of_nat k + Z.of_nat n)%Z.
Proof.
  revert n acc a. induction fuel as [|fuel IH]; intros n acc a Hn; [lia|].
  cbn [natToString_go].
  assert (n mod 10 < 10) as Hmod by (apply Nat.mod_upper_bound; lia).
  pose proof (Nat.div_mod_eq n 10) as Hdm.
  destruct (Nat.eqb_spec (n / 10) 0) as [H0|H0].
  - exists 1. cbn [Number_go]. rewrite digitValue_digitChar by done.
    f_equal. lia.
  - destruct (IH (n / 10) (String (digitChar (n mod 10)) acc) a) as [k Hk]; [lia|].
    exists (S k). rewrite Hk. cbn [Number_go].
    rewrite digitValue_digitChar by done. f_equal.
    rewrite Nat2Z.inj_succ, Z.pow_succ_r by lia. lia.
Qed.

Lemma Number_natToString n : Number (natToString n) = Some (Z.of_nat n).
Proof.
  unfold Number, natToString.
  destruct (Number_go_natToString_go (S n) n "" 0) as [k ->]; [lia|].
  simpl. f_equal. 
Qed.

Lemma Number_go_zeros k str :
  Number_go (String.concat "" (replicate k "0") +:+ str) 0 = Number_go str 0.
Proof.
  induction k as [|k IH]; [done|].
  change (replicate (S k) "0") with ("0" :: replicate k "0").
  destruct k.
  - done.
  - change (String.concat "" ("0" :: replicate (S k) "0"))
      with ("0" +:+ "" +:+ String.concat "" (replicate (S k) "0")).
    exact IH.
Qed.

Lemma Number_pad2 n : (0 ≤ n)%Z → Number (pad2 n) = Some n.
Proof.
  intros Hn. unfold pad2, padStart, Number. rewrite Number_go_zeros.
  fold (Number (natToString (Z.to_nat n))). rewrite Number_natToString. f_equal. lia.
Qed.

Lemma parseDay_of_localDateStr tz t :
  (100 ≤ getFullYear tz t)%Z →
  parseDay tz (localDateStr tz t) = Some (startOfLocalDay tz t).
Proof.
  intros Hy.
  unfold getFullYear, startOfLocalDay in *. unfold localDateStr, parseDay.
  fold (localDay tz t).
  destruct (civilFromDays (localDay tz t)) as [[y m] d] eqn:Hc. simpl in Hy.
  pose proof (civilFromDays_range _ _ _ _ Hc) as [Hm Hd].
  assert (∀ n, allDigits (pad2 n) = true) as Hpad
    by (intros n; apply padStart_digits, natToString_digits).
  unfold intToString. destruct (Z.ltb_spec y 0); [lia|].
  change (natToString (Z.to_nat y) +:+ "-" +:+ pad2 m +:+ "-" +:+ pad2 d)
    with (natToString (Z.to_nat y) +:+ String "-" (pad2 m +:+ String "-" (pad2 d))).
  rewrite splitOn_digits_dash by apply natToString_digits.
  rewrite splitOn_digits_dash by apply Hpad.
  rewrite splitOn_digits by apply Hpad. simpl.
  rewrite Number_natToString, !Number_pad2 by lia.
  rewrite Z2Nat.id by lia. f_equal. unfold newDate.
  destruct (Z.leb_spec 0 y), (Z.leb_spec y 99); simpl; try lia.
  by rewrite (MakeDay_civilFromDays _ _ _ _ Hc).
Qed.

Lemma localDay_startOfLocalDay tz t : localDay tz (startOfLocalDay tz t) = localDay tz t.
Proof.
  unfold startOfLocalDay, localDay, msPerDay. Z.div_mod_to_equations. lia.
Qed.

(** X6. For an instant whose local year is 100 or later, the day string the
    server formats from it parses back to local midnight of the same day,
    and local midnight has the same day string. *)
Theorem day_string_parses_back (tz t : Z) :
  (100 ≤ getFullYear tz t)%Z →
  parseDay tz (localDateStr tz t) = Some (startOfLocalDay tz t)
  ∧ localDateStr tz (startOfLocalDay tz t) = localDateStr tz t.
Proof.
  intros Hy. split; [by apply parseDay_of_localDateStr|].
  unfold localDateStr. fold (localDay tz (startOfLocalDay tz t)) (localDay tz t).
  by rewrite localDay_startOfLocalDay.
Qed.

Lemma length_natToString_go fuel n acc (k : nat) :
  10 ^ k ≤ n → n < fuel →
  S k + String.length acc ≤ String.length (natToString_go fuel n acc).
Proof.
  revert fuel n acc. induction k as [|k IH]; intros fuel n acc Hk Hn.
  - destruct fuel as [|fuel]; [lia|]. cbn [natToString_go].
    destruct (n / 10 =? 0); [simpl; lia|].
    destruct fuel as [|fuel]; [simpl; lia|].
    clear. revert n acc. generalize (S fuel) as f. intros f.
    assert (∀ f n acc, String.length acc ≤ String.length (natToString_go f n acc)) as Hmono.
    { clear. induction f as [|f IH]; intros n acc; [done|].
      cbn [natToString_go]. destruct (n / 10 =? 0); [simpl; lia|].
      etrans; [|apply IH]. simpl. lia. }
    intros n acc. etrans; [|apply Hmono]. simpl. lia.
  - destruct fuel as [|fuel]; [lia|]. cbn [natToString_go].
    assert (10 ^ k ≤ n / 10) as Hdiv.
    { apply Nat.div_le_lower_bound; [lia|]. by rewrite Nat.pow_succ_r' in Hk. }
    assert (1 ≤ 10 ^ k) by (apply Nat.neq_0_lt_0, Nat.pow_nonzero; lia).
    destruct (Nat.eqb_spec (n / 10) 0); [lia|].
    etrans; [|apply (IH fuel (n / 10))]; [simpl; lia|done|].
    pose proof (Nat.div_mod_eq n 10). lia.
Qed.

Lemma isoYear_four_digits y :
  (1000 ≤ y ≤ 9999)%Z → isoYear y = intToString y.
Proof.
  intros Hy. unfold isoYear, intToString.
  destruct (Z.leb_spec 0 y), (Z.leb_spec y 9999), (Z.ltb_spec y 0); simpl; try lia.
  unfold padStart.
  pose proof (length_natToString_go (S (Z.to_nat y)) (Z.to_nat y) "" 3) as Hlen.
  fold (natToString (Z.to_nat y)) in Hlen.
  replace (4 - String.length (natToString (Z.to_nat y))) with 0; [done|].
  simpl in Hlen. lia.
Qed.

Lemma isoDayOfNumber_localDateStr tz t :
  (1000 ≤ getFullYear tz t ≤ 9999)%Z →
  isoDayOfNumber (localDay tz t) = localDateStr tz t.
Proof.
  unfold getFullYear, isoDayOfNumber, localDateStr. fold (localDay tz t).
  destruct (civilFromDays (localDay tz t)) as [[y m] d]. simpl. intros Hy.
  by rewrite isoYear_four_digits.
Qed.

(** X7. The cache key of a day string of a four-digit year, for a zone
    offset of at most a day: in a zone at or west of UTC it is the day
    string itself, in a zone east of UTC it is the day string of the day
    before. *)
Theorem day_key_by_zone (tz t : Z) :
  (-1440 < tz ≤ 1440)%Z →
  (1000 ≤ getFullYear tz t ≤ 9999)%Z →
  (tz ≤ 0 → dayKey tz (localDateStr tz t) = Some (localDateStr tz t))%Z
  ∧ (0 < tz → 1000 ≤ getFullYear tz (t - msPerDay) ≤ 9999 →
     dayKey tz (localDateStr tz t) = Some (localDateStr tz (t - msPerDay)))%Z.
Proof.
  intros Htz Hy. unfold dayKey.
  rewrite parseDay_of_localDateStr by lia. simpl.
  unfold getDateKey, isoDay, startOfLocalDay.
  split.
  - intros Hwest.
    replace ((localDay tz t * msPerDay - tz * msPerMinute) / msPerDay)%Z
      with (localDay tz t).
    + by rewrite isoDayOfNumber_localDateStr.
    + unfold msPerDay, msPerMinute. Z.div_mod_to_equations. lia.
  - intros Heast Hy'.
    replace ((localDay tz t * msPerDay - tz * msPerMinute) / msPerDay)%Z
      with (localDay tz (t - msPerDay)).
    + by rewrite isoDayOfNumber_localDateStr.
    + unfold localDay, msPerDay, msPerMinute. Z.div_mod_to_equations. lia.
Qed.

Lemma day_key_by_zone_witness :
  dayKey (-300) (localDateStr (-300) 1764201600000) = Some (localDateStr (-300) 1764201600000)
  ∧ dayKey 60 (localDateStr 60 1764201600000)
    = Some (localDateStr 60 (1764201600000 - msPerDay)).
Proof.
  split.
  - apply (day_key_by_zone (-300) 1764201600000); [lia | by vm_compute | lia].
  - apply (day_key_by_zone 60 1764201600000); [lia | by vm_compute | lia | by vm_compute].
Defined.

Lemma day_string_parses_back_witness :
  parseDay 60 (localDateStr 60 1764201600000) = Some (startOfLocalDay 60 1764201600000)
  ∧ localDateStr 60 (startOfLocalDay 60 1764201600000) = localDateStr 60 1764201600000.
Proof. apply (day_string_parses_back 60 1764201600000). by vm_compute. Defined.

End DateLaws.

(** ** The distributor *)

Module DistributorLaws.
Import Distributor DistributorSpec DistributionSpec DistributorFacts.

Global Instance keeps_preorder : PreOrder keeps.
Proof.
  split.
  - intros d. by repeat split.
  - intros a b c (H1 & H2 & H3 & H4 & H5 & H6 & H7) (G1 & G2 & G3 & G4 & G5 & G6 & G7).
    repeat split; try congruence; etrans; eassumption.
Qed.

Lemma Forall2_alter_rel {A} (R : relation A) `{!Reflexive R} (f : A → A) i (l : list A) :
  (∀ d, l !! i = Some d → R d (f d)) → Forall2 R l (alter f i l).
Proof.
  intros Hf. apply Forall2_alter_r; [by apply Forall_Forall2_diag, Forall_true|].
  intros d d' Hd Hd' _. rewrite Hd in Hd'. injection Hd' as <-. by apply Hf.
Qed.

Lemma keeps_pushCommits cs d : keeps d (pushCommits cs d).
Proof. repeat split; simpl; [|done..]. by apply sublist_inserts_r. Qed.
Lemma keeps_pushMRs cs d : keeps d (pushMRs cs d).
Proof. repeat split; simpl; [done| |done]. by apply prefix_app_r. Qed.
Lemma keeps_pushIssues cs d : keeps d (pushIssues cs d).
Proof. repeat split; simpl; [done..|]. by apply prefix_app_r. Qed.
Lemma keeps_note g d : keeps d (with_commits (λ old, noteCommit g :: old) d).
Proof. repeat split; simpl; [|done..]. by apply sublist_cons. Qed.

Section StepKeeps.
Context {A : Type} (src : list A) (perDay : nat) (tag : A → A)
        (push : list A → DayActivity → DayActivity).
Hypothesis push_keeps : ∀ xs d, keeps d (push xs d).

Lemma distributeStep_fold_keeps idxs st :
  Forall2 keeps st.1 (foldl (distributeStep src perDay tag push) st idxs).1.
Proof.
  revert st. induction idxs as [|i idxs IH]; intros [acts index]; simpl.
  - by apply Forall_Forall2_diag, Forall_true.
  - etrans; [|apply IH].
    unfold distributeStep. case_match; simpl.
    + apply Forall2_alter_rel; [apply _|]. intros d _. apply push_keeps.
    + by apply Forall_Forall2_diag, Forall_true.
Qed.
End StepKeeps.

Lemma distributeWorkAcrossGap_keeps l i j g :
  Forall2 keeps l (distributeWorkAcrossGap l i j g).
Proof.
  unfold distributeWorkAcrossGap.
  destruct (l !! j) as [src|]; [|by apply Forall_Forall2_diag, Forall_true].
  set (gap := seq i (j - i)).
  pose proof (distributeStep_fold_keeps (commits (gitlabActivity src))
    (length (commits (gitlabActivity src)) / (g + 1)) tagCommit pushCommits
    keeps_pushCommits gap (l, 0)) as G1.
  destruct (foldl _ (l, 0) gap) as [acts1 commitIndex]; simpl in *.
  pose proof (distributeStep_fold_keeps (mergeRequests (gitlabActivity src))
    (length (mergeRequests (gitlabActivity src)) / (g + 1)) tagMR pushMRs
    keeps_pushMRs gap (acts1, 0)) as G2.
  destruct (foldl _ (acts1, 0) gap) as [acts2 mrIndex]; simpl in *.
  pose proof (distributeStep_fold_keeps (issues (gitlabActivity src))
    (length (issues (gitlabActivity src)) / (g + 1)) tagIssue pushIssues
    keeps_pushIssues gap (acts2, 0)) as G3.
  destruct (foldl _ (acts2, 0) gap) as [acts3 issueIndex]; simpl in *.
  assert (Forall2 keeps l acts3) as G by (etrans; [etrans|]; eassumption).
  case_match; [|done].
  etrans; [exact G|]. apply Forall2_alter_rel; [apply _|]. intros d _. apply keeps_note.
Qed.

Lemma pushPhases_keeps phases n i j l : Forall2 keeps l (pushPhases phases n i j l).
Proof.
  revert n l. induction phases as [|ph phases IH]; intros n l; simpl.
  - by apply Forall_Forall2_diag, Forall_true.
  - case_match; [|by apply Forall_Forall2_diag, Forall_true].
    etrans; [|apply IH].
    apply Forall2_alter_rel; [apply _|]. intros d _. apply keeps_pushCommits.
Qed.

Lemma processPhases_keeps l i j g : Forall2 keeps l (processPhases l i j g).
Proof.
  unfold processPhases, distributeWorkPhases.
  destruct (l !! j); [apply pushPhases_keeps | by apply Forall_Forall2_diag, Forall_true].
Qed.

Lemma scan_keeps process sorted :
  (∀ l i j g, Forall2 keeps l (process l i j g)) →
  Forall2 keeps sorted (distributed (scan process sorted)).
Proof.
  intros Hp. unfold scan.
  apply (foldl_seq_invariant (λ _ st, Forall2 keeps sorted (distributed st))
           (scanStep process) (mkScan sorted 0 0) 0 (length sorted)).
  - by apply Forall_Forall2_diag, Forall_true.
  - intros i st _ IH. unfold scanStep. repeat case_match; try done.
    simpl. etrans; [exact IH|]. apply Hp.
Qed.

Lemma insertByDate_perm d l : insertByDate d l ≡ₚ d :: l.
Proof.
  induction l as [|x l IH]; simpl; [done|].
  case_match; [done|]. rewrite IH. apply Permutation_swap.
Qed.

Lemma sortByDate_perm l : sortByDate l ≡ₚ l.
Proof.
  induction l as [|x l IH]; simpl; [done|]. by rewrite insertByDate_perm, IH.
Qed.

(** X8. Both distributors return the days of the input sorted by date, one
    day of the result for each, and only add to a day: its date, meetings
    and description stay, its commits are all still there in their order,
    and its review items and issues are the first ones of the result. *)
Theorem distribution_only_adds (acts : list DayActivity) :
  let sorted := sortByDate acts in
  sorted ≡ₚ acts ∧ sortedByDate sorted
  ∧ Forall2 keeps sorted (activities (distributeActivities acts))
  ∧ Forall2 keeps sorted (activities (distributeActivitiesIntelligent acts)).
Proof.
  cbv zeta. split; [apply sortByDate_perm|]. split; [apply sortByDate_sorted|].
  split; apply scan_keeps.
  - apply distributeWorkAcrossGap_keeps.
  - apply processPhases_keeps.
Qed.


(** *** The phased mode, day by day *)

Lemma length_generateWorkPhases g src : length (generateWorkPhases g src) = g.
Proof.
  unfold generateWorkPhases.
  destruct g as [|[|[|[|g]]]]; try done.
  by rewrite length_fmap, length_seq.
Qed.

Lemma pushPhases_lookup phases n s j l k p :
  s + n ≤ k → k < j → phases !! (k - s - n) = Some p →
  pushPhases phases n s j l !! k = pushCommits [phaseCommit p] <$> l !! k.
Proof.
  revert n l. induction phases as [|ph phases IH]; intros n l Hk Hj Hp; [done|].
  cbn [pushPhases].
  destruct (Nat.ltb_spec (s + n) j); [|lia].
  destruct (decide (k = s + n)) as [->|Hne].
  - rewrite pushPhases_frame by lia. rewrite list_lookup_alter_eq.
    replace (s + n - s - n) with 0 in Hp by lia. by injection Hp as ->.
  - rewrite (IH (S n)); [|lia|done|].
    + by rewrite list_lookup_alter_ne by lia.
    + replace (k - s - n) with (S (k - s - S n)) in Hp by lia. done.
Qed.

Lemma findNextActivityDay_ext l l' i :
  (∀ k, i < k → l !! k = l' !! k) →
  findNextActivityDay l i = findNextActivityDay l' i.
Proof.
  intros H. unfold findNextActivityDay. f_equal.
  apply list_eq. intros k. rewrite !lookup_drop. apply H. lia.
Qed.

Lemma isGapStart_true l k :
  isGapStart l k = true ↔
  ∃ d j, l !! k = Some d ∧ hasAnyActivity d = false ∧ findNextActivityDay l k = Some j.
Proof.
  unfold isGapStart. split.
  - destruct (l !! k) as [d|]; [|done].
    intros [Hd Hn]%andb_true_iff. apply negb_true_iff in Hd.
    apply bool_decide_eq_true in Hn as [j Hj]. by exists d, j.
  - intros (d & j & -> & -> & Hj). simpl. apply bool_decide_eq_true. by eexists.
Qed.

Lemma countBelow_S (p : nat → bool) n :
  countBelow p (S n) = countBelow p n + (if p n then 1 else 0).
Proof.
  unfold countBelow. rewrite seq_S, sum_list_with_app. simpl. lia.
Qed.

Lemma countBelow_run (p : nat → bool) m j (b : nat) :
  m ≤ j →
  (∀ k, m ≤ k < j → (if p k then 1 else 0) = (if decide (k = m) then b else 0)) →
  countBelow p j = countBelow p m + (if decide (m < j) then b else 0).
Proof.
  intros Hmj. induction j as [|j IH]; intros Hp.
  - assert (m = 0) as -> by lia. by rewrite Nat.add_0_r.
  - destruct (decide (m = S j)) as [->|Hne].
    + destruct (decide (S j < S j)); [lia|]. by rewrite Nat.add_0_r.
    + rewrite countBelow_S, IH; [|lia|intros k Hk; apply Hp; lia].
      rewrite (Hp j) by lia.
      repeat case_decide; lia.
Qed.

Lemma countBelow_all (p : nat → bool) m j :
  m ≤ j → (∀ k, m ≤ k < j → p k = true) → countBelow p j = countBelow p m + (j - m).
Proof.
  intros Hmj. induction j as [|j IH]; intros Hp.
  - assert (m = 0) as -> by lia. change (0 - 0) with 0. by rewrite Nat.add_0_r.
  - destruct (decide (m = S j)) as [->|Hne]; [lia|].
    rewrite countBelow_S, IH; [|lia|intros k Hk; apply Hp; lia].
    rewrite (Hp j) by lia. lia.
Qed.

Lemma phasedInv_step sorted i st :
  i < length sorted → phasedInv sorted i st →
  phasedInv sorted (S i) (scanStep processPhases st i).
Proof.
  intros Hi (m & Hm & Hlen & HC & HB & HA & HD & HE & Hg & Hd).
  destruct (lookup_lt_is_Some_2 (distributed st) i) as [cur Hcur]; [lia|].
  destruct (decide (i < m)) as [Hlt|Hge].
  { (* inside a run that has been filled: the day has activity *)
    unfold scanStep. rewrite Hcur, (HD i cur) by (done || lia).
    exists m. split_and!; [lia|lia|done|done|done|done| |done|done|done].
    intros k d Hk. apply HD. lia. }
  assert (m = i) as -> by lia. clear Hge.
  assert (sorted !! i = Some cur) as Hs by (by rewrite <- HC).
  assert (findNextActivityDay (distributed st) i = findNextActivityDay sorted i) as Hnext
    by (apply findNextActivityDay_ext; intros k Hk; apply HC; lia).
  unfold scanStep. rewrite Hcur, Hnext.
  destruct (hasAnyActivity cur) eqn:Hact.
  { (* a day with activity *)
    assert (isGapStart sorted i = false) as Hng
      by (unfold isGapStart; rewrite Hs, Hact; done).
    exists (S i). split_and!; [lia|lia|done|..].
    - intros k Hk. apply HC. lia.
    - intros k Hk Hk'. destruct (decide (k = i)) as [->|]; [by apply HC|]. apply HB; [lia|done].
    - intros s j src Hrun Hj Hsrc k Hk.
      destruct (decide (j = S i)) as [->|]; [|apply (HA s j src); (done || lia)].
      destruct Hrun as (_ & Hempty & _). rewrite (Hempty i cur) in Hact; (done || lia).
    - intros k d Hk. lia.
    - intros Hgs. unfold isRunStart. by rewrite Hgs, Hs, Hact.
    - by rewrite countBelow_S, Hng, Nat.add_0_r.
    - rewrite countBelow_S. unfold isRunStart at 2. by rewrite Hng, Nat.add_0_r. }
  destruct (findNextActivityDay sorted i) as [j|] eqn:Hj.
  2:{ (* an empty day with no later day with activity *)
    assert (isGapStart sorted i = false) as Hng.
    { unfold isGapStart. rewrite Hs, Hact, Hj. done. }
    exists (S i). split_and!; [lia|lia|done|..].
    - intros k Hk. apply HC. lia.
    - intros k Hk Hk'. destruct (decide (k = i)) as [->|]; [by apply HC|]. apply HB; [lia|done].
    - intros s j src Hrun Hjm Hsrc k Hk.
      destruct (decide (j = S i)) as [->|]; [|apply (HA s j src); (done || lia)].
      destruct Hrun as (_ & _ & (src' & Hsrc' & Hact') & _).
      rewrite (findNextActivityDay_None _ _ Hj (S i) src') in Hact'; (done || lia).
    - intros k d Hk. lia.
    - intros (d & j & Hd' & Hemp & Hnx)%isGapStart_true.
      apply findNextActivityDay_Some in Hnx as (Hlt & (dj & Hdj & Hactj) & _).
      rewrite (findNextActivityDay_None _ _ Hj j dj) in Hactj; (done || lia).
    - by rewrite countBelow_S, Hng, Nat.add_0_r.
    - rewrite countBelow_S. unfold isRunStart at 2. by rewrite Hng, Nat.add_0_r. }
  (* the first day of a run: the run is filled *)
  pose proof (findNextActivityDay_Some _ _ _ Hj) as (Hij & (src & Hsrc & Hactj) & Hbetween).
  assert (j < length sorted) as Hjlen by (by eapply lookup_lt_Some).
  assert (∀ k d, i ≤ k < j → sorted !! k = Some d → hasAnyActivity d = false) as Hempty.
  { intros k d Hk Hd'. destruct (decide (k = i)) as [->|]; [congruence|].
    apply (Hbetween k d); [lia|done]. }
  assert (isGapStart sorted i = true) as Hgs
    by (apply isGapStart_true; by exists cur, j).
  assert (gapRun sorted i j) as Hrun.
  { split; [done|]. split; [done|]. split; [by exists src|].
    specialize (HE Hgs). unfold isRunStart in HE. rewrite Hgs in HE. simpl in HE.
    destruct i as [|i']; [by left|]. right.
    destruct (sorted !! i') as [d|] eqn:Hd'; [|done].
    exists d. by replace (S i' - 1) with i' by lia. }
  assert (distributed st !! j = Some src) as Hsrc' by (rewrite HC by lia; done).
  unfold processPhases, distributeWorkPhases. rewrite Hsrc'.
  set (phases := generateWorkPhases (j - i) src).
  assert (length phases = j - i) as Hph by apply length_generateWorkPhases.
  assert (∀ k, i ≤ k < j →
            ∃ p, phases !! (k - i) = Some p
                 ∧ pushPhases phases 0 i j (distributed st) !! k
                   = pushCommits [phaseCommit p] <$> sorted !! k) as Hfill.
  { intros k Hk. destruct (lookup_lt_is_Some_2 phases (k - i)) as [p Hp]; [lia|].
    exists p. split; [done|].
    rewrite (pushPhases_lookup phases 0 i j _ k p); [|lia|lia|].
    - by rewrite HC by lia.
    - by replace (k - i - 0) with (k - i) by lia. }
  assert (∀ k, i ≤ k < j → isGapStart sorted k = true) as Hstarts.
  { intros k Hk. destruct (lookup_lt_is_Some_2 sorted k) as [d Hd']; [lia|].
    apply isGapStart_true.
    destruct (decide (k = i)) as [->|Hne]; [by exists cur, j|].
    destruct (findNextActivityDay_later sorted k j src) as [j' Hj']; [lia|done..|].
    exists d, j'. split; [done|]. split; [|done]. apply (Hempty k); [lia|done]. }
  exists j. simpl. split_and!; [lia|lia|..].
  - rewrite <- Hlen. symmetry. eapply Forall2_length, pushPhases_grows.
  - intros k Hk. rewrite pushPhases_frame by lia. apply HC. lia.
  - intros k Hk Hng. destruct (decide (k < i)) as [Hlt|Hge].
    + rewrite pushPhases_frame by lia. by apply HB.
    + rewrite Hstarts in Hng by lia. done.
  - intros s j' src' Hrun' Hj' Hsrc'' k Hk.
    destruct (decide (j' ≤ i)) as [Hold|Hnew].
    { rewrite pushPhases_frame by lia. apply (HA s j' src'); done. }
    assert (j' = j) as ->.
    { destruct Hrun' as (_ & _ & (x & Hx & Hxact) & _).
      destruct (decide (j' = j)) as [|Hne]; [done|].
      rewrite (Hempty j' x) in Hxact; (done || lia). }
    assert (s = i) as ->.
    { destruct Hrun' as (Hsj & Hemp' & _ & Hmax), Hrun as (_ & _ & _ & Hmax').
      destruct (decide (s = i)) as [|Hne]; [done|]. exfalso.
      destruct (decide (s < i)).
      - destruct Hmax' as [->|(d & Hd' & Hdact)]; [lia|].
        rewrite (Hemp' (i - 1) d) in Hdact; (done || lia).
      - destruct Hmax as [->|(d & Hd' & Hdact)]; [lia|].
        rewrite (Hempty (s - 1) d) in Hdact; (done || lia). }
    assert (src' = src) as -> by congruence.
    apply Hfill. done.
  - intros k d Hk Hd'.
    destruct (Hfill k) as (p & _ & Hlook); [lia|].
    rewrite Hlook in Hd'.
    destruct (sorted !! k) as [d0|]; [|done]. injection Hd' as <-.
    unfold hasAnyActivity. simpl. rewrite length_app. simpl.
    replace (0 <? length (commits (gitlabActivity d0)) + 1) with true
      by (symmetry; apply Nat.ltb_lt; lia).
    by rewrite orb_true_r.
  - intros (d & j' & Hd' & Hemp & _)%isGapStart_true. congruence.
  - rewrite (countBelow_all _ i j); [lia|lia|done].
  - rewrite (countBelow_run _ i j 1); [|lia|].
    + destruct (decide (i < j)); lia.
    + intros k Hk. destruct (decide (k = i)) as [->|Hne].
      * specialize (HE Hgs). by rewrite HE.
      * unfold isRunStart. destruct k as [|k']; [lia|].
        destruct (lookup_lt_is_Some_2 sorted k') as [d Hd']; [lia|].
        rewrite Hd', (Hempty k' d); [|lia|done]. by rewrite andb_false_r.
Qed.

Lemma phasedInv_scan sorted :
  phasedInv sorted (length sorted) (scan processPhases sorted).
Proof.
  unfold scan.
  apply (foldl_seq_invariant (λ i st, i ≤ length sorted → phasedInv sorted i st)
           (scanStep processPhases) (mkScan sorted 0 0) 0 (length sorted)); [| |done].
  - intros _. exists 0. simpl. split_and!; [lia|lia|done|done|..|done|done].
    + intros k Hk. lia.
    + intros s j src (Hsj & _) Hj. lia.
    + intros k d Hk. lia.
    + intros Hgs. unfold isRunStart. by rewrite Hgs.
  - intros i st Hi IH Hle. apply phasedInv_step; [lia|]. apply IH. lia.
Qed.


Lemma gapStart_in_run l k :
  isGapStart l k = true → ∃ s j, gapRun l s j ∧ s ≤ k < j.
Proof.
  intros (d & j & Hd & Hemp & Hj)%isGapStart_true.
  cut (∃ s, gapRun l s j ∧ s ≤ k < j); [intros (s & ?); by exists s, j|].
  revert d Hd Hemp Hj. induction k as [|k IH]; intros d Hd Hemp Hj;
    pose proof (findNextActivityDay_Some _ _ _ Hj) as (Hkj & (src & Hsrc & Hact) & Hbetween).
  - exists 0. split; [|lia]. split; [done|]. split; [|split; [by exists src | by left]].
    intros k' d' Hk' Hd'. destruct (decide (k' = 0)) as [->|]; [congruence|].
    apply (Hbetween k' d'); [lia|done].
  - destruct (lookup_lt_is_Some_2 l k) as [dk Hdk];
      [apply lookup_lt_Some in Hd; lia|].
    destruct (hasAnyActivity dk) eqn:Hdkact.
    + exists (S k). split; [|lia]. split; [done|]. split; [|split; [by exists src|]].
      * intros k' d' Hk' Hd'. destruct (decide (k' = S k)) as [->|]; [congruence|].
        apply (Hbetween k' d'); [lia|done].
      * right. exists dk. by replace (S k - 1) with k by lia.
    + destruct (findNextActivityDay_later l k j src) as [j' Hj']; [lia|done..|].
      pose proof (findNextActivityDay_Some _ _ _ Hj') as (Hkj' & (src' & Hsrc' & Hact') & Hb').
      assert (j' = j) as ->.
      { destruct (decide (j' = j)) as [|Hne]; [done|]. exfalso.
        destruct (decide (j' < j)).
        - destruct (decide (j' = S k)) as [->|]; [congruence|].
          rewrite (Hbetween j' src') in Hact'; (done || lia).
        - rewrite (Hb' j src) in Hact; (done || lia). }
      destruct (IH dk Hdk Hdkact Hj') as (s & Hrun & Hs). exists s. split; [done|lia].
Qed.

(** X9. Phased mode: in every maximal run of empty days that is followed by
    a day with activity, each day receives exactly one commit, the phase
    commit of its position in the run, built from the day that follows the
    run (its summary takes the first fifty UTF-16 units of the first commit
    message and of the first titles of that day); every other day is
    returned as it was, and every empty day with a later day of activity
    lies in such a run. *)
Theorem phased_mode_fills_each_run (acts : list DayActivity) :
  let sorted := sortByDate acts in
  let out := activities (distributeActivitiesIntelligent acts) in
  (∀ s j src, gapRun sorted s j → sorted !! j = Some src →
     ∀ k d, s ≤ k < j → sorted !! k = Some d →
       ∃ p, generateWorkPhases (j - s) src !! (k - s) = Some p
            ∧ out !! k = Some (pushCommits [phaseCommit p] d))
  ∧ (∀ k, isGapStart sorted k = false → out !! k = sorted !! k)
  ∧ (∀ k, isGapStart sorted k = true → ∃ s j, gapRun sorted s j ∧ s ≤ k < j).
Proof.
  cbv zeta. unfold distributeActivitiesIntelligent. simpl.
  destruct (phasedInv_scan (sortByDate acts))
    as (m & Hm & Hlen & HC & HB & HA & _).
  assert (m = length (sortByDate acts)) as -> by lia.
  split_and!.
  - intros s j src Hrun Hsrc k d Hk Hd.
    destruct (HA s j src Hrun) with (k := k) as (p & Hp & Hout); [|done|exact Hk|].
    { apply lookup_lt_Some in Hsrc. lia. }
    exists p. split; [done|]. by rewrite Hout, Hd.
  - intros k Hng. destruct (decide (k < length (sortByDate acts))).
    + by apply HB.
    + apply HC. lia.
  - apply gapStart_in_run.
Qed.

(** X10. Phased mode: [daysWithGaps] is the number of empty days that have a
    later day with activity, and [daysDistributed] is the number of maximal
    runs of such days. *)
Theorem phased_mode_counts (acts : list DayActivity) :
  let sorted := sortByDate acts in
  let info := distributionInfo (distributeActivitiesIntelligent acts) in
  daysWithGaps info = countBelow (isGapStart sorted) (length sorted)
  ∧ daysDistributed info = countBelow (isRunStart sorted) (length sorted).
Proof.
  cbv zeta. unfold distributeActivitiesIntelligent. simpl.
  destruct (phasedInv_scan (sortByDate acts))
    as (m & Hm & _ & _ & _ & _ & _ & _ & Hg & Hd).
  assert (m = length (sortByDate acts)) as -> by lia. done.
Qed.

End DistributorLaws.

Module ProportionalLaws.
Import Distributor DistributorSpec DistributionSpec ProportionalSpec DistributorFacts
  DistributorLaws.

Lemma hasQuota_true src G : hasQuota src G = true ↔ G + 1 ≤ mostItems src.
Proof.
  unfold hasQuota, mostItems. rewrite !orb_true_iff, !Nat.ltb_lt.
  assert (∀ n, 0 < n / (G + 1) ↔ G + 1 ≤ n) as Hq.
  { intros n. split.
    - intros H. pose proof (Nat.div_mod n (G + 1) ltac:(lia)). nia.
    - intros H. apply Nat.div_str_pos. lia. }
  rewrite !Hq. lia.
Qed.

Lemma hasQuota_false src G : hasQuota src G = false ↔ mostItems src < G + 1.
Proof.
  pose proof (hasQuota_true src G) as H. destruct (hasQuota src G).
  - split; [done|]. intros Hlt. assert (G + 1 ≤ mostItems src) by (by apply H). lia.
  - split; [|done]. intros _. destruct (decide (G + 1 ≤ mostItems src)) as [Hle|]; [|lia].
    apply H in Hle. done.
Qed.

Lemma distributeWorkAcrossGap_lookup l i j src :
  i < j → l !! j = Some src →
  ∀ k, distributeWorkAcrossGap l i j (j - i) !! k =
    if decide (i ≤ k < j) then fillDay src (j - i) (k - i) <$> l !! k
    else if decide (k = j) then
      (if hasQuota src (j - i) then markSource (j - i) else id) <$> l !! k
    else l !! k.
Proof.
  intros Hij Hsrc k. set (G := j - i).
  assert (∀ n, G * (n / (G + 1)) ≤ n) as Hfit.
  { intros n. pose proof (Nat.div_mod n (G + 1) ltac:(lia)). nia. }
  set (qc := commitCount src / (G + 1)).
  set (qm := mrCount src / (G + 1)).
  set (qi := issueCount src / (G + 1)).
  destruct (distributeStep_fold_exact (commits (gitlabActivity src)) qc tagCommit
              pushCommits pushCommits_nil l i G (Hfit _)) as (l1 & Hf1 & Hl1).
  destruct (distributeStep_fold_exact (mergeRequests (gitlabActivity src)) qm tagMR
              pushMRs pushMRs_nil l1 i G (Hfit _)) as (l2 & Hf2 & Hl2).
  destruct (distributeStep_fold_exact (issues (gitlabActivity src)) qi tagIssue
              pushIssues pushIssues_nil l2 i G (Hfit _)) as (l3 & Hf3 & Hl3).
  assert (distributeWorkAcrossGap l i j G
          = if hasQuota src G
            then alter (with_commits (λ old, noteCommit G :: old)) j l3 else l3) as ->.
  { unfold distributeWorkAcrossGap. rewrite Hsrc.
    fold G. fold (commitCount src) (mrCount src) (issueCount src). fold qc qm qi.
    rewrite Hf1, Hf2, Hf3. unfold hasQuota. fold qc qm qi.
    replace (0 <? G * qc) with (0 <? qc)
      by (destruct (Nat.ltb_spec 0 qc), (Nat.ltb_spec 0 (G * qc)); nia).
    replace (0 <? G * qm) with (0 <? qm)
      by (destruct (Nat.ltb_spec 0 qm), (Nat.ltb_spec 0 (G * qm)); nia).
    replace (0 <? G * qi) with (0 <? qi)
      by (destruct (Nat.ltb_spec 0 qi), (Nat.ltb_spec 0 (G * qi)); nia).
    done. }
  assert (l3 !! k = if decide (i ≤ k < j) then fillDay src G (k - i) <$> l !! k
                    else l !! k) as H3.
  { rewrite Hl3, Hl2, Hl1. unfold G.
    destruct (decide (i ≤ k < j)).
    - rewrite !decide_True by lia. destruct (l !! k); done.
    - rewrite !decide_False by lia. done. }
  destruct (hasQuota src G).
  - destruct (decide (k = j)) as [->|Hne].
    + rewrite list_lookup_alter_eq, H3. rewrite !decide_False by lia. done.
    + rewrite list_lookup_alter_ne by done. rewrite H3.
      destruct (decide (i ≤ k < j)); done.
  - rewrite H3. destruct (decide (i ≤ k < j)); [done|].
    destruct (decide (k = j)); [|done]. by destruct (l !! k).
Qed.


Lemma fillDay_noQuota src G t d : hasQuota src G = false → fillDay src G t d = d.
Proof.
  unfold hasQuota, fillDay, commitCount, mrCount, issueCount.
  rewrite !orb_false_iff, !Nat.ltb_ge. intros [[Hc Hm] Hi].
  assert (∀ n, n ≤ 0 → n = 0) as Hz by lia.
  rewrite (Hz _ Hc), (Hz _ Hm), (Hz _ Hi). unfold slice.
  rewrite !Nat.mul_0_r, !Nat.sub_diag. simpl.
  by rewrite pushCommits_nil, pushMRs_nil, pushIssues_nil.
Qed.

Lemma fillDay_active src G t d :
  hasQuota src G = true → t < G → hasAnyActivity (fillDay src G t d) = true.
Proof.
  intros Hq Ht. unfold hasQuota, commitCount, mrCount, issueCount in Hq.
  assert (∀ n, t * (n / (G + 1)) + n / (G + 1) ≤ n) as Hfit.
  { intros n. pose proof (Nat.div_mod n (G + 1) ltac:(lia)). nia. }
  unfold hasAnyActivity, fillDay. simpl.
  rewrite !length_app, !length_fmap, !length_slice_full by apply Hfit.
  rewrite !orb_true_iff, !Nat.ltb_lt in *. lia.
Qed.

Lemma markSource_active G src : hasAnyActivity (markSource G src) = true.
Proof. unfold hasAnyActivity, markSource. simpl. by rewrite orb_true_r. Qed.

Lemma gapRun_next l s j k :
  gapRun l s j → s ≤ k < j → findNextActivityDay l k = Some j.
Proof.
  intros (Hsj & Hemp & (src & Hsrc & Hact) & _) Hk.
  destruct (findNextActivityDay_later l k j src) as [j' Hj']; [lia|done..|].
  pose proof (findNextActivityDay_Some _ _ _ Hj') as (Hkj' & (src' & Hsrc' & Hact') & Hb').
  destruct (decide (j' = j)) as [->|Hne]; [done|]. exfalso.
  destruct (decide (j' < j)).
  - rewrite (Hemp j' src') in Hact'; (done || lia).
  - rewrite (Hb' j src) in Hact; (done || lia).
Qed.

Lemma gapRun_unique l s s' j : gapRun l s j → gapRun l s' j → s = s'.
Proof.
  intros (Hsj & Hemp & _ & Hmax) (Hsj' & Hemp' & _ & Hmax').
  destruct (decide (s = s')) as [|Hne]; [done|]. exfalso.
  destruct (decide (s < s')).
  - destruct Hmax' as [->|(d & Hd & Hdact)]; [lia|].
    rewrite (Hemp (s' - 1) d) in Hdact; (done || lia).
  - destruct Hmax as [->|(d & Hd & Hdact)]; [lia|].
    rewrite (Hemp' (s - 1) d) in Hdact; (done || lia).
Qed.

Lemma isRunEnd_true l k :
  isRunEnd l k = true →
  ∃ d p, 0 < k ∧ l !! k = Some d ∧ hasAnyActivity d = true
         ∧ l !! (k - 1) = Some p ∧ hasAnyActivity p = false.
Proof.
  unfold isRunEnd. destruct k as [|k']; [done|].
  destruct (l !! S k') as [d|] eqn:Hd; [|done].
  destruct (l !! k') as [p|] eqn:Hp; [|done].
  intros [Ha Hb%negb_true_iff]%andb_true_iff.
  exists d, p. replace (S k' - 1) with k' by lia. split_and!; (done || lia).
Qed.

Lemma propInv_step sorted i st :
  i < length sorted → propInv sorted i st →
  propInv sorted (S i) (scanStep distributeWorkAcrossGap st i).
Proof.
  intros Hi (m & Hm & Hlen & HC & HB & HA & HP & HD).
  destruct (lookup_lt_is_Some_2 (distributed st) i) as [cur Hcur]; [lia|].
  destruct (decide (i < m)) as [Hlt|Hge].
  { unfold scanStep. rewrite Hcur, (HD i cur) by (done || lia).
    exists m. split_and!; [lia|lia|done|done|done|done|done|].
    intros k d Hk. apply HD. lia. }
  assert (m = i) as -> by lia. clear Hge.
  assert (sorted !! i = Some cur) as Hs by (by rewrite <- HC).
  assert (findNextActivityDay (distributed st) i = findNextActivityDay sorted i) as Hnext
    by (apply findNextActivityDay_ext; intros k Hk; apply HC; lia).
  unfold scanStep. rewrite Hcur, Hnext.
  destruct (hasAnyActivity cur) eqn:Hact.
  { (* a day with activity: a run that ends here was left unfilled *)
    exists (S i). split_and!; [lia|lia|done|..].
    - intros k Hk. apply HC. lia.
    - intros k Hk Hk1 Hk2. destruct (decide (k = i)) as [->|]; [by apply HC|].
      apply HB; [lia|done..].
    - intros s j src Hrun Hj Hsrc.
      destruct (decide (j = i)) as [->|]; [|apply (HA s j src); (done || lia)].
      pose proof Hrun as (Hsj & _).
      specialize (HP s i src Hrun ltac:(lia) Hsrc).
      assert (i ≤ firstFilled s i src) as Hi0.
      { destruct (HP (i - 1)) as [HM _]; [lia|]. unfold firstFilled. lia. }
      split.
      + intros k d Hk Hd. destruct (HP k Hk) as [_ Hsame].
        destruct (Nat.ltb_spec k (firstFilled s i src)); [|lia].
        by rewrite Hsame.
      + destruct (Nat.ltb_spec (firstFilled s i src) i); [lia|].
        rewrite HC by lia. done.
    - intros s j src Hrun Hsj Hsrc k Hk.
      destruct Hrun as (_ & Hemp & _).
      destruct (decide (s = S i)) as [->|]; [lia|].
      rewrite (Hemp i cur) in Hact; (done || lia).
    - intros k d Hk. lia. }
  destruct (findNextActivityDay sorted i) as [j|] eqn:Hj.
  2:{ (* an empty day with no later day with activity *)
    exists (S i). split_and!; [lia|lia|done|..].
    - intros k Hk. apply HC. lia.
    - intros k Hk Hk1 Hk2. destruct (decide (k = i)) as [->|]; [by apply HC|].
      apply HB; [lia|done..].
    - intros s j src Hrun Hjm Hsrc.
      destruct (decide (j = i)) as [->|]; [|apply (HA s j src); (done || lia)].
      destruct Hrun as (_ & _ & (x & Hx & Hxact) & _). congruence.
    - intros s j src Hrun Hsj Hsrc k Hk.
      destruct Hrun as (_ & _ & (x & Hx & Hxact) & _).
      rewrite (findNextActivityDay_None _ _ Hj j x) in Hxact; (done || lia).
    - intros k d Hk. lia. }
  (* an empty day of a run *)
  pose proof (findNextActivityDay_Some _ _ _ Hj) as (Hij & (src & Hsrc & Hactj) & Hbetween).
  assert (j < length sorted) as Hjlen by (by eapply lookup_lt_Some).
  assert (isGapStart sorted i = true) as Hgs
    by (apply isGapStart_true; by exists cur, j).
  destruct (gapStart_in_run _ _ Hgs) as (s & j0 & Hrun & Hsi).
  assert (j0 = j) as -> by (pose proof (gapRun_next _ _ _ i Hrun Hsi); congruence).
  pose proof Hrun as (Hsj & Hempty & _ & Hmax).
  specialize (HP s j src Hrun ltac:(lia) Hsrc).
  assert (distributed st !! j = Some src) as Hsrc' by (rewrite HC by lia; done).
  assert (length (distributeWorkAcrossGap (distributed st) i j (j - i)) = length sorted)
    as Hlen'.
  { rewrite <- Hlen. symmetry. eapply Forall2_length.
    apply (distributeWorkAcrossGap_handler (distributed st) i j (j - i)). }
  pose proof (distributeWorkAcrossGap_lookup (distributed st) i j src Hij Hsrc') as Hlook.
  simpl.
  destruct (hasQuota src (j - i)) eqn:Hq.
  2:{ (* no kind of item has a quota: nothing changes *)
    assert (distributeWorkAcrossGap (distributed st) i j (j - i) = distributed st) as Hsame.
    { apply list_eq. intros k. rewrite Hlook.
      destruct (decide (i ≤ k < j)).
      - destruct (distributed st !! k); [|done]. simpl. by rewrite fillDay_noQuota.
      - destruct (decide (k = j)); [|done]. by destruct (distributed st !! k). }
    rewrite Hsame. apply hasQuota_false in Hq.
    exists (S i). simpl. split_and!; [lia|lia|done|..].
    - intros k Hk. apply HC. lia.
    - intros k Hk Hk1 Hk2. destruct (decide (k = i)) as [->|]; [by apply HC|].
      apply HB; [lia|done..].
    - intros s' j' src' Hrun' Hj' Hsrc''.
      destruct (decide (j' = i)) as [->|]; [|apply (HA s' j' src'); (done || lia)].
      destruct Hrun' as (_ & _ & (x & Hx & Hxact) & _). congruence.
    - intros s' j' src' Hrun' Hsj' Hsrc'' k Hk.
      destruct (decide (s' = S i)) as [->|]; [lia|].
      assert (j' = j) as ->
        by (pose proof (gapRun_next _ _ _ i Hrun' ltac:(lia)); congruence).
      assert (s' = s) as -> by (by eapply gapRun_unique).
      assert (src' = src) as -> by congruence.
      destruct (decide (k = i)) as [->|]; [|apply HP; lia].
      split; [lia|]. apply HC. lia.
    - intros k d Hk. lia. }
  (* some kind of item has a quota: the rest of the run is filled *)
  apply hasQuota_true in Hq as HM.
  assert (firstFilled s j src = i) as Hi0.
  { unfold firstFilled. destruct (decide (s = i)) as [->|]; [lia|].
    destruct (HP (i - 1)) as [Hprev _]; [lia|]. lia. }
  exists (S j). simpl. split_and!; [lia|lia|done|..].
  - intros k Hk. rewrite Hlook. rewrite !decide_False by lia. apply HC. lia.
  - intros k Hk Hk1 Hk2. rewrite Hlook.
    destruct (decide (i ≤ k < j)) as [Hin|Hout].
    + assert (isGapStart sorted k = true) as Hgs'; [|congruence].
      destruct (lookup_lt_is_Some_2 sorted k) as [d Hd]; [lia|].
      apply isGapStart_true. exists d, j. split; [done|]. split.
      * apply (Hempty k); [lia|done].
      * eapply gapRun_next; [done|lia].
    + destruct (decide (k = j)) as [->|].
      * assert (isRunEnd sorted j = true) as Hre; [|congruence].
        unfold isRunEnd. destruct j as [|j']; [lia|].
        destruct (lookup_lt_is_Some_2 sorted j') as [p Hp]; [lia|].
        rewrite Hsrc, Hp, Hactj, (Hempty j' p); (done || lia).
      * apply HB; [lia|done..].
  - intros s' j' src' Hrun' Hj' Hsrc''.
    destruct (decide (j' < i)) as [Hold|Hnew].
    { destruct (HA s' j' src' Hrun' Hold Hsrc'') as [Hdays Hsource].
      pose proof Hrun' as (Hsj' & _).
      split.
      - intros k d Hk Hd. rewrite Hlook. rewrite !decide_False by lia. by apply Hdays.
      - rewrite Hlook. rewrite !decide_False by lia. done. }
    assert (j' = j) as ->.
    { destruct Hrun' as (_ & _ & (x & Hx & Hxact) & _).
      destruct (decide (j' = j)) as [|Hne]; [done|].
      destruct (decide (j' = i)) as [->|]; [congruence|].
      rewrite (Hbetween j' x) in Hxact; (done || lia). }
    assert (s' = s) as -> by (by eapply gapRun_unique).
    assert (src' = src) as -> by congruence.
    unfold runFilled. rewrite Hi0. split.
    + intros k d Hk Hd. rewrite Hlook.
      destruct (Nat.ltb_spec k i).
      * rewrite !decide_False by lia. destruct (HP k) as [_ ->]; [lia|done].
      * rewrite decide_True by lia. rewrite HC by lia. by rewrite Hd.
    + rewrite Hlook. rewrite decide_False by lia. rewrite decide_True by done.
      destruct (Nat.ltb_spec i j); [|lia]. by rewrite Hsrc'.
  - intros s' j' src' Hrun' Hsj' Hsrc'' k Hk.
    destruct Hrun' as (Hlt' & Hemp' & _).
    destruct (decide (s' = S j)) as [->|]; [lia|].
    rewrite (Hemp' j src) in Hactj; (done || lia).
  - intros k d Hk. rewrite Hlook.
    destruct (decide (i ≤ k < j)) as [Hin|Hout].
    + rewrite HC by lia.
      destruct (sorted !! k) as [d0|]; [|done]. intros [= <-].
      apply fillDay_active; [by apply hasQuota_true|lia].
    + assert (k = j) as -> by lia.
      rewrite decide_True by done. rewrite Hsrc'. intros [= <-].
      apply markSource_active.
Qed.

Lemma propInv_scan sorted :
  propInv sorted (length sorted) (scan distributeWorkAcrossGap sorted).
Proof.
  unfold scan.
  apply (foldl_seq_invariant (λ i st, i ≤ length sorted → propInv sorted i st)
           (scanStep distributeWorkAcrossGap) (mkScan sorted 0 0) 0 (length sorted));
    [| |done].
  - intros _. exists 0. simpl. split_and!; [lia|lia|done|done|..].
    + intros k Hk. lia.
    + intros s j src _ Hj. lia.
    + intros s j src _ Hs _ k Hk. lia.
    + intros k d Hk. lia.
  - intros i st Hi IH Hle. apply propInv_step; [lia|]. apply IH. lia.
Qed.

(** X11. Proportional mode: in a maximal run of empty days before a source
    day, the days that are filled are the last ones of the run, those whose
    distance to the source day is less than the largest of its three item
    counts. With [G] such days, the [t]-th of them receives the tagged
    copies of the [t]-th block of each kind, the blocks having the size of
    the count divided by [G + 1], rounded down; the source day gets the
    marker commit in front exactly when a day is filled. Days outside such
    runs and their source days are returned as they were. *)
Theorem proportional_mode_fills_from_the_end (acts : list DayActivity) :
  let sorted := sortByDate acts in
  let out := activities (distributeActivities acts) in
  (∀ s j src, gapRun sorted s j → sorted !! j = Some src →
     let i0 := firstFilled s j src in
     (∀ k d, s ≤ k < j → sorted !! k = Some d →
        out !! k = Some (if k <? i0 then d else fillDay src (j - i0) (k - i0) d))
     ∧ out !! j = Some (if i0 <? j then markSource (j - i0) src else src))
  ∧ (∀ k, isGapStart sorted k = false → isRunEnd sorted k = false →
       out !! k = sorted !! k).
Proof.
  cbv zeta. unfold distributeActivities. simpl.
  destruct (propInv_scan (sortByDate acts)) as (m & Hm & Hlen & HC & HB & HA & _).
  assert (m = length (sortByDate acts)) as -> by lia.
  split.
  - intros s j src Hrun Hsrc. apply (HA s j src); [done| |done].
    by eapply lookup_lt_Some.
  - intros k Hk1 Hk2. destruct (decide (k < length (sortByDate acts))).
    + by apply HB.
    + apply HC. lia.
Qed.

End ProportionalLaws.

(** ** The fetch helpers *)

Module FetchLaws.
Import DateModel Cache Orchestrator OrchestratorSpec OrchestratorFacts FetchSpec.







Lemma cacheGetGitLab_miss_keeps_ttl now date w :
  cacheTTL (activityCache (cacheGetGitLab now date w).2) = cacheTTL (activityCache w).
Proof.
  unfold cacheGetGitLab, getGitLabActivity.
  destruct (gitlab (cache (activityCache w)) !! getDateKey date) as [e|]; [|done].
  by destruct (isExpired now (activityCache w) (timestamp e)).
Qed.

(** X13. After a GitLab fetch that missed the cache, a later lookup of the
    same day within the TTL is a hit with the payload that was fetched, for
    the GitLab helper and for the GitHub helper alike, and neither contacts
    its provider. *)
Theorem fetched_payload_is_served_to_both (tz now now' : Z) (P P' : Providers)
    (s : string) (date : Z) (a : GitLabActivity) (w : World) :
  parseDay tz s = Some date →
  gitlab_getActivityForDate P s = Some a →
  (cacheGetGitLab now date w).1 = None →
  (now' - now ≤ cacheTTL (activityCache w))%Z →
  let first := run (fetchGitLabActivityWithCache tz now P s false) w in
  let again := run (fetchGitLabActivityWithCache tz now' P' s false) first.1 in
  let other := run (fetchGitHubActivityWithCache tz now' P' s false) first.1 in
  first.2 = Fulfilled (mkGitFetch a false)
  ∧ again.2 = Fulfilled (mkGitFetch a true)
  ∧ other.2 = Fulfilled (mkGitFetch a true)
  ∧ existsb isFetch (newOps first.1 again.1) = false
  ∧ existsb isFetch (newOps first.1 other.1) = false.
Proof.
  intros Hparse Ha Hmiss Httl. cbv zeta.
  pose proof (cacheGetGitLab_miss_keeps_ttl now date w) as Hkeep.
  unfold run, awaitCall, fetchGitLabActivityWithCache, fetchGitHubActivityWithCache.
  rewrite Hparse.
  destruct (cacheGetGitLab now date w) as [c w1]. simpl in Hmiss, Hkeep. subst c.
  unfold fetchGitLabFresh. rewrite Ha. cbn [fst snd].
  set (w2 := cacheSetGitLab now date a (logOp (Fetch GitLab s) w1)).
  assert (cacheGetGitLab now' date w2
          = (Some a, mkWorld (getGitLabActivity now' date (activityCache w2)).2
                            (trace w2 ++ [CacheGet GitLabKind (getDateKey date)]))) as Hget.
  { unfold cacheGetGitLab.
    assert ((getGitLabActivity now' date (activityCache w2)).1 = Some a) as Hhit.
    { unfold w2, cacheSetGitLab, getGitLabActivity, setGitLabActivity. simpl.
      rewrite lookup_insert_eq. unfold isExpired. simpl. rewrite Hkeep.
      by destruct (Z.ltb_spec (cacheTTL (activityCache w)) (now' - now)); [lia|]. }
    destruct (getGitLabActivity now' date (activityCache w2)) as [r c']. simpl in *.
    by subst r. }
  rewrite Hget. unfold resolved, newOps. simpl.
  rewrite drop_app_length. done.
Qed.

Lemma fetched_payload_is_served_to_both_witness :
  (run (fetchGitHubActivityWithCache 0 2000 busyProviders "2025-11-27" false)
     (run (fetchGitLabActivityWithCache 0 1000 busyProviders "2025-11-27" false) newWorld).1).2
  = Fulfilled (mkGitFetch (oneCommit "2025-11-27") true).
Proof.
  destruct (fetched_payload_is_served_to_both 0 1000 2000 busyProviders busyProviders
              "2025-11-27" sampleDay (oneCommit "2025-11-27") newWorld)
    as (_ & _ & H & _); [by vm_compute|done|by vm_compute|by vm_compute|exact H].
Defined.


(** X14. When the provider rejects, the GitLab and GitHub helpers reject
    with its error and the Google helper answers with no meetings, and in
    each case the cache is left as the lookup before the fetch left it
    (untouched when a refresh is forced): nothing is stored for the day. *)
Theorem failed_fetch_is_not_cached (tz now : Z) (P : Providers) (s : string)
    (date : Z) (forceRefresh : bool) (w : World) :
  parseDay tz s = Some date →
  (forceRefresh = false → (cacheGetGitLab now date w).1 = None) →
  (forceRefresh = false → (cacheGetGoogle now date w).1 = None) →
  (gitlab_getActivityForDate P s = None →
     let r := run (fetchGitLabActivityWithCache tz now P s forceRefresh) w in
     r.2 = RejectedWith ProviderError
     ∧ activityCache r.1 = activityCache (afterLookup now date forceRefresh GitLabKind w))
  ∧ (github_getActivityForDate P s = None →
       let r := run (fetchGitHubActivityWithCache tz now P s forceRefresh) w in
       r.2 = RejectedWith ProviderError
       ∧ activityCache r.1 = activityCache (afterLookup now date forceRefresh GitLabKind w))
  ∧ (googleCalendar_getEventsForDate P s = None →
       let r := run (fetchCalendarEventsWithCache tz now P s true false forceRefresh) w in
       r.2 = Fulfilled (mkCalFetch [] false)
       ∧ activityCache r.1 = activityCache (afterLookup now date forceRefresh GoogleKind w)).
Proof.
  intros Hparse Hmiss1 Hmiss2. cbv zeta.
  unfold afterLookup, run, awaitCall, fetchGitLabActivityWithCache, fetchGitHubActivityWithCache,
    fetchCalendarEventsWithCache, fetchGitLabFresh, fetchGitHubFresh, fetchGoogleFresh,
    outlookBlock, awaitCall.
  rewrite Hparse. split_and!; intros Hdown; rewrite Hdown.
  - destruct forceRefresh; [done|]. specialize (Hmiss1 eq_refl).
    destruct (cacheGetGitLab now date w) as [c w1]. simpl in *. by subst c.
  - destruct forceRefresh; [done|]. specialize (Hmiss1 eq_refl).
    destruct (cacheGetGitLab now date w) as [c w1]. simpl in *. by subst c.
  - destruct forceRefresh; [done|]. specialize (Hmiss2 eq_refl).
    destruct (cacheGetGoogle now date w) as [c w1]. simpl in *. by subst c.
Qed.

Lemma failed_fetch_is_not_cached_witness :
  (run (fetchGitLabActivityWithCache 0 2000 allDown "2025-11-27" true) warmWorld).2
  = RejectedWith ProviderError
  ∧ activityCache (run (fetchGitLabActivityWithCache 0 2000 allDown "2025-11-27" true)
                     warmWorld).1
    = activityCache warmWorld.
Proof.
  destruct (failed_fetch_is_not_cached 0 2000 allDown "2025-11-27" sampleDay true warmWorld)
    as (H & _); [by vm_compute|done|done|apply H; reflexivity].
Defined.


(** X15. With a forced refresh the GitLab and GitHub helpers do not read the
    cache: the provider is asked, its payload is returned as fresh, the hit
    and miss counters stay, and the payload is stored under the GitLab key
    of the day with the time of the fetch. *)
Theorem forced_refresh_replaces_the_entry (tz now : Z) (P : Providers) (s : string)
    (date : Z) (a : GitLabActivity) (w : World) :
  parseDay tz s = Some date →
  (gitlab_getActivityForDate P s = Some a →
     let r := run (fetchGitLabActivityWithCache tz now P s true) w in
     r.2 = Fulfilled (mkGitFetch a false)
     ∧ newOps w r.1 = [Fetch GitLab s; CacheSet GitLabKind (getDateKey date)]
     ∧ cacheStats (activityCache r.1) = cacheStats (activityCache w)
     ∧ gitlab (cache (activityCache r.1)) !! getDateKey date
       = Some (mkEntry a now "gitlab"))
  ∧ (github_getActivityForDate P s = Some a →
       let r := run (fetchGitHubActivityWithCache tz now P s true) w in
       r.2 = Fulfilled (mkGitFetch a false)
       ∧ newOps w r.1 = [Fetch GitHub s; CacheSet GitLabKind (getDateKey date)]
       ∧ cacheStats (activityCache r.1) = cacheStats (activityCache w)
       ∧ gitlab (cache (activityCache r.1)) !! getDateKey date
         = Some (mkEntry a now "gitlab")).
Proof.
  intros Hparse. cbv zeta.
  unfold run, awaitCall, fetchGitLabActivityWithCache, fetchGitHubActivityWithCache,
    fetchGitLabFresh, fetchGitHubFresh, newOps.
  rewrite Hparse.
  split; intros ->; simpl; rewrite <- app_assoc, drop_app_length, lookup_insert_eq; done.
Qed.

Lemma forced_refresh_replaces_the_entry_witness :
  gitlab (cache (activityCache
                   (run (fetchGitLabActivityWithCache 0 2000 busyProviders "2025-11-27" true)
                      warmWorld).1))
    !! getDateKey sampleDay
  = Some (mkEntry (oneCommit "2025-11-27") 2000 "gitlab").
Proof.
  destruct (forced_refresh_replaces_the_entry 0 2000 busyProviders "2025-11-27" sampleDay
              (oneCommit "2025-11-27") warmWorld) as (H & _); [by vm_compute|].
  apply H. reflexivity.
Defined.


(** X16. For a day string that parses, a day fetch always fulfils with a
    record of that day with an empty description, whatever the providers do;
    when every provider rejects and a refresh is forced, the record is the
    empty one and the cache is untouched. *)
Theorem day_fetch_always_yields_a_record (tz now : Z) (P : Providers) (s : string)
    (day : Z) (gl gh go ol forceRefresh : bool) (w : World) :
  parseDay tz s = Some day →
  (∃ rec, (run (fetchDayActivityParallel tz now P s gl gh go ol forceRefresh) w).2
          = Fulfilled rec
          ∧ date (activity rec) = day
          ∧ description (activity rec) = "")
  ∧ (let r := run (fetchDayActivityParallel tz now allDown s gl gh go ol true) w in
     r.2 = Fulfilled (emptyRecord day)
     ∧ activityCache r.1 = activityCache w).
Proof.
  intros Hparse. split.
  - unfold run, awaitCall, fetchDayActivityParallel. rewrite Hparse.
    destruct (optionalFetch gl _ w) as [w1 p1].
    destruct (optionalFetch gh _ w1) as [w2 p2].
    destruct (fetchCalendarEventsWithCache tz now P s go ol forceRefresh w2) as [w3 p3].
    simpl. destruct (p1 w3) as [v1 r1], (p2 v1) as [v2 r2], (p3 v2) as [v3 r3].
    simpl. eexists. split; [done|]. unfold assembleDay.
    destruct r1 as [[x1|]|], r2 as [[x2|]|], r3; done.
  - cbv zeta.
    unfold run, awaitCall, fetchDayActivityParallel, optionalFetch,
      fetchGitLabActivityWithCache, fetchGitHubActivityWithCache,
      fetchCalendarEventsWithCache, fetchGitLabFresh, fetchGitHubFresh, fetchGoogleFresh,
      outlookBlock, fetchOutlookFresh, awaitCall.
    rewrite Hparse. destruct gl, gh, go, ol; done.
Qed.

Lemma day_fetch_always_yields_a_record_witness :
  (run (fetchDayActivityParallel 0 2000 allDown "2025-11-27" true true true true true)
     warmWorld).2
  = Fulfilled (emptyRecord sampleDay).
Proof.
  destruct (day_fetch_always_yields_a_record 0 2000 busyProviders "2025-11-27" sampleDay
              true true true true true warmWorld) as (_ & H & _); [by vm_compute|exact H].
Defined.


End FetchLaws.

(** ** The GitLab adapter *)

Module DayFormatLaws.
Import DateModel DateSpec DateLaws OrchestratorSpec OrchestratorFacts DayFormat.

Lemma dayFormat_shape s :
  isDayFormat s = true →
  ∃ y m d, s = y +:+ String "-" (m +:+ String "-" d)
           ∧ allDigits y = true ∧ allDigits m = true ∧ allDigits d = true
           ∧ String.length y = 4 ∧ String.length m = 2 ∧ String.length d = 2.
Proof.
  unfold isDayFormat.
  destruct s as [|y1 [|y2 [|y3 [|y4 [|h1 [|m1 [|m2 [|h2 [|d1 [|d2 [|x s]]]]]]]]]]];
    try done.
  simpl. rewrite !andb_true_iff.
  intros (((((((((H1 & H2) & H3) & H4) & ->%Ascii.eqb_eq) & H5) & H6) & ->%Ascii.eqb_eq)
            & H7) & H8).
  exists (String y1 (String y2 (String y3 (String y4 "")))),
    (String m1 (String m2 "")), (String d1 (String d2 "")).
  simpl. by rewrite H1, H2, H3, H4, H5, H6, H7, H8.
Qed.

Lemma dayFormat_parses tz s : isDayFormat s = true → is_Some (parseDay tz s).
Proof.
  intros (y & m & d & -> & Hy & Hm & Hd & _)%dayFormat_shape.
  unfold parseDay.
  rewrite splitOn_digits_dash, splitOn_digits_dash, splitOn_digits by done. simpl.
  destruct (Number_go_digits y 0 Hy) as [ny Hny].
  destruct (Number_go_digits m 0 Hm) as [nm Hnm].
  destruct (Number_go_digits d 0 Hd) as [nd Hnd].
  unfold Number. rewrite Hny, Hnm, Hnd. by eexists.
Qed.

Lemma length_natToString_go_le fuel n acc k :
  n < 10 ^ S k → String.length (natToString_go fuel n acc) ≤ S k + String.length acc.
Proof.
  revert fuel n acc. induction k as [|k IH]; intros fuel n acc Hn;
    (destruct fuel as [|fuel]; [simpl; lia|]); cbn [natToString_go].
  - replace (n / 10) with 0 by (symmetry; apply Nat.div_small; simpl in Hn; lia).
    simpl. lia.
  - destruct (n / 10 =? 0); [simpl; lia|].
    etrans; [apply (IH fuel (n / 10))|simpl; lia].
    apply Nat.Div0.div_lt_upper_bound. by rewrite <- Nat.pow_succ_r'.
Qed.

Lemma length_natToString n k :
  10 ^ k ≤ n → n < 10 ^ S k → String.length (natToString n) = S k.
Proof.
  intros Hlo Hhi. unfold natToString.
  pose proof (length_natToString_go (S n) n "" k Hlo ltac:(lia)) as H1.
  pose proof (length_natToString_go_le (S n) n "" k Hhi) as H2.
  change (String.length "") with 0 in H1, H2. lia.
Qed.

Lemma length_pad2 n : (1 ≤ n ≤ 99)%Z → String.length (pad2 n) = 2.
Proof.
  intros Hn. unfold pad2, padStart.
  assert (∀ a b, String.length (a +:+ b) = String.length a + String.length b) as Happ.
  { intros a b. induction a as [|c a IH]; simpl; [done|]. by rewrite IH. }
  rewrite Happ. destruct (decide (Z.to_nat n < 10)).
  - rewrite (length_natToString _ 0) by (simpl; lia). done.
  - rewrite (length_natToString _ 1) by (simpl; lia). done.
Qed.

(** Four digits, two digits and two digits, joined by dashes, are in day
    format; with three digits for the year they are not. *)
Lemma dayFormat_of_parts y m d :
  allDigits y = true → allDigits m = true → allDigits d = true →
  String.length m = 2 → String.length d = 2 →
  isDayFormat (y +:+ "-" +:+ m +:+ "-" +:+ d) = bool_decide (String.length y = 4).
Proof.
  intros Hy Hm Hd Lm Ld.
  destruct m as [|m1 [|m2 [|]]]; try done. destruct d as [|d1 [|d2 [|]]]; try done.
  simpl in Hm, Hd. rewrite !andb_true_iff in Hm, Hd.
  destruct Hm as (Hm1 & Hm2 & _), Hd as (Hd1 & Hd2 & _).
  destruct y as [|y1 [|y2 [|y3 [|y4 [|y5 y]]]]]; simpl in Hy;
    rewrite ?andb_true_iff in Hy; destruct_and?; unfold isDayFormat; simpl.
  1-4: done.
  - by repeat match goal with H : isDigit _ = true |- _ => rewrite H; clear H end.
  - rewrite (digit_not_dash y5) by done. rewrite andb_false_r. simpl.
    by repeat case_match.
Qed.

Lemma dayFormat_localDateStr tz t :
  (100 ≤ getFullYear tz t ≤ 9999)%Z →
  isDayFormat (localDateStr tz t) = bool_decide (1000 ≤ getFullYear tz t)%Z.
Proof.
  unfold getFullYear, localDateStr. fold (localDay tz t).
  destruct (civilFromDays (localDay tz t)) as [[y m] d] eqn:Hc. simpl. intros Hy.
  pose proof (civilFromDays_range _ _ _ _ Hc) as [Hm Hd].
  unfold intToString. destruct (Z.ltb_spec y 0); [lia|].
  rewrite dayFormat_of_parts.
  - destruct (decide (1000 ≤ y)%Z).
    + rewrite (length_natToString _ 3) by (simpl; lia).
      by rewrite bool_decide_true, bool_decide_true.
    + rewrite (length_natToString _ 2) by (simpl; lia).
      by rewrite bool_decide_false, bool_decide_false.
  - apply natToString_digits.
  - apply padStart_digits, natToString_digits.
  - apply padStart_digits, natToString_digits.
  - apply length_pad2. lia.
  - apply length_pad2. lia.
Qed.

End DayFormatLaws.

Module GitLabAdapterLaws.
Import DateModel DayFormat DayFormatLaws GitLabAdapter GitLabAdapterSpec.

(** The sample client delivers a single short page. *)
Lemma sampleApi_lastPage after : lastPage sampleApi after 1.
Proof.
  split; [lia|]. split; [intros p Hp; lia|]. simpl. unfold perPage. lia.
Qed.

(** *** One event *)

Lemma processEvent_cases event name a :
  processEvent event name a = a
  ∨ (∃ c, processEvent event name a = pushCommit c a)
  ∨ (∃ mr, processEvent event name a = pushMergeRequest mr a)
  ∨ (∃ i, processEvent event name a = pushIssue i a).
Proof.
  assert (∀ ty x y t id,
            pushByType ty x y t name id a = a
            ∨ (∃ c, pushByType ty x y t name id a = pushCommit c a)
            ∨ (∃ mr, pushByType ty x y t name id a = pushMergeRequest mr a)
            ∨ (∃ i, pushByType ty x y t name id a = pushIssue i a)) as HT.
  { intros. unfold pushByType. repeat case_decide; eauto. }
  assert (∀ ty x t id,
            pushIfMergeRequest ty x t name id a = a
            ∨ (∃ c, pushIfMergeRequest ty x t name id a = pushCommit c a)
            ∨ (∃ mr, pushIfMergeRequest ty x t name id a = pushMergeRequest mr a)
            ∨ (∃ i, pushIfMergeRequest ty x t name id a = pushIssue i a)) as HM.
  { intros. unfold pushIfMergeRequest. repeat case_decide; eauto. }
  unfold processEvent.
  repeat case_decide; try (destruct (push_data event)); try (destruct (note event)); eauto.
Qed.


(** *** The name cache *)

Section OneCall.
Variable api : GitLabApi.
Variable user : Z.
Variable dateStr : string.
Variable g0 : GitLabIntegration.

Lemma cacheInv_start : cacheInv api g0 g0.
Proof. split_and!; [done|done|done|]. intros id name H. by left. Qed.

Lemma logInv_start : logInv api g0 g0.
Proof.
  exists []. split; [by rewrite app_nil_r|]. split.
  - intros id _. apply not_elem_of_nil.
  - intros id _. split; [simpl; lia|]. intros H. by apply elem_of_nil in H.
Qed.

Lemma count_occ_absent (new : list Request) r :
  r ∉ new → count_occ Request_eq_dec new r = 0.
Proof. intros H. apply count_occ_not_In. by rewrite <- list_elem_of_In. Qed.

Lemma count_occ_snoc (new : list Request) r r' :
  count_occ Request_eq_dec (new ++ [r']) r
  = count_occ Request_eq_dec new r + (if decide (r' = r) then 1 else 0).
Proof.
  rewrite count_occ_app. by f_equal.
Qed.

Lemma getProjectName_ok id g event :
  project_id event = Some id → id ≠ 0%Z →
  cacheInv api g0 g → logInv api g0 g →
  (getProjectName api id g).1 = nameFor api (projectNameCache g0) event
  ∧ cacheInv api g0 (getProjectName api id g).2
  ∧ logInv api g0 (getProjectName api id g).2.
Proof.
  intros Hid Hnz (Hc & Hu & Hmono & Hfrom) (new & Hreq & Hold & Honce).
  unfold getProjectName, nameFor. rewrite Hid. rewrite decide_False by done.
  destruct (projectNameCache g !! id) as [name|] eqn:Hcached.
  { simpl. split_and!.
    - destruct (Hfrom id name Hcached) as [->|[-> ->]]; done.
    - done.
    - by exists new. }
  assert (projectNameCache g0 !! id = None) as Hnone.
  { destruct (projectNameCache g0 !! id) as [n|] eqn:E; [|done].
    rewrite (Hmono id n E) in Hcached. done. }
  rewrite Hnone.
  assert (∀ id', is_Some (projectNameCache g0 !! id') →
                 ShowProject id' ∉ new ++ [ShowProject id]) as Hold'.
  { intros id' Hsome. rewrite not_elem_of_app, not_elem_of_cons.
    split; [by apply Hold|]. split; [|apply not_elem_of_nil].
    intros [= ->]. rewrite Hnone in Hsome. by destruct Hsome. }
  destruct (Projects_show api id) as [name|] eqn:Hshow; simpl.
  - split_and!; [done| |].
    + split_and!; [done|done|..]; simpl.
      * intros id' n' H'. destruct (decide (id' = id)) as [->|]; [congruence|].
        rewrite lookup_insert_ne by done. by apply Hmono.
      * intros id' n'. destruct (decide (id' = id)) as [->|].
        -- rewrite lookup_insert_eq. intros [= <-]. by right.
        -- rewrite lookup_insert_ne by done. apply Hfrom.
    + exists (new ++ [ShowProject id]). simpl. split; [by rewrite Hreq, app_assoc|].
      split; [done|].
      intros id' Hsome. rewrite count_occ_snoc.
      destruct (decide (id' = id)) as [->|Hne].
      * assert (ShowProject id ∉ new) as Hfresh.
        { intros Hin. destruct (Honce id Hsome) as [_ Hthen].
          destruct (Hthen Hin) as [x Hx]. congruence. }
        rewrite (count_occ_absent _ _ Hfresh). rewrite decide_True by done.
        split; [lia|]. intros _. rewrite lookup_insert_eq. by eexists.
      * destruct (Honce id' Hsome) as [Hcount Hthen].
        rewrite decide_False by congruence.
        split; [lia|]. rewrite elem_of_app, list_elem_of_singleton.
        intros [Hin|[= ->]]; [|done]. rewrite lookup_insert_ne by done. by apply Hthen.
  - split_and!; [done| |].
    + split_and!; done.
    + exists (new ++ [ShowProject id]). simpl. split; [by rewrite Hreq, app_assoc|].
      split; [done|].
      intros id' Hsome. rewrite count_occ_snoc.
      assert (id' ≠ id) as Hne by (intros ->; rewrite Hshow in Hsome; by destruct Hsome).
      destruct (Honce id' Hsome) as [Hcount Hthen].
      rewrite decide_False by congruence.
      split; [lia|]. rewrite elem_of_app, list_elem_of_singleton.
      intros [Hin|[= ->]]; [|done]. by apply Hthen.
Qed.

Lemma handleEvent_ok g a event :
  cacheInv api g0 g → logInv api g0 g →
  let r := handleEvent api user dateStr (g, a) event in
  cacheInv api g0 r.1 ∧ logInv api g0 r.1
  ∧ r.2 = if relevant user dateStr event
          then processEvent event (nameFor api (projectNameCache g0) event) a else a.
Proof.
  intros Hc Hl. cbv zeta. unfold handleEvent, relevant.
  destruct (decide (author_id event ≠ user)) as [Hne|Heq].
  { rewrite bool_decide_eq_false_2 by done. done. }
  rewrite bool_decide_eq_true_2 by (by destruct (decide (author_id event = user))).
  destruct (decide (eventDay event ≠ dateStr)) as [Hne|Heq'].
  { rewrite bool_decide_eq_false_2 by done. done. }
  rewrite bool_decide_eq_true_2 by (by destruct (decide (eventDay event = dateStr))).
  simpl.
  destruct (project_id event) as [id|] eqn:Hid.
  - destruct (decide (id = 0%Z)) as [->|Hnz].
    + simpl. split_and!; [done..|]. unfold nameFor. by rewrite Hid.
    + destruct (getProjectName_ok id g event Hid Hnz Hc Hl) as (Hname & Hc' & Hl').
      destruct (getProjectName api id g) as [name g1]. simpl in *.
      split_and!; [done..|]. by rewrite Hname.
  - simpl. split_and!; [done..|]. unfold nameFor. by rewrite Hid.
Qed.

Lemma fileEvents_app a xs ys :
  fileEvents api (projectNameCache g0) user dateStr a (xs ++ ys)
  = fileEvents api (projectNameCache g0) user dateStr
      (fileEvents api (projectNameCache g0) user dateStr a xs) ys.
Proof. unfold fileEvents. by rewrite List.filter_app, foldl_app. Qed.

Lemma foldl_handleEvent_ok events g a :
  cacheInv api g0 g → logInv api g0 g →
  let r := foldl (handleEvent api user dateStr) (g, a) events in
  cacheInv api g0 r.1 ∧ logInv api g0 r.1
  ∧ r.2 = fileEvents api (projectNameCache g0) user dateStr a events.
Proof.
  revert g a. induction events as [|event events IH]; intros g a Hc Hl; cbn [foldl].
  - done.
  - destruct (handleEvent_ok g a event Hc Hl) as (Hc' & Hl' & Ha').
    destruct (handleEvent api user dateStr (g, a) event) as [g1 a1].
    cbn [fst snd] in Hc', Hl', Ha'.
    destruct (IH g1 a1 Hc' Hl') as (Hc'' & Hl'' & Ha'').
    split_and!; [done..|]. rewrite Ha'', Ha'. unfold fileEvents. cbn [List.filter].
    by destruct (relevant user dateStr event).
Qed.

Lemma logInv_logRequest afterDate page g :
  logInv api g0 g → logInv api g0 (logRequest (ListEvents afterDate page) g).
Proof.
  intros (new & Hreq & Hold & Honce).
  exists (new ++ [ListEvents afterDate page]). simpl.
  split; [by rewrite Hreq, app_assoc|]. split.
  - intros id Hsome. rewrite not_elem_of_app, not_elem_of_cons.
    split; [by apply Hold|]. split; [done|apply not_elem_of_nil].
  - intros id Hsome. destruct (Honce id Hsome) as [Hcount Hthen].
    rewrite count_occ_snoc. rewrite decide_False by done. split; [lia|].
    rewrite elem_of_app, list_elem_of_singleton. intros [Hin|[=]]. by apply Hthen.
Qed.

(** The page loop, started at page [page] when the loop stops [n] pages
    later. *)
Lemma fetchPages_ok afterDate n : ∀ fuel page g a,
  n < fuel →
  (∀ p, page ≤ p < page + n →
     ∃ events, Events_all api afterDate p = Some events ∧ perPage ≤ length events) →
  match Events_all api afterDate (page + n) with
  | Some events => length events < perPage
  | None => True
  end →
  cacheInv api g0 g → logInv api g0 g →
  ∃ g', fetchPages fuel api user afterDate dateStr page g a
        = Some (g', fileEvents api (projectNameCache g0) user dateStr a
                      (mjoin (omap (Events_all api afterDate) (seq page (S n)))))
        ∧ cacheInv api g0 g' ∧ logInv api g0 g'.
Proof.
  induction n as [|n IH]; intros fuel page g a Hfuel Hfull Hlast Hc Hl;
    (destruct fuel as [|fuel]; [lia|]); cbn [fetchPages].
  - rewrite Nat.add_0_r in Hlast. simpl.
    destruct (Events_all api afterDate page) as [events|] eqn:Hpage.
    + set (g2 := if page =? 1 then _ else _).
      assert (cacheInv api g0 g2 ∧ logInv api g0 g2) as [Hc2 Hl2].
      { pose proof (logInv_logRequest afterDate page g Hl) as Hl1.
        unfold g2. destruct (page =? 1); [|by split].
        split; [by destruct Hc as (? & ? & ? & ?)|]. exact Hl1. }
      destruct (foldl_handleEvent_ok events g2 a Hc2 Hl2) as (Hc3 & Hl3 & Ha3).
      destruct (foldl _ (g2, a) events) as [g3 a3]. simpl in *.
      destruct (Nat.ltb_spec (length events) perPage); [|lia].
      exists g3. rewrite app_nil_r. by subst a3.
    + eexists. split; [done|]. split; [done|]. by apply logInv_logRequest.
  - destruct (Hfull page) as (events & Hpage & Hlen); [lia|].
    rewrite Hpage.
    set (g2 := if page =? 1 then _ else _).
    assert (cacheInv api g0 g2 ∧ logInv api g0 g2) as [Hc2 Hl2].
    { pose proof (logInv_logRequest afterDate page g Hl) as Hl1.
      unfold g2. destruct (page =? 1); [|by split].
      split; [by destruct Hc as (? & ? & ? & ?)|]. exact Hl1. }
    destruct (foldl_handleEvent_ok events g2 a Hc2 Hl2) as (Hc3 & Hl3 & Ha3).
    destruct (foldl _ (g2, a) events) as [g3 a3]. simpl in Hc3, Hl3, Ha3.
    destruct (Nat.ltb_spec (length events) perPage); [lia|].
    destruct (IH fuel (S page) g3 a3) as (g' & Hrun & Hc' & Hl'); [lia| | |done|done|].
    + intros p Hp. apply Hfull. lia.
    + by replace (S page + n) with (page + S n) by lia.
    + exists g'. split; [|done]. rewrite Hrun. do 2 f_equal.
      change (seq page (S (S n))) with (page :: seq (S page) (S n)).
      cbn [omap list_omap]. rewrite Hpage. cbn [mjoin list_join].
      rewrite fileEvents_app. by subst a3.
Qed.

End OneCall.

Lemma getActivityForDate_ok tz fuel s g api user date k :
  client g = Some api → userId g = Some user → user ≠ 0%Z →
  isDayFormat s = true → parseDay tz s = Some date →
  lastPage api (afterDateOf tz date) k → k ≤ fuel →
  ∃ g',
    getActivityForDate tz fuel s g
    = Some (Returned (fileEvents api (projectNameCache g) user s
                        (mkGitLabActivity date [] [] [])
                        (delivered api (afterDateOf tz date) k)), g')
    ∧ cacheInv api g g' ∧ logInv api g g'.
Proof.
  intros Hclient Huser Hnz Hfmt Hparse (Hk & Hfull & Hlast) Hfuel.
  unfold getActivityForDate. rewrite Hclient, Huser, Hfmt, Hparse.
  rewrite decide_False by done. simpl.
  destruct (fetchPages_ok api user s g (afterDateOf tz date) (k - 1) fuel 1 g
              (mkGitLabActivity date [] [] [])) as (g' & Hrun & Hc & Hl).
  - lia.
  - intros p Hp. apply Hfull. lia.
  - by replace (1 + (k - 1)) with k by lia.
  - apply cacheInv_start.
  - apply logInv_start.
  - exists g'. rewrite Hrun. unfold delivered.
    by replace (S (k - 1)) with k by lia.
Qed.

Lemma itemCount_processEvent event name a :
  itemCount (processEvent event name a) ≤ S (itemCount a)
  ∧ ga_date (processEvent event name a) = ga_date a.
Proof.
  destruct (processEvent_cases event name a) as [->|[[c ->]|[[mr ->]|[i ->]]]];
    unfold itemCount; simpl; rewrite ?length_app; simpl; split; (done || lia).
Qed.

Lemma itemCount_fileEvents api cache0 user s a events :
  itemCount (fileEvents api cache0 user s a events)
  ≤ itemCount a + length (List.filter (relevant user s) events)
  ∧ ga_date (fileEvents api cache0 user s a events) = ga_date a.
Proof.
  unfold fileEvents. generalize (List.filter (relevant user s) events) as evs.
  intros evs. revert a. induction evs as [|e evs IH]; intros a; simpl; [split; [lia|done]|].
  destruct (IH (processEvent e (nameFor api cache0 e) a)) as [Hcount Hdate].
  destruct (itemCount_processEvent e (nameFor api cache0 e) a) as [H1 H2].
  split; [lia|congruence].
Qed.

(** X17. An initialized GitLab adapter asked for a day in YYYY-MM-DD form
    returns a payload dated as the day string parses, holding the events of
    the delivered pages that are by the current user and on that day, filed
    in their order; the pages are read until one is short or its request
    fails. When the first request fails the payload is empty: the adapter
    does not reject. *)
Theorem gitlab_adapter_returns_what_it_collected (tz : Z) (fuel : nat) (s : string)
    (g : GitLabIntegration) (api : GitLabApi) (user : Z) (k : nat) :
  client g = Some api → userId g = Some user → user ≠ 0%Z →
  isDayFormat s = true →
  ∃ date, parseDay tz s = Some date
    ∧ (lastPage api (afterDateOf tz date) k → k ≤ fuel →
       ∃ g', getActivityForDate tz fuel s g
             = Some (Returned (fileEvents api (projectNameCache g) user s
                                 (mkGitLabActivity date [] [] [])
                                 (delivered api (afterDateOf tz date) k)), g'))
    ∧ (Events_all api (afterDateOf tz date) 1 = None → 1 ≤ fuel →
       ∃ g', getActivityForDate tz fuel s g
             = Some (Returned (mkGitLabActivity date [] [] []), g')).
Proof.
  intros Hclient Huser Hnz Hfmt.
  destruct (dayFormat_parses tz s Hfmt) as [date Hparse].
  exists date. split; [done|]. split.
  - intros Hlast Hfuel.
    destruct (getActivityForDate_ok tz fuel s g api user date k) as (g' & Hrun & _);
      try done.
    by exists g'.
  - intros Hdown Hfuel.
    destruct (getActivityForDate_ok tz fuel s g api user date 1) as (g' & Hrun & _);
      try done.
    + split; [lia|]. split; [intros p Hp; lia|]. by rewrite Hdown.
    + exists g'. rewrite Hrun. unfold delivered. simpl. by rewrite Hdown.
Qed.

Lemma gitlab_adapter_returns_what_it_collected_witness :
  ∃ date, parseDay 0 "2025-11-27" = Some date
    ∧ (lastPage sampleApi (afterDateOf 0 date) 1 → 1 ≤ 1 →
       ∃ g', getActivityForDate 0 1 "2025-11-27" sampleGitLab
             = Some (Returned (fileEvents sampleApi (projectNameCache sampleGitLab) 7
                                 "2025-11-27" (mkGitLabActivity date [] [] [])
                                 (delivered sampleApi (afterDateOf 0 date) 1)), g'))
    ∧ (Events_all sampleApi (afterDateOf 0 date) 1 = None → 1 ≤ 1 →
       ∃ g', getActivityForDate 0 1 "2025-11-27" sampleGitLab
             = Some (Returned (mkGitLabActivity date [] [] []), g')).
Proof.
  apply (gitlab_adapter_returns_what_it_collected 0 1 "2025-11-27" sampleGitLab sampleApi
           7 1); done.
Defined.


(** X18. The payload the GitLab adapter returns for a day holds at most one
    item for each delivered event of the current user on that day, and its
    date is the parsed day. *)
Theorem gitlab_adapter_files_at_most_one_item_per_event (tz : Z) (fuel : nat)
    (s : string) (g : GitLabIntegration) (api : GitLabApi) (user : Z) (date : Z)
    (k : nat) :
  client g = Some api → userId g = Some user → user ≠ 0%Z →
  isDayFormat s = true → parseDay tz s = Some date →
  lastPage api (afterDateOf tz date) k → k ≤ fuel →
  ∃ a g', getActivityForDate tz fuel s g = Some (Returned a, g')
    ∧ ga_date a = date
    ∧ itemCount a
      ≤ length (List.filter (relevant user s) (delivered api (afterDateOf tz date) k)).
Proof.
  intros Hclient Huser Hnz Hfmt Hparse Hlast Hfuel.
  destruct (getActivityForDate_ok tz fuel s g api user date k) as (g' & Hrun & _);
    try done.
  eexists _, g'. split; [exact Hrun|].
  destruct (itemCount_fileEvents api (projectNameCache g) user s
              (mkGitLabActivity date [] [] [])
              (delivered api (afterDateOf tz date) k)) as [Hcount Hdate].
  split; [done|]. exact Hcount.
Qed.

Lemma gitlab_adapter_files_at_most_one_item_per_event_witness :
  ∃ a g', getActivityForDate 0 1 "2025-11-27" sampleGitLab = Some (Returned a, g')
    ∧ ga_date a = Cache.sampleDay
    ∧ itemCount a
      ≤ length (List.filter (relevant 7 "2025-11-27")
                  (delivered sampleApi (afterDateOf 0 Cache.sampleDay) 1)).
Proof.
  apply (gitlab_adapter_files_at_most_one_item_per_event 0 1 "2025-11-27" sampleGitLab
           sampleApi 7 Cache.sampleDay 1);
    [done|done|done|done|by vm_compute|apply sampleApi_lastPage|lia].
Defined.


(** X19. During one call the GitLab adapter never requests a project whose
    name it had cached, requests a project the server knows at most once,
    and every name in its cache afterwards was there before or is the name
    the server gave. *)
Theorem gitlab_adapter_asks_for_a_project_once (tz : Z) (fuel : nat) (s : string)
    (g : GitLabIntegration) (api : GitLabApi) (user : Z) (date : Z) (k : nat) :
  client g = Some api → userId g = Some user → user ≠ 0%Z →
  isDayFormat s = true → parseDay tz s = Some date →
  lastPage api (afterDateOf tz date) k → k ≤ fuel →
  ∃ r g' new, getActivityForDate tz fuel s g = Some (r, g')
    ∧ requests g' = requests g ++ new
    ∧ (∀ id, is_Some (projectNameCache g !! id) → ShowProject id ∉ new)
    ∧ (∀ id, is_Some (Projects_show api id) →
         count_occ Request_eq_dec new (ShowProject id) ≤ 1)
    ∧ (∀ id name, projectNameCache g' !! id = Some name →
         projectNameCache g !! id = Some name ∨ Projects_show api id = Some name).
Proof.
  intros Hclient Huser Hnz Hfmt Hparse Hlast Hfuel.
  destruct (getActivityForDate_ok tz fuel s g api user date k)
    as (g' & Hrun & (_ & _ & _ & Hfrom) & (new & Hreq & Hold & Honce)); try done.
  eexists _, g', new. split; [exact Hrun|]. split; [done|]. split; [done|]. split.
  - intros id Hsome. by destruct (Honce id Hsome).
  - intros id name Hin. destruct (Hfrom id name Hin) as [?|[_ ?]]; auto.
Qed.

Lemma gitlab_adapter_asks_for_a_project_once_witness :
  ∃ r g' new, getActivityForDate 0 1 "2025-11-27" sampleGitLab = Some (r, g')
    ∧ requests g' = requests sampleGitLab ++ new
    ∧ (∀ id, is_Some (projectNameCache sampleGitLab !! id) → ShowProject id ∉ new)
    ∧ (∀ id, is_Some (Projects_show sampleApi id) →
         count_occ Request_eq_dec new (ShowProject id) ≤ 1)
    ∧ (∀ id name, projectNameCache g' !! id = Some name →
         projectNameCache sampleGitLab !! id = Some name
         ∨ Projects_show sampleApi id = Some name).
Proof.
  apply (gitlab_adapter_asks_for_a_project_once 0 1 "2025-11-27" sampleGitLab sampleApi 7
           Cache.sampleDay 1);
    [done|done|done|done|by vm_compute|apply sampleApi_lastPage|lia].
Defined.


End GitLabAdapterLaws.

(** ** The GitHub adapter *)

Module GitHubAdapterLaws.
Import DateModel DayFormat DayFormatLaws GitLabAdapter GitHubAdapter GitHubAdapterSpec.

Lemma hasMessage_spec msg a : hasMessage msg a = true ↔ msg ∈ messages a.
Proof.
  unfold hasMessage, messages. rewrite existsb_exists, list_elem_of_fmap. split.
  - intros (c & Hin & Hc). apply bool_decide_eq_true in Hc.
    exists c. split; [done|]. by apply list_elem_of_In.
  - intros (c & -> & Hin). exists c. split; [by apply list_elem_of_In|].
    by apply bool_decide_eq_true.
Qed.

Lemma addsFresh_refl a : addsFresh a a.
Proof.
  exists []. rewrite app_nil_r. split_and!; try done; [constructor|].
  intros c Hc. by apply elem_of_nil in Hc.
Qed.

(** What one commit does: the payload stays or gets one commit at the
    end, with a message that was not there. *)
Lemma addCommit_cases dateStr repo a commit :
  (addCommit dateStr repo a commit = a
   ∧ (onOtherDay dateStr commit = false → rc_message commit ≠ "" →
      rc_message commit ∈ messages a))
  ∨ (addCommit dateStr repo a commit
     = pushCommit (mkCommit (rc_message commit) (full_name repo)
                     (orElse (default_branch repo) "main")) a
     ∧ rc_message commit ≠ "" ∧ rc_message commit ∉ messages a).
Proof.
  unfold addCommit. destruct (onOtherDay dateStr commit); [by left|].
  destruct (hasMessage (rc_message commit) a) eqn:Hhas.
  { left. split; [done|]. intros _ _. by apply hasMessage_spec. }
  destruct (decide (rc_message commit = "")); [by left|].
  right. split; [done|]. split; [done|].
  intros Hin%hasMessage_spec. congruence.
Qed.

Lemma addCommit_ok dateStr repo base a commit :
  addsFresh base a →
  addsFresh base (addCommit dateStr repo a commit)
  ∧ messages a ⊆ messages (addCommit dateStr repo a commit)
  ∧ (onOtherDay dateStr commit = false → rc_message commit ≠ "" →
     rc_message commit ∈ messages (addCommit dateStr repo a commit)).
Proof.
  intros (added & Hc & Hm & Hi & Hd & Hnd & Hfresh).
  destruct (addCommit_cases dateStr repo a commit) as [[-> Hin]|(-> & Hne & Hnot)].
  { split; [by exists added|]. split; [done|exact Hin]. }
  unfold messages in *. simpl. rewrite fmap_app. simpl.
  split; [|split].
  - exists (added ++ [mkCommit (rc_message commit) (full_name repo)
                        (orElse (default_branch repo) "main")]).
    simpl. rewrite Hc, app_assoc. split_and!; try done.
    + rewrite fmap_app. simpl. apply NoDup_app. split; [done|]. split.
      * intros m Hm1 Hm2. apply list_elem_of_singleton in Hm2. subst m.
        apply Hnot. rewrite Hc, fmap_app, elem_of_app. by right.
      * apply NoDup_singleton.
    + intros c [Hin|Hin%list_elem_of_singleton]%elem_of_app.
      * by apply Hfresh.
      * subst c. simpl. split; [done|]. intros Hbase. apply Hnot.
        rewrite Hc, fmap_app, elem_of_app. by left.
  - intros m Hin. rewrite elem_of_app. by left.
  - intros _ _. rewrite elem_of_app. right. by apply list_elem_of_singleton.
Qed.

Lemma foldl_addCommit_ok dateStr repo base cs : ∀ a,
  addsFresh base a →
  addsFresh base (foldl (addCommit dateStr repo) a cs)
  ∧ messages a ⊆ messages (foldl (addCommit dateStr repo) a cs)
  ∧ (∀ commit, commit ∈ cs → onOtherDay dateStr commit = false →
       rc_message commit ≠ "" →
       rc_message commit ∈ messages (foldl (addCommit dateStr repo) a cs)).
Proof.
  induction cs as [|commit cs IH]; intros a Ha; simpl.
  { split; [done|]. split; [done|]. intros c Hc. by apply elem_of_nil in Hc. }
  destruct (addCommit_ok dateStr repo base a commit Ha) as (H1 & H2 & H3).
  destruct (IH _ H1) as (I1 & I2 & I3).
  split; [done|]. split; [by etrans|].
  intros c [->|Hin]%elem_of_cons Hday Hne.
  - apply I2. by apply H3.
  - by apply I3.
Qed.

Lemma addRepo_ok api user dateStr dayStart dayEnd base a repo :
  addsFresh base a →
  addsFresh base (addRepo api user dateStr dayStart dayEnd a repo)
  ∧ messages a ⊆ messages (addRepo api user dateStr dayStart dayEnd a repo)
  ∧ (∀ cs commit,
       repos_listCommits api (owner_login repo) (repo_name repo) user dayStart dayEnd
       = Some cs →
       commit ∈ cs → onOtherDay dateStr commit = false → rc_message commit ≠ "" →
       rc_message commit ∈ messages (addRepo api user dateStr dayStart dayEnd a repo)).
Proof.
  intros Ha. unfold addRepo.
  destruct (repos_listCommits api (owner_login repo) (repo_name repo) user dayStart dayEnd)
    as [cs|].
  - destruct (foldl_addCommit_ok dateStr repo base cs a Ha) as (H1 & H2 & H3).
    split; [done|]. split; [done|]. intros cs' commit [= <-]. apply H3.
  - split; [done|]. split; [done|]. intros cs commit [=].
Qed.

Lemma foldl_addRepo_ok api user dateStr dayStart dayEnd base repos : ∀ a,
  addsFresh base a →
  addsFresh base (foldl (addRepo api user dateStr dayStart dayEnd) a repos)
  ∧ messages a ⊆ messages (foldl (addRepo api user dateStr dayStart dayEnd) a repos)
  ∧ (∀ repo cs commit, repo ∈ repos →
       repos_listCommits api (owner_login repo) (repo_name repo) user dayStart dayEnd
       = Some cs →
       commit ∈ cs → onOtherDay dateStr commit = false → rc_message commit ≠ "" →
       rc_message commit
       ∈ messages (foldl (addRepo api user dateStr dayStart dayEnd) a repos)).
Proof.
  induction repos as [|repo repos IH]; intros a Ha; simpl.
  { split; [done|]. split; [done|]. intros r cs c Hr. by apply elem_of_nil in Hr. }
  destruct (addRepo_ok api user dateStr dayStart dayEnd base a repo Ha) as (H1 & H2 & H3).
  destruct (IH _ H1) as (I1 & I2 & I3).
  split; [done|]. split; [by etrans|].
  intros r cs c [->|Hin]%elem_of_cons Hcs Hc Hday Hne.
  - apply I2. by eapply H3.
  - by eapply I3.
Qed.

(** X20. Reading the commits of the repositories only adds commits at the
    end of the payload of an initialized GitHub adapter: the added commits
    have messages that are not empty, differ from each other and from those
    already in the payload, so of two commits with the same message in any
    repositories one is added. Every delivered commit of the day with a
    message has its message in the result; a repository whose request fails
    is skipped, and when the list of repositories cannot be read nothing is
    added. *)
Theorem github_commits_are_added_once_per_message (tz : Z) (dateStr : string)
    (g : GitHubIntegration) (api : GitHubApi) (user : string)
    (activity : GitLabActivity) :
  gh_client g = Some api → username g = Some user → user ≠ "" →
  isDayFormat dateStr = true →
  let out := fetchCommitsForDate tz dateStr g activity in
  addsFresh activity out
  ∧ (repos_listForAuthenticatedUser api = None → out = activity)
  ∧ ∃ dayStart, parseDay tz dateStr = Some dayStart
      ∧ ∀ repos repo cs commit,
          repos_listForAuthenticatedUser api = Some repos → repo ∈ repos →
          repos_listCommits api (owner_login repo) (repo_name repo) user dayStart
            (endOfDay dayStart) = Some cs →
          commit ∈ cs → onOtherDay dateStr commit = false → rc_message commit ≠ "" →
          rc_message commit ∈ messages out.
Proof.
  intros Hclient Huser Hne Hfmt. cbv zeta.
  destruct (dayFormat_parses tz dateStr Hfmt) as [dayStart Hparse].
  unfold fetchCommitsForDate. rewrite Hclient, Huser, Hparse.
  rewrite decide_False by done.
  destruct (repos_listForAuthenticatedUser api) as [repos|].
  - destruct (foldl_addRepo_ok api user dateStr dayStart (endOfDay dayStart) activity
                repos activity (addsFresh_refl activity)) as (H1 & _ & H3).
    split; [done|]. split; [done|]. exists dayStart. split; [done|].
    intros repos' repo cs commit [= <-]. apply H3.
  - split; [apply addsFresh_refl|]. split; [done|]. exists dayStart. split; [done|].
    intros repos repo cs commit [=].
Qed.

Lemma github_commits_are_added_once_per_message_witness :
  addsFresh (mkGitLabActivity Cache.sampleDay [] [] [])
    (fetchCommitsForDate 0 "2025-11-27" sampleGitHub
       (mkGitLabActivity Cache.sampleDay [] [] [])).
Proof.
  apply (github_commits_are_added_once_per_message 0 "2025-11-27" sampleGitHub
           sampleGitHubApi "me" (mkGitLabActivity Cache.sampleDay [] [] [])); done.
Defined.

End GitHubAdapterLaws.

(** ** The Google calendar adapter *)

Module GoogleCalendarAdapterLaws.
Import DateModel DayFormat DayFormatLaws GoogleCalendarAdapter GoogleCalendarAdapterSpec.

Lemma refreshAccessToken_state env g :
  initialized (refreshAccessToken env g).2 = initialized g
  ∧ lists (refreshAccessToken env g).2 = lists g.
Proof.
  unfold refreshAccessToken. destruct (initialized g) eqn:Hi; simpl; [|done].
  destruct (library_refresh env (refreshes g)) as [e|c]; simpl; [done|].
  destruct (_ || _); simpl; [done|]. by destruct (onTokenRefresh env).
Qed.

Lemma refreshAccessToken_works env g :
  refreshWorks env → initialized g = true → (refreshAccessToken env g).1 = None.
Proof. intros Hw Hi. destruct g as [i l r]. simpl in Hi. subst i. apply Hw. Qed.

(** With working refreshes an attempt makes one list request and ends as
    that request does. *)
Lemma attempt_works env dayStart g :
  refreshWorks env → initialized g = true →
  ∃ g', initialized g' = true ∧ lists g' = S (lists g)
    ∧ attempt env dayStart (dayEndOf dayStart) g
      = (match events_list env (lists g) dayStart (dayEndOf dayStart) with
         | inl e => Threw e
         | inr items => Returned (toCalendarEvents (default [] items))
         end, g').
Proof.
  intros Hw Hi. unfold attempt.
  destruct (expired env (lists g) (refreshes g)).
  - pose proof (refreshAccessToken_works env g Hw Hi) as Hok.
    destruct (refreshAccessToken_state env g) as [Hi1 Hl1].
    destruct (refreshAccessToken env g) as [failed g1]. simpl in *. subst failed.
    rewrite Hl1. eexists. split; [|split; [|by destruct (events_list _ _ _ _)]].
    + simpl. congruence.
    + simpl. congruence.
  - eexists. split; [|split; [|by destruct (events_list _ _ _ _)]]; simpl; done.
Qed.

Lemma retries_forever tz env dateStr dayStart :
  refreshWorks env → isDayFormat dateStr = true → parseDay tz dateStr = Some dayStart →
  ∀ fuel g, initialized g = true →
    (∀ i, unauthorized env dayStart (lists g + i)) →
    getEventsForDate fuel tz env dateStr g = None.
Proof.
  intros Hw Hfmt Hparse. induction fuel as [|fuel IH]; intros g Hi Hall; [done|].
  cbn [getEventsForDate]. rewrite Hi, Hfmt, Hparse. simpl.
  destruct (attempt_works env dayStart g Hw Hi) as (g1 & Hi1 & Hl1 & Hrun).
  fold (dayEndOf dayStart). rewrite Hrun.
  destruct (Hall 0) as (e & He & Hcode). rewrite Nat.add_0_r in He. rewrite He.
  rewrite decide_True by done.
  pose proof (refreshAccessToken_works env g1 Hw Hi1) as Hok.
  destruct (refreshAccessToken_state env g1) as [Hi2 Hl2].
  destruct (refreshAccessToken env g1) as [failed g2]. simpl in *. subst failed.
  apply IH; [congruence|].
  intros i. rewrite Hl2, Hl1. replace (S (lists g) + i) with (lists g + S i) by lia.
  apply Hall.
Qed.

Lemma retries_until_answered tz env dateStr dayStart :
  refreshWorks env → isDayFormat dateStr = true → parseDay tz dateStr = Some dayStart →
  ∀ k fuel g, initialized g = true → k < fuel →
    (∀ i, i < k → unauthorized env dayStart (lists g + i)) →
    match events_list env (lists g + k) dayStart (dayEndOf dayStart) with
    | inr items =>
        ∃ g', getEventsForDate fuel tz env dateStr g
              = Some (Returned (toCalendarEvents (default [] items)), g')
          ∧ lists g' = lists g + S k
    | inl e =>
        codeOf e ≠ Some 401%Z →
        ∃ g', getEventsForDate fuel tz env dateStr g = Some (Threw e, g')
          ∧ lists g' = lists g + S k
    end.
Proof.
  intros Hw Hfmt Hparse. induction k as [|k IH]; intros fuel g Hi Hfuel Hbefore;
    (destruct fuel as [|fuel]; [lia|]); cbn [getEventsForDate];
    rewrite Hi, Hfmt, Hparse; simpl;
    destruct (attempt_works env dayStart g Hw Hi) as (g1 & Hi1 & Hl1 & Hrun);
    fold (dayEndOf dayStart); rewrite Hrun.
  - rewrite Nat.add_0_r.
    destruct (events_list env (lists g) dayStart (dayEndOf dayStart)) as [e|items].
    + intros Hcode. rewrite decide_False by done. exists g1. split; [done|lia].
    + exists g1. split; [done|lia].
  - destruct (Hbefore 0 ltac:(lia)) as (e & He & Hcode).
    rewrite Nat.add_0_r in He. rewrite He. rewrite decide_True by done.
    pose proof (refreshAccessToken_works env g1 Hw Hi1) as Hok.
    destruct (refreshAccessToken_state env g1) as [Hi2 Hl2].
    destruct (refreshAccessToken env g1) as [failed g2]. simpl in *. subst failed.
    specialize (IH fuel g2 ltac:(congruence) ltac:(lia)).
    replace (lists g + S k) with (lists g2 + k) by lia.
    replace (lists g + S (S k)) with (lists g2 + S k) by lia.
    apply IH. intros i Hlt.
    replace (lists g2 + i) with (lists g + S i) by lia. apply Hbefore. lia.
Qed.

(** X21. With refreshes that succeed, the Google adapter asked for a day in
    YYYY-MM-DD form repeats its list request as long as the answer is an
    error of code 401, and ends as the first other answer does: it returns
    the events of that answer that have a start and an end time, in their
    order, or throws the error of the request. When every request is
    answered with code 401 the call never returns. *)
Theorem google_adapter_retries_while_unauthorized (tz : Z) (env : Environment)
    (dateStr : string) (g : Adapter) :
  initialized g = true → isDayFormat dateStr = true → refreshWorks env →
  ∃ dayStart, parseDay tz dateStr = Some dayStart
    ∧ ((∀ i, unauthorized env dayStart (lists g + i)) →
       ∀ fuel, getEventsForDate fuel tz env dateStr g = None)
    ∧ (∀ k fuel, k < fuel →
         (∀ i, i < k → unauthorized env dayStart (lists g + i)) →
         match events_list env (lists g + k) dayStart (dayEndOf dayStart) with
         | inr items =>
             ∃ g', getEventsForDate fuel tz env dateStr g
                   = Some (Returned (toCalendarEvents (default [] items)), g')
               ∧ lists g' = lists g + S k
         | inl e =>
             codeOf e ≠ Some 401%Z →
             ∃ g', getEventsForDate fuel tz env dateStr g = Some (Threw e, g')
               ∧ lists g' = lists g + S k
         end).
Proof.
  intros Hi Hfmt Hw. destruct (dayFormat_parses tz dateStr Hfmt) as [dayStart Hparse].
  exists dayStart. split; [done|]. split.
  - intros Hall fuel. by eapply retries_forever.
  - intros k fuel Hfuel Hbefore. by eapply retries_until_answered.
Qed.

Lemma google_adapter_retries_while_unauthorized_witness :
  (∀ fuel,
     getEventsForDate fuel 0 alwaysUnauthorized "2025-11-27" (mkAdapter true 0 0) = None)
  ∧ ∃ g', getEventsForDate 2 0 secondTimeLucky "2025-11-27" (mkAdapter true 0 0)
          = Some (Returned [mkCalendarEvent "standup" 10 20 (Some 3)], g')
      ∧ lists g' = 2.
Proof.
  split.
  - destruct (google_adapter_retries_while_unauthorized 0 alwaysUnauthorized "2025-11-27"
                (mkAdapter true 0 0)) as (dayStart & _ & H & _);
      [done|done|intros l r; reflexivity|].
    apply H. intros i. by eexists.
  - destruct (google_adapter_retries_while_unauthorized 0 secondTimeLucky "2025-11-27"
                (mkAdapter true 0 0)) as (dayStart & _ & _ & H);
      [done|done|intros l r; reflexivity|].
    apply (H 1 2); [lia|].
    intros i Hi. assert (i = 0) as -> by lia. by eexists.
Defined.

End GoogleCalendarAdapterLaws.

(** ** The token storage *)

Module TokenStorageLaws.
Import TokenStorage TokenStorageSpec.

(** X22. A setter of the token storage writes the whole in-memory store to
    the file. After a load this replaces the one provider's tokens and keeps
    the others; on an object that has not loaded the file, the tokens of the
    other providers are gone from the file. A GitLab token set after a load
    is what a new object reads back. *)
Theorem token_update_rewrites_the_whole_file (file : option TokenStore)
    (token : string) (c : option CalendarTokens) :
  let stored := default emptyStore file in
  (tokenFile (setGitHubToken token (load (fresh file)))
   = Some (mkTokenStore (ts_gitlab stored) (Some token) (ts_google stored)
             (ts_outlook stored))
   ∧ tokenFile (setGitLabToken token (load (fresh file)))
     = Some (mkTokenStore (Some (PersonalToken token)) (ts_github stored)
               (ts_google stored) (ts_outlook stored))
   ∧ tokenFile (setGoogleTokens c (load (fresh file)))
     = Some (mkTokenStore (ts_gitlab stored) (ts_github stored) c (ts_outlook stored))
   ∧ tokenFile (setOutlookTokens c (load (fresh file)))
     = Some (mkTokenStore (ts_gitlab stored) (ts_github stored) (ts_google stored) c))
  ∧ (tokenFile (setGitHubToken token (fresh file))
     = Some (mkTokenStore None (Some token) None None)
     ∧ tokenFile (setGitLabToken token (fresh file))
       = Some (mkTokenStore (Some (PersonalToken token)) None None None)
     ∧ tokenFile (setGoogleTokens c (fresh file)) = Some (mkTokenStore None None c None)
     ∧ tokenFile (setOutlookTokens c (fresh file)) = Some (mkTokenStore None None None c))
  ∧ getGitLabToken (load (fresh (tokenFile (setGitLabToken token (load (fresh file))))))
    = Some token.
Proof. cbv zeta. by destruct file as [[gl gh go ol]|]. Qed.

End TokenStorageLaws.

(** ** The tool handlers *)

Module HandlerLaws.
Import DateModel DateSpec DateLaws DayFormat DayFormatLaws Cache Orchestrator
  OrchestratorSpec OrchestratorFacts FetchSpec Handlers HandlerSpec.

Lemma year_threshold n y m d :
  civilFromDays n = (y, m, d) → (100 ≤ y ↔ -683003 ≤ n)%Z.
Proof.
  unfold civilFromDays. cbv zeta. intros H.
  repeat case_match; simplify_eq; Z.div_mod_to_equations; lia.
Qed.

Lemma getFullYear_threshold tz t : (100 ≤ getFullYear tz t ↔ -683003 ≤ localDay tz t)%Z.
Proof.
  unfold getFullYear. destruct (civilFromDays (localDay tz t)) as [[y m] d] eqn:E.
  simpl. by eapply year_threshold.
Qed.

Lemma year_1000 n y m d :
  civilFromDays n = (y, m, d) → (1000 ≤ y ↔ -354285 ≤ n)%Z.
Proof.
  unfold civilFromDays. cbv zeta. intros H.
  repeat case_match; simplify_eq; Z.div_mod_to_equations; lia.
Qed.

Lemma year_9999 n y m d :
  civilFromDays n = (y, m, d) → (y ≤ 9999 ↔ n ≤ 2932896)%Z.
Proof.
  unfold civilFromDays. cbv zeta. intros H.
  repeat case_match; simplify_eq; Z.div_mod_to_equations; lia.
Qed.

Lemma getFullYear_1000 tz t : (1000 ≤ getFullYear tz t ↔ -354285 ≤ localDay tz t)%Z.
Proof.
  unfold getFullYear. destruct (civilFromDays (localDay tz t)) as [[y m] d] eqn:E.
  simpl. by eapply year_1000.
Qed.

Lemma getFullYear_9999 tz t : (getFullYear tz t ≤ 9999 ↔ localDay tz t ≤ 2932896)%Z.
Proof.
  unfold getFullYear. destruct (civilFromDays (localDay tz t)) as [[y m] d] eqn:E.
  simpl. by eapply year_9999.
Qed.

Lemma localDay_mono tz t t' : (t ≤ t')%Z → (localDay tz t ≤ localDay tz t')%Z.
Proof. intros H. unfold localDay, msPerDay. Z.div_mod_to_equations. lia. Qed.

Lemma localDay_dayAt tz t i : localDay tz (dayAt t i) = (localDay tz t + Z.of_nat i)%Z.
Proof.
  unfold localDay, dayAt, msPerDay. Z.div_mod_to_equations. lia.
Qed.

Lemma setDate_next tz t : setDate tz t (getDate tz t + 1) = (t + msPerDay)%Z.
Proof.
  unfold setDate, getDate, localFields.
  destruct (civilFromDays ((t + tz * msPerMinute) / msPerDay)) as [[y m] d] eqn:E.
  simpl. unfold MakeDay. cbv zeta.
  pose proof (MakeDay_civilFromDays _ _ _ _ E) as HM. unfold MakeDay in HM. cbv zeta in HM.
  unfold msPerDay in *. Z.div_mod_to_equations. lia.
Qed.

Lemma localDateStr_inj tz t t' :
  (100 ≤ getFullYear tz t)%Z → (100 ≤ getFullYear tz t')%Z →
  localDateStr tz t = localDateStr tz t' → localDay tz t = localDay tz t'.
Proof.
  intros Hy Hy' Heq.
  pose proof (parseDay_of_localDateStr tz t Hy) as H1.
  pose proof (parseDay_of_localDateStr tz t' Hy') as H2.
  rewrite Heq, H2 in H1. injection H1 as H1.
  unfold startOfLocalDay, msPerDay in H1. lia.
Qed.


Lemma objSet_fresh {V} key (value : V) obj :
  key ∉ (fst <$> obj) → objSet key value obj = obj ++ [(key, value)].
Proof.
  induction obj as [|[k v] obj IH]; intros Hfresh; simpl; [done|].
  rewrite fmap_cons, not_elem_of_cons in Hfresh. destruct Hfresh as [Hne Hfresh].
  rewrite decide_False by done. by rewrite IH.
Qed.

Lemma dayStrings_S tz c n :
  dayStrings tz c (S n) = localDateStr tz c :: dayStrings tz (c + msPerDay) n.
Proof.
  unfold dayStrings. simpl. f_equal.
  - unfold dayAt. f_equal. lia.
  - rewrite <- fmap_S_seq, <- list_fmap_compose. apply list_fmap_ext.
    intros _ i _. simpl. unfold dayAt. f_equal. lia.
Qed.

Lemma dayAt_S c i : dayAt (c + msPerDay) i = dayAt c (S i).
Proof. unfold dayAt. lia. Qed.

Section Range.
Variable tz : Z.
Variable now : Z.
Variable P : Providers.
Variable initializes : string → bool.
Hypothesis provider_answers :
  ∀ s, isDayFormat s = true → is_Some (gitlab_getActivityForDate P s).

Lemma fetchGitLab_answers t forceRefresh w :
  (1000 ≤ getFullYear tz t ≤ 9999)%Z →
  ∃ f, (run (fetchGitLabActivityWithCache tz now P (localDateStr tz t) forceRefresh) w).2
       = Fulfilled f.
Proof.
  intros Hyear.
  unfold run, awaitCall, fetchGitLabActivityWithCache.
  destruct (parseDay_localDateStr tz t) as [date ->].
  destruct (provider_answers (localDateStr tz t)) as [a Ha].
  { rewrite dayFormat_localDateStr by lia. apply bool_decide_eq_true. lia. }
  destruct forceRefresh.
  - unfold fetchGitLabFresh. rewrite Ha. by eexists.
  - destruct (cacheGetGitLab now date w) as [[c|] w1]; simpl.
    + by eexists.
    + unfold fetchGitLabFresh. rewrite Ha. by eexists.
Qed.

Lemma rangeLoop_ok endDate forceRefresh n : ∀ fuel c st w,
  n < fuel →
  (1000 ≤ getFullYear tz c)%Z →
  (getFullYear tz endDate ≤ 9999)%Z →
  match n with
  | 0 => (endDate < c)%Z
  | S n' => (dayAt c n' ≤ endDate < dayAt c n)%Z
  end →
  (∀ i, i < n → localDateStr tz (dayAt c i) ∉ (fst <$> allActivities st)) →
  rangeInv st →
  ∃ w' st' added,
    rangeLoop tz now P fuel c endDate forceRefresh st w = Some (w', Ok st')
    ∧ allActivities st' = allActivities st ++ added
    ∧ fst <$> added = dayStrings tz c n
    ∧ (∀ i kv, added !! i = Some kv →
         isFuture kv.2 = (todayOf tz now <? dayAt c i)%Z)
    ∧ rangeInv st'.
Proof.
  induction n as [|n IH]; intros fuel c st w Hfuel Hyear1000 Hyear9999 Hrange Hfresh Hinv;
    (destruct fuel as [|fuel]; [lia|]); cbn [rangeLoop].
  - destruct (Z.leb_spec c endDate); [lia|].
    exists w, st, []. rewrite app_nil_r. split_and!; done.
  - assert (c ≤ endDate)%Z as Hle.
    { destruct n; unfold dayAt, msPerDay in Hrange; lia. }
    destruct (Z.leb_spec c endDate); [|lia].
    rewrite setDate_next.
    assert (getFullYear tz c ≤ 9999)%Z as Hc9999.
    { apply getFullYear_9999. apply getFullYear_9999 in Hyear9999.
      pose proof (localDay_mono tz c endDate Hle). lia. }
    assert (1000 ≤ getFullYear tz (c + msPerDay))%Z as Hyear1000'.
    { apply getFullYear_1000. apply getFullYear_1000 in Hyear1000.
      pose proof (localDay_dayAt tz c 1) as H1. unfold dayAt in H1.
      replace (c + Z.of_nat 1 * msPerDay)%Z with (c + msPerDay)%Z in H1 by lia. lia. }
    assert (100 ≤ getFullYear tz c)%Z as Hyear by lia.
    assert (100 ≤ getFullYear tz (c + msPerDay))%Z as Hyear'.
    { apply getFullYear_threshold. apply getFullYear_threshold in Hyear.
      pose proof (localDay_dayAt tz c 1) as H1. unfold dayAt in H1.
      replace (c + Z.of_nat 1 * msPerDay)%Z with (c + msPerDay)%Z in H1 by lia. lia. }
    assert (match n with
            | 0 => (endDate < c + msPerDay)%Z
            | S n' => (dayAt (c + msPerDay) n' ≤ endDate < dayAt (c + msPerDay) n)%Z
            end) as Hrange'.
    { destruct n.
      - unfold dayAt in Hrange. lia.
      - rewrite !dayAt_S. done. }
    assert (localDateStr tz c ∉ (fst <$> allActivities st)) as Hkey.
    { specialize (Hfresh 0 ltac:(lia)). unfold dayAt in Hfresh.
      by replace (c + Z.of_nat 0 * msPerDay)%Z with c in Hfresh by lia. }
    assert (∀ entry i, i < n →
              localDateStr tz (dayAt (c + msPerDay) i)
              ∉ (fst <$> (allActivities st ++ [(localDateStr tz c, entry)]))) as Hfresh'.
    { intros entry i Hi. rewrite fmap_app, not_elem_of_app. split.
      - rewrite dayAt_S. apply Hfresh. lia.
      - simpl. rewrite list_elem_of_singleton. intros Heq.
        apply localDateStr_inj in Heq.
        + rewrite dayAt_S, localDay_dayAt in Heq. lia.
        + apply getFullYear_threshold. apply getFullYear_threshold in Hyear.
          rewrite dayAt_S, localDay_dayAt. lia.
        + done. }
    destruct Hinv as (Hc & Hm & Hi & Ho).
    destruct (Z.ltb_spec (todayOf tz now) c) as [Hfut|Hnot].
    + (* a day after today *)
      rewrite objSet_fresh by done.
      match goal with
      | |- context [rangeLoop _ _ _ _ _ _ _ ?s ?w0] =>
          destruct (IH fuel (c + msPerDay)%Z s w0)
            as (w' & st' & added & Hrun & Hall & Hkeys & Hfl & Hinv');
            [lia|exact Hyear1000'|exact Hyear9999|exact Hrange'| | |]
      end.
      * simpl. apply Hfresh'.
      * unfold rangeInv, obtained, commitsOf, mergeRequestsOf, issuesOf in *. simpl.
        rewrite !sum_list_with_app. simpl. lia.
      * exists w', st', ((localDateStr tz c,
                           mkRangeEntry (mkGitLabActivity c [] [] []) true) :: added).
        rewrite Hrun. simpl in Hall. rewrite Hall, <- app_assoc.
        split_and!; [done|done| | |done].
        -- rewrite dayStrings_S, fmap_cons, Hkeys. done.
        -- intros [|i] kv; simpl.
           ++ intros [= <-]. simpl. unfold dayAt.
              replace (c + Z.of_nat 0 * msPerDay)%Z with c by lia.
              symmetry. by apply Z.ltb_lt.
           ++ intros Hkv. rewrite <- dayAt_S. by apply Hfl.
    + (* a day up to today: it is fetched *)
      destruct (fetchGitLab_answers c forceRefresh w) as [f Hf]; [lia|].
      destruct (run (fetchGitLabActivityWithCache tz now P (localDateStr tz c) forceRefresh) w)
        as [w1 r]. simpl in Hf. subst r.
      rewrite objSet_fresh by done.
      match goal with
      | |- context [rangeLoop _ _ _ _ _ _ _ ?s ?w0] =>
          destruct (IH fuel (c + msPerDay)%Z s w0)
            as (w' & st' & added & Hrun & Hall & Hkeys & Hfl & Hinv');
            [lia|exact Hyear1000'|exact Hyear9999|exact Hrange'| | |]
      end.
      * simpl. apply Hfresh'.
      * unfold rangeInv, obtained, commitsOf, mergeRequestsOf, issuesOf in *. simpl.
        rewrite !sum_list_with_app. simpl. destruct (gf_fromCache f); lia.
      * exists w', st', ((localDateStr tz c, mkRangeEntry (gf_activity f) false) :: added).
        rewrite Hrun. simpl in Hall. rewrite Hall, <- app_assoc.
        split_and!; [done|done| | |done].
        -- rewrite dayStrings_S, fmap_cons, Hkeys. done.
        -- intros [|i] kv; simpl.
           ++ intros [= <-]. simpl. unfold dayAt.
              replace (c + Z.of_nat 0 * msPerDay)%Z with c by lia.
              symmetry. apply Z.ltb_ge. lia.
           ++ intros Hkv. rewrite <- dayAt_S. by apply Hfl.
Qed.

End Range.

(** X23. A range request over days whose years have four digits (from a
    start day in the year 1000 or later to an end day in the year 9999 or
    earlier), with a provider that answers every string in YYYY-MM-DD form,
    fulfils with one entry for each day from the start day to the end day,
    in order, keyed by the day strings; an entry is marked future exactly
    when its day is after today, and the totals of commits, review items and
    issues and the number of cache hits plus fresh fetches are those of the
    entries. *)
Theorem range_request_covers_each_day_once (tz now : Z) (P : Providers)
    (initializes : string → bool) (fuel : nat) (startDateStr endDateStr : string)
    (args : ToolArgs) (gitlabToken : string) (w : World) (startDate endDate : Z) :
  (∀ s, isDayFormat s = true → is_Some (gitlab_getActivityForDate P s)) →
  initializes gitlabToken = true →
  isDayFormat startDateStr = true → isDayFormat endDateStr = true →
  parseDay tz startDateStr = Some startDate → parseDay tz endDateStr = Some endDate →
  (startDate ≤ endDate)%Z →
  (1000 ≤ getFullYear tz startDate)%Z →
  (getFullYear tz endDate ≤ 9999)%Z →
  daysInRange startDate endDate < fuel →
  ∃ w' st,
    handleFetchGitLabActivityRange tz now P initializes fuel startDateStr endDateStr
      args gitlabToken w
    = Some (w', Ok (DayRange startDateStr endDateStr st))
    ∧ fst <$> allActivities st = dayStrings tz startDate (daysInRange startDate endDate)
    ∧ (∀ i kv, allActivities st !! i = Some kv →
         isFuture kv.2 = (todayOf tz now <? dayAt startDate i)%Z)
    ∧ cacheHits st + freshFetches st = obtained (allActivities st)
    ∧ totalCommits st = sum_list_with commitsOf (allActivities st)
    ∧ totalMRs st = sum_list_with mergeRequestsOf (allActivities st)
    ∧ totalIssues st = sum_list_with issuesOf (allActivities st).
Proof.
  intros Hprov Hinit Hf1 Hf2 Hp1 Hp2 Hle Hyear Hyear' Hfuel.
  unfold handleFetchGitLabActivityRange, initializeGitLab.
  rewrite Hf1, Hf2, Hp1, Hp2, Hinit. simpl.
  destruct (Z.ltb_spec endDate startDate); [lia|].
  destruct (rangeLoop_ok tz now P Hprov endDate (forceRefreshOf args)
              (daysInRange startDate endDate) fuel startDate emptyRange
              (logOp (Initialize GitLab) w))
    as (w' & st & added & Hrun & Hall & Hkeys & Hfl & Hc & Hm & Hi & Ho); try done.
  - unfold daysInRange in *.
    assert (0 ≤ (endDate - startDate) / msPerDay)%Z
      by (unfold msPerDay; Z.div_mod_to_equations; lia).
    destruct (Z.to_nat ((endDate - startDate) / msPerDay + 1)) as [|n'] eqn:E; [lia|].
    assert (Z.of_nat n' = (endDate - startDate) / msPerDay)%Z as Hn' by lia.
    unfold dayAt. rewrite Nat2Z.inj_succ, Hn'.
    unfold msPerDay. Z.div_mod_to_equations. lia.
  - intros i _. simpl. apply not_elem_of_nil.
  - exists w', st. rewrite Hrun. simpl in Hall. subst added.
    split_and!; done.
Qed.

Lemma range_request_covers_each_day_once_witness :
  ∃ w' st,
    handleFetchGitLabActivityRange 0 sampleNow strictProviders alwaysInitializes 3
      "2025-11-26" "2025-11-27" noArgs "token" newWorld
    = Some (w', Ok (DayRange "2025-11-26" "2025-11-27" st))
    ∧ fst <$> allActivities st = ["2025-11-26"; "2025-11-27"]
    ∧ totalCommits st = sum_list_with commitsOf (allActivities st).
Proof.
  destruct (range_request_covers_each_day_once 0 sampleNow strictProviders
              alwaysInitializes 3 "2025-11-26" "2025-11-27" noArgs "token" newWorld
              (newDate 0 2025 10 26) sampleDay)
    as (w' & st & Hrun & Hkeys & _ & _ & Hc & _);
    [intros s Hs; simpl; rewrite Hs; by eexists|done|done|done|by vm_compute
    |by vm_compute|by vm_compute|by vm_compute|by vm_compute|vm_compute; lia|].
  exists w', st. split; [exact Hrun|]. split; [|exact Hc].
  rewrite Hkeys. by vm_compute.
Defined.



Lemma rangeLoop_stops tz now P endDate k : ∀ fuel c st w,
  k < fuel →
  (dayAt c k ≤ endDate)%Z → (dayAt c k ≤ todayOf tz now)%Z →
  (∀ i, i < k → is_Some (gitlab_getActivityForDate P (localDateStr tz (dayAt c i)))) →
  gitlab_getActivityForDate P (localDateStr tz (dayAt c k)) = None →
  ∃ w' ops,
    rangeLoop tz now P fuel c endDate true st w
    = Some (w', Failed (FetchFailed ProviderError))
    ∧ trace w' = trace w ++ ops
    ∧ askedFor ops = dayStrings tz c (S k).
Proof.
  induction k as [|k IH]; intros fuel c st w Hfuel Hend Htoday Hbefore Hdown;
    (destruct fuel as [|fuel]; [lia|]); cbn [rangeLoop].
  - unfold dayAt in *. replace (c + Z.of_nat 0 * msPerDay)%Z with c in * by lia.
    destruct (Z.leb_spec c endDate); [|lia].
    destruct (Z.ltb_spec (todayOf tz now) c); [lia|].
    unfold run, awaitCall, fetchGitLabActivityWithCache, fetchGitLabFresh.
    destruct (parseDay_localDateStr tz c) as [date ->]. rewrite Hdown. simpl.
    eexists _, _. split; [done|]. split; [done|].
    unfold dayStrings, dayAt. simpl. do 2 f_equal. lia.
  - assert (c ≤ dayAt c (S k))%Z by (unfold dayAt, msPerDay; lia).
    destruct (Z.leb_spec c endDate); [|lia].
    destruct (Z.ltb_spec (todayOf tz now) c); [lia|].
    rewrite setDate_next.
    unfold run, awaitCall, fetchGitLabActivityWithCache, fetchGitLabFresh.
    destruct (parseDay_localDateStr tz c) as [date ->].
    destruct (Hbefore 0 ltac:(lia)) as [a Ha]. unfold dayAt in Ha.
    replace (c + Z.of_nat 0 * msPerDay)%Z with c in Ha by lia. rewrite Ha. simpl.
    match goal with
    | |- context [rangeLoop _ _ _ _ _ _ _ ?s ?w0] =>
        destruct (IH fuel (c + msPerDay)%Z s w0) as (w' & ops & Hrun & Htrace & Hasked)
    end.
    + lia.
    + by rewrite dayAt_S.
    + by rewrite dayAt_S.
    + intros i Hi. rewrite dayAt_S. apply Hbefore. lia.
    + by rewrite dayAt_S.
    + exists w'. eexists. split; [exact Hrun|]. split.
      * rewrite Htrace. simpl. rewrite <- !app_assoc. done.
      * simpl. rewrite Hasked. by rewrite (dayStrings_S tz c (S k)).
Qed.

(** X24. A range request with a forced refresh rejects with the provider's
    error at the first day the provider fails for: the provider was asked
    for the days up to that one, each once and in order, and for no later
    day. *)
Theorem range_request_stops_at_first_failure (tz now : Z) (P : Providers)
    (initializes : string → bool) (fuel k : nat) (startDateStr endDateStr : string)
    (args : ToolArgs) (gitlabToken : string) (w : World) (startDate endDate : Z) :
  initializes gitlabToken = true →
  isDayFormat startDateStr = true → isDayFormat endDateStr = true →
  parseDay tz startDateStr = Some startDate → parseDay tz endDateStr = Some endDate →
  arg_force_refresh args = Some true →
  (dayAt startDate k ≤ endDate)%Z → (dayAt startDate k ≤ todayOf tz now)%Z →
  (∀ i, i < k →
     is_Some (gitlab_getActivityForDate P (localDateStr tz (dayAt startDate i)))) →
  gitlab_getActivityForDate P (localDateStr tz (dayAt startDate k)) = None →
  k < fuel →
  ∃ w' ops,
    handleFetchGitLabActivityRange tz now P initializes fuel startDateStr endDateStr
      args gitlabToken w
    = Some (w', Failed (FetchFailed ProviderError))
    ∧ trace w' = trace w ++ ops
    ∧ askedFor ops = dayStrings tz startDate (S k).
Proof.
  intros Hinit Hf1 Hf2 Hp1 Hp2 Hforce Hend Htoday Hbefore Hdown Hfuel.
  unfold handleFetchGitLabActivityRange, initializeGitLab, forceRefreshOf.
  rewrite Hf1, Hf2, Hp1, Hp2, Hinit, Hforce. simpl.
  assert (startDate ≤ dayAt startDate k)%Z by (unfold dayAt, msPerDay; lia).
  destruct (Z.ltb_spec endDate startDate); [lia|].
  destruct (rangeLoop_stops tz now P endDate k fuel startDate emptyRange
              (logOp (Initialize GitLab) w))
    as (w' & ops & Hrun & Htrace & Hasked); try done.
  exists w', (Initialize GitLab :: ops). rewrite Hrun. split; [done|]. split; [|done].
  rewrite Htrace. simpl. by rewrite <- app_assoc.
Qed.

Lemma range_request_stops_at_first_failure_witness :
  ∃ w' ops,
    handleFetchGitLabActivityRange 0 sampleNow (failAt GitLab "2025-11-27" busyProviders)
      alwaysInitializes 3 "2025-11-26" "2025-11-28" refreshArgs "token" newWorld
    = Some (w', Failed (FetchFailed ProviderError))
    ∧ trace w' = trace newWorld ++ ops
    ∧ askedFor ops = dayStrings 0 (newDate 0 2025 10 26) 2.
Proof.
  apply (range_request_stops_at_first_failure 0 sampleNow
           (failAt GitLab "2025-11-27" busyProviders) alwaysInitializes 3 1
           "2025-11-26" "2025-11-28" refreshArgs "token" newWorld
           (newDate 0 2025 10 26) (newDate 0 2025 10 28));
    [done|done|done|by vm_compute|by vm_compute|done|by vm_compute|by vm_compute
    | |by vm_compute|lia].
  intros i Hi. assert (i = 0) as -> by lia. vm_compute. by eexists.
Defined.


(** X30. A range request with a forced refresh whose start day lies in a
    year from 100 to 999 and is not after today fails at its first day, when
    the adapter rejects, as that of GitLab does, every string that is not in
    YYYY-MM-DD form: the handler builds the day string from the year as it
    is, with three digits, which is not in that form; the adapter is asked
    for that one string and for no other. *)
Theorem range_request_before_year_1000_fails (tz now : Z) (P : Providers)
    (initializes : string → bool) (fuel : nat) (startDateStr endDateStr : string)
    (args : ToolArgs) (gitlabToken : string) (w : World) (startDate endDate : Z) :
  (∀ s, isDayFormat s = false → gitlab_getActivityForDate P s = None) →
  initializes gitlabToken = true →
  isDayFormat startDateStr = true → isDayFormat endDateStr = true →
  parseDay tz startDateStr = Some startDate → parseDay tz endDateStr = Some endDate →
  arg_force_refresh args = Some true →
  (startDate ≤ endDate)%Z → (startDate ≤ todayOf tz now)%Z →
  (100 ≤ getFullYear tz startDate ≤ 999)%Z →
  0 < fuel →
  isDayFormat (localDateStr tz startDate) = false
  ∧ ∃ w' ops,
      handleFetchGitLabActivityRange tz now P initializes fuel startDateStr endDateStr
        args gitlabToken w
      = Some (w', Failed (FetchFailed ProviderError))
      ∧ trace w' = trace w ++ ops
      ∧ askedFor ops = [localDateStr tz startDate].
Proof.
  intros Hstrict Hinit Hf1 Hf2 Hp1 Hp2 Hforce Hle Htoday Hyear Hfuel.
  assert (isDayFormat (localDateStr tz startDate) = false) as Hshort.
  { rewrite dayFormat_localDateStr by lia. apply bool_decide_eq_false. lia. }
  split; [done|].
  unfold handleFetchGitLabActivityRange, initializeGitLab, forceRefreshOf.
  rewrite Hf1, Hf2, Hp1, Hp2, Hinit, Hforce. simpl.
  destruct (Z.ltb_spec endDate startDate); [lia|].
  assert (dayAt startDate 0 = startDate) as H0 by (unfold dayAt; lia).
  destruct (rangeLoop_stops tz now P endDate 0 fuel startDate emptyRange
              (logOp (Initialize GitLab) w))
    as (w' & ops & Hrun & Htrace & Hasked); rewrite ?H0; try done.
  { intros i Hi. lia. }
  { by apply Hstrict. }
  exists w', (Initialize GitLab :: ops). rewrite Hrun. split; [done|]. split.
  - rewrite Htrace. simpl. by rewrite <- app_assoc.
  - simpl. rewrite Hasked. unfold dayStrings. simpl. by rewrite H0.
Qed.

Lemma range_request_before_year_1000_fails_witness :
  isDayFormat (localDateStr 0 (newDate 0 999 11 30)) = false
  ∧ ∃ w' ops,
      handleFetchGitLabActivityRange 0 sampleNow strictProviders alwaysInitializes 3
        "0999-12-30" "0999-12-31" refreshArgs "token" newWorld
      = Some (w', Failed (FetchFailed ProviderError))
      ∧ trace w' = trace newWorld ++ ops
      ∧ askedFor ops = [localDateStr 0 (newDate 0 999 11 30)].
Proof.
  apply (range_request_before_year_1000_fails 0 sampleNow strictProviders
           alwaysInitializes 3 "0999-12-30" "0999-12-31" refreshArgs "token" newWorld
           (newDate 0 999 11 30) (newDate 0 999 11 31));
    [ |done|done|done|by vm_compute|by vm_compute|done|by vm_compute|by vm_compute
    |by vm_compute|lia].
  intros s Hs. simpl. by rewrite Hs.
Defined.

(** X25. The clear-cache tool reports the entry counts of the cache after
    clearing and leaves the file in step with memory. A scope that is
    absent, empty or not one of gitlab, calendars and expired (compared
    without case) clears everything, counters included; the scopes gitlab
    and calendars work on what the file held, whatever was in memory. *)
Theorem clear_cache_defaults_to_everything (now : Z) (args : ToolArgs)
    (c : ActivityCache) :
  let r := handleClearCache now args c in
  let scope := toLowerCase (default "all" (given (arg_scope args))) in
  r.1.2 = getCacheInfo r.2
  ∧ cacheFile r.2 = Some (cache r.2)
  ∧ (scope ≠ "gitlab" → scope ≠ "calendars" → scope ≠ "expired" →
     r.1.1 = ClearedAll ∧ cache r.2 = emptyData ∧ cacheStats r.2 = zeroStats
     ∧ r.1.2 = (0, 0, 0))
  ∧ (scope = "gitlab" →
     r.1.1 = ClearedGitLab
     ∧ r.1.2 = (0, size (googleCalendar (default emptyData (cacheFile c))),
                size (outlookCalendar (default emptyData (cacheFile c)))))
  ∧ (scope = "calendars" →
     r.1.1 = ClearedCalendars
     ∧ r.1.2 = (size (gitlab (default emptyData (cacheFile c))), 0, 0)).
Proof.
  cbv zeta. unfold handleClearCache.
  set (scope := toLowerCase (default "all" (given (arg_scope args)))).
  assert (cache (Cache.load c) = default emptyData (cacheFile c)) as Hload
    by (unfold Cache.load; by destruct (cacheFile c)).
  destruct (decide (scope = "gitlab")) as [->|H1].
  { cbn [fst snd]. split_and!; try done. intros _. split; [done|].
    unfold getCacheInfo, clearGitLab. simpl. by rewrite Hload, map_size_empty. }
  destruct (decide (scope = "calendars")) as [->|H2].
  { cbn [fst snd]. split_and!; try done. intros _. split; [done|].
    unfold getCacheInfo, clearCalendars. simpl. by rewrite Hload, !map_size_empty. }
  destruct (decide (scope = "expired")) as [->|H3].
  { cbn [fst snd]. split_and!; done. }
  cbn [fst snd]. split_and!; done.
Qed.

End HandlerLaws.

Module DispatchLaws.
Import DateModel DateSpec DateLaws DayFormat DayFormatLaws Cache Orchestrator
  OrchestratorSpec OrchestratorFacts FetchSpec Handlers HandlerSpec.

(** X26. The GitLab fetch tool answers without contacting the provider and
    without touching the loaded cache when no token is stored, when neither
    a day nor a complete range is given, when the day is not in YYYY-MM-DD
    form, and when the day is after today. For a day up to today it first
    calls [initialize], which asks the provider for the current user; when
    that request fails the tool fails, and the request is all that happened:
    no day was looked up in the cache or asked of the adapter, and the
    loaded cache is untouched. A day in YYYY-MM-DD form always parses. *)
Theorem day_request_is_checked_before_any_fetch (tz now : Z) (P : Providers)
    (initializes : string → bool) (fuel : nat) (args : ToolArgs) (srv : Server) :
  let token := given (TokenStorage.getGitLabToken (TokenStorage.load (tokenStorage srv))) in
  let call := handleFetchGitLabActivity tz now P initializes fuel args srv in
  (token = None → call = Some (loaded srv, Failed NotConfigured))
  ∧ (is_Some token →
     given (arg_start_date args) = None ∨ given (arg_end_date args) = None →
     match given (arg_date args) with
     | None => call = Some (loaded srv, Failed NoDateGiven)
     | Some dateStr =>
         if isDayFormat dateStr then
           ∃ date, parseDay tz dateStr = Some date
             ∧ ((todayOf tz now < date)%Z →
                call = Some (loaded srv, Ok (FutureDate dateStr)))
             ∧ ((date ≤ todayOf tz now)%Z →
                ∀ t, token = Some t → initializes t = false →
                  call = Some (initializeTried srv, Failed InitializeFailed))
         else call = Some (loaded srv, Failed InvalidDateFormat)
     end).
Proof.
  cbv zeta. unfold handleFetchGitLabActivity, initializeTried, loaded.
  destruct (given (TokenStorage.getGitLabToken (TokenStorage.load (tokenStorage srv))))
    as [t|]; split; try done.
  intros _ Hrange.
  assert (match given (arg_start_date args), given (arg_end_date args) with
          | Some _, Some _ => False
          | _, _ => True
          end) as Hno.
  { destruct Hrange as [-> | ->]; [done|]. by destruct (given (arg_start_date args)). }
  destruct (given (arg_start_date args)) as [s1|], (given (arg_end_date args)) as [s2|];
    try done;
    (destruct (given (arg_date args)) as [dateStr|]; [|done];
       unfold handleFetchGitLabActivitySingle, initializeGitLab;
       destruct (isDayFormat dateStr) eqn:Hfmt; [|done];
       destruct (dayFormat_parses tz dateStr Hfmt) as [date Hparse];
       exists date; rewrite Hparse; simpl; split; [done|]; split;
       [ intros Hfut; by destruct (Z.ltb_spec (todayOf tz now) date); [|lia]
       | intros Hpast t' [= <-] Hinit;
         destruct (Z.ltb_spec (todayOf tz now) date); [lia|]; by rewrite Hinit ]).
Qed.

End DispatchLaws.

(** ** The OAuth callback server *)

Module OAuthServerLaws.
Import OAuthServer OAuthServerSpec.

Lemma hasMarkup_app a b : hasMarkup (a +:+ b) = hasMarkup a || hasMarkup b.
Proof.
  induction a as [|c a IH]; [done|]. rewrite append_cons. simpl.
  by rewrite IH, orb_assoc.
Qed.

Lemma escapeChar_cases c :
  (escapeChar c = "&amp;" ∨ escapeChar c = "&lt;" ∨ escapeChar c = "&gt;"
   ∨ escapeChar c = "&quot;" ∨ escapeChar c = "&#039;")
  ∨ (escapeChar c = String c "" ∧ isMarkup c = false ∧ Ascii.eqb c "&" = false).
Proof.
  unfold escapeChar, isMarkup.
  destruct (Ascii.eqb c "&") eqn:E1; [by left; left|].
  destruct (Ascii.eqb c "<") eqn:E2; [left; right; by left|].
  destruct (Ascii.eqb c ">") eqn:E3; [left; right; right; by left|].
  destruct (Ascii.eqb c quoteChar) eqn:E4; [left; right; right; right; by left|].
  destruct (Ascii.eqb c "'") eqn:E5; [left; by repeat right|].
  by right.
Qed.

(** X27. The text [escapeHtml] returns holds no angle bracket and no quote,
    and each of its ampersands starts one of the five character references;
    a text without these five characters is returned as it is. *)
Theorem escapeHtml_leaves_no_markup (text : string) :
  hasMarkup (escapeHtml text) = false
  ∧ ampersandsEscaped (escapeHtml text) = true
  ∧ (hasMarkup text = false → (∀ c, c ∈ list_ascii_of_string text → c ≠ "&"%char) →
     escapeHtml text = text).
Proof.
  split_and!.
  - induction text as [|c text IH]; [done|]. simpl. rewrite hasMarkup_app, IH, orb_false_r.
    destruct (escapeChar_cases c) as [[->|[->|[->|[->| ->]]]]|(-> & Hm & _)]; try done.
    simpl. by rewrite Hm.
  - induction text as [|c text IH]; [done|]. simpl.
    destruct (escapeChar_cases c) as [[->|[->|[->|[->| ->]]]]|(-> & _ & Ha)];
      simpl; rewrite ?IH, ?Ha; done.
  - induction text as [|c text IH]; [done|]. simpl.
    intros [Hc Hrest]%orb_false_iff Hamp.
    rewrite IH; [|done|intros c' Hc'; apply Hamp; by right].
    destruct (escapeChar_cases c) as [Hesc|(-> & _ & _)]; [|done].
    exfalso. unfold escapeChar, isMarkup in *.
    assert (Ascii.eqb c "&" = false) as Hnot.
    { apply Ascii.eqb_neq. apply Hamp. by left. }
    rewrite Hnot in Hesc.
    apply orb_false_iff in Hc as [[[H1 H2]%orb_false_iff H3]%orb_false_iff H4].
    rewrite H1, H2, H3, H4 in Hesc.
    destruct Hesc as [H|[H|[H|[H|H]]]]; inversion H.
Qed.

Lemma tryPorts_ok canListen startPort endPort remaining port :
  remaining = S endPort - port → startPort ≤ port →
  (∀ q, startPort ≤ q < port → canListen q = false) →
  match tryPorts canListen startPort endPort remaining port with
  | inr p =>
      startPort ≤ p ≤ endPort ∧ canListen p = true
      ∧ ∀ q, startPort ≤ q < p → canListen q = false
  | inl (NoAvailablePorts a b) =>
      a = startPort ∧ b = endPort ∧ startPort ≤ endPort
      ∧ ∀ q, startPort ≤ q ≤ endPort → canListen q = false
  | inl FailedToStart => endPort < port
  end.
Proof.
  revert port. induction remaining as [|remaining IH]; intros port Hrem Hle Hbusy.
  { simpl. lia. }
  simpl. destruct (canListen port) eqn:Hport.
  { split_and!; [lia|lia|done|done]. }
  destruct (Nat.eqb_spec port endPort) as [->|Hne].
  { split_and!; [done|done|lia|].
    intros q Hq. destruct (decide (q = endPort)) as [->|]; [done|]. apply Hbusy. lia. }
  specialize (IH (S port)).
  destruct (tryPorts canListen startPort endPort remaining (S port)) as [[a b|]|p].
  - apply IH; [lia|lia|].
    intros q Hq. destruct (decide (q = port)) as [->|]; [done|]. apply Hbusy. lia.
  - assert (endPort < S port); [|lia]. apply IH; [lia|lia|].
    intros q Hq. destruct (decide (q = port)) as [->|]; [done|]. apply Hbusy. lia.
  - apply IH; [lia|lia|].
    intros q Hq. destruct (decide (q = port)) as [->|]; [done|]. apply Hbusy. lia.
Qed.

(** X28. The callback server listens on the lowest port of the range (8080
    to 8090 unless given) on which it can listen; when it can listen on
    none, the error names the range, and an empty range gives the other
    error. *)
Theorem start_takes_the_lowest_free_port canListen optStartPort optEndPort :
  let startPort := orDefault optStartPort defaultStartPort in
  let endPort := orDefault optEndPort defaultEndPort in
  match start canListen optStartPort optEndPort with
  | inr p =>
      startPort ≤ p ≤ endPort ∧ canListen p = true
      ∧ ∀ q, startPort ≤ q < p → canListen q = false
  | inl (NoAvailablePorts a b) =>
      a = startPort ∧ b = endPort ∧ startPort ≤ endPort
      ∧ ∀ q, startPort ≤ q ≤ endPort → canListen q = false
  | inl FailedToStart => endPort < startPort
  end.
Proof.
  intros startPort endPort. unfold start. fold startPort endPort.
  generalize startPort endPort. clear. intros startPort endPort.
  apply tryPorts_ok; [done|done|]. intros q Hq. lia.
Qed.

End OAuthServerLaws.

(** ** The progress tracker *)

Module ProgressTrackerLaws.
Import ProgressTracker ProgressTrackerSpec.

Lemma timeSpent_app a b : timeSpent (a ++ b) = (timeSpent a + timeSpent b)%Z.
Proof. induction a as [|s a IH]; simpl; [lia|]. rewrite IH. lia. Qed.

Lemma alterLast_snoc f front s : alterLast f (front ++ [s]) = front ++ [f s].
Proof.
  unfold alterLast. rewrite length_app. simpl.
  replace (length front + 1 - 1) with (length front + 0) by lia.
  by rewrite alter_app_r.
Qed.

Section Clock.
Variable clock : nat → Z.
Hypothesis clock_mono : ∀ i j, i ≤ j → (clock i ≤ clock j)%Z.

Lemma trackerInv_create n : trackerInv clock (create clock n).
Proof.
  unfold trackerInv, create. simpl. rewrite Nat.sub_0_r.
  split; [lia|]. split; [constructor|]. split; [lia|constructor].
Qed.

Lemma inProgress_hasCurrent t :
  trackerInv clock t → inProgress t = hasCurrent t.
Proof.
  intros (_ & _ & H). unfold inProgress, hasCurrent in *.
  destruct (currentStep t) as [name|]; [|done].
  destruct (negb (bool_decide (name = ""))); [|done].
  destruct H as (front & s & -> & _). rewrite length_app. simpl.
  by destruct (Nat.ltb_spec 0 (length front + 1)); [|lia].
Qed.

Lemma trackerInv_complete t :
  trackerInv clock t →
  trackerInv clock (complete clock t) ∧ hasCurrent (complete clock t) = false.
Proof.
  intros Hinv. unfold complete. rewrite (inProgress_hasCurrent t Hinv).
  destruct (hasCurrent t) eqn:Hcur; [|done].
  destruct Hinv as (Hr & Hpos & Hrest). rewrite Hcur in Hrest.
  destruct Hrest as (front & s & Hsteps & Hdur & Hname & Hfront & Hlast & Hdone).
  simpl. split; [|done]. unfold trackerInv. simpl.
  rewrite Hsteps, alterLast_snoc, Nat.sub_0_r.
  pose proof (clock_mono (readings t - 1) (readings t) ltac:(lia)) as Hm.
  rewrite Hsteps in Hpos. apply Forall_app in Hpos as [Hpos1 _].
  split; [lia|]. split.
  - apply Forall_app. split; [done|]. constructor; [simpl; lia|constructor].
  - split.
    + rewrite timeSpent_app. simpl. lia.
    + apply Forall_app. split; [done|]. constructor; [|constructor].
      intros _. simpl. by eexists.
Qed.

Lemma trackerInv_push name t :
  trackerInv clock t → hasCurrent t = false →
  trackerInv clock
    (mkTracker (steps t ++ [mkStep name (clock (readings t)) None None]) (Some name)
       (trackerStart t) (S (readings t))).
Proof.
  intros (Hr & Hpos & Hrest) Hcur. rewrite Hcur in Hrest. destruct Hrest as [Hsum Hdone].
  pose proof (clock_mono (readings t - 1) (readings t) ltac:(lia)) as Hm.
  unfold trackerInv. simpl. rewrite Nat.sub_0_r.
  split; [lia|]. split.
  { apply Forall_app. split; [done|]. constructor; [simpl; lia|constructor]. }
  unfold hasCurrent. simpl. destruct (decide (name = "")) as [->|Hne].
  - simpl. split.
    + rewrite timeSpent_app. simpl. lia.
    + apply Forall_app. split; [done|]. constructor; [|constructor]. by intros [].
  - rewrite bool_decide_eq_false_2 by done. simpl.
    eexists _, _. split; [done|]. simpl. split_and!; [done|done|lia|lia|done].
Qed.

Lemma trackerInv_start name t :
  trackerInv clock t → trackerInv clock (start clock name t).
Proof.
  intros Hinv. unfold start.
  destruct (hasCurrent t) eqn:Hcur.
  - destruct (trackerInv_complete t Hinv) as [Hinv' Hcur'].
    apply (trackerInv_push name _ Hinv' Hcur').
  - apply (trackerInv_push name _ Hinv Hcur).
Qed.

Lemma trackerInv_update name t :
  trackerInv clock t → trackerInv clock (update clock name t).
Proof.
  intros Hinv. unfold update. rewrite (inProgress_hasCurrent t Hinv).
  destruct (hasCurrent t) eqn:Hcur; [|by apply trackerInv_start].
  destruct Hinv as (Hr & Hpos & Hrest). rewrite Hcur in Hrest.
  destruct Hrest as (front & s & Hsteps & Hdur & Hname & Hfront & Hlast & Hdone).
  unfold trackerInv. simpl. rewrite Hsteps, alterLast_snoc.
  rewrite Hsteps in Hpos. apply Forall_app in Hpos as [Hpos1 Hpos2].
  split; [done|]. split.
  { apply Forall_app. split; [done|]. constructor; [|constructor].
    simpl. by rewrite Hdur. }
  unfold hasCurrent. simpl. destruct (decide (name = "")) as [->|Hne].
  - simpl. split.
    + rewrite timeSpent_app. simpl. rewrite Hdur. simpl.
      assert (0 ≤ timeSpent front)%Z; [|lia].
      clear -Hpos1. induction Hpos1; simpl; lia.
    + apply Forall_app. split; [done|]. constructor; [|constructor]. by intros [].
  - rewrite bool_decide_eq_false_2 by done. simpl.
    eexists _, _. split; [done|]. simpl. split_and!; done.
Qed.

Lemma trackerInv_calls calls : ∀ t,
  trackerInv clock t → trackerInv clock (foldl (call clock) t calls).
Proof.
  induction calls as [|c calls IH]; intros t Hinv; simpl; [done|].
  apply IH. destruct c; simpl.
  - by apply trackerInv_start.
  - by apply trackerInv_update.
  - by apply trackerInv_complete.
Qed.

End Clock.

Lemma reported_lines l : reported (lineOf <$> l) = timeSpent l.
Proof.
  induction l as [|s l IH]; [done|].
  rewrite fmap_cons. unfold reported, timeSpent in *. cbn [foldr].
  rewrite IH. done.
Qed.

(** X29. With a clock that never goes back, after any calls of start, update
    and complete the report of the progress tracker has a line for each
    step, no duration in it is negative, the durations add up to at most the
    total time, and every step with a non-empty name is completed. *)
Theorem report_durations_fit_the_total_time (clock : nat → Z) (n : nat)
    (calls : list Call) :
  (∀ i j, i ≤ j → (clock i ≤ clock j)%Z) →
  let t := foldl (call clock) (create clock n) calls in
  let r := getReport clock t in
  length r.1.1 = length (steps t)
  ∧ Forall (λ l, (0 ≤ line_duration l)%Z) r.1.1
  ∧ (reported r.1.1 ≤ r.1.2)%Z
  ∧ Forall namedIsDone (steps r.2).
Proof.
  intros Hmono. cbv zeta.
  pose proof (trackerInv_calls clock Hmono calls _ (trackerInv_create clock n)) as Hinv.
  set (t := foldl (call clock) (create clock n) calls) in *.
  destruct (trackerInv_complete clock Hmono t Hinv) as [(Hr & Hpos & Hrest) Hcur].
  rewrite Hcur in Hrest. destruct Hrest as [Hsum Hdone].
  pose proof (Hmono (readings (complete clock t) - 1) (readings (complete clock t))
                ltac:(lia)) as Hm.
  unfold getReport. simpl. split_and!.
  - rewrite length_fmap. unfold complete.
    destruct (inProgress t); [|done]. simpl. unfold alterLast. by rewrite length_alter.
  - apply Forall_fmap. eapply Forall_impl; [exact Hpos|]. by intros s Hs.
  - rewrite reported_lines. lia.
  - done.
Qed.

Lemma report_durations_fit_the_total_time_witness :
  (reported (getReport (λ n, Z.of_nat n)
               (foldl (call (λ n, Z.of_nat n)) (create (λ n, Z.of_nat n) 0)
                  [Start "fetch"; Update "fetch page 2"; Start "render"])).1.1
   ≤ (getReport (λ n, Z.of_nat n)
        (foldl (call (λ n, Z.of_nat n)) (create (λ n, Z.of_nat n) 0)
           [Start "fetch"; Update "fetch page 2"; Start "render"])).1.2)%Z.
Proof.
  apply (report_durations_fit_the_total_time (λ n, Z.of_nat n) 0
           [Start "fetch"; Update "fetch page 2"; Start "render"]).
  intros i j Hij. lia.
Defined.

End ProgressTrackerLaws.
